(* ===== verification/_CoqProject ===== *)
-Q . S2P
Prelude.v
Cxx.v
OrdMap.v
Ranges.v
StringUtils.v
HashUtils.v
Buffer.v
FileBuffer.v
Cookie.v
HttpDate.v
Form.v
Parser.v
Except.v
Codec.v
Request.v
Session.v
SessionManager.v
Handlers.v
Program.v
Loader.v
Components.v
Config.v
Xml.v
Security.v
ThreadPool.v
Server.v
Serving.v
Servlet.v
Example.v
FileCache.v
Retry.v
Loggers.v
Daemon.v
WorkThreads.v
Services.v
Monitor.v
Startup.v
Site.v
Statistics.v
PageReader.v
CodeWriter.v
