(* ===== verification/Prelude.v ===== *)
(** * Fastcgi Container

    A model of the container in [src/] (a FastCGI daemon that runs request handlers, servlets
    and compiled server pages) and the theorems about it. This file is the root of the library:
    after this header it holds the bytes, the machine integers, the outcome type and the
    tactics that the other files share.

    ** The program and the files that model it

    A request comes in at an end point ([main/endpoint.cpp]); a thread of [FCGIServer]
    ([main/fcgi_server.cpp]) attaches it ([main/fcgi_request.cpp], [library/request.cpp]),
    which parses the environment, the cookies and the body ([library/parser.cpp]) into fields
    and buffers ([library/data_buffer.cpp] over [string_buffer.cpp] or [file_buffer.cpp]).
    The server selects filters and a handler ([library/handlerset.cpp],
    [request_filter.cpp]) and puts a task into the thread pool of the handler
    ([library/server.cpp], [details/thread_pool.h]). A thread of the pool runs the filters,
    the authenticators among them ([library/security_*.cpp], [authenticator/]), and then the
    handlers ([library/request_thread_pool.cpp]), of which servlets are one kind
    ([library/http_*.cpp]); the response goes out through [Request]. Handlers, filters,
    loggers, caches and the session manager are components that the configuration names
    ([library/config.cpp], [loader.cpp], [componentset.cpp]). The page compiler
    ([page-compiler/]) is a program of its own that turns server pages into servlets.

    - Bytes and the C++ library: [Prelude] (bytes, [u64], [u32], [s32], [result]), [Cxx]
      (searching, comparing, [stoi], [std::to_string]), [OrdMap] ([std::map] and [std::set]
      as sorted association lists under a strict weak order).
    - [Ranges] is [fastcgi3/range.h]; [StringUtils], [HashUtils] and [Cookie] are the parts of
      [library/util.cpp] and [cookie.cpp]: percent encoding, query strings, XML escaping,
      paths, base64, MD5 texts, HTTP dates, cookies; [HttpDate] reads the three forms of dates.
    - [Buffer] is [DataBuffer] with the class [DataBufferImpl] for what is behind it, and
      [StringBuffer]; [FileBuffer] is [MMapFile] and [FileBuffer], the second implementation.
      Buffers live in a store, since copies of a [DataBuffer] share one implementation.
    - [Except] is the exceptions with a status and the texts of all of them.
    - [Form], [Parser], [Codec] and [Request] are the request: bodies and header lines read
      into [Parsed], the serialized form of a request, the accessors, [attach], and the
      response with its phases ([Request.Response]) over the class [IOStream].
    - [Session] and [SessionManager]: attributes and listeners, sessions, and the table of
      shared pointers whose deleter removes entries, with the pointers outside it counted.
    - [Handlers]: selection by address, host, port, address and referer, and the construction of
      the [HandlerSet] from the configuration. [Config]: variables, integers, arguments;
      [Xml]: the documents of libxml2 that values come from.
      [Loader]: libraries and factories. [Components]: construction, loading and unloading of
      components.
    - [Program] is the monad of everything that changes state, throws and calls other
      components; [Security] is subjects, realms, constraints and the authenticators over the
      state [World] of a request that is handled.
    - [ThreadPool] is the pool as a transition system; [Server] the tasks: dispatch,
      [handleTask] and its [catch] blocks; [Serving] the two together, a thread of a pool running
      [handleTask] on the state of the server; [Servlet] what servlets and pages see;
      [FileCache] the request cache, with [Retry] on top of it and of [Codec]; [Loggers] the
      loggers; [Daemon] the end points, the pools of the configuration, the start and the stop of
      the server and the monitor's report; [WorkThreads] the server's threads that accept
      requests; [Monitor] the monitor's thread; [Services] the session manager as a component,
      with its thread; [Startup] the constructor and the destructor of [Globals] and [main] from
      its arguments to the end, with the signals and the order in which components are loaded and
      unloaded and libraries closed; [Statistics] the response times.
    - [Site] puts [Startup], [Server] and [Serving] together: from the arguments of the program to
      the answers of the requests.
    - [PageReader] and [CodeWriter] are the page compiler; [Example] is the components of
      [example/], a use of all of the above.

    Names follow the sources: a member [f] of the class [C] is [C.f] in the Module [C]; a field
    of a record has the name of the member variable. Overloads that Rocq must tell apart have
    a suffix ([_char], [_default], [_uri]).

    ** State, errors, integers

    A pure member is a function; one that throws gives a [result] ([Ok], [Throw] with the
    exception, [Undef] for undefined behaviour, which no theorem counts as success). Members
    that change a request and may throw give the request they leave too; whole components are
    [prog]s. Bytes are [Byte.byte]; [std::uint64_t], [unsigned] and [int] are [Z] with [u64],
    [u32] and [s32] where they wrap. Threads are modelled where the order of their steps
    matters ([ThreadPool], [WorkThreads], [Services], [Loggers]): an execution is a list of
    events, each a critical section, and spurious wake-ups are among them.

    Parameters stand for what is not under [src/]: the system's calls ([mmap], [open], [mkdir],
    [write], the FastCGI library), regular expressions ([Regex]), documents and XPath
    ([Libxml]), [std::hash] ([Subject.Hash]), MD5, UUIDs and clocks (arguments), [boost]-like [any] ([Any]). What the
    code relies on are the laws of their classes ([AnyOk], [IOStreamOk], [SessionValueOk],
    [DataBufferImplOk]), each with an instance in the development.

    ** Theorems

    - Input: [parseMultipart_safe] (bodies kept in memory) and [parse_any_bytes]: any bytes at all
      are read without undefined behaviour, and reading ends; [multipart_roundtrip],
      [cookie_roundtrip], [http_date_roundtrip] (exact up to the difference between the zone's
      offset at the time and the one that [timezone] holds), [attach_entity], [serialize_restore], [retry_restored] (what the cache
      dispatches again is what was saved), and the lemma [parse_env_lookup].
    - Buffers: the lemmas [split_denotes], [trimn_denotes], [write_read], [comparisons_denote]
      against views as lists of bytes; [file_string_agree]: a file buffer behaves as the string buffer.
    - Output: [response_refines]: a sequence of calls writes the response that an abstract
      machine of phases describes, every branch with its error.
    - Sessions: [reachable_good] (the table, the sessions and the pointers to them fit together
      after any operations, one after the other), [session_continuity], [create_session_fresh],
      and the lemmas [change_session_id], [timeout_round], [crawlers_share_session].
    - Security: [gatekeeper] (what gets past the filter, for the form authenticator too, which
      decides by itself which requests are free), [set_principals], [login_remembered] (with the
      identifier of the session changed or not), [basic_credentials], [form_login_resumes] (by
      address or with the whole request).
    - Handling: [handler_lookup] (in the order of the table, which is not that of the file),
      [pool_invariant], [pool_progress] (every
      accepted task is finished, whatever the schedule), [dispatch_outcome],
      [task_answered], [requests_served] (every request that a pool has accepted is answered,
      whatever the schedule), [servlet_dispatch], and the lemma [init_order].
    - The whole: [site_answers] (once [main] waits in [server.join], requests that are dispatched
      are answered, whatever the schedule of the threads).
    - Life: [main_serves] (the program ends up serving what its configuration says, or leaves
      nothing open), [signal_shutdown] (components are unloaded before libraries are closed, and
      then the program is terminated where a thread pool has threads), [components_load],
      [configuration_values] (what a file of the configuration means), [daemon_lifecycle],
      [busy_counters], [stop_ends] (after a stop the threads that accept requests end, whatever
      their schedule),
      [session_manager_stops], [monitor_connections] (a stop before the start is undefined),
      [unique_keys], [retries_bounded] (a request is dispatched again at most so many times),
      [log_written], and the lemmas [libraries_loaded], [syslog_entries], [statistics_summary].
    - Pages: [page_compiled] (against a translation written line by line, without the reader's
      states), [page_text].

    Theorems state what the code does. Where that is not what it means to do they say so:
    [trimn_denotes], [parseMultipart_safe], [http_date_roundtrip], [basic_credentials],
    [task_answered], [signal_shutdown], [monitor_connections], [syslog_entries], [page_text] and
    the lemmas [trim_diverges],
    [collision_destroys_session], [self_reference_diverges], [notification_lost],
    [join_misses_thread], [wildcard_paths].

    ** Fuel

    Loops whose recursion is not structural take fuel: the length of what is left to read
    ([Parser], [Codec], [Form], [PageReader]), the bytes to copy ([FileBuffer]), the number of
    the table's entries ([SessionManager.release_fuel]) or of components
    ([ComponentSet.sendOnLoad]). Running out is [Undef] or [None], and the theorems that exclude
    those show that the fuel given is enough. [XmlConfig.resolveVariables] takes its fuel as
    an argument since the loop may not end; the lemma [resolve_terminates] has the number of
    dollar signs as a bound. Includes of pages nest as deep as the argument [depth] allows.

    ** Not modelled

    Parsing XML and evaluating XPath (libxml2) and the deleters of its objects, the macros of the factories,
    the creation of threads as such, what the parent of a daemon prints, [logging/] (log4cxx,
    not built); locales other than C; allocation failures. The calls of the system
    in [main] and the loader are arguments, so their effects outside the process are not seen.
    Mutexes that make one operation one step are left out. The deleter of a session takes no
    mutex although it changes the table of the sessions: in the code it can race with another
    thread that uses the table, while in [SessionManager.step] it is a step of its own between
    the others. Bytes that a mapping shows beyond the
    end of its file have no value. *)

From Stdlib Require Export ZArith Lia Bool.
From Stdlib Require Strings.Byte Strings.String.
Export Byte.ByteSyntaxNotations.
Delimit Scope byte_scope with byte.
From stdpp Require Export base list gmap strings pretty.

(** ** Bytes and characters

    A C++ [char] is a [Byte.byte]; a [std::string], a [Range] or the contents of
    a buffer is a [list byte]. *)

Abbreviation byte := Byte.byte.
Abbreviation bytes := (list Byte.byte).

Declare Scope cxx_scope.
Delimit Scope cxx_scope with cxx.
Open Scope Z_scope.

Create HintDb fcgi.

(** The bytes of a string literal of the source. *)
Definition lit (s : string) : bytes := String.list_byte_of_string s.

(** The unsigned value of a byte and the byte of an integer (its low 8 bits). *)
Definition b2z (b : byte) : Z := Z.of_N (Byte.to_N b).

Definition z2b (z : Z) : byte :=
  match Byte.of_N (Z.to_N (z mod 256)) with
  | Some b => b
  | None => Byte.x00
  end.

(** The value of a [char] where the code converts it to [int]: signed. *)
Definition schar (b : byte) : Z :=
  if b2z b <? 128 then b2z b else b2z b - 256.

#[export] Instance byte_eq_dec : EqDecision byte := Byte.byte_eq_dec.

#[export] Program Instance byte_countable : Countable byte :=
  inj_countable Byte.to_N Byte.of_N _.
Next Obligation. intros b. apply Byte.of_to_N. Qed.

Definition beqb (a b : byte) : bool := bool_decide (a = b).

(** ** Machine integers *)

Definition u64 (z : Z) : Z := z mod 2 ^ 64.
Definition u32 (z : Z) : Z := z mod 2 ^ 32.
Definition u16 (z : Z) : Z := z mod 2 ^ 16.

(** The value of a wrapped 32-bit signed conversion. *)
Definition s32 (z : Z) : Z := (z + 2 ^ 31) mod 2 ^ 32 - 2 ^ 31.

(** ** Character classes of [<cctype>] in the C locale *)

Definition isspace (b : byte) : bool :=
  let c := b2z b in ((9 <=? c) && (c <=? 13)) || (c =? 32).

Definition isdigit (b : byte) : bool :=
  let c := b2z b in (48 <=? c) && (c <=? 57).

Definition isupper (b : byte) : bool :=
  let c := b2z b in (65 <=? c) && (c <=? 90).

Definition islower (b : byte) : bool :=
  let c := b2z b in (97 <=? c) && (c <=? 122).

Definition isalnum (b : byte) : bool := isdigit b || isupper b || islower b.

Definition tolower (b : byte) : byte := if isupper b then z2b (b2z b + 32) else b.
Definition toupper (b : byte) : byte := if islower b then z2b (b2z b - 32) else b.

(** ** Exceptions and results *)

(** Exceptions the code throws or lets through, with the text of [what()]. A
    [DispatchException] carries its kind, its url and the raw fields of its
    [DataBuffer] (shared pointer, begin, end). *)
Inductive dispatch_type := APPEND | FORWARD.

Inductive exn :=
| OutOfRange (what : bytes)
| RuntimeError (what : bytes)
| LogicError (what : bytes)
| InvalidArgument (what : bytes)
| LengthError (what : bytes)
| HttpException (status : Z)
| DispatchException (type : dispatch_type) (url : bytes)
    (data : option nat) (begin_ end_ : Z)
| SystemError (code : Z)
| StringThrown (what : bytes).

(** A string thrown is not an [std::exception]. *)
Definition is_std (e : exn) : bool := match e with StringThrown _ => false | _ => true end.

(** The outcome of a C++ call: a value, an exception, or undefined behaviour
    (an access outside an object, which the model never gives a value). *)
Inductive result (A : Type) :=
| Ok (a : A)
| Throw (e : exn)
| Undef.
Arguments Ok {A} _.
Arguments Throw {A} _.
Arguments Undef {A}.

#[export] Instance result_ret : MRet result := fun A a => Ok a.
#[export] Instance result_bind : MBind result := fun A B f r =>
  match r with
  | Ok a => f a
  | Throw e => Throw e
  | Undef => Undef
  end.
#[export] Instance result_fmap : FMap result := fun A B f r =>
  match r with
  | Ok a => Ok (f a)
  | Throw e => Throw e
  | Undef => Undef
  end.

(** [safe r P]: the call [r] stays defined; it returns a value that satisfies [P], or
    throws. *)
Definition safe {A} (r : result A) (P : A -> Prop) : Prop :=
  match r with
  | Ok a => P a
  | Throw _ => True
  | Undef => False
  end.

Lemma safe_bind {A B} (r : result A) (f : A -> result B) (Q : B -> Prop) :
  safe r (fun a => safe (f a) Q) -> safe (r ≫= f) Q.
Proof. by destruct r. Qed.

Lemma safe_mono {A} (r : result A) (P Q : A -> Prop) :
  safe r P -> (forall a, P a -> Q a) -> safe r Q.
Proof. destruct r; simpl; auto. Qed.

Lemma safe_ok {A} (r : result A) (a : A) (P : A -> Prop) : r = Ok a -> P a -> safe r P.
Proof. by intros ->. Qed.

(** ** Lemmas on bytes and machine integers *)

Lemma b2z_range b : 0 <= b2z b < 256.
Proof. unfold b2z. pose proof (Byte.to_N_bounded b). lia. Qed.

Lemma z2b_b2z b : z2b (b2z b) = b.
Proof.
  unfold z2b, b2z. pose proof (Byte.to_N_bounded b).
  rewrite Z.mod_small by lia. rewrite N2Z.id, Byte.of_to_N. done.
Qed.

Lemma b2z_z2b z : b2z (z2b z) = z mod 256.
Proof.
  unfold z2b, b2z. pose proof (Z.mod_pos_bound z 256 ltac:(lia)).
  destruct (Byte.of_N (Z.to_N (z mod 256))) eqn:E.
  - apply Byte.to_of_N in E. rewrite E. lia.
  - apply Byte.of_N_None_iff in E. lia.
Qed.

Lemma b2z_inj a b : b2z a = b2z b -> a = b.
Proof. intros H. rewrite <- (z2b_b2z a), H. apply z2b_b2z. Qed.

Lemma z2b_small_eq b z : b2z b = z mod 256 -> z2b z = b.
Proof. intros H. apply b2z_inj. by rewrite b2z_z2b. Qed.

Lemma beqb_true a b : beqb a b = true <-> a = b.
Proof. apply bool_decide_eq_true. Qed.

Lemma beqb_false a b : beqb a b = false <-> a <> b.
Proof. apply bool_decide_eq_false. Qed.

Lemma beqb_refl a : beqb a a = true.
Proof. by apply beqb_true. Qed.

Lemma u64_small z : 0 <= z < 2 ^ 64 -> u64 z = z.
Proof. apply Z.mod_small. Qed.

Lemma u64_range z : 0 <= u64 z < 2 ^ 64.
Proof. apply Z.mod_pos_bound. lia. Qed.

(** A statement about one byte, decided by evaluating it on all 256 of them. *)
Definition all_bytes : list byte :=
  map (fun n => z2b (Z.of_nat n)) (seq 0 256).

Lemma elem_of_all_bytes b : b ∈ all_bytes.
Proof.
  unfold all_bytes. apply list_elem_of_fmap. exists (Z.to_nat (b2z b)).
  pose proof (b2z_range b). split.
  - rewrite Z2Nat.id by lia. by rewrite z2b_b2z.
  - apply elem_of_seq. lia.
Qed.

Lemma byte_forall (P : byte -> bool) : forallb P all_bytes = true -> forall b, P b = true.
Proof.
  intros H b. rewrite forallb_forall in H. apply H.
  apply list_elem_of_In, elem_of_all_bytes.
Qed.

(** [by_bytes b] proves a boolean equation about the byte [b] by computation. *)
Ltac by_bytes b :=
  match goal with
  | |- ?lhs = true =>
      let P := eval pattern b in lhs in
      match P with ?F _ => exact (byte_forall F eq_refl b) end
  end.

(** [case_res] splits the leftmost match on a result, option or boolean test of the goal. *)
Ltac case_res :=
  match goal with
  | |- context [match ?x with Ok _ => _ | Throw _ => _ | Undef => _ end] => destruct x eqn:?
  end.

(** [res_inv] inverts hypotheses that equate monadic computations to a result. *)
Ltac res_inv :=
  repeat match goal with
  | H : mbind _ ?r = Ok _ |- _ =>
      let E := fresh "E" in destruct r eqn:E; simpl in H; [|discriminate H|discriminate H]
  | H : Ok _ = Ok _ |- _ => injection H as H; try subst
  | H : Throw _ = Ok _ |- _ => discriminate H
  | H : Undef = Ok _ |- _ => discriminate H
  | H : mret _ = _ |- _ => unfold mret, result_ret in H
  end.

(** ** Lists of bytes *)

(** [slice l b e]: the elements of positions [b, e). *)
Definition slice {A} (l : list A) (b e : Z) : list A :=
  take (Z.to_nat (e - b)) (drop (Z.to_nat b) l).

(** [overwrite l pos d]: [memcpy] of [d] over the positions from [pos]. *)
Definition overwrite {A} (l : list A) (pos : Z) (d : list A) : list A :=
  take (Z.to_nat pos) l ++ d ++ drop (Z.to_nat pos + length d) l.

Definition len {A} (l : list A) : Z := Z.of_nat (length l).

Lemma len_nonneg {A} (l : list A) : 0 <= len l.
Proof. unfold len. lia. Qed.

Lemma len_app {A} (l k : list A) : len (l ++ k) = len l + len k.
Proof. unfold len. rewrite length_app. lia. Qed.

Lemma len_nil {A} : len (@nil A) = 0.
Proof. done. Qed.

Lemma len_cons {A} (a : A) l : len (a :: l) = 1 + len l.
Proof. unfold len. simpl. lia. Qed.

Lemma len_0_iff {A} (l : list A) : len l = 0 <-> l = [].
Proof. unfold len. destruct l; simpl; split; intros; try done; lia. Qed.

Lemma slice_len {A} (l : list A) b e :
  0 <= b -> b <= e -> e <= len l -> len (slice l b e) = e - b.
Proof. unfold slice, len. intros. rewrite length_take, length_drop. lia. Qed.

Lemma slice_full {A} (l : list A) : slice l 0 (len l) = l.
Proof. unfold slice, len. rewrite drop_0. apply take_ge. lia. Qed.

Lemma slice_empty {A} (l : list A) b e : e <= b -> slice l b e = [].
Proof. unfold slice. intros. replace (Z.to_nat (e - b)) with 0%nat by lia. apply take_0. Qed.

Lemma slice_split {A} (l : list A) b m e :
  0 <= b -> b <= m -> m <= e -> slice l b e = slice l b m ++ slice l m e.
Proof.
  unfold slice. intros. replace (Z.to_nat (e - b)) with (Z.to_nat (m - b) + Z.to_nat (e - m))%nat by lia.
  rewrite <- take_take_drop. f_equal. rewrite drop_drop. do 2 f_equal. lia.
Qed.

Lemma slice_drop {A} (l : list A) b m e : 0 <= b <= m -> drop (Z.to_nat (m - b)) (slice l b e) = slice l m e.
Proof. intros H. unfold slice. rewrite skipn_firstn_comm, drop_drop. f_equal; [lia|f_equal; lia]. Qed.

Lemma slice_app_l {A} (l k : list A) b e :
  0 <= b -> e <= len l -> slice (l ++ k) b e = slice l b e.
Proof.
  unfold slice, len. intros. destruct (decide (Z.to_nat b <= length l)%nat).
  - rewrite drop_app_le by lia. rewrite take_app_le; [done|]. rewrite length_drop. lia.
  - replace (Z.to_nat (e - b)) with 0%nat by lia. by rewrite !take_0.
Qed.

Lemma slice_app_r {A} (l k : list A) b e :
  len l <= b -> slice (l ++ k) b e = slice k (b - len l) (e - len l).
Proof.
  unfold slice, len. intros. rewrite drop_app_ge by lia. f_equal; [lia|f_equal; lia].
Qed.

Lemma slice_slice {A} (l : list A) b e b' e' :
  0 <= b -> 0 <= b' -> b + e' <= e -> slice (slice l b e) b' e' = slice l (b + b') (b + e').
Proof.
  unfold slice. intros. rewrite skipn_firstn_comm, take_take, drop_drop. f_equal; [lia|f_equal; lia].
Qed.

Lemma overwrite_len {A} (l : list A) pos d :
  0 <= pos -> pos + len d <= len l -> len (overwrite l pos d) = len l.
Proof.
  unfold overwrite, len. intros. rewrite !length_app, length_take, length_drop. lia.
Qed.

Lemma overwrite_lookup {A} (l : list A) pos d k :
  0 <= pos -> pos + len d <= len l ->
  overwrite l pos d !! k =
  if decide (Z.to_nat pos <= k < Z.to_nat pos + length d)%nat
  then d !! (k - Z.to_nat pos)%nat else l !! k.
Proof.
  unfold overwrite, len. intros. assert (length (take (Z.to_nat pos) l) = Z.to_nat pos)
    by (rewrite length_take; lia).
  case_decide.
  - rewrite lookup_app_r by lia. rewrite lookup_app_l by lia. f_equal. lia.
  - destruct (decide (k < Z.to_nat pos)%nat).
    + rewrite lookup_app_l by lia. by rewrite lookup_take_lt by lia.
    + rewrite !lookup_app_r by lia. rewrite lookup_drop. f_equal. lia.
Qed.

Lemma slice_lookup {A} (l : list A) b e k :
  0 <= b -> slice l b e !! k = if decide (Z.of_nat k < e - b) then l !! (Z.to_nat b + k)%nat else None.
Proof.
  unfold slice. intros. case_decide.
  - rewrite lookup_take_lt by lia. by rewrite lookup_drop.
  - by rewrite lookup_take_ge by lia.
Qed.

(** A write inside a window of the list is a write to the window, *)
Lemma slice_overwrite_in {A} (l : list A) pos d b e :
  0 <= b -> b <= pos -> pos + len d <= e -> e <= len l ->
  slice (overwrite l pos d) b e = overwrite (slice l b e) (pos - b) d.
Proof.
  intros. pose proof (len_nonneg d).
  apply list_eq. intros k. rewrite overwrite_lookup; [|lia|rewrite slice_len; lia].
  rewrite !slice_lookup, overwrite_lookup by lia. unfold len in *.
  repeat case_decide; try lia; try done. f_equal. lia.
Qed.

(** and a write outside it does not change it. *)
Lemma slice_overwrite_out {A} (l : list A) pos d b e :
  0 <= b -> 0 <= pos -> pos + len d <= len l -> (pos + len d <= b \/ e <= pos) ->
  slice (overwrite l pos d) b e = slice l b e.
Proof.
  intros. pose proof (len_nonneg d).
  apply list_eq. intros k. rewrite !slice_lookup, overwrite_lookup by lia. unfold len in *.
  repeat case_decide; try lia; done.
Qed.

(** The middle of a concatenation. *)
Lemma slice_mid {A} (a x b : list A) : slice (a ++ x ++ b) (len a) (len a + len x) = x.
Proof.
  unfold slice, len. replace (Z.to_nat (Z.of_nat (length a))) with (length a) by lia.
  rewrite drop_app_length.
  replace (Z.to_nat _) with (length x) by lia. apply take_app_length.
Qed.

Lemma overwrite_app_mid {A} (a r d : list A) :
  len d <= len r -> overwrite (a ++ r) (len a) d = a ++ d ++ drop (length d) r.
Proof.
  unfold overwrite, len. intros. replace (Z.to_nat (Z.of_nat (length a))) with (length a) by lia.
  rewrite take_app_length. do 2 f_equal. rewrite drop_app_ge by lia. f_equal. lia.
Qed.

(** ** Sums over lists *)

Lemma sum_list_insert {A} (f : A -> nat) (l : list A) i x y :
  l !! i = Some x -> (sum_list_with f (<[i := y]> l) + f x = sum_list_with f l + f y)%nat.
Proof.
  revert i. induction l as [|z l IH]; intros [|i] H; [done..| |].
  - injection H as ->. cbn. lia.
  - specialize (IH i H). change (<[S i := y]> (z :: l)) with (z :: <[i := y]> l). cbn [sum_list_with]. lia.
Qed.

Lemma sum_list_bound {A} (f g : A -> nat) (l : list A) :
  (forall x, x ∈ l -> (f x <= g x)%nat) -> (sum_list_with f l <= sum_list_with g l)%nat.
Proof.
  induction l as [|x l IH]; intros H; cbn; [done|]. pose proof (H x ltac:(by left)).
  enough (sum_list_with f l <= sum_list_with g l)%nat by lia. apply IH. intros y Hy. apply H. by right.
Qed.

Lemma sum_list_zero {A} (f : A -> nat) (l : list A) :
  (forall x, x ∈ l -> f x = 0%nat) -> sum_list_with f l = 0%nat.
Proof.
  induction l as [|x l IH]; intros H; cbn; [done|]. rewrite (H x) by (by left). apply IH. intros y Hy. apply H. by right.
Qed.
