(* ===== verification/Cxx.v ===== *)
(** * Cxx

    The parts of the C++ standard library the sources use: [std::search],
    [std::equal], [std::lexicographical_compare], [std::map] (a sorted association
    list under a strict weak order, with the members the code calls), [std::stoi],
    [std::to_string] and the string members [find_first_not_of] and
    [find_last_not_of]. *)

From S2P Require Import Prelude.

(** ** Searching *)

(** [std::equal] of a prefix. *)
Fixpoint starts_with (p s : bytes) : bool :=
  match p, s with
  | [], _ => true
  | a :: p', b :: s' => beqb a b && starts_with p' s'
  | _ :: _, [] => false
  end.

(** The same up to [tolower]: [strncasecmp] of the length of [p]. *)
Fixpoint starts_with_ci (p s : bytes) : bool :=
  match p, s with
  | [], _ => true
  | a :: p', b :: s' => beqb (tolower a) (tolower b) && starts_with_ci p' s'
  | _ :: _, [] => false
  end.

Definition ends_with (p s : bytes) : bool := starts_with (rev p) (rev s).

(** [std::search]: the offset of the first occurrence of [sub], the length of [s] if none. *)
Fixpoint search (s sub : bytes) : nat :=
  if starts_with sub s then O
  else match s with
       | [] => O
       | _ :: s' => S (search s' sub)
       end.

(** [std::find] of one character. *)
Fixpoint find_char (s : bytes) (c : byte) : nat :=
  match s with
  | [] => O
  | a :: s' => if beqb a c then O else S (find_char s' c)
  end.

(** The longest prefix whose characters satisfy [f], and the rest. *)
Fixpoint take_while (f : byte -> bool) (s : bytes) : bytes :=
  match s with
  | [] => []
  | a :: s' => if f a then a :: take_while f s' else []
  end.

Fixpoint drop_while (f : byte -> bool) (s : bytes) : bytes :=
  match s with
  | [] => []
  | a :: s' => if f a then drop_while f s' else s
  end.

Definition drop_while_end (f : byte -> bool) (s : bytes) : bytes :=
  rev (drop_while f (rev s)).

Definition mem (c : byte) (s : bytes) : bool := existsb (beqb c) s.

(** The characters before the first NUL: the string a [c_str()] pointer denotes. *)
Definition c_str (s : bytes) : bytes := take_while (fun b => negb (beqb b Byte.x00)) s.

(** ** Strings *)

Definition str_eqb (a b : bytes) : bool := bool_decide (a = b).

Definition tolower_str (s : bytes) : bytes := map tolower s.

(** [strcasecmp(a, b) == 0] on NUL-free arguments. *)
Definition strcaseeq (a b : bytes) : bool := str_eqb (tolower_str a) (tolower_str b).

Definition to_string (z : Z) : bytes := lit (pretty z).

(** [std::stoi] in base 10: leading white space, a sign, then at least one digit. *)
Fixpoint digits_value (acc : Z) (s : bytes) : Z :=
  match s with
  | [] => acc
  | c :: s' => digits_value (10 * acc + (b2z c - 48)) s'
  end.

Definition stoi (s : bytes) : result Z :=
  let s1 := drop_while isspace s in
  let '(neg, s2) :=
    match s1 with
    | c :: r => if beqb c "-"%byte then (true, r)
                else if beqb c "+"%byte then (false, r) else (false, s1)
    | [] => (false, s1)
    end in
  let d := take_while isdigit s2 in
  match d with
  | [] => Throw (InvalidArgument (lit "stoi"))
  | _ =>
      let v := if neg : bool then - digits_value 0 d else digits_value 0 d in
      if (v <? - 2 ^ 31) || (2 ^ 31 <=? v) then Throw (OutOfRange (lit "stoi")) else Ok v
  end.

(** ** Lemmas on searching *)

(** [std::stoi] gives an [int] or throws. *)
Lemma stoi_range s v : stoi s = Ok v -> - 2 ^ 31 <= v < 2 ^ 31.
Proof.
  unfold stoi. destruct (match drop_while isspace s with [] => _ | _ => _ end) as [neg s2].
  destruct (take_while isdigit s2); [done|].
  set (w := if neg then _ else _). destruct (Z.ltb_spec w (- 2 ^ 31)), (Z.leb_spec (2 ^ 31) w);
    cbn [orb]; try done. intros [= <-]. lia.
Qed.

(** A non-negative number is printed with at most one digit more than its value. *)
Lemma pretty_go_length x s : (String.length (pretty_N_go x s) <= String.length s + N.to_nat x)%nat.
Proof.
  revert s. induction (N.lt_wf_0 x) as [x _ IH]; intros s.
  assert (x = 0 \/ 0 < x)%N as [->|Hx] by lia; [rewrite pretty_N_go_0; lia|].
  rewrite pretty_N_go_step by done.
  assert (x `div` 10 < x)%N by (apply N.div_lt; lia).
  specialize (IH (x `div` 10)%N ltac:(done) (String (pretty_N_char (x `mod` 10)) s)).
  simpl in IH. lia.
Qed.

Lemma lit_length s : length (lit s) = String.length s.
Proof. unfold lit. induction s; simpl; [done|]. by f_equal. Qed.

Lemma to_string_len z : 0 <= z -> len (to_string z) <= z + 1.
Proof.
  intros Hz. unfold to_string, len. rewrite lit_length.
  destruct z as [|p|p]; [done| |lia]. change (pretty (Z.pos p)) with (pretty_N_go (N.pos p) "").
  pose proof (pretty_go_length (N.pos p) ""). simpl in *. lia.
Qed.

Lemma starts_with_spec p s : starts_with p s = true <-> exists r, s = p ++ r.
Proof.
  revert s. induction p as [|a p IH]; intros s; simpl.
  - split; eauto.
  - destruct s as [|b s]; [split; [done|intros [r ?]; done]|].
    rewrite andb_true_iff, beqb_true, IH. split.
    + intros [-> [r ->]]. by exists r.
    + intros [r [= -> ->]]. split; eauto.
Qed.

Lemma starts_with_app p s : starts_with p (p ++ s) = true.
Proof. apply starts_with_spec. eauto. Qed.

Lemma starts_with_length p s : starts_with p s = true -> (length p <= length s)%nat.
Proof. intros [r ->]%starts_with_spec. rewrite length_app. lia. Qed.

Lemma ends_with_spec p s : ends_with p s = true <-> exists r, s = r ++ p.
Proof.
  unfold ends_with. rewrite starts_with_spec. split.
  - intros [r H]. exists (rev r). apply (f_equal (@rev _)) in H.
    by rewrite rev_involutive, rev_app_distr, rev_involutive in H.
  - intros [r ->]. exists (rev r). by rewrite rev_app_distr.
Qed.

Lemma search_le s sub : (search s sub <= length s)%nat.
Proof.
  induction s as [|a s IH]; simpl; destruct (starts_with sub _); simpl; lia.
Qed.

(** An occurrence is found where it is, and no earlier one exists. *)
Lemma search_found s sub :
  starts_with sub (drop (search s sub) s) = true \/
  (search s sub = length s /\ forall k, starts_with sub (drop k s) = false).
Proof.
  induction s as [|a s IH]; simpl.
  - destruct (starts_with sub []) eqn:E; [by left|]. right. split; [done|].
    intros k. by rewrite drop_nil.
  - destruct (starts_with sub (a :: s)) eqn:E; simpl; [by left|].
    destruct IH as [IH|[IH1 IH2]]; [by left|]. right. split; [by rewrite IH1|].
    intros [|k]; simpl; auto.
Qed.

Lemma search_minimal s sub k :
  (k < search s sub)%nat -> starts_with sub (drop k s) = false.
Proof.
  revert k. induction s as [|a s IH]; intros k; simpl.
  - destruct (starts_with sub []); lia.
  - destruct (starts_with sub (a :: s)) eqn:E; [lia|]. intros Hk.
    destruct k as [|k]; simpl; [done|]. apply IH. lia.
Qed.

(** The offset [search] returns is characterised by these two cases. *)
Lemma search_unique s sub k :
  (k <= length s)%nat ->
  starts_with sub (drop k s) = true \/
    (k = length s /\ starts_with sub (drop k s) = false) ->
  (forall j, (j < k)%nat -> starts_with sub (drop j s) = false) ->
  search s sub = k.
Proof.
  revert k. induction s as [|a s IH]; intros k Hk Hf Hm; simpl in *.
  - replace k with O by lia. by destruct (starts_with sub []).
  - destruct (starts_with sub (a :: s)) eqn:E.
    + destruct k as [|k]; [done|]. specialize (Hm O ltac:(lia)). simpl in Hm. congruence.
    + destruct k as [|k]; [destruct Hf as [Hf|[? _]]; simpl in *; congruence|].
      f_equal. apply IH; [lia| |].
      * destruct Hf as [Hf|[Hl Hf]]; [by left|right; simpl in *; split; [lia|done]].
      * intros j Hj. apply (Hm (S j)). lia.
Qed.

Lemma starts_with_take sub s n :
  starts_with sub (take n s) = true -> starts_with sub s = true.
Proof.
  rewrite !starts_with_spec. intros [r Hr]. exists (r ++ drop n s).
  by rewrite app_assoc, <- Hr, take_drop.
Qed.

Lemma starts_with_take_false sub s n :
  (length sub <= n)%nat -> starts_with sub (take n s) = false -> starts_with sub s = false.
Proof.
  intros Hn. destruct (starts_with sub s) eqn:E; [|done].
  apply starts_with_spec in E as [r ->]. rewrite take_app_ge by done.
  by rewrite starts_with_app.
Qed.

(** An occurrence inside a window is the occurrence in the whole; *)
Lemma search_window_found s sub L :
  search (take L s) sub <> length (take L s) -> search s sub = search (take L s) sub.
Proof.
  intros Hne. pose proof (search_le (take L s) sub) as Hle.
  destruct (search_found (take L s) sub) as [Hf|[Hf _]]; [|done].
  pose proof (starts_with_length _ _ Hf) as Hl. rewrite length_drop in Hl.
  apply search_unique.
  - rewrite length_take in *. lia.
  - left. rewrite skipn_firstn_comm in Hf. by eapply starts_with_take.
  - intros j Hj. pose proof (search_minimal _ _ _ Hj) as Hm.
    rewrite skipn_firstn_comm in Hm. eapply starts_with_take_false; [|exact Hm].
    rewrite length_take in *. lia.
Qed.

(** none inside it leaves the search to what follows its last possible start. *)
Lemma search_window_none s sub L :
  (length sub <= L)%nat -> (L <= length s)%nat ->
  search (take L s) sub = length (take L s) ->
  search s sub = (L - length sub + search (drop (L - length sub) s) sub)%nat.
Proof.
  intros Hs HL Hn. rewrite length_take, Nat.min_l in Hn by done.
  pose proof (search_le (drop (L - length sub) s) sub) as Hle. rewrite length_drop in Hle.
  apply search_unique.
  - lia.
  - rewrite <- drop_drop.
    destruct (search_found (drop (L - length sub) s) sub) as [Hf|[Hf1 Hf2]]; [by left|].
    right. rewrite Hf2, Hf1, length_drop. split; [lia|done].
  - intros j Hj. destruct (decide (j < L - length sub)%nat) as [Hj'|Hj'].
    + pose proof (search_minimal (take L s) sub j ltac:(lia)) as Hm.
      rewrite skipn_firstn_comm in Hm. eapply starts_with_take_false; [|exact Hm]. lia.
    + replace j with (L - length sub + (j - (L - length sub)))%nat by lia.
      rewrite <- drop_drop. apply search_minimal. lia.
Qed.

Lemma search_char s c : search s [c] = find_char s c.
Proof.
  induction s as [|a s IH]; simpl; [done|].
  rewrite andb_true_r, IH. destruct (decide (c = a)) as [->|Hn].
  - by rewrite !beqb_refl.
  - by rewrite (proj2 (beqb_false c a) Hn), (proj2 (beqb_false a c) (not_eq_sym Hn)).
Qed.

Lemma find_char_le s c : (find_char s c <= length s)%nat.
Proof. rewrite <- search_char. apply search_le. Qed.

Lemma find_char_app s c r : mem c s = false -> find_char (s ++ c :: r) c = length s.
Proof.
  induction s as [|a s IH]; simpl.
  - by rewrite beqb_refl.
  - rewrite orb_false_iff. intros [H1 H2].
    rewrite (proj2 (beqb_false a c)); [by rewrite IH|].
    apply not_eq_sym. by apply beqb_false.
Qed.

Lemma find_char_none s c : mem c s = false -> find_char s c = length s.
Proof.
  induction s as [|a s IH]; simpl; [done|].
  rewrite orb_false_iff. intros [H1 H2].
  rewrite (proj2 (beqb_false a c)); [by rewrite IH|].
  apply not_eq_sym. by apply beqb_false.
Qed.

Lemma find_char_take s c : mem c (take (find_char s c) s) = false.
Proof.
  induction s as [|a s IH]; simpl; [done|].
  destruct (beqb a c) eqn:E; simpl; [done|].
  rewrite orb_false_iff. split; [|done].
  apply beqb_false. apply beqb_false in E. congruence.
Qed.

Lemma mem_app c s r : mem c (s ++ r) = mem c s || mem c r.
Proof. apply existsb_app. Qed.

Lemma mem_elem c s : mem c s = true <-> c ∈ s.
Proof.
  unfold mem. rewrite existsb_exists. split.
  - intros (x & Hx & E). apply beqb_true in E as ->. by apply list_elem_of_In.
  - intros H. exists c. split; [by apply list_elem_of_In|apply beqb_refl].
Qed.

Lemma take_drop_while f s : take_while f s ++ drop_while f s = s.
Proof. induction s as [|a s IH]; simpl; [done|]. destruct (f a); simpl; congruence. Qed.

Lemma drop_while_id f s : forallb (fun b => negb (f b)) s = true -> drop_while f s = s.
Proof.
  destruct s as [|a s]; simpl; [done|].
  rewrite andb_true_iff, negb_true_iff. by intros [-> _].
Qed.

Lemma take_while_all f s : forallb f s = true -> take_while f s = s.
Proof.
  induction s as [|a s IH]; simpl; [done|]. intros [-> H]%andb_true_iff. by rewrite IH.
Qed.

Lemma take_while_app_stop f s a r :
  forallb f s = true -> f a = false -> take_while f (s ++ a :: r) = s.
Proof.
  intros Hs Ha. induction s as [|b s IH]; simpl in *; [by rewrite Ha|].
  apply andb_true_iff in Hs as [-> Hs]. by rewrite IH.
Qed.

Lemma str_eqb_true a b : str_eqb a b = true <-> a = b.
Proof. apply bool_decide_eq_true. Qed.

Lemma str_eqb_refl a : str_eqb a a = true.
Proof. by apply str_eqb_true. Qed.

Lemma str_eqb_false a b : str_eqb a b = false <-> a <> b.
Proof. apply bool_decide_eq_false. Qed.

(** ** Splitting at a character

    The reference for the splitting loops of the sources: the pieces between the
    occurrences of [c], empty ones included. *)

Fixpoint split_on (c : byte) (s : bytes) : list bytes :=
  match s with
  | [] => [[]]
  | a :: r =>
      if beqb a c then [] :: split_on c r
      else match split_on c r with
           | p :: ps => (a :: p) :: ps
           | [] => [[a]]
           end
  end.

(** Concatenation with a separator between the pieces. *)
Fixpoint join (sep : bytes) (l : list bytes) : bytes :=
  match l with
  | [] => []
  | [x] => x
  | x :: l' => x ++ sep ++ join sep l'
  end.

Lemma c_str_id s : mem Byte.x00 s = false -> c_str s = s.
Proof.
  induction s as [|a s IH]; [done|]. cbn. rewrite orb_false_iff. intros [H1 H2].
  assert (beqb a Byte.x00 = false) as -> by (apply beqb_false; apply beqb_false in H1; congruence).
  cbn. f_equal. by apply IH.
Qed.

Lemma split_on_not_nil c s : split_on c s <> [].
Proof.
  destruct s as [|a s]; simpl; [done|]. destruct (beqb a c); [done|].
  by destruct (split_on c s).
Qed.

Lemma split_on_none c s : mem c s = false -> split_on c s = [s].
Proof.
  induction s as [|a s IH]; simpl; [done|]. rewrite orb_false_iff. intros [H1 H2].
  rewrite (proj2 (beqb_false a c)) by (apply not_eq_sym; by apply beqb_false).
  by rewrite IH.
Qed.

Lemma split_on_app c s r : mem c s = false -> split_on c (s ++ c :: r) = s :: split_on c r.
Proof.
  induction s as [|a s IH]; simpl; [by rewrite beqb_refl|].
  rewrite orb_false_iff. intros [H1 H2].
  rewrite (proj2 (beqb_false a c)) by (apply not_eq_sym; by apply beqb_false).
  by rewrite IH.
Qed.

Lemma join_split_on c s : join [c] (split_on c s) = s.
Proof.
  induction s as [|a s IH]; [done|]. simpl. pose proof (split_on_not_nil c s) as Hn.
  destruct (beqb a c) eqn:E.
  - apply beqb_true in E as ->. simpl. destruct (split_on c s); [done|]. simpl in *. by rewrite IH.
  - destruct (split_on c s) as [|p ps]; [done|]. rewrite <- IH. by destruct ps.
Qed.

Lemma join_cons sep x l : l <> [] -> join sep (x :: l) = x ++ sep ++ join sep l.
Proof. by destruct l. Qed.

Lemma split_on_join c l :
  l <> [] -> Forall (fun p => mem c p = false) l -> split_on c (join [c] l) = l.
Proof.
  induction l as [|x l IH]; [done|]. intros _ [Hx Hl]%Forall_cons.
  destruct l as [|y l].
  - simpl. by apply split_on_none.
  - rewrite join_cons by done. cbn [app]. rewrite split_on_app by done.
    by rewrite IH.
Qed.

(** The prefix before the first character that satisfies [negb f], as [take_while]. *)
Lemma take_while_neq c s :
  mem c (take_while (fun b => negb (beqb b c)) s) = false.
Proof.
  induction s as [|a s IH]; simpl; [done|]. destruct (beqb a c) eqn:E; simpl; [done|].
  rewrite IH, orb_false_r. apply beqb_false. apply beqb_false in E. congruence.
Qed.

Lemma drop_while_neq c s r a :
  drop_while (fun b => negb (beqb b c)) s = a :: r -> a = c.
Proof.
  induction s as [|x s IH]; simpl; [done|]. destruct (beqb x c) eqn:E; simpl; [|done].
  intros [= -> ->]. by apply beqb_true.
Qed.

Lemma flat_map_forallb (f : byte -> bool) (g : byte -> bytes) s :
  (forall b, forallb f (g b) = true) -> forallb f (flat_map g s) = true.
Proof.
  intros H. induction s as [|a s IH]; simpl; [done|]. by rewrite forallb_app, H.
Qed.

Lemma forallb_mem_false (f : byte -> bool) c s :
  forallb f s = true -> f c = false -> mem c s = false.
Proof.
  intros H Hc. destruct (mem c s) eqn:E; [|done]. apply mem_elem in E.
  rewrite forallb_forall in H. rewrite H in Hc; [done|]. by apply list_elem_of_In.
Qed.
