(* ===== verification/OrdMap.v ===== *)
(** * OrdMap

    [std::map] and [std::set]: a sorted association list under a strict weak
    order given as a boolean comparison, as the standard containers take it. Keys
    that the order does not separate are equivalent, not equal ([StringCILess]
    makes ["Host"] and ["HOST"] one key), so lookups are stated up to [keq]. *)

From Stdlib Require Import Sorting.Sorted.
From S2P Require Import Prelude Cxx.

Class StrictWeakOrder {K} (ltb : K -> K -> bool) : Prop := {
  swo_irrefl a : ltb a a = false;
  swo_trans a b c : ltb a b = true -> ltb b c = true -> ltb a c = true;
  swo_cotrans a b c : ltb a b = true -> ltb a c = true \/ ltb c b = true
}.

Section Ops.
Context {K V : Type} (ltb : K -> K -> bool).

(** Equivalence of keys: neither is less than the other. *)
Definition keq (a b : K) : bool := negb (ltb a b) && negb (ltb b a).

(** [find]: the value stored under an equivalent key. *)
Fixpoint om_find (m : list (K * V)) (k : K) : option V :=
  match m with
  | [] => None
  | (k', v') :: m' =>
      if ltb k' k then om_find m' k
      else if ltb k k' then None else Some v'
  end.

(** [insert]: keeps the stored element when an equivalent key is present; the flag
    is the [second] of the pair the member returns. *)
Fixpoint om_insert (m : list (K * V)) (k : K) (v : V) : list (K * V) * bool :=
  match m with
  | [] => ([(k, v)], true)
  | (k', v') :: m' =>
      if ltb k' k then let '(r, b) := om_insert m' k v in ((k', v') :: r, b)
      else if ltb k k' then ((k, v) :: m, true) else (m, false)
  end.

(** [m[k] = v]: assigns through the reference, the stored key stays. *)
Fixpoint om_put (m : list (K * V)) (k : K) (v : V) : list (K * V) :=
  match m with
  | [] => [(k, v)]
  | (k', v') :: m' =>
      if ltb k' k then (k', v') :: om_put m' k v
      else if ltb k k' then (k, v) :: m else (k', v) :: m'
  end.

Fixpoint om_erase (m : list (K * V)) (k : K) : list (K * V) :=
  match m with
  | [] => []
  | (k', v') :: m' =>
      if ltb k' k then (k', v') :: om_erase m' k
      else if ltb k k' then m else m'
  end.

(** The keys of a well-formed map increase strictly. *)
Definition sorted (m : list (K * V)) : Prop :=
  StronglySorted (fun a b => ltb a.1 b.1 = true) m.

(** Repeated [insert], as the loops that fill a map do. *)
Definition om_insert_all (m : list (K * V)) (l : list (K * V)) : list (K * V) :=
  foldl (fun m kv => (om_insert m kv.1 kv.2).1) m l.
End Ops.

Section Laws.
Context {K V : Type} (ltb : K -> K -> bool) `{!StrictWeakOrder ltb}.
Implicit Types m : list (K * V).

Lemma swo_asym a b : ltb a b = true -> ltb b a = false.
Proof.
  intros H. destruct (ltb b a) eqn:E; [|done].
  pose proof (swo_trans _ _ _ H E) as C. by rewrite swo_irrefl in C.
Qed.

Lemma keq_spec a b : keq ltb a b = true <-> ltb a b = false /\ ltb b a = false.
Proof. unfold keq. by rewrite andb_true_iff, !negb_true_iff. Qed.

Lemma keq_refl a : keq ltb a a = true.
Proof. apply keq_spec. by rewrite swo_irrefl. Qed.

Lemma keq_sym a b : keq ltb a b = keq ltb b a.
Proof. unfold keq. apply andb_comm. Qed.

(** The order does not distinguish equivalent keys. *)
Lemma keq_ltb_l a b c : keq ltb a b = true -> ltb a c = ltb b c.
Proof.
  intros [H1 H2]%keq_spec. destruct (ltb a c) eqn:E1, (ltb b c) eqn:E2; try done.
  - destruct (swo_cotrans a c b E1); congruence.
  - destruct (swo_cotrans b c a E2); congruence.
Qed.

Lemma keq_ltb_r a b c : keq ltb a b = true -> ltb c a = ltb c b.
Proof.
  intros [H1 H2]%keq_spec. destruct (ltb c a) eqn:E1, (ltb c b) eqn:E2; try done.
  - destruct (swo_cotrans c a b E1); congruence.
  - destruct (swo_cotrans c b a E2); congruence.
Qed.

Lemma om_find_keq m a b : keq ltb a b = true -> om_find ltb m a = om_find ltb m b.
Proof.
  intros H. induction m as [|[k v] m IH]; simpl; [done|].
  by rewrite (keq_ltb_l _ _ k H), (keq_ltb_r _ _ k H), IH.
Qed.

Lemma sorted_nil : sorted ltb (@nil (K * V)).
Proof. constructor. Qed.

Lemma sorted_inv kv m :
  sorted ltb (kv :: m) -> sorted ltb m /\ Forall (fun x => ltb kv.1 x.1 = true) m.
Proof. intros H. by apply StronglySorted_inv in H. Qed.

Lemma om_find_lt m k : Forall (fun x => ltb k x.1 = true) m -> om_find ltb m k = None.
Proof.
  destruct m as [|[k' v'] m]; simpl; [done|]. intros H.
  apply Forall_cons in H as [H _]. simpl in H. by rewrite (swo_asym _ _ H), H.
Qed.

Lemma om_put_Forall (P : K -> Prop) m k v :
  P k -> Forall (fun x => P x.1) m -> Forall (fun x => P x.1) (om_put ltb m k v).
Proof.
  intros Pk. induction m as [|[k' v'] m IH]; simpl; intros H.
  - by constructor.
  - apply Forall_cons in H as [H1 H2]. simpl in H1.
    destruct (ltb k' k); [constructor; auto|].
    destruct (ltb k k'); repeat constructor; auto.
Qed.

Lemma sorted_put m k v : sorted ltb m -> sorted ltb (om_put ltb m k v).
Proof.
  induction m as [|[k' v'] m IH]; simpl; intros H.
  - repeat constructor.
  - apply sorted_inv in H as [H1 H2]. simpl in H2. destruct (ltb k' k) eqn:E1.
    + constructor; [by apply IH|].
      by apply (om_put_Forall (fun x => ltb k' x = true)).
    + destruct (ltb k k') eqn:E2; constructor; try done.
      * by constructor.
      * constructor; [done|]. eapply Forall_impl; [exact H2|].
        simpl. intros x Hx. by eapply swo_trans.
Qed.

Lemma om_find_put m k v k' :
  sorted ltb m ->
  om_find ltb (om_put ltb m k v) k' = if keq ltb k k' then Some v else om_find ltb m k'.
Proof.
  induction m as [|[a x] m IH]; simpl; intros H.
  - unfold keq. destruct (ltb k k') eqn:E1; simpl; [done|]. by destruct (ltb k' k).
  - apply sorted_inv in H as [H1 H2]. simpl in H2. destruct (ltb a k) eqn:E1; simpl.
    + rewrite IH by done. destruct (ltb a k') eqn:E2; [done|].
      destruct (keq ltb k k') eqn:E3; [|done].
      rewrite (keq_ltb_r _ _ a E3) in E1. congruence.
    + destruct (ltb k a) eqn:E2; simpl.
      * unfold keq. destruct (ltb k k') eqn:E3; simpl; [done|].
        destruct (ltb k' k) eqn:E4; [|done]. simpl.
        rewrite (swo_trans _ _ _ E4 E2). by rewrite (swo_asym _ _ (swo_trans _ _ _ E4 E2)).
      * assert (Ha : keq ltb k a = true) by (apply keq_spec; by split).
        assert (keq ltb k k' = keq ltb a k') as ->.
        { unfold keq. by rewrite (keq_ltb_l _ _ k' Ha), (keq_ltb_r _ _ k' Ha). }
        unfold keq. destruct (ltb a k') eqn:E3; simpl; [done|].
        by destruct (ltb k' a).
Qed.

Lemma om_put_values m k v x : x ∈ om_put ltb m k v -> x.2 = v \/ x ∈ m.
Proof.
  induction m as [|[a b] m IH]; cbn; [by intros ->%list_elem_of_singleton; left|].
  destruct (ltb a k).
  - intros [->|Hx]%elem_of_cons; [right; by left|]. destruct (IH Hx); [by left|right; by right].
  - destruct (ltb k a); intros [->|Hx]%elem_of_cons; [by left|by right|by left|right; by right].
Qed.

Lemma om_find_put_eq m k v : sorted ltb m -> om_find ltb (om_put ltb m k v) k = Some v.
Proof. intros. by rewrite om_find_put, keq_refl. Qed.

(** [insert] is [operator[]=] when the key is absent, and a no-op otherwise. *)
Lemma om_insert_spec m k v :
  om_insert ltb m k v =
  match om_find ltb m k with
  | None => (om_put ltb m k v, true)
  | Some _ => (m, false)
  end.
Proof.
  induction m as [|[a x] m IH]; simpl; [done|].
  destruct (ltb a k) eqn:E1; [rewrite IH; by destruct (om_find ltb m k)|].
  by destruct (ltb k a).
Qed.

Lemma sorted_insert m k v : sorted ltb m -> sorted ltb (om_insert ltb m k v).1.
Proof.
  intros. rewrite om_insert_spec. destruct (om_find ltb m k); [done|]. by apply sorted_put.
Qed.

Lemma sorted_erase m k : sorted ltb m -> sorted ltb (om_erase ltb m k).
Proof.
  assert (Hall : forall (P : K * V -> Prop) m, Forall P m -> Forall P (om_erase ltb m k)).
  { clear m. intros P m. induction m as [|[a x] m IH]; simpl; [done|].
    intros [H1 H2]%Forall_cons. destruct (ltb a k); [constructor; auto|].
    destruct (ltb k a); [by constructor|done]. }
  induction m as [|[a x] m IH]; simpl; [done|].
  intros [H1 H2]%sorted_inv. destruct (ltb a k).
  - constructor; [by apply IH|by apply Hall].
  - destruct (ltb k a); [by constructor|done].
Qed.

Lemma om_find_erase m k k' :
  sorted ltb m ->
  om_find ltb (om_erase ltb m k) k' = if keq ltb k k' then None else om_find ltb m k'.
Proof.
  induction m as [|[a x] m IH]; simpl; intros H.
  - by destruct (keq ltb k k').
  - apply sorted_inv in H as [H1 H2]. simpl in H2. destruct (ltb a k) eqn:E1; simpl.
    + rewrite IH by done. destruct (ltb a k') eqn:E2; [done|].
      destruct (keq ltb k k') eqn:E3; [|done].
      rewrite (keq_ltb_r _ _ a E3) in E1. congruence.
    + destruct (ltb k a) eqn:E2; simpl.
      * destruct (keq ltb k k') eqn:E3; [|done].
        rewrite <- (keq_ltb_l _ _ a E3), <- (keq_ltb_r _ _ a E3). by rewrite E1, E2.
      * assert (Ha : keq ltb k a = true) by (apply keq_spec; by split).
        assert (keq ltb k k' = keq ltb a k') as ->.
        { unfold keq. by rewrite (keq_ltb_l _ _ k' Ha), (keq_ltb_r _ _ k' Ha). }
        unfold keq. destruct (ltb a k') eqn:E3; simpl; [done|].
        destruct (ltb k' a) eqn:E4; simpl.
        -- apply om_find_lt. eapply Forall_impl; [exact H2|]. simpl. intros y Hy.
           by eapply swo_trans.
        -- apply om_find_lt. eapply Forall_impl; [exact H2|]. simpl. intros y Hy.
           rewrite <- (keq_ltb_l a k' y.1); [done|]. apply keq_spec. by split.
Qed.

(** Inserting past the last key appends. *)
Lemma om_insert_last m k v :
  Forall (fun x => ltb x.1 k = true) m -> om_insert ltb m k v = (m ++ [(k, v)], true).
Proof.
  induction m as [|[a x] m IH]; simpl; [done|].
  intros [H1 H2]%Forall_cons. simpl in H1. by rewrite H1, IH.
Qed.

Lemma om_insert_all_app m l :
  sorted ltb (m ++ l) -> om_insert_all ltb m l = m ++ l.
Proof.
  unfold om_insert_all. revert m. induction l as [|[k v] l IH]; intros m H; simpl.
  - by rewrite app_nil_r.
  - rewrite om_insert_last; simpl.
    + rewrite IH; rewrite <- app_assoc; [done|exact H].
    + clear IH. induction m as [|[a x] m IHm]; [constructor|].
      simpl in H. apply sorted_inv in H as [H1 H2]. constructor; [|by apply IHm].
      apply Forall_app in H2 as [_ H2]. apply Forall_cons in H2 as [H2 _]. exact H2.
Qed.

(** Refilling an empty map from the elements of a map gives that map. *)
Lemma om_insert_all_id m : sorted ltb m -> om_insert_all ltb [] m = m.
Proof. intros. by apply om_insert_all_app. Qed.

#[export] Instance keq_proper_find m :
  Proper ((fun a b => keq ltb a b = true) ==> eq) (om_find ltb m).
Proof. intros a b H. by apply om_find_keq. Qed.
End Laws.

(** ** Lexicographic order of byte strings *)

Section Lex.
Context (f : byte -> Z).

(** [std::lexicographical_compare] with characters compared through [f]. *)
Fixpoint lex_ltb (a b : bytes) : bool :=
  match a, b with
  | _, [] => false
  | [], _ :: _ => true
  | x :: a', y :: b' =>
      if f x <? f y then true
      else if f y <? f x then false else lex_ltb a' b'
  end.

Lemma lex_irrefl a : lex_ltb a a = false.
Proof. induction a as [|x a IH]; simpl; [done|]. by rewrite Z.ltb_irrefl. Qed.

Lemma lex_trans a b c : lex_ltb a b = true -> lex_ltb b c = true -> lex_ltb a c = true.
Proof.
  revert b c. induction a as [|x a IH]; intros [|y b] [|z c]; simpl; try done.
  destruct (Z.ltb_spec (f x) (f y)), (Z.ltb_spec (f y) (f z)), (Z.ltb_spec (f x) (f z));
    try done; try lia;
    destruct (Z.ltb_spec (f y) (f x)), (Z.ltb_spec (f z) (f y)), (Z.ltb_spec (f z) (f x));
    try done; try lia. apply IH.
Qed.

Lemma lex_cotrans a b c : lex_ltb a b = true -> lex_ltb a c = true \/ lex_ltb c b = true.
Proof.
  revert b c. induction a as [|x a IH]; intros [|y b] [|z c]; simpl; try done; auto.
  destruct (Z.ltb_spec (f x) (f y)), (Z.ltb_spec (f x) (f z)), (Z.ltb_spec (f z) (f y));
    auto; try lia;
    destruct (Z.ltb_spec (f y) (f x)), (Z.ltb_spec (f z) (f x)), (Z.ltb_spec (f y) (f z));
    auto; try lia; try done.
Qed.

#[export] Instance lex_swo : StrictWeakOrder lex_ltb.
Proof. split; [apply lex_irrefl|apply lex_trans|apply lex_cotrans]. Qed.

(** Two strings are equivalent exactly when their characters have equal images. *)
Lemma lex_keq a b : keq lex_ltb a b = true <-> map f a = map f b.
Proof.
  unfold keq. revert b. induction a as [|x a IH]; intros [|y b]; simpl; try done.
  destruct (Z.ltb_spec (f x) (f y)); simpl.
  { split; [done|]. intros [= ? _]. lia. }
  destruct (Z.ltb_spec (f y) (f x)); simpl.
  { split; [done|]. intros [= ? _]. lia. }
  rewrite IH. split; [|by intros [= _ ->]]. intros ->. f_equal. lia.
Qed.
End Lex.

(** [operator<] of [std::string]: unsigned characters, equivalence is equality. *)
Definition str_ltb : bytes -> bytes -> bool := lex_ltb b2z.

#[export] Instance str_ltb_swo : StrictWeakOrder str_ltb.
Proof. apply lex_swo. Qed.

Lemma str_keq a b : keq str_ltb a b = true <-> a = b.
Proof.
  unfold str_ltb. rewrite lex_keq. split; [|by intros ->].
  revert b. induction a as [|x a IH]; intros [|y b]; simpl; try done.
  intros [= H1 H2]. f_equal; [by apply b2z_inj|by apply IH].
Qed.

Lemma str_keq_ne a b : a <> b -> keq str_ltb a b = false.
Proof. intros H. destruct (keq str_ltb a b) eqn:E; [|done]. by apply str_keq in E. Qed.

(** [StringCILess]: characters compared by [tolower] of the (signed) [char]. *)
Definition StringCILess : bytes -> bytes -> bool := lex_ltb (fun b => schar (tolower b)).

#[export] Instance StringCILess_swo : StrictWeakOrder StringCILess.
Proof. apply lex_swo. Qed.

Lemma schar_inj a b : schar a = schar b -> a = b.
Proof.
  unfold schar. pose proof (b2z_range a). pose proof (b2z_range b). intros H1.
  apply b2z_inj. destruct (Z.ltb_spec (b2z a) 128), (Z.ltb_spec (b2z b) 128); lia.
Qed.

(** Header names are one key exactly when they agree up to case. *)
Lemma ci_keq a b : keq StringCILess a b = true <-> tolower_str a = tolower_str b.
Proof.
  unfold StringCILess. rewrite lex_keq. unfold tolower_str.
  revert b. induction a as [|x a IH]; intros [|y b]; simpl; try done.
  split; intros [= H1 H2]; f_equal; try by apply IH.
  - by apply schar_inj.
  - by rewrite H1.
Qed.

#[export] Hint Resolve sorted_nil sorted_put sorted_insert sorted_erase : fcgi.
#[export] Hint Extern 0 (StrictWeakOrder _) => typeclasses eauto : core fcgi.
