(* ===== verification/Ranges.v ===== *)
(** * Ranges

    [include/fastcgi3/range.h]: a [Range] is a pair of pointers into a character
    array; the model is the list of characters between them. [find] returns an
    offset from [begin()], the length standing for [end()]. *)

From S2P Require Import Prelude Cxx OrdMap.

Module Range.

Definition empty (s : bytes) : bool := match s with [] => true | _ => false end.

Definition trim (s : bytes) : bytes :=
  drop_while_end isspace (drop_while isspace s).

(** The two counting loops of [trimn]: the counter is tested before it is decremented,
    so a negative one never stops the loop before the range is exhausted. *)
Fixpoint trimn_front (s : bytes) (n : Z) : bytes :=
  match s with
  | [] => []
  | _ :: s' => if n =? 0 then s else trimn_front s' (n - 1)
  end.

Definition trimn (s : bytes) (b e : Z) : bytes :=
  rev (trimn_front (rev (trimn_front s b)) e).

Definition find (s substr : bytes) : nat :=
  match substr with
  | [c] => find_char s c
  | _ => search s substr
  end.

(** The range before [e], the range after the delimiter, and whether [e] is inside. *)
Definition doSplit (s : bytes) (e size : nat) : bytes * bytes * bool :=
  if bool_decide (e <> length s) then (take e s, drop (e + size) s, true)
  else (take e s, [], false).

Definition split (s delim : bytes) : bytes * bytes * bool :=
  doSplit s (find s delim) (length delim).

Definition split_char (s : bytes) (delim : byte) : bytes * bytes * bool :=
  doSplit s (find_char s delim) 1.

Definition endsWith (s range : bytes) : bool :=
  if bool_decide (length range <= length s)%nat
  then str_eqb (drop (length s - length range) s) range
  else false.

Definition startsWith (s range : bytes) : bool :=
  if bool_decide (length range <= length s)%nat
  then str_eqb (take (length range) s) range
  else false.

Definition lt (s range : bytes) : bool := lex_ltb schar s range.

Definition eq (s range : bytes) : bool :=
  if bool_decide (length s = length range) then str_eqb s range else false.

(** ** Lemmas *)

Lemma find_search s sub : find s sub = search s sub.
Proof.
  unfold find. destruct sub as [|c [|d sub]]; try done. by rewrite search_char.
Qed.

Lemma startsWith_spec s p : startsWith s p = true <-> exists r, s = p ++ r.
Proof.
  unfold startsWith. case_bool_decide as H.
  - rewrite str_eqb_true. split.
    + intros E. exists (drop (length p) s). by rewrite <- E at 1; rewrite take_drop.
    + intros [r ->]. apply take_app_length.
  - split; [done|]. intros [r ->]. rewrite length_app in H. lia.
Qed.

Lemma startsWith_app p r : startsWith (p ++ r) p = true.
Proof. apply startsWith_spec. eauto. Qed.

Lemma endsWith_spec s p : endsWith s p = true <-> exists r, s = r ++ p.
Proof.
  unfold endsWith. case_bool_decide as H.
  - rewrite str_eqb_true. split.
    + intros E. exists (take (length s - length p) s).
      rewrite <- E at 2. by rewrite take_drop.
    + intros [r ->]. rewrite length_app, drop_app_ge by lia.
      replace (length r + length p - length p - length r)%nat with O by lia. done.
  - split; [done|]. intros [r ->]. rewrite length_app in H. lia.
Qed.

Lemma eq_spec s r : eq s r = true <-> s = r.
Proof.
  unfold eq. case_bool_decide as H; [apply str_eqb_true|].
  split; [done|intros ->; done].
Qed.

(** A delimiter that is found splits the range around its first occurrence. *)
Lemma split_true s d a b :
  split s d = (a, b, true) ->
  s = a ++ d ++ b /\ forall k, (k < length a)%nat -> starts_with d (drop k s) = false.
Proof.
  unfold split, doSplit. rewrite find_search. case_bool_decide as H; [|done].
  intros [= <- <-]. destruct (search_found s d) as [Hs|[Hs _]]; [|done].
  apply starts_with_spec in Hs as [r Hr]. split.
  - rewrite <- (take_drop (search s d) s) at 1. f_equal. rewrite Hr. f_equal.
    rewrite <- drop_drop, Hr. by rewrite drop_app_length.
  - intros k Hk. apply search_minimal. rewrite length_take in Hk. lia.
Qed.

Lemma split_false s d a b :
  split s d = (a, b, false) -> a = s /\ b = [].
Proof.
  unfold split, doSplit. case_bool_decide as H; [done|].
  intros [= <- <-]. split; [|done]. rewrite H. by apply firstn_all.
Qed.

Lemma split_false_absent s d a b :
  d <> [] -> split s d = (a, b, false) -> forall k, starts_with d (drop k s) = false.
Proof.
  intros Hd. unfold split, doSplit. rewrite find_search. case_bool_decide as H; [done|].
  intros _ k. destruct (search_found s d) as [Hs|[_ Hs]]; [|done].
  rewrite H, drop_all in Hs. by destruct d.
Qed.

(** A delimiter whose first character does not occur before it is found where it is. *)
Lemma search_app c d a b : mem c a = false -> search (a ++ c :: d ++ b) (c :: d) = length a.
Proof.
  induction a as [|x a IH]; simpl.
  - by rewrite beqb_refl, starts_with_app.
  - rewrite orb_false_iff. intros [Hx Ha]. by rewrite Hx, IH.
Qed.

Lemma search_none c d s : mem c s = false -> search s (c :: d) = length s.
Proof.
  induction s as [|x s IH]; simpl; [done|].
  rewrite orb_false_iff. intros [Hx Hs]. by rewrite Hx, IH.
Qed.

(** An occurrence at [length a] that is the first one in [a ++ d]. *)
Lemma split_first a d b :
  d <> [] -> search (a ++ d) d = length a -> split (a ++ d ++ b) d = (a, b, true).
Proof.
  intros Hd Hs. unfold split, doSplit. rewrite find_search.
  assert (E : search (a ++ d ++ b) d = length a).
  { pose proof (search_window_found (a ++ d ++ b) d (length (a ++ d))) as Hw.
    rewrite app_assoc, take_app_length in Hw. rewrite app_assoc, Hw, Hs; [done|].
    rewrite Hs, length_app. destruct d; [done|simpl; lia]. }
  rewrite E, bool_decide_eq_true_2 by (rewrite !length_app; destruct d; [done|simpl; lia]).
  rewrite take_app_length. do 2 f_equal. rewrite <- length_app, app_assoc. apply drop_app_length.
Qed.

Lemma split_app c d a b :
  mem c a = false -> split (a ++ (c :: d) ++ b) (c :: d) = (a, b, true).
Proof.
  intros H. apply split_first; [done|]. pose proof (search_app c d a [] H) as E.
  by rewrite app_nil_r in E.
Qed.

Lemma split_none c d s : mem c s = false -> split s (c :: d) = (s, [], false).
Proof.
  intros H. unfold split, doSplit. rewrite find_search, search_none by done.
  rewrite bool_decide_eq_false_2 by auto. by rewrite firstn_all.
Qed.

Lemma split_shorter s d :
  s <> [] -> d <> [] -> (length (split s d).1.2 < length s)%nat.
Proof.
  intros H Hd. destruct (split s d) as [[a b] []] eqn:E; simpl.
  - apply split_true in E as [-> _]. rewrite !length_app. destruct d; [done|simpl; lia].
  - apply split_false in E as [_ ->]. destruct s; simpl; [done|lia].
Qed.

Lemma split_char_split s c : split_char s c = split s [c].
Proof. done. Qed.

Lemma split_char_app a c b :
  mem c a = false -> split_char (a ++ c :: b) c = (a, b, true).
Proof.
  intros H. unfold split_char, doSplit. rewrite find_char_app by done.
  rewrite bool_decide_eq_true_2 by (rewrite length_app; simpl; lia).
  rewrite take_app_length. f_equal. f_equal.
  rewrite Nat.add_comm, <- drop_drop.
  change (a ++ c :: b) with (a ++ [c] ++ b). rewrite app_assoc.
  rewrite drop_drop. replace (1 + length a)%nat with (length (a ++ [c])) by (rewrite length_app; simpl; lia).
  by rewrite drop_app_length.
Qed.

Lemma split_char_none a c : mem c a = false -> split_char a c = (a, [], false).
Proof.
  intros H. unfold split_char, doSplit. rewrite find_char_none by done.
  rewrite bool_decide_eq_false_2 by (intros ?; done).
  by rewrite firstn_all.
Qed.

(** Every string is split by a character in one of the two ways. *)
Lemma split_char_cases s c :
  (exists a b, s = a ++ c :: b /\ mem c a = false /\ split_char s c = (a, b, true)) \/
  (mem c s = false /\ split_char s c = (s, [], false)).
Proof.
  destruct (mem c s) eqn:E; [left|right; split; [done|by apply split_char_none]].
  assert (Hs : exists a b, s = a ++ c :: b /\ mem c a = false).
  { clear -E. induction s as [|x s IH]; [done|]. simpl in E.
    destruct (beqb c x) eqn:Ex.
    - apply beqb_true in Ex as <-. by exists [], s.
    - destruct IH as (a & b & -> & Ha); [done|]. exists (x :: a), b. simpl. by rewrite Ex. }
  destruct Hs as (a & b & -> & Ha). exists a, b. split; [done|]. split; [done|].
  by apply split_char_app.
Qed.

Lemma split_char_shorter s c :
  s <> [] -> (length (split_char s c).1.2 < length s)%nat.
Proof.
  intros H. destruct (split_char_cases s c) as [(a & b & -> & _ & ->)|[_ ->]]; simpl.
  - rewrite length_app. simpl. lia.
  - destruct s; simpl; [done|lia].
Qed.

(** [trim] on a range whose ends are not white space is the identity. *)
Lemma drop_while_end_id f s a :
  f a = false -> drop_while_end f (s ++ [a]) = s ++ [a].
Proof.
  intros H. unfold drop_while_end. rewrite rev_app_distr. simpl. rewrite H.
  change (a :: rev s) with ([a] ++ rev s). by rewrite rev_app_distr, rev_involutive.
Qed.

Definition clean_ends (s : bytes) : bool :=
  match s with
  | [] => true
  | a :: _ => negb (isspace a) && negb (isspace (List.last s a))
  end.

Lemma trim_id s : clean_ends s = true -> trim s = s.
Proof.
  destruct s as [|a s]; [done|]. unfold clean_ends.
  rewrite andb_true_iff, !negb_true_iff. intros [H1 H2]. unfold trim.
  assert (Hd : drop_while isspace (a :: s) = a :: s) by (simpl; by rewrite H1).
  rewrite Hd.
  destruct (exists_last (l := a :: s)) as (l & x & E); [done|].
  rewrite E in *. rewrite last_last in H2. by apply drop_while_end_id.
Qed.

Lemma no_space_clean s : forallb (fun c => negb (isspace c)) s = true -> clean_ends s = true.
Proof.
  destruct s as [|a s]; [done|]. intros H. unfold clean_ends.
  rewrite forallb_forall in H. rewrite (H a) by (by left). rewrite andb_true_l. apply H.
  destruct (exists_last (l := a :: s)) as (l & x & E); [done|].
  rewrite E, last_last. apply in_or_app. right. by left.
Qed.

Lemma trim_no_space s : forallb (fun c => negb (isspace c)) s = true -> trim s = s.
Proof. intros. by apply trim_id, no_space_clean. Qed.

(** What [trim] cuts is a prefix and a suffix. *)
Lemma drop_while_drop f s : drop_while f s = drop (length s - length (drop_while f s)) s.
Proof.
  induction s as [|a s IH]; simpl; [done|]. destruct (f a).
  - pose proof (take_drop_while f s) as E. apply (f_equal length) in E. rewrite length_app in E.
    replace (S (length s) - length (drop_while f s))%nat
      with (S (length s - length (drop_while f s)))%nat by lia. exact IH.
  - simpl. by rewrite Nat.sub_diag.
Qed.

Lemma drop_while_end_take f s : drop_while_end f s = take (length (drop_while_end f s)) s.
Proof.
  unfold drop_while_end. rewrite length_rev, drop_while_drop, length_drop, length_rev.
  set (n := length (drop_while f (rev s))).
  assert (n <= length s)%nat.
  { unfold n. clear n. rewrite <- (length_rev s). induction (rev s) as [|a l IH]; simpl; [lia|].
    destruct (f a); simpl; lia. }
  rewrite skipn_rev, rev_involutive.
  replace (length s - (length s - (length s - n)))%nat with (length s - n)%nat by lia.
  done.
Qed.

Lemma trim_clean s : clean_ends (trim s) = true.
Proof.
  unfold trim. set (t := drop_while isspace s).
  assert (Ht : match t with [] => True | a :: _ => isspace a = false end).
  { subst t. clear. induction s as [|a s IH]; simpl; [done|]. by destruct (isspace a) eqn:E. }
  unfold drop_while_end.
  assert (Hl : forall u, match drop_while isspace u with [] => True | a :: _ => isspace a = false end).
  { clear. induction u as [|a s IH]; simpl; [done|]. by destruct (isspace a) eqn:E. }
  specialize (Hl (rev t)).
  pose proof (take_drop_while isspace (rev t)) as Hsplit.
  destruct (drop_while isspace (rev t)) as [|x u] eqn:E; [done|].
  assert (Hsuf : t = (rev u ++ [x]) ++ rev (take_while isspace (rev t))).
  { rewrite <- (rev_involutive t) at 1. rewrite <- Hsplit at 1. by rewrite rev_app_distr. }
  simpl. destruct (rev u ++ [x]) as [|a l] eqn:El; [done|]. unfold clean_ends.
  rewrite <- El, last_last, Hl. rewrite Hsuf in Ht. simpl in Ht. rewrite Ht. done.
Qed.

Lemma trim_idem s : trim (trim s) = trim s.
Proof. apply trim_id, trim_clean. Qed.

Lemma drop_while_length f s : (length (drop_while f s) <= length s)%nat.
Proof. induction s as [|a s IH]; simpl; [done|]. destruct (f a); simpl; lia. Qed.

Lemma trim_length s : (length (trim s) <= length s)%nat.
Proof.
  unfold trim, drop_while_end. rewrite length_rev.
  etransitivity; [apply drop_while_length|]. rewrite length_rev. apply drop_while_length.
Qed.

Lemma trimn_front_spec s n : 0 <= n -> trimn_front s n = drop (Z.to_nat n) s.
Proof.
  revert n. induction s as [|a s IH]; intros n Hn; simpl; [by rewrite drop_nil|].
  destruct (Z.eqb_spec n 0) as [->|]; [done|].
  rewrite IH by lia. replace (Z.to_nat n) with (S (Z.to_nat (n - 1))) by lia. done.
Qed.

Lemma trimn_spec s b e :
  0 <= b -> 0 <= e ->
  trimn s b e = take (length s - Z.to_nat b - Z.to_nat e) (drop (Z.to_nat b) s).
Proof.
  intros. unfold trimn. rewrite !trimn_front_spec by done.
  rewrite skipn_rev, rev_involutive, length_drop. done.
Qed.

Lemma trimn_0_0 s : trimn s 0 0 = s.
Proof. rewrite trimn_spec by lia. rewrite drop_0. apply take_ge. lia. Qed.

End Range.
