(* ===== verification/StringUtils.v ===== *)
(** * StringUtils

    [library/util.cpp], [include/fastcgi3/util.h]: percent encoding, the query
    string parser, XML escaping, trimming and splitting of strings, and the path
    functions of [FileSystemUtils]. *)

From S2P Require Import Prelude Cxx Ranges.

Module StringUtils.

Definition unreserved : bytes := lit "-_.!~*()'".

(** The two hexadecimal digits: [+= (d > 9) ? 'A' - 10 : '0']. *)
Definition hex_digit (d : Z) : byte := z2b (d + (if 9 <? d then 65 - 10 else 48)).

Definition urlencode_char (symbol : byte) : bytes :=
  if isalnum symbol then [symbol]
  else if mem symbol unreserved then [symbol]
  else ["%"%byte;
        hex_digit (Z.land (schar symbol) 0xF0 / 16);
        hex_digit (Z.land (schar symbol) 0x0F)].

Definition urlencode (range : bytes) : bytes := flat_map urlencode_char range.

(** [(c >= 'A') ? ((c & 0xDF) - 'A') + 10 : (c - '0')] on a signed [char]. *)
Definition hex_value (c : byte) : Z :=
  if 65 <=? schar c then Z.land (schar c) 0xDF - 65 + 10 else schar c - 48.

Fixpoint urldecode (range : bytes) : bytes :=
  match range with
  | [] => []
  | i :: rest =>
      if beqb i "+"%byte then " "%byte :: urldecode rest
      else if beqb i "%"%byte then
        match rest with
        | f :: s :: rest' => z2b (hex_value f * 16 + hex_value s) :: urldecode rest'
        | _ => "%"%byte :: urldecode rest
        end
      else i :: urldecode rest
  end.

(** [urldecode(DataBuffer)] decodes each chunk of the buffer on its own. *)
Definition urldecode_chunks (chunks : list bytes) : bytes := flat_map urldecode chunks.

(** [parse]: the pairs of a query string; [fuel] bounds the iterations of the loop. *)
Fixpoint parse_loop (fuel : nat) (tmp : bytes) (v : list (bytes * bytes)) : list (bytes * bytes) :=
  match fuel, tmp with
  | S n, _ :: _ =>
      let '(head, tail, _) := Range.split_char tmp "&"%byte in
      let '(key, value, _) := Range.split_char head "="%byte in
      parse_loop n tail
        (if Range.empty key then v else v ++ [(urldecode key, urldecode value)])
  | _, _ => v
  end.

Definition parse (range : bytes) (v : list (bytes * bytes)) : list (bytes * bytes) :=
  parse_loop (length range) range v.

Definition escapeXml_char (c : byte) : bytes :=
  if beqb c "&"%byte then lit "&amp;"
  else if beqb c Byte.x22 then lit "&quot;"
  else if beqb c "'"%byte then lit "&apos;"
  else if beqb c "<"%byte then lit "&lt;"
  else if beqb c ">"%byte then lit "&gt;"
  else [c].

Definition escapeXml (data : bytes) : bytes := flat_map escapeXml_char data.

Definition default_space : bytes := [" "%byte; Byte.x09; Byte.x0d; Byte.x0a].

(** [find_first_not_of] / [find_last_not_of] followed by the two [erase] calls. *)
Definition trim (str space : bytes) : bytes :=
  drop_while_end (fun c => mem c space) (drop_while (fun c => mem c space) str).

(** The [do ... while] loop of [split] from the current pointer; [s] holds the
    characters before the terminating NUL. *)
Fixpoint split_loop (fuel : nat) (c : byte) (s : bytes) (v : list bytes) : list bytes :=
  match fuel with
  | O => v
  | S n =>
      match s with
      | [] => if beqb Byte.x00 c then v else v ++ [[]]
      | a :: r =>
          if beqb a c then split_loop n c r v
          else
            let piece := take_while (fun b => negb (beqb b c)) s in
            match drop_while (fun b => negb (beqb b c)) s with
            | [] => v ++ [piece]
            | _ :: r' => split_loop n c r' (v ++ [piece])
            end
      end
  end.

Definition split (str : bytes) (c : byte) (v : list bytes) : list bytes :=
  if Range.empty str then v
  else split_loop (S (length (c_str str))) c (c_str str) v.

Definition beginsWith (value prefix : bytes) : bool :=
  if Nat.ltb (length value) (length prefix) then false
  else starts_with prefix value.

Definition endsWith (value suffix : bytes) : bool :=
  if Nat.ltb (length value) (length suffix) then false
  else starts_with (rev suffix) (rev value).

End StringUtils.

Module FileSystemUtils.

Definition is_separator (ch : byte) : bool := beqb ch Byte.x5c || beqb ch "/"%byte.

(** The characters after the last separator: [find_if] over the reversed string. *)
Definition basename (path : bytes) : bytes :=
  rev (take_while (fun c => negb (is_separator c)) (rev path)).

Definition removeExtension (filename : bytes) : bytes :=
  if mem "."%byte filename
  then rev (tail (drop_while (fun c => negb (beqb c "."%byte)) (rev filename)))
  else filename.

Definition pathToFile (path : bytes) : bytes :=
  take (length path - length (basename path)) path.

(** [createDirectories] over a [mkdir] that returns 0 or [errno]; the directories it
    was called on are returned with the outcome. [EEXIST] is 17. *)
Fixpoint mkdir_all (mkdir : bytes -> Z) (newFolder : bytes) (dirs : list bytes)
    : list bytes * result unit :=
  match dirs with
  | [] => ([], Ok tt)
  | dir :: dirs' =>
      let folder := newFolder ++ "/"%byte :: dir in
      let errno := mkdir folder in
      if negb (errno =? 0) && negb (errno =? 17) then ([folder], Throw (SystemError errno))
      else let '(l, r) := mkdir_all mkdir folder dirs' in (folder :: l, r)
  end.

Definition createDirectories (mkdir : bytes -> Z) (path : bytes) : list bytes * result unit :=
  mkdir_all mkdir [] (StringUtils.split path "/"%byte []).

End FileSystemUtils.

(** ** Percent encoding *)

Section Urlencode.
Import StringUtils.

Lemma urldecode_char b r : urldecode (urlencode_char b ++ r) = b :: urldecode r.
Proof. destruct b; reflexivity. Qed.

Lemma url_decode_encode s : urldecode (urlencode s) = s.
Proof.
  induction s as [|b s IH]; [done|]. unfold urlencode in *. simpl.
  by rewrite urldecode_char, IH.
Qed.

(** The characters an encoded string is made of. *)
Definition url_safe (c : byte) : bool :=
  isalnum c || mem c unreserved || beqb c "%"%byte.

Lemma urlencode_safe s : forallb url_safe (urlencode s) = true.
Proof.
  apply flat_map_forallb. intros b. by_bytes b.
Qed.

(** An encoded string consists of unreserved characters and escapes, and decoding it
    gives the original, for every byte string (control characters, [%], [+] and bytes
    above 127 included). *)
Theorem urldecode_urlencode s :
  forallb url_safe (urlencode s) = true /\ urldecode (urlencode s) = s.
Proof. split; [apply urlencode_safe|apply url_decode_encode]. Qed.

Lemma urlencode_not_mem c s : url_safe c = false -> mem c (urlencode s) = false.
Proof. apply forallb_mem_false, urlencode_safe. Qed.

Lemma urlencode_nil s : urlencode s = [] <-> s = [].
Proof.
  split; [|by intros ->]. destruct s as [|a s]; [done|]. unfold urlencode. simpl.
  intros [H _]%app_eq_nil. by destruct a.
Qed.

(** An escape that straddles two chunks of a buffer is not decoded: the decoder
    works chunk by chunk, so the result depends on where the storage is cut. It is
    the decoding of the whole when no chunk ends inside an escape. *)
Lemma urldecode_app_clean a b :
  forallb (fun c => negb (beqb c "%"%byte)) a = true ->
  urldecode (a ++ b) = urldecode a ++ urldecode b.
Proof.
  induction a as [|c a IH]; [done|]. simpl. intros [Hc Ha]%andb_true_iff.
  apply negb_true_iff in Hc. rewrite Hc, IH by done. by destruct (beqb c "+"%byte).
Qed.

End Urlencode.

(** ** The query string *)

Section Query.
Import StringUtils.

Lemma parse_loop_fuel n m tmp v :
  (length tmp <= n)%nat -> (length tmp <= m)%nat -> parse_loop n tmp v = parse_loop m tmp v.
Proof.
  revert m tmp v. induction n as [|n IH]; intros m tmp v Hn Hm.
  - destruct tmp; [|simpl in Hn; lia]. by destruct m.
  - destruct tmp as [|c tmp]; [by destruct m|]. destruct m as [|m]; [simpl in Hm; lia|].
    cbn [parse_loop]. pose proof (Range.split_char_shorter (c :: tmp) "&"%byte) as Hs.
    destruct (Range.split_char (c :: tmp) "&"%byte) as [[head tail] ?].
    destruct (Range.split_char head "="%byte) as [[key value] ?].
    specialize (Hs ltac:(done)). simpl in Hs, Hn, Hm. apply IH; lia.
Qed.

(** The loop, one iteration at a time: the fuel is always enough. *)
Lemma parse_step tmp v :
  parse tmp v =
  match tmp with
  | [] => v
  | _ =>
      let '(head, tail, _) := Range.split_char tmp "&"%byte in
      let '(key, value, _) := Range.split_char head "="%byte in
      parse tail (if Range.empty key then v else v ++ [(urldecode key, urldecode value)])
  end.
Proof.
  destruct tmp as [|c tmp]; [done|]. unfold parse at 1. cbn [length parse_loop].
  pose proof (Range.split_char_shorter (c :: tmp) "&"%byte) as Hs.
  destruct (Range.split_char (c :: tmp) "&"%byte) as [[head tail] ?].
  destruct (Range.split_char head "="%byte) as [[key value] ?].
  specialize (Hs ltac:(done)). simpl in Hs. apply parse_loop_fuel; lia.
Qed.

(** What one piece between two [&] contributes. *)
Definition parse_piece (piece : bytes) : list (bytes * bytes) :=
  let '(key, value, _) := Range.split_char piece "="%byte in
  if Range.empty key then [] else [(urldecode key, urldecode value)].

(** The parser is the map of [parse_piece] over the pieces between the [&]. *)
Lemma parse_split s v : parse s v = v ++ flat_map parse_piece (split_on "&"%byte s).
Proof.
  remember (length s) as n eqn:Hn. revert s v Hn.
  induction n as [n IH] using lt_wf_ind. intros s v ->. rewrite parse_step.
  destruct s as [|c s]; [by rewrite app_nil_r|].
  assert (Hp : forall head v tail, (length tail < length (c :: s))%nat ->
    (let '(key, value, _) := Range.split_char head "="%byte in
     parse tail (if Range.empty key then v else v ++ [(urldecode key, urldecode value)])) =
    v ++ parse_piece head ++ flat_map parse_piece (split_on "&"%byte tail)).
  { intros head w tail Hlt. unfold parse_piece.
    destruct (Range.split_char head "="%byte) as [[key value] ?].
    rewrite (IH _ Hlt _ _ eq_refl). destruct (Range.empty key); [done|]. by rewrite <- app_assoc. }
  pose proof (Range.split_char_shorter (c :: s) "&"%byte ltac:(done)) as Hs.
  destruct (Range.split_char_cases (c :: s) "&"%byte) as [(a & b & E & Ha & E')|[Ha E']];
    rewrite E' in *; simpl in Hs; rewrite Hp by done.
  - rewrite E, split_on_app by done. done.
  - rewrite (split_on_none _ (c :: s)) by done. reflexivity.
Qed.

(** A query string as a client renders it from decoded pairs. *)
Definition render_pair (kv : bytes * bytes) : bytes :=
  urlencode kv.1 ++ "="%byte :: urlencode kv.2.

Definition render_query (kvs : list (bytes * bytes)) : bytes :=
  join (lit "&") (map render_pair kvs).

Lemma render_pair_amp kv : mem "&"%byte (render_pair kv) = false.
Proof. unfold render_pair. rewrite mem_app. simpl. by rewrite !urlencode_not_mem. Qed.

Lemma parse_render_pair kv : kv.1 <> [] -> parse_piece (render_pair kv) = [kv].
Proof.
  intros H. unfold parse_piece, render_pair.
  rewrite Range.split_char_app by (by apply urlencode_not_mem).
  rewrite !url_decode_encode. destruct kv as [k v]. simpl in *.
  destruct (urlencode k) eqn:E; [|done]. apply (proj1 (urlencode_nil k)) in E. congruence.
Qed.

(** Parsing the rendering of any list of pairs with non-empty names gives the
    pairs back, in order and with duplicates, appended to what was there. *)
Theorem parse_render_query kvs v :
  Forall (fun kv => kv.1 <> []) kvs -> parse (render_query kvs) v = v ++ kvs.
Proof.
  intros H. rewrite parse_split. f_equal. unfold render_query.
  destruct kvs as [|kv kvs]; [done|]. rewrite split_on_join.
  - induction H as [|kv' l Hk Hl IH]; [done|]. simpl. by rewrite parse_render_pair, IH.
  - done.
  - apply Forall_fmap. apply Forall_true. apply render_pair_amp.
Qed.

Lemma parse_render_query_witness :
  parse (render_query [(lit "a b", lit "1&2"); (lit "a b", []); (lit "%", lit "=+")]) [] =
  [(lit "a b", lit "1&2"); (lit "a b", []); (lit "%", lit "=+")].
Proof. apply (parse_render_query _ []). repeat constructor; discriminate. Defined.

End Query.

(** ** XML escaping *)

Section EscapeXml.
Import StringUtils.

(** The characters that delimit markup and attribute values. *)
Definition markup : bytes := [ "<"%byte; ">"%byte; "'"%byte; Byte.x22 ].

Lemma escapeXml_no_markup s : forallb (fun c => negb (mem c markup)) (escapeXml s) = true.
Proof. apply flat_map_forallb. intros b. by_bytes b. Qed.

Lemma escapeXml_char_inj x y r r' :
  escapeXml_char x ++ r = escapeXml_char y ++ r' -> x = y /\ r = r'.
Proof.
  unfold escapeXml_char.
  repeat match goal with
  | |- context [if beqb ?a ?b then _ else _] =>
      let E := fresh "E" in
      destruct (beqb a b) eqn:E; [apply beqb_true in E as ->|apply beqb_false in E]
  end; simpl; intros H; simplify_eq; auto.
Qed.

(** the escaped text has no character that delimits markup or an attribute value,
    and distinct texts have distinct escapings (nothing is lost). *)
Theorem escapeXml_safe_inj s :
  forallb (fun c => negb (mem c markup)) (escapeXml s) = true /\
  forall t, escapeXml s = escapeXml t -> s = t.
Proof.
  split; [apply escapeXml_no_markup|].
  induction s as [|x s IH]; intros [|y t]; unfold escapeXml; simpl; [done|..].
  - intros H. symmetry in H. apply app_eq_nil in H as [H _]. by destruct y.
  - intros [H _]%app_eq_nil. by destruct x.
  - intros [-> H]%escapeXml_char_inj. f_equal. by apply IH.
Qed.

End EscapeXml.

(** ** Splitting, trimming and paths *)

Section Split.
Import StringUtils.

(** The non-empty pieces, and the last one whether it is empty or not. *)
Fixpoint keep_pieces (l : list bytes) : list bytes :=
  match l with
  | [] => []
  | [x] => [x]
  | x :: l' => if Range.empty x then keep_pieces l' else x :: keep_pieces l'
  end.

Lemma keep_pieces_cons x l :
  l <> [] -> keep_pieces (x :: l) = (if Range.empty x then [] else [x]) ++ keep_pieces l.
Proof. destruct l; [done|]. intros _. simpl. by destruct (Range.empty x). Qed.

Lemma split_loop_spec fuel c s v :
  c <> Byte.x00 -> (length s < fuel)%nat ->
  split_loop fuel c s v = v ++ keep_pieces (split_on c s).
Proof.
  intros Hc. revert s v. induction fuel as [|n IH]; intros s v Hf; [lia|].
  destruct s as [|a r]; simpl.
  - by rewrite (proj2 (beqb_false Byte.x00 c)).
  - destruct (beqb a c) eqn:E.
    + simpl in Hf. rewrite IH by lia.
      by rewrite keep_pieces_cons by apply split_on_not_nil.
    + cbn [negb].
      pose proof (take_drop_while (fun b => negb (beqb b c)) r) as Hr.
      pose proof (take_while_neq c r) as Hm.
      set (w := take_while _ r) in *.
      destruct (drop_while (fun b => negb (beqb b c)) r) as [|x r'] eqn:Ed.
      * rewrite app_nil_r in Hr. rewrite <- Hr at 1. by rewrite split_on_none.
      * pose proof (drop_while_neq _ _ _ _ Ed) as ->. rewrite <- Hr at 1.
        rewrite split_on_app by done. rewrite IH.
        -- rewrite keep_pieces_cons by apply split_on_not_nil. simpl. by rewrite <- app_assoc.
        -- apply (f_equal length) in Hr. rewrite length_app in Hr. simpl in *. lia.
Qed.

(** [split] appends the non-empty pieces between the separators; the piece after
    the last separator is kept even when it is empty, an empty string adds nothing,
    and nothing after an embedded NUL is seen. *)
Theorem split_pieces str c v :
  c <> Byte.x00 ->
  split str c v =
  if Range.empty str then v else v ++ keep_pieces (split_on c (c_str str)).
Proof.
  intros Hc. unfold split. destruct (Range.empty str); [done|].
  by rewrite split_loop_spec by (done || lia).
Qed.

Lemma split_pieces_witness :
  split (lit "/var//cache/") "/"%byte [] = [lit "var"; lit "cache"; []].
Proof. rewrite (split_pieces _ "/"%byte []); [reflexivity|discriminate]. Defined.

(** [beginsWith] and [endsWith] are the prefix and suffix relations. *)
Lemma beginsWith_spec value p : beginsWith value p = true <-> exists r, value = p ++ r.
Proof.
  unfold beginsWith. destruct (Nat.ltb_spec (length value) (length p)) as [H|H].
  - split; [done|]. intros [r ->]. rewrite length_app in H. lia.
  - apply starts_with_spec.
Qed.

Lemma endsWith_suffix_spec value p : endsWith value p = true <-> exists r, value = r ++ p.
Proof.
  unfold endsWith. destruct (Nat.ltb_spec (length value) (length p)) as [H|H].
  - split; [done|]. intros [r ->]. rewrite length_app in H. lia.
  - apply (ends_with_spec p value).
Qed.

(** a path is its directory part followed by its base name; the base name has no
    separator and the directory part is empty or ends with one. *)
Theorem pathToFile_basename path :
  FileSystemUtils.pathToFile path ++ FileSystemUtils.basename path = path /\
  forallb (fun c => negb (FileSystemUtils.is_separator c)) (FileSystemUtils.basename path) = true /\
  match last (FileSystemUtils.pathToFile path) with
  | Some c => FileSystemUtils.is_separator c = true
  | None => FileSystemUtils.pathToFile path = []
  end.
Proof.
  unfold FileSystemUtils.pathToFile, FileSystemUtils.basename.
  set (f := fun c => negb (FileSystemUtils.is_separator c)).
  pose proof (take_drop_while f (rev path)) as Hs.
  apply (f_equal (@rev _)) in Hs. rewrite rev_app_distr, rev_involutive in Hs.
  set (b := rev (take_while f (rev path))) in *. set (d := rev (drop_while f (rev path))) in *.
  rewrite <- Hs. rewrite length_app, take_app_le, take_ge by lia.
  split; [done|]. split.
  - subst b. apply forallb_forall. intros x Hx. apply in_rev in Hx. revert Hx.
    generalize (rev path). intros u. induction u as [|a u IH]; simpl; [done|].
    destruct (f a) eqn:E; [|done]. intros [->|Hx]; auto.
  - subst d. destruct (drop_while f (rev path)) as [|a u] eqn:E; [done|].
    simpl. rewrite last_snoc.
    assert (Ha : f a = false).
    { clear -E. revert E. generalize (rev path). intros w. induction w as [|x w IH]; simpl; [done|].
      destruct (f x) eqn:Ex; [done|]. by intros [= -> _]. }
    unfold f in Ha. by apply negb_false_iff.
Qed.

End Split.
