(* ===== verification/HashUtils.v ===== *)
(** * HashUtils

    [HashUtils] of [library/util.cpp]: base64 with its 32-bit accumulator and its
    pre-sized output string, and the hexadecimal rendering of an MD5 digest. The
    digest itself is OpenSSL's and is a parameter. *)

From S2P Require Import Prelude Cxx.

Module HashUtils.

Definition b64_table : bytes :=
  lit "ABCDEFGHIJKLMNOPQRSTUVWXYZabcdefghijklmnopqrstuvwxyz0123456789+/".

Definition reverse_table : list Z := [
  64; 64; 64; 64; 64; 64; 64; 64; 64; 64; 64; 64; 64; 64; 64; 64;
  64; 64; 64; 64; 64; 64; 64; 64; 64; 64; 64; 64; 64; 64; 64; 64;
  64; 64; 64; 64; 64; 64; 64; 64; 64; 64; 64; 62; 64; 64; 64; 63;
  52; 53; 54; 55; 56; 57; 58; 59; 60; 61; 64; 64; 64; 64; 64; 64;
  64;  0;  1;  2;  3;  4;  5;  6;  7;  8;  9; 10; 11; 12; 13; 14;
  15; 16; 17; 18; 19; 20; 21; 22; 23; 24; 25; 64; 64; 64; 64; 64;
  64; 26; 27; 28; 29; 30; 31; 32; 33; 34; 35; 36; 37; 38; 39; 40;
  41; 42; 43; 44; 45; 46; 47; 48; 49; 50; 51; 64; 64; 64; 64; 64 ].

(** The loop state of the encoder: output string, write position, pending bits,
    32-bit accumulator. *)
Record enc_state := EncState {
  retval : bytes;
  outpos : nat;
  bits_collected : Z;
  accumulator : Z
}.

(** [retval[outpos++] = c]: undefined behaviour outside the string. *)
Definition put (st : enc_state) (bits : Z) (c : byte) : result enc_state :=
  if bool_decide (outpos st < length (retval st))%nat
  then Ok (EncState (<[outpos st := c]> (retval st)) (S (outpos st)) bits (accumulator st))
  else Undef.

Definition table_at (i : Z) : byte := nth (Z.to_nat i) b64_table Byte.x00.

(** [while (bits_collected >= 6)]: each turn removes 6 bits, so [bits_collected] turns
    are enough. *)
Fixpoint emit (fuel : nat) (st : enc_state) : result enc_state :=
  match fuel with
  | O => Ok st
  | S n =>
      if bits_collected st <? 6 then Ok st
      else
        let bits := bits_collected st - 6 in
        st' ← put st bits (table_at (Z.land (Z.shiftr (accumulator st) bits) 0x3f));
        emit n st'
  end.

Definition encode_char (st : enc_state) (c : byte) : result enc_state :=
  let acc := Z.lor (u32 (Z.shiftl (accumulator st) 8)) (Z.land (schar c) 0xff) in
  let bits := bits_collected st + 8 in
  emit (Z.to_nat bits) (EncState (retval st) (outpos st) bits acc).

Fixpoint encode_loop (st : enc_state) (bindata : bytes) : result enc_state :=
  match bindata with
  | [] => Ok st
  | c :: rest => st' ← encode_char st c; encode_loop st' rest
  end.

Definition base64_encode (bindata : bytes) : result bytes :=
  if (2 ^ 64 - 1) / 4 * 3 <? len bindata
  then Throw (LengthError (lit "Converting too large a string to base64."))
  else
    let size := (Z.to_nat (((len bindata + 2) / 3) * 4))%nat in
    st ← encode_loop (EncState (repeat "="%byte size) 0 0 0) bindata;
    if 0 <? bits_collected st then
      let acc := u32 (Z.shiftl (accumulator st) (6 - bits_collected st)) in
      st' ← put (EncState (retval st) (outpos st) (bits_collected st) acc)
              (bits_collected st) (table_at (Z.land acc 0x3f));
      Ok (retval st')
    else Ok (retval st).

(** One character of the decoder. *)
Definition decode_char (bits acc : Z) (out : bytes) (c : byte) : result (Z * Z * bytes) :=
  if isspace c || beqb c "="%byte then Ok (bits, acc, out)
  else if (127 <? schar c) || (schar c <? 0) || (63 <? nth (Z.to_nat (schar c)) reverse_table 64)
  then Throw (InvalidArgument
         (lit "This contains characters not legal in a base64 encoded string."))
  else
    let acc := Z.lor (u32 (Z.shiftl acc 6)) (nth (Z.to_nat (schar c)) reverse_table 64) in
    let bits := bits + 6 in
    if 8 <=? bits
    then Ok (bits - 8, acc, out ++ [z2b (Z.land (Z.shiftr acc (bits - 8)) 0xff)])
    else Ok (bits, acc, out).

Fixpoint decode_loop (bits acc : Z) (out : bytes) (ascdata : bytes) : result bytes :=
  match ascdata with
  | [] => Ok out
  | c :: rest =>
      '(bits', acc', out') ← decode_char bits acc out c;
      decode_loop bits' acc' out' rest
  end.

Definition base64_decode (ascdata : bytes) : result bytes := decode_loop 0 0 [] ascdata.

Section MD5.
(** OpenSSL's MD5: 16 bytes for any input. *)
Context (md5 : bytes -> bytes).

Definition alpha (d : Z) : byte := nth (Z.to_nat d) (lit "0123456789abcdef") Byte.x00.

Definition hexMD5 (key : bytes) : bytes :=
  flat_map (fun b => [alpha (Z.shiftr (Z.land (b2z b) 0xf0) 4); alpha (Z.land (b2z b) 0xf)])
    (take 16 (md5 key)).
End MD5.

End HashUtils.

(** ** Lemmas *)

Section Base64.
Import HashUtils.

Lemma lor_shiftl x n a : 0 <= n -> 0 <= a < 2 ^ n -> Z.lor (Z.shiftl x n) a = x * 2 ^ n + a.
Proof.
  intros Hn Ha. rewrite <- Z.shiftl_mul_pow2 by done.
  pose proof (Z.add_lor_land (Z.shiftl x n) a) as Hs.
  assert (Z.land (Z.shiftl x n) a = 0) as Hz; [|lia].
  apply Z.bits_inj'. intros i Hi. rewrite Z.land_spec, Z.bits_0.
  destruct (Z.ltb_spec i n).
  - by rewrite Z.shiftl_spec_low.
  - destruct (Z.eq_dec a 0) as [->|]; [by rewrite Z.bits_0, andb_false_r|].
    rewrite (Z.bits_above_log2 a); [by rewrite andb_false_r|lia|].
    apply Z.log2_lt_pow2; [lia|]. apply Z.lt_le_trans with (2 ^ n); [lia|].
    apply Z.pow_le_mono_r; lia.
Qed.

(** The accumulator update as arithmetic. *)
Lemma acc_step acc n a :
  0 <= n -> 0 <= a < 2 ^ n -> n <= 32 ->
  Z.lor (u32 (Z.shiftl acc n)) a = (acc * 2 ^ n) mod 2 ^ 32 + a.
Proof.
  intros Hn Ha Hn2. unfold u32. rewrite Z.shiftl_mul_pow2 by done.
  assert (E : (acc * 2 ^ n) mod 2 ^ 32 = Z.shiftl (acc mod 2 ^ (32 - n)) n).
  { rewrite Z.shiftl_mul_pow2 by done. replace (2 ^ 32) with (2 ^ (32 - n) * 2 ^ n).
    - rewrite Z.mul_mod_distr_r; [done| |]; apply Z.pow_nonzero; lia.
    - rewrite <- Z.pow_add_r by lia. f_equal. lia. }
  rewrite E, lor_shiftl by done. by rewrite <- Z.shiftl_mul_pow2 by done.
Qed.

Lemma land_mask z n : 0 <= n -> Z.land z (2 ^ n - 1) = z mod 2 ^ n.
Proof. intros. rewrite <- Z.land_ones by done. f_equal. rewrite Z.ones_equiv. lia. Qed.

Lemma land_schar_255 c : Z.land (schar c) 0xff = b2z c.
Proof.
  apply Z.eqb_eq. by_bytes c.
Qed.

(** The values of the two tables correspond. *)
Lemma reverse_table_at i :
  0 <= i < 64 ->
  isspace (table_at i) || beqb (table_at i) "="%byte = false /\
  0 <= schar (table_at i) <= 127 /\
  nth (Z.to_nat (schar (table_at i))) reverse_table 64 = i.
Proof.
  intros Hi.
  assert (H : forallb (fun n => let i := Z.of_nat n in
     negb (isspace (table_at i) || beqb (table_at i) "="%byte) &&
     (0 <=? schar (table_at i)) && (schar (table_at i) <=? 127) &&
     (nth (Z.to_nat (schar (table_at i))) reverse_table 64 =? i)) (seq 0 64) = true)
    by reflexivity.
  rewrite forallb_forall in H. specialize (H (Z.to_nat i)).
  rewrite in_seq, Z2Nat.id in H by lia. specialize (H ltac:(lia)).
  rewrite !andb_true_iff, negb_true_iff in H.
  destruct H as [[[H1 H2] H3] H4]. apply Z.leb_le in H2, H3. by apply Z.eqb_eq in H4.
Qed.

(** The encoding of blocks of three bytes: what the encoder computes. *)
Definition sextet (v : Z) (k : Z) : byte := table_at ((v / 2 ^ k) mod 64).

Fixpoint b64_ref (s : bytes) : bytes :=
  match s with
  | a :: b :: c :: r =>
      let v := b2z a * 2 ^ 16 + b2z b * 2 ^ 8 + b2z c in
      [sextet v 18; sextet v 12; sextet v 6; sextet v 0] ++ b64_ref r
  | [a; b] =>
      let v := b2z a * 2 ^ 16 + b2z b * 2 ^ 8 in
      [sextet v 18; sextet v 12; sextet v 6; "="%byte]
  | [a] => let v := b2z a * 2 ^ 16 in [sextet v 18; sextet v 12; "="%byte; "="%byte]
  | [] => []
  end.

Lemma list_ind3 (P : bytes -> Prop) :
  P [] -> (forall a, P [a]) -> (forall a b, P [a; b]) ->
  (forall a b c r, P r -> P (a :: b :: c :: r)) -> forall s, P s.
Proof.
  intros H0 H1 H2 H3.
  refine (fix F s := match s with
                     | [] => H0
                     | [a] => H1 a
                     | [a; b] => H2 a b
                     | a :: b :: c :: r => H3 a b c r (F r)
                     end).
Qed.

(** The bits of a number from [k] on depend only on its residue. *)
Lemma low_bits A m k n :
  0 <= k -> 0 <= n -> k + n <= m ->
  (A / 2 ^ k) mod 2 ^ n = ((A mod 2 ^ m) / 2 ^ k) mod 2 ^ n.
Proof.
  intros. apply Z.bits_inj'. intros i Hi. destruct (Z.ltb_spec i n).
  - rewrite !Z.mod_pow2_bits_low, !Z.div_pow2_bits, Z.mod_pow2_bits_low by lia. done.
  - rewrite !Z.mod_pow2_bits_high by lia. done.
Qed.

(** Pushing [n] bits into an accumulator whose low [m] bits are [x]. *)
Lemma push_bits acc m n x a :
  0 <= m -> 0 <= n -> m + n <= 32 -> acc mod 2 ^ m = x -> 0 <= a < 2 ^ n ->
  (Z.lor (u32 (Z.shiftl acc n)) a) mod 2 ^ (m + n) = x * 2 ^ n + a.
Proof.
  intros Hm Hn Hmn Hx Ha. rewrite acc_step by lia.
  pose proof (Z.pow_pos_nonneg 2 n ltac:(lia) Hn). pose proof (Z.pow_pos_nonneg 2 m ltac:(lia) Hm).
  assert (Hb : 0 <= x < 2 ^ m) by (subst x; apply Z.mod_pos_bound; lia).
  rewrite <- Z.add_mod_idemp_l by (apply Z.pow_nonzero; lia).
  replace (2 ^ 32) with (2 ^ (m + n) * 2 ^ (32 - (m + n))) by (rewrite <- Z.pow_add_r by lia; f_equal; lia).
  rewrite Z.rem_mul_r by (try apply Z.pow_nonzero; try apply Z.pow_pos_nonneg; lia).
  rewrite (Z.mul_comm (2 ^ (m + n))), Z.mod_add by (apply Z.pow_nonzero; lia).
  rewrite Z.mod_mod by (apply Z.pow_nonzero; lia).
  rewrite (Z.pow_add_r 2 m n) by lia.
  rewrite Z.mul_mod_distr_r by lia. rewrite Hx.
  rewrite Z.mod_small; [done|]. nia.
Qed.

Lemma put_spec w k bits acc c :
  put (EncState (w ++ repeat "="%byte (S k)) (length w) bits acc) bits c =
  Ok (EncState ((w ++ [c]) ++ repeat "="%byte k) (length (w ++ [c])) bits acc).
Proof.
  unfold put. simpl outpos. simpl retval. rewrite bool_decide_eq_true_2.
  - f_equal. f_equal.
    + rewrite insert_app_r_alt by lia. rewrite Nat.sub_diag. simpl. by rewrite <- app_assoc.
    + rewrite length_app. simpl. lia.
  - rewrite length_app. simpl. lia.
Qed.

Lemma sextet_low A m x k :
  0 <= k -> k + 6 <= m -> A mod 2 ^ m = x ->
  table_at (Z.land (Z.shiftr A k) 0x3f) = sextet x k.
Proof.
  intros Hk Hm Hx. unfold sextet. f_equal.
  change 0x3f with (2 ^ 6 - 1). rewrite land_mask by lia. rewrite Z.shiftr_div_pow2 by done.
  rewrite (low_bits A m k 6), Hx by lia. done.
Qed.

Lemma emit_more n w k bits acc m x :
  6 <= bits -> bits <= m -> acc mod 2 ^ m = x ->
  emit (S n) (EncState (w ++ repeat "="%byte (S k)) (length w) bits acc) =
  emit n (EncState ((w ++ [sextet x (bits - 6)]) ++ repeat "="%byte k)
            (length (w ++ [sextet x (bits - 6)])) (bits - 6) acc).
Proof.
  intros Hb Hm Hx. cbn [emit bits_collected accumulator].
  rewrite (proj2 (Z.ltb_ge _ _) Hb), (sextet_low acc m x (bits - 6)) by lia || done.
  unfold put. cbn [outpos retval accumulator].
  pose proof (put_spec w k (bits - 6) acc (sextet x (bits - 6))) as Hp.
  unfold put in Hp. cbn [outpos retval accumulator] in Hp. by rewrite Hp.
Qed.

Lemma emit_stop n st : bits_collected st < 6 -> emit n st = Ok st.
Proof. intros H. destruct n as [|n]; [done|]. cbn [emit]. by rewrite (proj2 (Z.ltb_lt _ _) H). Qed.

(** One byte in each of the three positions of a block. *)
Lemma encode_char_0 w k acc a :
  exists acc',
  encode_char (EncState (w ++ repeat "="%byte (S k)) (length w) 0 acc) a =
  Ok (EncState ((w ++ [sextet (b2z a) 2]) ++ repeat "="%byte k)
        (length (w ++ [sextet (b2z a) 2])) 2 acc') /\
  acc' mod 2 ^ 8 = b2z a.
Proof.
  unfold encode_char. cbn [bits_collected accumulator retval outpos].
  rewrite land_schar_255. pose proof (b2z_range a).
  pose proof (push_bits acc 0 8 0 (b2z a) ltac:(lia) ltac:(lia) ltac:(lia)
                ltac:(apply Z.mod_1_r) ltac:(lia)) as Hp.
  set (A := Z.lor _ _) in *. exists A. split; [|exact Hp].
  clearbody A. change (Z.to_nat (0 + 8)) with 8%nat.
  rewrite (emit_more _ _ _ (0 + 8) _ 8 _ ltac:(lia) ltac:(lia) Hp). by rewrite emit_stop.
Qed.

Lemma encode_char_2 w k acc x b :
  acc mod 2 ^ 8 = x ->
  exists acc',
  encode_char (EncState (w ++ repeat "="%byte (S k)) (length w) 2 acc) b =
  Ok (EncState ((w ++ [sextet (x * 2 ^ 8 + b2z b) 4]) ++ repeat "="%byte k)
        (length (w ++ [sextet (x * 2 ^ 8 + b2z b) 4])) 4 acc') /\
  acc' mod 2 ^ 16 = x * 2 ^ 8 + b2z b.
Proof.
  intros Hx. unfold encode_char. cbn [bits_collected accumulator retval outpos].
  rewrite land_schar_255. pose proof (b2z_range b).
  pose proof (push_bits acc 8 8 x (b2z b) ltac:(lia) ltac:(lia) ltac:(lia) Hx ltac:(lia)) as Hp.
  set (A := Z.lor _ _) in *. exists A. split; [|exact Hp].
  clearbody A. change (Z.to_nat (2 + 8)) with 10%nat.
  rewrite (emit_more _ _ _ (2 + 8) _ 16 _ ltac:(lia) ltac:(lia) Hp). by rewrite emit_stop.
Qed.

Lemma encode_char_4 w k acc x c :
  acc mod 2 ^ 16 = x ->
  exists acc',
  encode_char (EncState (w ++ repeat "="%byte (S (S k))) (length w) 4 acc) c =
  Ok (EncState ((w ++ [sextet (x * 2 ^ 8 + b2z c) 6; sextet (x * 2 ^ 8 + b2z c) 0])
        ++ repeat "="%byte k)
        (length (w ++ [sextet (x * 2 ^ 8 + b2z c) 6; sextet (x * 2 ^ 8 + b2z c) 0])) 0 acc').
Proof.
  intros Hx. unfold encode_char. cbn [bits_collected accumulator retval outpos].
  rewrite land_schar_255. pose proof (b2z_range c).
  pose proof (push_bits acc 16 8 x (b2z c) ltac:(lia) ltac:(lia) ltac:(lia) Hx ltac:(lia)) as Hp.
  set (A := Z.lor _ _) in *. exists A.
  clearbody A. change (Z.to_nat (4 + 8)) with 12%nat.
  rewrite (emit_more _ _ _ (4 + 8) _ 24 _ ltac:(lia) ltac:(lia) Hp).
  rewrite (emit_more _ _ _ (4 + 8 - 6) _ 24 _ ltac:(lia) ltac:(lia) Hp).
  rewrite emit_stop by done. by rewrite <- !app_assoc.
Qed.

(** The sextets of a prefix of a block are those of the whole block. *)
Ltac sextet_eq := unfold sextet; f_equal; Z.div_mod_to_equations; lia.

(** Whole blocks leave no pending bits; what is left of the input is shorter than a block. *)
Lemma encode_loop_spec s : forall w k acc,
  (length (b64_ref s) <= k)%nat -> (k < length (b64_ref s) + 1)%nat ->
  exists st,
  encode_loop (EncState (w ++ repeat "="%byte k) (length w) 0 acc) s = Ok st /\
  (if 0 <? bits_collected st then
     st' ← put (EncState (retval st) (outpos st) (bits_collected st)
             (u32 (Z.shiftl (accumulator st) (6 - bits_collected st)))) (bits_collected st)
             (table_at (Z.land (u32 (Z.shiftl (accumulator st) (6 - bits_collected st))) 0x3f));
     Ok (retval st')
   else Ok (retval st)) = Ok (w ++ b64_ref s).
Proof.
  induction s as [|a|a b|a b c r IH] using list_ind3; intros w k acc Hk1 Hk2; cbn [encode_loop].
  - simpl in *. replace k with O by lia. eexists. split; [done|]. by simpl.
  - simpl in Hk1, Hk2. replace k with 4%nat by lia.
    destruct (encode_char_0 w 3 acc a) as (acc' & -> & Hacc). eexists. split; [done|].
    cbn [bits_collected retval outpos accumulator Z.ltb Z.compare].
    pose proof (push_bits acc' 8 4 (b2z a) 0 ltac:(lia) ltac:(lia) ltac:(lia) Hacc ltac:(lia)) as Hp.
    rewrite Z.lor_0_r in Hp. pose proof (b2z_range a).
    change (6 - 2) with 4. rewrite <- (Z.shiftr_0_r (u32 _)) at 2.
    rewrite (sextet_low _ (8 + 4) _ 0 ltac:(lia) ltac:(lia) Hp).
    rewrite put_spec. cbn [mbind result_bind retval]. f_equal. rewrite <- !app_assoc. f_equal.
    cbn [b64_ref app repeat]. f_equal; [sextet_eq|]. f_equal. sextet_eq.
  - simpl in Hk1, Hk2. replace k with 4%nat by lia.
    destruct (encode_char_0 w 3 acc a) as (acc' & -> & Hacc). cbn [mbind result_bind].
    destruct (encode_char_2 (w ++ [sextet (b2z a) 2]) 2 acc' _ b Hacc) as (acc2 & -> & Hacc2).
    eexists. split; [done|].
    cbn [bits_collected retval outpos accumulator Z.ltb Z.compare].
    pose proof (push_bits acc2 16 2 _ 0 ltac:(lia) ltac:(lia) ltac:(lia) Hacc2 ltac:(lia)) as Hp.
    rewrite Z.lor_0_r in Hp. pose proof (b2z_range a). pose proof (b2z_range b).
    change (6 - 4) with 2. rewrite <- (Z.shiftr_0_r (u32 _)) at 2.
    rewrite (sextet_low _ (16 + 2) _ 0 ltac:(lia) ltac:(lia) Hp).
    rewrite put_spec. cbn [mbind result_bind retval]. f_equal. rewrite <- !app_assoc. f_equal.
    cbn [b64_ref app repeat]. f_equal; [sextet_eq|]. f_equal; [sextet_eq|]. f_equal. sextet_eq.
  - cbn [b64_ref app length] in Hk1, Hk2. destruct k as [|[|[|[|k]]]]; try lia.
    destruct (encode_char_0 w (S (S (S k))) acc a) as (acc' & -> & Hacc). cbn [mbind result_bind].
    destruct (encode_char_2 (w ++ [sextet (b2z a) 2]) (S (S k)) acc' _ b Hacc) as (acc2 & -> & Hacc2).
    cbn [mbind result_bind].
    destruct (encode_char_4 ((w ++ [sextet (b2z a) 2]) ++ [sextet (b2z a * 2 ^ 8 + b2z b) 4])
                k acc2 _ c Hacc2) as (acc3 & ->).
    cbn [mbind result_bind].
    destruct (IH (((w ++ [sextet (b2z a) 2]) ++ [sextet (b2z a * 2 ^ 8 + b2z b) 4]) ++
      [sextet ((b2z a * 2 ^ 8 + b2z b) * 2 ^ 8 + b2z c) 6;
       sextet ((b2z a * 2 ^ 8 + b2z b) * 2 ^ 8 + b2z c) 0]) k acc3 ltac:(lia) ltac:(lia))
      as (st & E1 & E2).
    exists st. split; [exact E1|]. rewrite E2. f_equal.
    pose proof (b2z_range a). pose proof (b2z_range b). pose proof (b2z_range c).
    rewrite <- !app_assoc. f_equal. cbn [b64_ref app].
    f_equal; [sextet_eq|]. f_equal; [sextet_eq|]. f_equal; [sextet_eq|]. f_equal. sextet_eq.
Qed.

Lemma b64_ref_length s : len (b64_ref s) = (len s + 2) / 3 * 4.
Proof.
  induction s as [|a|a b|a b c r IH] using list_ind3; [done..|].
  cbn [b64_ref app]. rewrite !len_cons, IH.
  replace (1 + (1 + (1 + len r)) + 2) with (len r + 2 + 1 * 3) by lia.
  rewrite Z.div_add by lia. lia.
Qed.

(** The encoder writes inside its output string and computes the block encoding. *)
Lemma base64_encode_ref s :
  len s <= (2 ^ 64 - 1) / 4 * 3 -> base64_encode s = Ok (b64_ref s).
Proof.
  intros H. unfold base64_encode. rewrite (proj2 (Z.ltb_ge _ _)) by lia.
  pose proof (b64_ref_length s) as Hl. rewrite <- Hl. unfold len at 1. rewrite Nat2Z.id.
  destruct (encode_loop_spec s [] (length (b64_ref s)) 0 ltac:(lia) ltac:(lia))
    as (st & E1 & E2).
  simpl in E1. rewrite E1. cbn [mbind result_bind]. exact E2.
Qed.

(** ** The decoder *)

Lemma decode_sextet bits acc out i m y :
  0 <= i < 64 -> 0 <= m -> m + 6 <= 32 -> bits + 6 <= m + 6 -> acc mod 2 ^ m = y ->
  exists acc', acc' mod 2 ^ (m + 6) = y * 2 ^ 6 + i /\
  decode_char bits acc out (table_at i) =
  if 8 <=? bits + 6
  then Ok (bits - 2, acc', out ++ [z2b (((y * 2 ^ 6 + i) / 2 ^ (bits - 2)) mod 256)])
  else Ok (bits + 6, acc', out).
Proof.
  intros Hi Hm Hm2 Hb Hy. destruct (reverse_table_at i Hi) as (H1 & [H2 H3] & H4).
  pose proof (push_bits acc m 6 y i ltac:(lia) ltac:(lia) ltac:(lia) Hy ltac:(lia)) as Hp.
  unfold decode_char. rewrite H1, (proj2 (Z.ltb_ge _ _) H3), (proj2 (Z.ltb_ge _ _) H2), H4.
  rewrite (proj2 (Z.ltb_ge 63 i)) by lia. cbn [orb].
  set (A := Z.lor _ _) in *. clearbody A. exists A. split; [done|].
  destruct (Z.leb_spec 8 (bits + 6)); [|done].
  replace (bits + 6 - 8) with (bits - 2) by lia. rewrite Z.shiftr_div_pow2 by lia.
  change 0xff with (2 ^ 8 - 1). rewrite land_mask by lia.
  rewrite (low_bits A (m + 6) _ 8), Hp by lia. done.
Qed.

Lemma decode_pad bits acc out : decode_char bits acc out "="%byte = Ok (bits, acc, out).
Proof. done. Qed.

Lemma decode_loop_cons bits acc out c rest :
  decode_loop bits acc out (c :: rest) =
  ('(bits', acc', out') ← decode_char bits acc out c; decode_loop bits' acc' out' rest).
Proof. done. Qed.

Lemma sextet_range v k : 0 <= (v / 2 ^ k) mod 64 < 64.
Proof. apply Z.mod_pos_bound. lia. Qed.

(** The first two and the third and fourth sextets of a block. *)
Lemma decode_first v acc out :
  0 <= v < 2 ^ 24 ->
  exists acc', acc' mod 2 ^ 12 = v / 2 ^ 12 /\
  forall rest, decode_loop 0 acc out (sextet v 18 :: sextet v 12 :: rest) =
               decode_loop 4 acc' (out ++ [z2b (v / 2 ^ 16)]) rest.
Proof.
  intros Hv.
  destruct (decode_sextet 0 acc out _ 0 0 (sextet_range v 18)) as (a1 & Ha1 & E1); try lia.
  { apply Z.mod_1_r. }
  destruct (decode_sextet 6 a1 out _ 6 _ (sextet_range v 12) ltac:(lia) ltac:(lia) ltac:(lia) Ha1)
    as (a2 & Ha2 & E2).
  exists a2. split.
  - change (2 ^ (6 + 6)) with (2 ^ 12) in Ha2. rewrite Ha2. Z.div_mod_to_equations. lia.
  - intros rest. unfold sextet. rewrite decode_loop_cons, E1.
    change (8 <=? 0 + 6) with false. cbn [mbind result_bind].
    rewrite decode_loop_cons. change (0 + 6) with 6. rewrite E2.
    change (8 <=? 6 + 6) with true. cbn [mbind result_bind].
    change (6 - 2) with 4. do 4 f_equal. Z.div_mod_to_equations. lia.
Qed.

Lemma decode_third v acc out :
  0 <= v < 2 ^ 24 -> acc mod 2 ^ 12 = v / 2 ^ 12 ->
  exists acc', acc' mod 2 ^ 18 = v / 2 ^ 6 /\
  forall rest, decode_loop 4 acc out (sextet v 6 :: rest) =
               decode_loop 2 acc' (out ++ [z2b ((v / 2 ^ 8) mod 256)]) rest.
Proof.
  intros Hv Ha.
  destruct (decode_sextet 4 acc out _ 12 _ (sextet_range v 6) ltac:(lia) ltac:(lia) ltac:(lia) Ha)
    as (a1 & Ha1 & E1).
  exists a1. split.
  - change (2 ^ (12 + 6)) with (2 ^ 18) in Ha1. rewrite Ha1. Z.div_mod_to_equations. lia.
  - intros rest. unfold sextet. rewrite decode_loop_cons, E1.
    change (8 <=? 4 + 6) with true. cbn [mbind result_bind].
    change (4 - 2) with 2. do 4 f_equal. Z.div_mod_to_equations. lia.
Qed.

Lemma decode_fourth v acc out :
  0 <= v < 2 ^ 24 -> acc mod 2 ^ 18 = v / 2 ^ 6 ->
  exists acc',
  forall rest, decode_loop 2 acc out (sextet v 0 :: rest) =
               decode_loop 0 acc' (out ++ [z2b (v mod 256)]) rest.
Proof.
  intros Hv Ha.
  destruct (decode_sextet 2 acc out _ 18 _ (sextet_range v 0) ltac:(lia) ltac:(lia) ltac:(lia) Ha)
    as (a1 & Ha1 & E1).
  exists a1. intros rest. unfold sextet. rewrite decode_loop_cons, E1.
  change (8 <=? 2 + 6) with true. cbn [mbind result_bind].
  change (2 - 2) with 0. do 4 f_equal. Z.div_mod_to_equations. lia.
Qed.

Lemma z2b_eq b z : z = b2z b -> z2b z = b.
Proof. intros ->. apply z2b_b2z. Qed.

Ltac byte_eq := apply z2b_eq; Z.div_mod_to_equations; lia.

Lemma decode_ref s : forall acc out, decode_loop 0 acc out (b64_ref s) = Ok (out ++ s).
Proof.
  induction s as [|a|a b|a b c r IH] using list_ind3; intros acc out; cbn [b64_ref app].
  - by rewrite app_nil_r.
  - pose proof (b2z_range a). set (v := b2z a * 2 ^ 16).
    destruct (decode_first v acc out ltac:(lia)) as (a1 & _ & ->).
    do 2 (rewrite decode_loop_cons, decode_pad; cbn [mbind result_bind]).
    cbn [decode_loop]. do 3 f_equal. byte_eq.
  - pose proof (b2z_range a). pose proof (b2z_range b).
    set (v := b2z a * 2 ^ 16 + b2z b * 2 ^ 8).
    destruct (decode_first v acc out ltac:(lia)) as (a1 & Ha1 & ->).
    destruct (decode_third v a1 (out ++ [z2b (v / 2 ^ 16)]) ltac:(lia) Ha1) as (a2 & _ & ->).
    rewrite decode_loop_cons, decode_pad. cbn [mbind result_bind decode_loop].
    f_equal. rewrite <- app_assoc. f_equal. cbn [app]. f_equal; [byte_eq|]. f_equal. byte_eq.
  - pose proof (b2z_range a). pose proof (b2z_range b). pose proof (b2z_range c).
    set (v := b2z a * 2 ^ 16 + b2z b * 2 ^ 8 + b2z c).
    destruct (decode_first v acc out ltac:(lia)) as (a1 & Ha1 & ->).
    destruct (decode_third v a1 (out ++ [z2b (v / 2 ^ 16)]) ltac:(lia) Ha1) as (a2 & Ha2 & ->).
    edestruct (decode_fourth v a2 ((out ++ [z2b (v / 2 ^ 16)]) ++ [z2b ((v / 2 ^ 8) mod 256)])
      ltac:(lia) Ha2) as (a3 & E3).
    rewrite E3, IH.
    f_equal. rewrite <- !app_assoc. f_equal. cbn [app].
    f_equal; [byte_eq|]. f_equal; [byte_eq|]. f_equal. byte_eq.
Qed.

(** For every string up to the size check, the encoder writes only inside its
    output string, returns four characters per started group of three bytes, and the
    decoder gives the string back. *)
Theorem base64_roundtrip s :
  len s <= (2 ^ 64 - 1) / 4 * 3 ->
  exists t, base64_encode s = Ok t /\ len t = (len s + 2) / 3 * 4 /\ base64_decode t = Ok s.
Proof.
  intros H. exists (b64_ref s). split; [by apply base64_encode_ref|].
  split; [apply b64_ref_length|apply decode_ref].
Qed.

Lemma base64_roundtrip_witness :
  len (lit "user:secret") <= (2 ^ 64 - 1) / 4 * 3 /\
  exists t, base64_encode (lit "user:secret") = Ok t /\
    len t = (len (lit "user:secret") + 2) / 3 * 4 /\ base64_decode t = Ok (lit "user:secret").
Proof.
  assert (H : len (lit "user:secret") <= (2 ^ 64 - 1) / 4 * 3) by (vm_compute; discriminate).
  split; [exact H|exact (base64_roundtrip (lit "user:secret") H)].
Defined.

(** The encoder's output has no separators in it. *)
Definition b64_printable (c : byte) : bool := negb (isspace c) && negb (beqb c Byte.x00).

Lemma sextet_printable v k : b64_printable (sextet v k) = true.
Proof.
  assert (H : forallb (fun n => b64_printable (table_at (Z.of_nat n))) (seq 0 64) = true) by reflexivity.
  rewrite forallb_forall in H. unfold sextet.
  pose proof (Z.mod_pos_bound (v / 2 ^ k) 64 ltac:(lia)) as Hb. set (i := _ mod 64) in *.
  specialize (H (Z.to_nat i)). rewrite in_seq, Z2Nat.id in H by lia. apply H. lia.
Qed.

Lemma b64_ref_printable s : forallb b64_printable (b64_ref s) = true.
Proof.
  induction s as [|a|a b|a b c r IH] using list_ind3; cbn [b64_ref app forallb];
    rewrite ?sextet_printable; [reflexivity..|exact IH].
Qed.

Lemma base64_encode_chars s t :
  base64_encode s = Ok t -> forallb b64_printable t = true /\ base64_decode t = Ok s.
Proof.
  intros E. assert (H : len s <= (2 ^ 64 - 1) / 4 * 3).
  { unfold base64_encode in E. destruct (_ <? len s) eqn:Hl in E; [done|]. by apply Z.ltb_ge. }
  rewrite (base64_encode_ref s H) in E. injection E as <-.
  split; [apply b64_ref_printable|apply decode_ref].
Qed.

Lemma printable_mem c s : b64_printable c = false -> forallb b64_printable s = true -> mem c s = false.
Proof.
  intros Hc Hs. destruct (mem c s) eqn:E; [|done]. apply mem_elem, list_elem_of_In in E.
  rewrite forallb_forall in Hs. apply Hs in E. congruence.
Qed.

(** The characters the decoder takes: the alphabet, white space and the padding. *)
Definition b64_legal (c : byte) : bool := isspace c || beqb c "="%byte || mem c b64_table.

Lemma decode_char_legal bits acc out c :
  b64_legal c = true -> exists st, decode_char bits acc out c = Ok st.
Proof.
  unfold b64_legal, decode_char. intros H.
  destruct (isspace c || beqb c "="%byte) eqn:E1; [eauto|].
  assert (Hc : ((127 <? schar c) || (schar c <? 0) ||
     (63 <? nth (Z.to_nat (schar c)) reverse_table 64)) = false).
  { apply negb_true_iff.
    assert (Hall : (negb (negb (isspace c || beqb c "="%byte) &&
        (isspace c || beqb c "="%byte || mem c b64_table)) ||
        negb ((127 <? schar c) || (schar c <? 0) ||
          (63 <? nth (Z.to_nat (schar c)) reverse_table 64))) = true) by by_bytes c.
    rewrite E1 in Hall. cbn [orb] in H, Hall. rewrite H in Hall. exact Hall. }
  rewrite Hc. destruct (8 <=? bits + 6); eauto.
Qed.

Lemma decode_char_illegal bits acc out c :
  b64_legal c = false -> decode_char bits acc out c = Throw (InvalidArgument
    (lit "This contains characters not legal in a base64 encoded string.")).
Proof.
  unfold b64_legal, decode_char. rewrite orb_false_iff. intros [H1 H2]. rewrite H1.
  assert (Hc : ((127 <? schar c) || (schar c <? 0) ||
     (63 <? nth (Z.to_nat (schar c)) reverse_table 64)) = true).
  { assert (Hall : (((127 <? schar c) || (schar c <? 0) ||
          (63 <? nth (Z.to_nat (schar c)) reverse_table 64)) ||
          (isspace c || beqb c "="%byte || mem c b64_table)) = true) by by_bytes c.
    rewrite H1, H2, orb_false_r in Hall. exact Hall. }
  by rewrite Hc.
Qed.

(** the decoder throws exactly on a text with a character outside the alphabet,
    white space and [=]; on every other text, whatever its length or padding, it
    returns. *)
Theorem base64_decode_total t :
  (exists s, base64_decode t = Ok s) <-> forallb b64_legal t = true.
Proof.
  unfold base64_decode.
  enough (H : forall bits acc out,
    (exists s, decode_loop bits acc out t = Ok s) <-> forallb b64_legal t = true) by apply H.
  induction t as [|c t IH]; intros bits acc out; simpl.
  - split; eauto.
  - destruct (b64_legal c) eqn:E; simpl.
    + destruct (decode_char_legal bits acc out c E) as ([[b a] o] & ->). apply IH.
    + rewrite decode_char_illegal by done. simpl. split; [intros [? ?]; done|done].
Qed.

(** ** The digest in hexadecimal *)

(** [hexMD5] renders 16 digest bytes as 32 characters, and distinct digests differ. *)
Lemma hexMD5_inj (md5 : bytes -> bytes) k1 k2 :
  length (md5 k1) = 16%nat -> length (md5 k2) = 16%nat ->
  hexMD5 md5 k1 = hexMD5 md5 k2 -> md5 k1 = md5 k2.
Proof.
  unfold hexMD5. intros H1 H2. rewrite !take_ge by lia.
  revert H1 H2. generalize (md5 k1) (md5 k2). clear. intros d1. generalize 16%nat.
  induction d1 as [|a d1 IH]; intros n [|b d2] H1 H2 H; simpl in *; try lia; [done|].
  destruct n as [|n]; [done|]. injection H as Ha Hb H.
  f_equal; [|apply (IH n); try lia; done].
  assert (Hinj : forallb (fun x => forallb (fun y => implb
      (beqb (alpha (Z.shiftr (Z.land (b2z x) 0xf0) 4)) (alpha (Z.shiftr (Z.land (b2z y) 0xf0) 4)) &&
       beqb (alpha (Z.land (b2z x) 0xf)) (alpha (Z.land (b2z y) 0xf))) (beqb x y))
      all_bytes) all_bytes = true) by (vm_compute; reflexivity).
  rewrite forallb_forall in Hinj. specialize (Hinj a ltac:(apply list_elem_of_In, elem_of_all_bytes)).
  rewrite forallb_forall in Hinj. specialize (Hinj b ltac:(apply list_elem_of_In, elem_of_all_bytes)).
  rewrite Ha, Hb, !beqb_refl in Hinj. by apply beqb_true in Hinj.
Qed.
End Base64.
