(* ===== verification/Buffer.v ===== *)
(** * Buffer

    [include/fastcgi3/data_buffer.h], [library/data_buffer.cpp] and the interface
    [include/details/data_buffer_impl.h] behind it, with the in-memory
    implementation [library/string_buffer.cpp].

    A [DataBuffer] is a view: a shared pointer to an implementation object and two
    64-bit indices. Several views share one object (the parser cuts a request body
    into many), so the objects live in a store and every operation takes it. The
    implementation is a type class: its operations are what [DataBuffer] calls, its
    laws say that the object stores a byte string. *)

From S2P Require Import Prelude Cxx Ranges.

(** ** The implementation interface *)

Class DataBufferImpl (I : Type) := {
  impl_read : I -> Z -> Z -> result bytes;
  impl_write : I -> Z -> bytes -> result I;
  impl_at : I -> Z -> result byte;
  impl_find : I -> Z -> Z -> bytes -> result Z;
  impl_trim : I -> Z -> Z -> result (Z * Z);
  impl_chunk : I -> Z -> result bytes;
  impl_segment : I -> Z -> Z * Z;
  impl_size : I -> Z;
  impl_resize : I -> Z -> result I
}.

(** [resize] of a byte vector: cut, or extended with zeros. *)
Definition resize_bytes (l : bytes) (n : Z) : bytes :=
  take (Z.to_nat n) l ++ repeat Byte.x00 (Z.to_nat n - length l).

(** What [DataBuffer] relies on: a well-formed object holds [contents], smaller than
    2^63 bytes, and stays well-formed. *)
Class DataBufferImplOk (I : Type) `{DataBufferImpl I} (wf : I -> Prop) (contents : I -> bytes) := {
  ok_small i : wf i -> len (contents i) < 2 ^ 63;
  ok_size i : wf i -> impl_size i = len (contents i);
  ok_read i pos n :
    wf i -> 0 <= pos -> 0 <= n -> pos + n <= len (contents i) ->
    impl_read i pos n = Ok (slice (contents i) pos (pos + n));
  ok_write i pos d :
    wf i -> 0 <= pos -> pos + len d <= len (contents i) ->
    exists i', impl_write i pos d = Ok i' /\ wf i' /\
      contents i' = overwrite (contents i) pos d;
  ok_at i pos :
    wf i -> 0 <= pos < len (contents i) ->
    exists b, contents i !! Z.to_nat pos = Some b /\ impl_at i pos = Ok b;
  ok_find i b e sub :
    wf i -> 0 <= b -> b < e -> e <= len (contents i) ->
    impl_find i b e sub = Ok (b + Z.of_nat (search (slice (contents i) b e) sub));
  ok_segment i pos :
    wf i -> 0 <= pos < len (contents i) ->
    (impl_segment i pos).1 = pos /\ pos < (impl_segment i pos).2;
  ok_chunk i pos :
    wf i -> 0 <= pos < len (contents i) ->
    impl_chunk i pos =
      Ok (slice (contents i) pos (Z.min (impl_segment i pos).2 (len (contents i))));
  ok_resize i n :
    wf i -> 0 <= n < 2 ^ 62 ->
    exists i', impl_resize i n = Ok i' /\ wf i' /\ contents i' = resize_bytes (contents i) n
}.

(** ** StringBuffer *)

Module StringBuffer.

(** The vector behind [data_]; [getCopy] shares it, so a copy is the same object. *)
Record t := StringBuffer { data_ : bytes }.

Definition create (data : bytes) : t := StringBuffer data.

(** [memcpy] from or into the vector: undefined outside it. *)
Definition in_vector (s : t) (pos n : Z) : bool :=
  (0 <=? pos) && (0 <=? n) && (pos + n <=? len (data_ s)).

Definition read (s : t) (pos n : Z) : result bytes :=
  if in_vector s pos n then Ok (slice (data_ s) pos (pos + n)) else Undef.

Definition write (s : t) (pos : Z) (data : bytes) : result t :=
  if in_vector s pos (len data)
  then Ok (StringBuffer (overwrite (data_ s) pos data)) else Undef.

(** [vector::at] checks its index. *)
Definition at_ (s : t) (pos : Z) : result byte :=
  if pos <? 0 then Throw (OutOfRange (lit "vector::_M_range_check"))
  else match data_ s !! Z.to_nat pos with
       | Some b => Ok b
       | None => Throw (OutOfRange (lit "vector::_M_range_check"))
       end.

Definition find (s : t) (b e : Z) (buf : bytes) : result Z :=
  if u64 (e - b) <? len buf then Ok e
  else if in_vector s b (e - b) && (b <=? e)
  then Ok (b + Z.of_nat (Range.find (slice (data_ s) b e) buf))
  else Undef.

Definition trim (s : t) (b e : Z) : result (Z * Z) :=
  if in_vector s b (e - b) && (b <=? e) then
    let base := slice (data_ s) b e in
    let lead := len base - len (drop_while isspace base) in
    Ok (b + lead, b + lead + len (Range.trim base))
  else Undef.

Definition size (s : t) : Z := len (data_ s).

Definition chunk (s : t) (pos : Z) : result bytes :=
  if in_vector s pos (size s - pos) then Ok (slice (data_ s) pos (size s)) else Undef.

Definition segment (s : t) (pos : Z) : Z * Z := (pos, size s).

(** [vector::resize] refuses more than [max_size()], 2^63 - 1 elements. *)
Definition resize (s : t) (n : Z) : result t :=
  if 2 ^ 63 <=? n then Throw (LengthError (lit "vector::_M_default_append"))
  else Ok (StringBuffer (resize_bytes (data_ s) n)).

End StringBuffer.

#[export] Instance string_buffer_impl : DataBufferImpl StringBuffer.t := {
  impl_read := StringBuffer.read;
  impl_write := StringBuffer.write;
  impl_at := StringBuffer.at_;
  impl_find := StringBuffer.find;
  impl_trim := StringBuffer.trim;
  impl_chunk := StringBuffer.chunk;
  impl_segment := StringBuffer.segment;
  impl_size := StringBuffer.size;
  impl_resize := StringBuffer.resize
}.

(** A vector never holds more than [max_size()] elements. *)
Definition string_wf (s : StringBuffer.t) : Prop := len (StringBuffer.data_ s) < 2 ^ 63.

#[export] Instance string_buffer_ok :
  DataBufferImplOk StringBuffer.t string_wf StringBuffer.data_.
Proof.
  split; unfold impl_read, impl_write, impl_at, impl_find, impl_chunk, impl_segment,
    impl_size, impl_resize, string_buffer_impl; intros i.
  - done.
  - done.
  - intros pos n ????. unfold StringBuffer.read, StringBuffer.in_vector.
    by rewrite !(proj2 (Z.leb_le _ _)) by lia.
  - intros pos d Hw ??. unfold StringBuffer.write, StringBuffer.in_vector.
    pose proof (len_nonneg d). rewrite !(proj2 (Z.leb_le _ _)) by lia. simpl.
    eexists. split; [done|]. unfold string_wf in *. cbn. split; [|done].
    by rewrite overwrite_len.
  - intros pos ? [??]. unfold StringBuffer.at_. rewrite (proj2 (Z.ltb_ge _ _)) by lia.
    destruct (lookup_lt_is_Some_2 (StringBuffer.data_ i) (Z.to_nat pos)) as [b Hb].
    { unfold len in *. lia. }
    exists b. by rewrite Hb.
  - intros b e sub Hw ???. unfold StringBuffer.find, StringBuffer.in_vector, string_wf in *.
    rewrite u64_small by lia. rewrite Range.find_search.
    pose proof (slice_len (StringBuffer.data_ i) b e ltac:(lia) ltac:(lia) ltac:(lia)) as Hsl.
    destruct (Z.ltb_spec (e - b) (len sub)) as [Hl|Hl].
    + f_equal. destruct (search_found (slice (StringBuffer.data_ i) b e) sub) as [Hs|[Hs _]].
      * apply starts_with_length in Hs. rewrite length_drop in Hs. unfold len in *. lia.
      * rewrite Hs. unfold len in *. lia.
    + by rewrite !(proj2 (Z.leb_le _ _)) by lia.
  - intros pos ??. unfold StringBuffer.segment, StringBuffer.size. simpl. lia.
  - intros pos ??. unfold StringBuffer.chunk, StringBuffer.segment, StringBuffer.in_vector,
      StringBuffer.size. simpl.
    rewrite !(proj2 (Z.leb_le _ _)) by lia. simpl. by rewrite Z.min_id.
  - intros n ? [??]. unfold StringBuffer.resize. rewrite (proj2 (Z.leb_gt _ _)) by lia.
    eexists. split; [done|]. split; [|done]. unfold string_wf. cbn. unfold resize_bytes, len.
    rewrite length_app, length_take, repeat_length. lia.
Qed.

(** ** DataBuffer *)

Record DataBuffer := MkDataBuffer {
  data_ : option nat;
  begin_ : Z;
  end_ : Z
}.

#[export] Instance DataBuffer_eq_dec : EqDecision DataBuffer.
Proof. solve_decision. Defined.

Module Buf.
Section Ops.
Context {I : Type} `{DataBufferImpl I}.
Implicit Types h : gmap nat I.

(** [DataBuffer()] *)
Definition nil : DataBuffer := MkDataBuffer None 0 0.

(** Dereferencing the shared pointer. *)
Definition deref h (d : DataBuffer) : result I :=
  match data_ d with
  | Some l => match h !! l with Some i => Ok i | None => Undef end
  | None => Undef
  end.

Definition size (d : DataBuffer) : Z := u64 (end_ d - begin_ d).

Definition isNil (d : DataBuffer) : bool := bool_decide (data_ d = None).

Definition empty (d : DataBuffer) : bool := isNil d || (begin_ d =? end_ d).

(** [create(impl)]: a new object and the view of all of it. *)
Definition create h (i : I) : gmap nat I * DataBuffer :=
  let l := fresh (dom h) in
  (<[l := i]> h, MkDataBuffer (Some l) 0 (impl_size i)).

(** [DataBuffer(buffer, begin, end)] *)
Definition view h (buffer : DataBuffer) (b e : Z) : result DataBuffer :=
  i ← deref h buffer;
  if impl_size i <? e then Throw (OutOfRange (lit "Incorrect index"))
  else Ok (MkDataBuffer (data_ buffer) b e).

Definition checkIndex (d : DataBuffer) (index : Z) : result unit :=
  if (index =? 0) && (begin_ d =? 0) && (end_ d =? 0) then Ok tt
  else if (index <? begin_ d) || (end_ d <=? index)
  then Throw (OutOfRange (lit "Incorrect index")) else Ok tt.

Definition read h (d : DataBuffer) (pos n : Z) : result bytes :=
  if size d <=? pos then Ok []
  else i ← deref h d;
       impl_read i (u64 (pos + begin_ d)) (Z.min (u64 (size d - pos)) n).

(** The store after the write and the number of bytes written. *)
Definition write h (d : DataBuffer) (pos : Z) (data : bytes) : result (gmap nat I * Z) :=
  if size d <=? pos then Ok (h, 0)
  else
    i ← deref h d;
    let n := Z.min (u64 (size d - pos)) (len data) in
    i' ← impl_write i (u64 (pos + begin_ d)) (take (Z.to_nat n) data);
    match data_ d with
    | Some l => Ok (<[l := i']> h, n)
    | None => Undef
    end.

Definition resize h (d : DataBuffer) (n : Z) : result (gmap nat I * DataBuffer) :=
  i ← deref h d;
  i' ← impl_resize i (u64 (begin_ d + n));
  match data_ d with
  | Some l => Ok (<[l := i']> h, MkDataBuffer (data_ d) (begin_ d) (u64 (begin_ d + n)))
  | None => Undef
  end.

Definition at_ h (d : DataBuffer) (pos : Z) : result byte :=
  checkIndex d (u64 (begin_ d + pos)) ≫= fun _ =>
  i ← deref h d; impl_at i (u64 (begin_ d + pos)).

Definition find h (d : DataBuffer) (pos : Z) (buf : bytes) : result Z :=
  checkIndex d pos ≫= fun _ =>
  i ← deref h d;
  r ← impl_find i pos (end_ d) buf;
  Ok (u64 (r - begin_ d)).

Definition trim h (d : DataBuffer) : result DataBuffer :=
  if empty d then Ok d
  else i ← deref h d;
       '(b, e) ← impl_trim i (begin_ d) (end_ d);
       Ok (MkDataBuffer (data_ d) b e).

Definition trimn (d : DataBuffer) (b e : Z) : DataBuffer :=
  if empty d then d
  else
    let b' := u64 (begin_ d + b) in
    if end_ d <=? b' then MkDataBuffer (data_ d) (end_ d) (end_ d)
    else MkDataBuffer (data_ d) b' (Z.max (u64 (end_ d - e)) b').

(** The two parts and the flag; when nothing is found the second part is the empty
    view at index 0 of the same object. *)
Definition split h (d : DataBuffer) (delim : bytes) : result (DataBuffer * DataBuffer * bool) :=
  let second := MkDataBuffer (data_ d) 0 0 in
  if empty d then Ok (d, second, false)
  else
    res ← find h d (begin_ d) delim;
    if res =? size d then Ok (d, second, false)
    else
      let m := u64 (begin_ d + res) in
      Ok (MkDataBuffer (data_ d) (begin_ d) m,
          MkDataBuffer (data_ d) (u64 (m + len delim)) (end_ d), true).

Definition split_char h (d : DataBuffer) (delim : byte) : result (DataBuffer * DataBuffer * bool) :=
  let second := MkDataBuffer (data_ d) 0 0 in
  if empty d then Ok (d, second, false)
  else
    res ← find h d (begin_ d) [delim];
    if res =? size d then Ok (d, second, false)
    else
      let m := u64 (begin_ d + res) in
      Ok (MkDataBuffer (data_ d) (begin_ d) m,
          MkDataBuffer (data_ d) (u64 (m + 1)) (end_ d), true).

(** The comparison loops: [data[i]] against [at(i)] from index [i] on. *)
Fixpoint match_from (eqc : byte -> byte -> bool) h (d : DataBuffer) (data : bytes) (i : Z)
    : result bool :=
  match data with
  | [] => Ok true
  | c :: data' =>
      b ← at_ h d i;
      if eqc c b then match_from eqc h d data' (i + 1) else Ok false
  end.

Definition eqc_ci (a b : byte) : bool := beqb (tolower a) (tolower b).

Definition startsWith h (d : DataBuffer) (data : bytes) : result bool :=
  if size d <? len data then Ok false else match_from beqb h d data 0.

Definition startsWithCI h (d : DataBuffer) (data : bytes) : result bool :=
  if size d <? len data then Ok false else match_from eqc_ci h d data 0.

(** From the end: [data[data_size - i]] against [at(sz - i)]. *)
Fixpoint match_back (eqc : byte -> byte -> bool) h (d : DataBuffer) (rdata : bytes) (i : Z)
    : result bool :=
  match rdata with
  | [] => Ok true
  | c :: rdata' =>
      b ← at_ h d (u64 (size d - i));
      if eqc c b then match_back eqc h d rdata' (i + 1) else Ok false
  end.

Definition endsWith h (d : DataBuffer) (data : bytes) : result bool :=
  if size d <? len data then Ok false else match_back beqb h d (rev data) 1.

Definition endsWithCI h (d : DataBuffer) (data : bytes) : result bool :=
  if size d <? len data then Ok false else match_back eqc_ci h d (rev data) 1.

(** The segment iterator: the positions and bytes [operator*] yields from [pos_begin]
    until [pos_end] reaches the end of the view. *)
Fixpoint chunks_from (fuel : nat) (i : I) (e pos_begin : Z) : result (list (Z * bytes)) :=
  match fuel with
  | O => Ok []
  | S n =>
      c ← impl_chunk i pos_begin;
      let c' := take (Z.to_nat (Z.min (len c) (u64 (e - pos_begin)))) c in
      let pos_end := Z.min (impl_segment i pos_begin).2 e in
      if e <=? pos_end then Ok [(pos_begin, c')]
      else rest ← chunks_from n i e pos_end; Ok ((pos_begin, c') :: rest)
  end.

Definition chunks h (d : DataBuffer) : result (list (Z * bytes)) :=
  if empty d then Ok []
  else i ← deref h d; chunks_from (S (Z.to_nat (end_ d - begin_ d))) i (end_ d) (begin_ d).

Definition toString h (d : DataBuffer) : result bytes :=
  l ← chunks h d; Ok (flat_map snd l).
End Ops.
End Buf.

(** ** What a view denotes *)

Section View.
Context {I : Type} `{DataBufferImplOk I wf contents}.
Implicit Types h : gmap nat I.
Implicit Types d : DataBuffer.

(** [d] is a view of the bytes [s]: its object is in the store and its indices are
    inside the object. Every view the library makes from a live buffer is one. *)
Definition denotes h d (s : bytes) : Prop :=
  exists l i, data_ d = Some l /\ h !! l = Some i /\ wf i /\
    0 <= begin_ d /\ begin_ d <= end_ d /\ end_ d <= len (contents i) /\
    s = slice (contents i) (begin_ d) (end_ d).

(** The view of the bytes from [b] to [e] of the object. *)
Definition sub_view d (b e : Z) : DataBuffer := MkDataBuffer (data_ d) b e.

Lemma denotes_deref h d s :
  denotes h d s -> exists i, Buf.deref h d = Ok i /\ wf i /\
    0 <= begin_ d /\ begin_ d <= end_ d /\ end_ d <= len (contents i) /\
    len (contents i) < 2 ^ 63 /\ s = slice (contents i) (begin_ d) (end_ d).
Proof.
  intros (l & i & Hd & Hl & Hw & ?). exists i. unfold Buf.deref. rewrite Hd, Hl.
  pose proof (ok_small i Hw). intuition.
Qed.

Lemma denotes_len h d s : denotes h d s -> len s = end_ d - begin_ d.
Proof. intros (l & i & ? & ? & ? & ? & ? & ? & ->). apply slice_len; lia. Qed.

Lemma denotes_size h d s : denotes h d s -> Buf.size d = len s.
Proof.
  intros Hd. rewrite (denotes_len _ _ _ Hd).
  destruct Hd as (l & i & ? & ? & Hw & ? & ? & ? & _). apply u64_small.
  pose proof (ok_small i Hw). lia.
Qed.

Lemma denotes_bounds h d s :
  denotes h d s -> 0 <= begin_ d /\ begin_ d <= end_ d /\ end_ d < 2 ^ 63.
Proof. intros (l & i & ? & ? & Hw & ? & ? & ? & _). pose proof (ok_small i Hw). lia. Qed.

Lemma denotes_empty h d s : denotes h d s -> Buf.empty d = Range.empty s.
Proof.
  intros Hd. pose proof (denotes_len _ _ _ Hd) as Hl.
  destruct Hd as (l & i & Hd & ? & ? & ? & ? & ? & _).
  unfold Buf.empty, Buf.isNil. rewrite Hd. simpl.
  destruct s; [rewrite len_nil in Hl|rewrite len_cons in Hl; pose proof (len_nonneg s)]; simpl; lia.
Qed.

Lemma denotes_fun h d s t : denotes h d s -> denotes h d t -> s = t.
Proof.
  intros (l & i & Hd & Hl & ? & ? & ? & ? & ->) (l' & i' & Hd' & Hl' & ? & ? & ? & ? & ->).
  congruence.
Qed.

Lemma denotes_sub h d s b e :
  denotes h d s -> 0 <= b -> b <= e -> e <= len s ->
  denotes h (MkDataBuffer (data_ d) (begin_ d + b) (begin_ d + e)) (slice s b e).
Proof.
  intros Hd Hb He Hl. pose proof (denotes_len _ _ _ Hd) as HL.
  destruct Hd as (l & i & Hd & Hi & ? & ? & ? & ? & ->).
  exists l, i. cbn [data_ begin_ end_]. repeat split; try done; try lia.
  rewrite slice_slice by lia. done.
Qed.

Lemma denotes_view_end h d s e b :
  denotes h d s -> b = e -> 0 <= b -> b <= end_ d ->
  denotes h (MkDataBuffer (data_ d) b e) [].
Proof.
  intros (l & i & Hd & Hi & ? & ? & ? & ? & ->) -> ??.
  exists l, i. cbn [data_ begin_ end_]. repeat split; try done; try lia.
  by rewrite slice_empty by lia.
Qed.

Lemma create_denotes h i :
  wf i -> denotes (Buf.create h i).1 (Buf.create h i).2 (contents i).
Proof.
  intros Hl. unfold Buf.create. cbn [fst snd]. exists (fresh (dom h)), i.
  pose proof (len_nonneg (contents i)). rewrite (ok_size i) by done.
  cbn [data_ begin_ end_]. repeat split; try done.
  - apply lookup_insert_eq.
  - by rewrite slice_full.
Qed.

(** A new object does not disturb the views of the others. *)
Lemma create_frame h i d s :
  denotes h d s -> denotes (Buf.create h i).1 d s.
Proof.
  intros (l & j & Hd & Hl & Hr). exists l, j. split; [done|]. split; [|done].
  unfold Buf.create. cbn [fst]. rewrite lookup_insert_ne; [done|].
  intros E. pose proof (is_fresh (dom h)) as F. rewrite E in F.
  apply F. by apply elem_of_dom_2 in Hl.
Qed.

Lemma at_denotes h d s k c :
  denotes h d s -> 0 <= k -> s !! Z.to_nat k = Some c -> Buf.at_ h d k = Ok c.
Proof.
  intros Hd Hk Hc. pose proof (denotes_len _ _ _ Hd) as HL.
  pose proof (lookup_lt_Some _ _ _ Hc) as Hlt. unfold len in HL.
  destruct (denotes_deref _ _ _ Hd) as (i & Hi & Hw & ? & ? & ? & ? & Hs).
  unfold Buf.at_, Buf.checkIndex. rewrite u64_small by lia.
  assert (E : ((begin_ d + k =? 0) && (begin_ d =? 0) && (end_ d =? 0)) = false) by lia.
  rewrite E. clear E.
  assert (E : ((begin_ d + k <? begin_ d) || (end_ d <=? begin_ d + k)) = false) by lia.
  rewrite E. clear E. cbn [mbind result_bind]. rewrite Hi. cbn [mbind result_bind].
  destruct (ok_at i (begin_ d + k)) as (b & Hb & ->); [done|lia|].
  subst s. unfold slice in Hc.
  rewrite lookup_take_lt in Hc by lia. rewrite lookup_drop in Hc.
  replace (Z.to_nat (begin_ d) + Z.to_nat k)%nat with (Z.to_nat (begin_ d + k)) in Hc by lia.
  congruence.
Qed.

(** [at] beyond the end of the view throws, whatever the object holds there. *)
Lemma at_beyond h d s k :
  denotes h d s -> 0 < end_ d -> len s <= k -> k < 2 ^ 63 ->
  Buf.at_ h d k = Throw (OutOfRange (lit "Incorrect index")).
Proof.
  intros Hd Hpos Hk Hk'. pose proof (denotes_len _ _ _ Hd) as HL.
  pose proof (denotes_bounds _ _ _ Hd). unfold Buf.at_, Buf.checkIndex.
  rewrite u64_small by lia.
  assert (E : ((begin_ d + k =? 0) && (begin_ d =? 0) && (end_ d =? 0)) = false) by lia.
  rewrite E. clear E.
  assert (E : ((begin_ d + k <? begin_ d) || (end_ d <=? begin_ d + k)) = true) by lia.
  by rewrite E.
Qed.

Lemma find_denotes h d s sub :
  denotes h d s -> s <> [] -> Buf.find h d (begin_ d) sub = Ok (Z.of_nat (search s sub)).
Proof.
  intros Hd Hs. pose proof (denotes_len _ _ _ Hd) as HL.
  destruct (denotes_deref _ _ _ Hd) as (i & Hi & Hw & ? & ? & ? & ? & Es).
  assert (0 < len s) by (pose proof (len_nonneg s); pose proof (proj1 (len_0_iff s)); lia || (destruct s; [done|rewrite len_cons; pose proof (len_nonneg s); lia])).
  unfold Buf.find, Buf.checkIndex.
  assert (E : ((begin_ d =? 0) && (begin_ d =? 0) && (end_ d =? 0)) = false) by lia.
  rewrite E. clear E.
  assert (E : ((begin_ d <? begin_ d) || (end_ d <=? begin_ d)) = false) by lia.
  rewrite E. clear E. cbn [mbind result_bind]. rewrite Hi. cbn [mbind result_bind].
  rewrite ok_find by (done || lia). cbn [mbind result_bind]. rewrite <- Es. f_equal.
  pose proof (search_le s sub). unfold len in *. rewrite u64_small by lia. lia.
Qed.

(** *** Splitting *)

Lemma denotes_nil_second h d s : denotes h d s -> denotes h (MkDataBuffer (data_ d) 0 0) [].
Proof. intros Hd. pose proof (denotes_bounds _ _ _ Hd). eapply denotes_view_end; eauto; lia. Qed.

(** The two views around an occurrence at offset [k] of a delimiter of length [n]. *)
Lemma denotes_parts h d s k n :
  denotes h d s -> 0 <= k -> 0 <= n -> k + n <= len s ->
  denotes h (MkDataBuffer (data_ d) (begin_ d) (u64 (begin_ d + k))) (take (Z.to_nat k) s) /\
  denotes h (MkDataBuffer (data_ d) (u64 (u64 (begin_ d + k) + n)) (end_ d))
    (drop (Z.to_nat k + Z.to_nat n) s).
Proof.
  intros Hd Hk Hn Hl. pose proof (denotes_bounds _ _ _ Hd). pose proof (denotes_len _ _ _ Hd).
  rewrite !u64_small by (rewrite ?u64_small; lia). split.
  - pose proof (denotes_sub _ _ _ 0 k Hd) as HS. rewrite Z.add_0_r in HS.
    unfold slice in HS. rewrite Z.sub_0_r, drop_0 in HS. apply HS; lia.
  - pose proof (denotes_sub _ _ _ (k + n) (len s) Hd) as HS.
    replace (begin_ d + (k + n)) with (begin_ d + k + n) in HS by lia.
    replace (begin_ d + len s) with (end_ d) in HS by lia.
    unfold slice in HS. rewrite take_ge in HS by (unfold len; rewrite length_drop; lia).
    replace (Z.to_nat (k + n)) with (Z.to_nat k + Z.to_nat n)%nat in HS by lia.
    apply HS; lia.
Qed.

(** Where a delimiter was found there is room for it. *)
Lemma search_room s sub :
  search s sub <> length s -> (search s sub + length sub <= length s)%nat.
Proof.
  intros Hne. destruct (search_found s sub) as [Hs|[Hs _]]; [|done].
  apply starts_with_length in Hs. rewrite length_drop in Hs. pose proof (search_le s sub). lia.
Qed.

(** The two views of a split: adjacent around the delimiter when it is found, the whole
    and the empty view at index 0 otherwise. *)
Definition split_shape d (delim : bytes) d1 d2 (found : bool) : Prop :=
  data_ d1 = data_ d /\ data_ d2 = data_ d /\ begin_ d1 = begin_ d /\
  if found then begin_ d2 = end_ d1 + len delim /\ begin_ d2 <= end_ d2 /\ end_ d2 = end_ d
  else d1 = d /\ d2 = MkDataBuffer (data_ d) 0 0.

Lemma split_views h d s delim :
  denotes h d s ->
  exists d1 d2, Buf.split h d delim = Ok (d1, d2, (Range.split s delim).2) /\
    denotes h d1 (Range.split s delim).1.1 /\ denotes h d2 (Range.split s delim).1.2 /\
    split_shape d delim d1 d2 (Range.split s delim).2.
Proof.
  intros Hd. unfold Buf.split, Range.split, Range.doSplit. rewrite Range.find_search.
  rewrite (denotes_empty _ _ _ Hd), (denotes_size _ _ _ Hd).
  pose proof (denotes_nil_second _ _ _ Hd) as Hn. pose proof (search_room s delim) as Hr.
  destruct (decide (s = [])) as [->|Hs]; cbn [Range.empty].
  { assert (search [] delim = O) as -> by (pose proof (search_le [] delim); simpl in *; lia).
    cbn. eexists _, _. repeat split; eauto. }
  assert (Range.empty s = false) as -> by (by destruct s).
  rewrite (find_denotes _ _ _ _ Hd Hs). cbn [mbind result_bind].
  case_bool_decide as Hc; cbn [fst snd].
  - rewrite (proj2 (Z.eqb_neq _ _)) by (unfold len; lia).
    eexists _, _. split; [done|]. pose proof (len_nonneg delim).
    specialize (Hr Hc). pose proof (denotes_len _ _ _ Hd) as HL.
    pose proof (denotes_bounds _ _ _ Hd).
    destruct (denotes_parts _ _ _ (Z.of_nat (search s delim)) (len delim) Hd) as [Hp1 Hp2];
      try (unfold len in *; lia).
    unfold len in *. rewrite !Nat2Z.id in *. split; [done|]. split; [done|].
    unfold split_shape. cbn [data_ begin_ end_]. unfold len.
    rewrite !u64_small by (rewrite ?u64_small; lia). repeat split; lia.
  - rewrite (proj2 (Z.eqb_eq _ _)) by (unfold len; lia).
    eexists _, _. split; [done|]. rewrite take_ge by lia. done.
Qed.

Lemma split_char_eq h d c : Buf.split_char h d c = Buf.split h d [c].
Proof. done. Qed.

Lemma split_char_views h d s c :
  denotes h d s ->
  exists d1 d2, Buf.split_char h d c = Ok (d1, d2, (Range.split_char s c).2) /\
    denotes h d1 (Range.split_char s c).1.1 /\ denotes h d2 (Range.split_char s c).1.2 /\
    split_shape d [c] d1 d2 (Range.split_char s c).2.
Proof. rewrite split_char_eq, Range.split_char_split. apply split_views. Qed.

(** On a view of the bytes [s], both forms of [split] return the flag and views of
    exactly the parts that [Range::split] cuts [s] into, adjacent in the object around
    the delimiter: the two implementations of splitting agree, and no index leaves the
    object. *)
Theorem split_denotes h d s delim c :
  denotes h d s ->
  (exists d1 d2, Buf.split h d delim = Ok (d1, d2, (Range.split s delim).2) /\
    denotes h d1 (Range.split s delim).1.1 /\ denotes h d2 (Range.split s delim).1.2 /\
    split_shape d delim d1 d2 (Range.split s delim).2) /\
  (exists d1 d2, Buf.split_char h d c = Ok (d1, d2, (Range.split_char s c).2) /\
    denotes h d1 (Range.split_char s c).1.1 /\ denotes h d2 (Range.split_char s c).1.2 /\
    split_shape d [c] d1 d2 (Range.split_char s c).2).
Proof. split; [by apply split_views|by apply split_char_views]. Qed.

(** *** Comparisons *)

(** Prefix up to a character comparison. *)
Fixpoint prefix_by (eqc : byte -> byte -> bool) (p s : bytes) : bool :=
  match p, s with
  | [], _ => true
  | a :: p', b :: s' => eqc a b && prefix_by eqc p' s'
  | _ :: _, [] => false
  end.

Lemma prefix_by_beqb p s : prefix_by beqb p s = Range.startsWith s p.
Proof.
  apply eq_true_iff_eq. rewrite Range.startsWith_spec, <- starts_with_spec.
  revert s. induction p as [|a p IH]; intros [|b s]; simpl; try done.
  by rewrite !andb_true_iff, IH.
Qed.

Lemma prefix_by_ci p s :
  prefix_by Buf.eqc_ci p s = Range.startsWith (tolower_str s) (tolower_str p).
Proof.
  rewrite <- prefix_by_beqb. revert s.
  induction p as [|a p IH]; intros [|b s]; simpl; try done. by rewrite IH.
Qed.

Lemma match_from_denotes eqc h d s data i :
  denotes h d s -> 0 <= i -> i + len data <= len s ->
  Buf.match_from eqc h d data i = Ok (prefix_by eqc data (drop (Z.to_nat i) s)).
Proof.
  intros Hd. revert i. induction data as [|c data IH]; intros i Hi Hl; [done|].
  rewrite len_cons in Hl. cbn [Buf.match_from prefix_by].
  destruct (lookup_lt_is_Some_2 s (Z.to_nat i)) as [b Hb].
  { unfold len in *. lia. }
  rewrite (at_denotes _ _ _ i b Hd Hi Hb). cbn [mbind result_bind].
  rewrite (drop_S _ _ _ Hb). destruct (eqc c b); [|done]. simpl.
  rewrite IH by lia. by replace (Z.to_nat (i + 1)) with (S (Z.to_nat i)) by lia.
Qed.

Lemma match_back_denotes eqc h d s rdata i :
  denotes h d s -> 1 <= i -> i - 1 + len rdata <= len s ->
  Buf.match_back eqc h d rdata i = Ok (prefix_by eqc rdata (drop (Z.to_nat (i - 1)) (rev s))).
Proof.
  intros Hd. pose proof (denotes_bounds _ _ _ Hd). pose proof (denotes_len _ _ _ Hd).
  revert i. induction rdata as [|c rdata IH]; intros i Hi Hl; [done|].
  rewrite len_cons in Hl. pose proof (len_nonneg rdata). cbn [Buf.match_back prefix_by].
  rewrite (denotes_size _ _ _ Hd), u64_small by lia.
  destruct (lookup_lt_is_Some_2 s (Z.to_nat (len s - i))) as [b Hb].
  { unfold len in *. lia. }
  rewrite (at_denotes _ _ _ (len s - i) b Hd ltac:(lia) Hb). cbn [mbind result_bind].
  assert (Hr : rev s !! Z.to_nat (i - 1) = Some b).
  { rewrite rev_alt. fold (reverse s). apply reverse_lookup_Some. unfold len in *. split; [|lia].
    rewrite <- Hb. f_equal. lia. }
  rewrite (drop_S _ _ _ Hr). destruct (eqc c b); [|done]. simpl.
  rewrite IH by lia. by replace (Z.to_nat (i + 1 - 1)) with (S (Z.to_nat (i - 1))) by lia.
Qed.

Lemma startsWith_longer (s p : bytes) : len s < len p -> Range.startsWith s p = false.
Proof. unfold Range.startsWith, len. intros. case_bool_decide; [lia|done]. Qed.

Lemma endsWith_rev s p : Range.startsWith (rev s) (rev p) = Range.endsWith s p.
Proof.
  apply eq_true_iff_eq. rewrite Range.startsWith_spec, Range.endsWith_spec. split.
  - intros [r E]. exists (rev r). apply (f_equal (@rev _)) in E.
    by rewrite rev_app_distr, !rev_involutive in E.
  - intros [r ->]. exists (rev r). apply rev_app_distr.
Qed.

(** A comparison that looks at as many characters as the text has. *)
Lemma compare_guard h d s (p : bytes) (r : result bool) (v : bool) :
  denotes h d s -> (len p <= len s -> r = Ok v) ->
  (len s < len p -> v = false) ->
  (if Buf.size d <? len p then Ok false else r) = Ok v.
Proof.
  intros Hd Hle Hlt. rewrite (denotes_size _ _ _ Hd).
  destruct (Z.ltb_spec (len s) (len p)); [by rewrite Hlt|auto].
Qed.

Lemma startsWith_view h d s p :
  denotes h d s -> Buf.startsWith h d p = Ok (Range.startsWith s p).
Proof.
  intros Hd. apply (compare_guard h d s); [done| |apply startsWith_longer].
  intros. rewrite (match_from_denotes _ _ _ s) by (done || lia).
  by rewrite prefix_by_beqb.
Qed.

Lemma startsWithCI_view h d s p :
  denotes h d s ->
  Buf.startsWithCI h d p = Ok (Range.startsWith (tolower_str s) (tolower_str p)).
Proof.
  intros Hd. apply (compare_guard h d s); [done| |].
  - intros. rewrite (match_from_denotes _ _ _ s) by (done || lia).
    by rewrite prefix_by_ci.
  - intros. apply startsWith_longer. unfold tolower_str, len in *. by rewrite !length_map.
Qed.

Lemma len_rev (s : bytes) : len (rev s) = len s.
Proof. unfold len. by rewrite length_rev. Qed.

Lemma endsWith_view h d s p :
  denotes h d s -> Buf.endsWith h d p = Ok (Range.endsWith s p).
Proof.
  intros Hd. rewrite <- endsWith_rev. apply (compare_guard h d s); [done| |].
  - intros. rewrite (match_back_denotes _ _ _ s) by (done || lia || (rewrite len_rev; lia)).
    by rewrite prefix_by_beqb.
  - intros. apply startsWith_longer. by rewrite !len_rev.
Qed.

Lemma endsWithCI_view h d s p :
  denotes h d s -> Buf.endsWithCI h d p = Ok (Range.endsWith (tolower_str s) (tolower_str p)).
Proof.
  intros Hd. rewrite <- endsWith_rev. unfold tolower_str. rewrite <- !map_rev.
  apply (compare_guard h d s); [done| |].
  - intros. rewrite (match_back_denotes _ _ _ s) by (done || lia || (rewrite len_rev; lia)).
    by rewrite prefix_by_ci.
  - intros. apply startsWith_longer. unfold len in *. by rewrite !length_map, !length_rev.
Qed.

(** On a view of the bytes [s] the four comparisons return (never throw) and
    decide whether the text is a prefix or a suffix of [s], for the [CI] ones up to
    the case of both. *)
Theorem comparisons_denote h d s p :
  denotes h d s ->
  Buf.startsWith h d p = Ok (Range.startsWith s p) /\
  Buf.startsWithCI h d p = Ok (Range.startsWith (tolower_str s) (tolower_str p)) /\
  Buf.endsWith h d p = Ok (Range.endsWith s p) /\
  Buf.endsWithCI h d p = Ok (Range.endsWith (tolower_str s) (tolower_str p)).
Proof.
  split; [by apply startsWith_view|]. split; [by apply startsWithCI_view|].
  split; [by apply endsWith_view|by apply endsWithCI_view].
Qed.

(** *** Cutting, reading and writing *)

Lemma trimn_view h d s b e :
  denotes h d s -> 0 <= b < 2 ^ 63 -> 0 <= e -> e <= end_ d ->
  denotes h (Buf.trimn d b e) (Range.trimn s b e).
Proof.
  intros Hd Hb He Hee. pose proof (denotes_bounds _ _ _ Hd).
  pose proof (denotes_len _ _ _ Hd) as HL. unfold Buf.trimn.
  rewrite (denotes_empty _ _ _ Hd), Range.trimn_spec by lia.
  destruct (decide (s = [])) as [->|Hs]; [by rewrite drop_nil, take_nil|].
  assert (Range.empty s = false) as -> by (by destruct s).
  rewrite !u64_small by lia. unfold len in *. destruct (Z.leb_spec (end_ d) (begin_ d + b)).
  - rewrite drop_ge, take_nil by lia. eapply denotes_view_end; eauto; lia.
  - pose proof (denotes_sub _ _ _ b (Z.max (len s - e) b) Hd) as HS.
    unfold slice, len in HS.
    replace (begin_ d + Z.max (Z.of_nat (length s) - e) b)
      with (Z.max (end_ d - e) (begin_ d + b)) in HS by lia.
    replace (Z.to_nat (Z.max (Z.of_nat (length s) - e) b - b))
      with (length s - Z.to_nat b - Z.to_nat e)%nat in HS by lia.
    apply HS; lia.
Qed.

(** [trimn] drops [b] bytes from the front and [e] from the back, down to the
    empty view, exactly as [Range::trimn] does, as long as [end_ - e] does not wrap
    around; cutting more than [end_] bytes from the back of a view that is not empty
    leaves a view whose end is 2^64 - 1. *)
Theorem trimn_denotes h d s b e :
  denotes h d s -> 0 <= b < 2 ^ 63 -> 0 <= e ->
  (e <= end_ d -> denotes h (Buf.trimn d b e) (Range.trimn s b e)) /\
  (s <> [] -> end_ (Buf.trimn d 0 (end_ d + 1)) = 2 ^ 64 - 1).
Proof.
  intros Hd Hb He. split; [intros; by apply trimn_view|]. intros Hs. pose proof (denotes_bounds _ _ _ Hd). pose proof (denotes_len _ _ _ Hd).
  unfold Buf.trimn. rewrite (denotes_empty _ _ _ Hd).
  assert (Range.empty s = false) as -> by (by destruct s).
  assert (0 < len s) by (destruct s; [done|rewrite len_cons; pose proof (len_nonneg s); lia]).
  rewrite Z.add_0_r, u64_small by lia. rewrite (proj2 (Z.leb_gt _ _)) by lia. cbn [end_].
  replace (end_ d - (end_ d + 1)) with (-1) by lia. change (u64 (-1)) with (2 ^ 64 - 1). lia.
Qed.

Lemma read_denotes h d s pos n :
  denotes h d s -> 0 <= pos -> 0 <= n ->
  Buf.read h d pos n = Ok (slice s pos (Z.min (len s) (pos + n))).
Proof.
  intros Hd Hp Hn. pose proof (denotes_len _ _ _ Hd) as HL.
  destruct (denotes_deref _ _ _ Hd) as (i & Hi & Hw & ? & ? & ? & ? & Es).
  unfold Buf.read. rewrite (denotes_size _ _ _ Hd).
  destruct (Z.leb_spec (len s) pos).
  - by rewrite slice_empty by lia.
  - rewrite Hi. cbn [mbind result_bind]. rewrite !u64_small by lia.
    rewrite ok_read by (done || lia). f_equal. subst s. rewrite slice_slice by lia.
    f_equal; lia.
Qed.

(** A write inside the view: what it denotes after it, and that views which do not
    overlap the bytes written are unchanged. *)
Lemma write_view h d s pos data :
  denotes h d s -> 0 <= pos ->
  let n := Z.min (Z.max 0 (len s - pos)) (len data) in
  exists h', Buf.write h d pos data = Ok (h', n) /\
    denotes h' d (overwrite s pos (take (Z.to_nat n) data)) /\
    forall d' t, denotes h d' t ->
      data_ d' <> data_ d \/ begin_ d + pos + n <= begin_ d' \/ end_ d' <= begin_ d + pos ->
      denotes h' d' t.
Proof.
  intros Hd Hp n. pose proof (denotes_len _ _ _ Hd) as HL. pose proof (len_nonneg data).
  unfold Buf.write. rewrite (denotes_size _ _ _ Hd).
  destruct (Z.leb_spec (len s) pos).
  { exists h. replace n with 0 by lia. split; [done|]. split; [|by auto].
    unfold overwrite. simpl. rewrite Nat.add_0_r, take_drop. done. }
  destruct (denotes_deref _ _ _ Hd) as (i & Hi & Hw & ? & ? & ? & ? & Es).
  rewrite Hi. cbn [mbind result_bind]. rewrite !u64_small by lia.
  replace (Z.min (len s - pos) (len data)) with n by lia.
  assert (Hn : len (take (Z.to_nat n) data) = n).
  { unfold len in *. rewrite length_take. lia. }
  destruct (ok_write i (pos + begin_ d) (take (Z.to_nat n) data)) as (i' & Hi' & Hw' & Hc');
    [done|lia|lia|].
  rewrite Hi'. cbn [mbind result_bind].
  destruct Hd as (l & j & Hdl & Hj & _). unfold Buf.deref in Hi. rewrite Hdl, Hj in Hi.
  injection Hi as <-. rewrite Hdl. exists (<[l := i']> h). split; [done|].
  assert (Hlen : len (contents i') = len (contents j)) by (rewrite Hc'; apply overwrite_len; lia).
  split.
  - exists l, i'. rewrite lookup_insert_eq, Hlen. repeat split; try done.
    rewrite Hc', Es, slice_overwrite_in by lia. f_equal. lia.
  - intros d' t (l' & k & Hd' & Hk & ? & ? & ? & ? & Et) Hdis.
    destruct (decide (l' = l)) as [->|Hne].
    + rewrite Hj in Hk. injection Hk as <-. exists l, i'.
      rewrite lookup_insert_eq, Hlen. repeat split; try done.
      rewrite Et, Hc', slice_overwrite_out; try lia; [done|].
      destruct Hdis as [Hdis|Hdis]; [congruence|lia].
    + exists l', k. rewrite lookup_insert_ne by done. done.
Qed.

(** Reading after writing: a write reports how many bytes of the view it covered
    (clamped to the view), a read of the view then returns the overwritten bytes, and a
    read of any view that does not overlap them, in the same object or another, returns
    what it did before. *)
Theorem write_read h d s pos data :
  denotes h d s -> 0 <= pos ->
  let n := Z.min (Z.max 0 (len s - pos)) (len data) in
  exists h', Buf.write h d pos data = Ok (h', n) /\
    (forall p k, 0 <= p -> 0 <= k -> Buf.read h' d p k =
      Ok (slice (overwrite s pos (take (Z.to_nat n) data)) p (Z.min (len s) (p + k)))) /\
    (forall d' t p k, denotes h d' t -> 0 <= p -> 0 <= k ->
      data_ d' <> data_ d \/ begin_ d + pos + n <= begin_ d' \/ end_ d' <= begin_ d + pos ->
      Buf.read h' d' p k = Buf.read h d' p k).
Proof.
  intros Hd Hp n. destruct (write_view h d s pos data Hd Hp) as (h' & E & Hd' & Hfr).
  fold n in E, Hd', Hfr. exists h'. split; [done|]. split.
  - intros p k ??. rewrite (read_denotes _ _ _ _ _ Hd') by done. do 2 f_equal.
    pose proof (denotes_len _ _ _ Hd). pose proof (denotes_len _ _ _ Hd'). lia.
  - intros d' t p k Ht ?? Hdis.
    by rewrite (read_denotes _ _ _ _ _ Ht), (read_denotes _ _ _ _ _ (Hfr d' t Ht Hdis)).
Qed.

(** Resizing changes the end of the view and of its object only. *)
Lemma resize_view h d s n :
  denotes h d s -> 0 <= n -> begin_ d + n < 2 ^ 62 ->
  exists h', Buf.resize h d n = Ok (h', MkDataBuffer (data_ d) (begin_ d) (begin_ d + n)) /\
    (exists s', len s' = n /\ denotes h' (MkDataBuffer (data_ d) (begin_ d) (begin_ d + n)) s' /\
      slice s' 0 (Z.min n (len s)) = slice s 0 (Z.min n (len s))) /\
    forall d' t, denotes h d' t -> data_ d' <> data_ d -> denotes h' d' t.
Proof.
  intros Hd Hn Hlim. pose proof (denotes_bounds _ _ _ Hd). unfold Buf.resize.
  destruct (denotes_deref _ _ _ Hd) as (i & Hi & Hw & ? & ? & ? & ? & Es).
  pose proof (denotes_len _ _ _ Hd) as HL.
  rewrite Hi. cbn [mbind result_bind]. rewrite u64_small by lia.
  destruct (ok_resize i (begin_ d + n)) as (i' & E & Hw' & Hc'); [done|lia|].
  rewrite E. cbn [mbind result_bind].
  destruct Hd as (l & j & Hdl & Hj & _). unfold Buf.deref in Hi. rewrite Hdl, Hj in Hi.
  injection Hi as ->. rewrite Hdl. exists (<[l := i']> h). split; [done|].
  assert (Hlen : len (contents i') = begin_ d + n).
  { rewrite Hc'. unfold resize_bytes, len. rewrite length_app, length_take, repeat_length. lia. }
  split.
  - exists (slice (contents i') (begin_ d) (begin_ d + n)).
    split; [rewrite slice_len by lia; lia|]. split.
    + exists l, i'. rewrite lookup_insert_eq. repeat split; (done || lia || (cbn; lia)).
    + assert (Hm : Z.min n (len s) <= end_ d - begin_ d /\ Z.min n (len s) <= n) by lia.
      set (m := Z.min n (len s)) in *. clearbody m.
      rewrite slice_slice by lia. rewrite Es, slice_slice by lia. rewrite Hc'.
      unfold resize_bytes, slice.
      apply list_eq. intros k.
      destruct (decide (k < Z.to_nat (begin_ d + m - (begin_ d + 0)))%nat).
      * rewrite !lookup_take_lt by lia. rewrite !lookup_drop.
        rewrite lookup_app_l by (rewrite length_take; unfold len in *; lia).
        by rewrite lookup_take_lt by lia.
      * by rewrite !lookup_take_ge by lia.
  - intros d' t (l' & k & Hd' & Hk & ?) Hne.
    destruct (decide (l' = l)) as [->|Hne']; [congruence|].
    exists l', k. rewrite lookup_insert_ne by done. done.
Qed.

(** *** Iterating over the segments *)

(** Pieces that follow each other from [b] to [e], none of them empty. *)
Fixpoint consecutive (b e : Z) (l : list (Z * bytes)) : Prop :=
  match l with
  | [] => b = e
  | (p, c) :: l' => p = b /\ 0 < len c /\ consecutive (b + len c) e l'
  end.

Lemma chunks_from_concat fuel i e b :
  wf i -> 0 <= b -> b < e -> e <= len (contents i) -> (Z.to_nat (e - b) <= fuel)%nat ->
  exists l, Buf.chunks_from fuel i e b = Ok l /\ flat_map snd l = slice (contents i) b e /\
    consecutive b e l.
Proof.
  revert b. induction fuel as [|n IH]; intros b Hw Hb Hbe He Hf; [lia|].
  cbn [Buf.chunks_from]. pose proof (ok_small i Hw). rewrite ok_chunk by (done || lia).
  cbn [mbind result_bind]. destruct (ok_segment i b) as [_ Hs]; [done|lia|].
  rewrite slice_len by lia. rewrite u64_small by lia.
  set (seg := (impl_segment i b).2) in *.
  assert (Et : take (Z.to_nat (Z.min (Z.min seg (len (contents i)) - b) (e - b)))
      (slice (contents i) b (Z.min seg (len (contents i)))) =
    slice (contents i) b (Z.min seg e)).
  { unfold slice. rewrite take_take. f_equal. lia. }
  rewrite Et. destruct (Z.leb_spec e (Z.min seg e)).
  - eexists. split; [done|]. simpl. rewrite app_nil_r, !slice_len by lia.
    split; [f_equal; lia|lia].
  - destruct (IH (Z.min seg e)) as (l & Hl & Hc & Hcons); try lia; [done|].
    rewrite Hl. eexists. split; [done|]. simpl. rewrite Hc, slice_len by lia.
    split; [symmetry; apply slice_split; lia|].
    replace (b + (Z.min seg e - b)) with (Z.min seg e) by lia. split; [done|]. split; [lia|done].
Qed.

Lemma chunks_view h d s :
  denotes h d s ->
  exists l, Buf.chunks h d = Ok l /\ flat_map snd l = s /\
    (s <> [] -> consecutive (begin_ d) (end_ d) l).
Proof.
  intros Hd. pose proof (denotes_len _ _ _ Hd).
  unfold Buf.chunks. rewrite (denotes_empty _ _ _ Hd).
  destruct (decide (s = [])) as [->|Hs]; [by exists []|].
  assert (Range.empty s = false) as -> by (by destruct s).
  assert (0 < len s) by (destruct s; [done|rewrite len_cons; pose proof (len_nonneg s); lia]).
  destruct (denotes_deref _ _ _ Hd) as (i & -> & Hw & ? & ? & ? & ? & ->).
  cbn [mbind result_bind].
  destruct (chunks_from_concat (S (Z.to_nat (end_ d - begin_ d))) i (end_ d) (begin_ d))
    as (l & Hl & Hc & Hcons); try lia; [done|]. by exists l.
Qed.

Lemma toString_view h d s : denotes h d s -> Buf.toString h d = Ok s.
Proof.
  intros Hd. unfold Buf.toString. destruct (chunks_view h d s Hd) as (l & -> & Hl & _).
  cbn [mbind result_bind]. by rewrite Hl.
Qed.

(** Iterating over the segments of a view terminates, and yields consecutive pieces,
    none of them empty, that start at the beginning of the view, end at its end and
    concatenate to its bytes, however the implementation cuts them; [toString] is these
    bytes. *)
Theorem chunks_denote h d s :
  denotes h d s ->
  exists l, Buf.chunks h d = Ok l /\ flat_map snd l = s /\
    (s <> [] -> consecutive (begin_ d) (end_ d) l) /\ Buf.toString h d = Ok s.
Proof.
  intros Hd. destruct (chunks_view h d s Hd) as (l & Hl & Hc & Hcons).
  exists l. split; [done|]. split; [done|]. split; [done|]. by apply toString_view.
Qed.
End View.

(** ** Trimming

    Not every implementation trims at the back what it should, so this law is a class
    of its own. *)

Class DataBufferTrimOk (I : Type) `{DataBufferImplOk I wf contents} := {
  ok_trim i b e :
    wf i -> 0 <= b -> b < e -> e <= len (contents i) ->
    exists b' e', impl_trim i b e = Ok (b', e') /\ b <= b' /\ b' <= e' /\ e' <= e /\
      slice (contents i) b' e' = Range.trim (slice (contents i) b e)
}.

(** The offsets [trim] cuts at. *)
Lemma trim_slice (s : bytes) :
  let lead := len s - len (drop_while isspace s) in
  0 <= lead /\ lead + len (Range.trim s) <= len s /\
  slice s lead (lead + len (Range.trim s)) = Range.trim s.
Proof.
  intros lead. unfold Range.trim in *. set (t := drop_while isspace s) in *.
  assert (Hl : (length t <= length s)%nat) by apply Range.drop_while_length.
  assert (Ht : (length (drop_while_end isspace t) <= length t)%nat).
  { unfold drop_while_end. rewrite length_rev. etransitivity; [apply Range.drop_while_length|].
    by rewrite length_rev. }
  unfold len in *. split; [lia|]. split; [lia|]. unfold slice.
  replace (Z.to_nat (lead + Z.of_nat (length (drop_while_end isspace t)) - lead))
    with (length (drop_while_end isspace t)) by lia.
  replace (Z.to_nat lead) with (length s - length t)%nat by lia.
  unfold t at 2. rewrite <- Range.drop_while_drop. symmetry. apply Range.drop_while_end_take.
Qed.

#[export] Instance string_buffer_trim_ok : DataBufferTrimOk StringBuffer.t.
Proof.
  split. unfold impl_trim, string_buffer_impl, string_wf. intros i b e Hw Hb Hbe He.
  unfold StringBuffer.trim, StringBuffer.in_vector.
  rewrite !(proj2 (Z.leb_le _ _)) by lia. simpl.
  set (base := slice (StringBuffer.data_ i) b e).
  destruct (trim_slice base) as (H1 & H2 & H3).
  assert (Hbl : len base = e - b) by (apply slice_len; lia).
  pose proof (len_nonneg (Range.trim base)).
  set (lead := len base - len (drop_while isspace base)) in *.
  eexists _, _. split; [done|]. split; [lia|]. split; [lia|]. split; [lia|].
  rewrite <- H3 at 2. unfold base. rewrite slice_slice by (unfold base in *; lia).
  f_equal. unfold base. lia.
Qed.

Section TrimView.
Context {I : Type} `{DataBufferTrimOk I wf contents}.

Lemma trim_view (h : gmap nat I) d s :
  denotes (wf := wf) (contents := contents) h d s ->
  exists d', Buf.trim h d = Ok d' /\ denotes (wf := wf) (contents := contents) h d' (Range.trim s) /\
    data_ d' = data_ d /\ begin_ d <= begin_ d' /\ end_ d' <= end_ d.
Proof.
  intros Hd. unfold Buf.trim. rewrite (denotes_empty _ _ _ Hd).
  destruct s as [|c s]; [exists d; cbn; repeat split; (done || lia)|]. cbn [Range.empty].
  destruct (denotes_deref _ _ _ Hd) as (i & Hi & Hw & ? & ? & ? & ? & Es). rewrite Hi.
  pose proof (denotes_len _ _ _ Hd) as HL. rewrite len_cons in HL.
  pose proof (len_nonneg s).
  destruct (ok_trim i (begin_ d) (end_ d)) as (b' & e' & E & ? & ? & ? & Hsl); try lia; [done|].
  cbn [mbind result_bind]. rewrite E. cbn [mbind result_bind]. eexists. split; [done|].
  split; [|done]. destruct Hd as (l & j & Hdl & Hj & _).
  unfold Buf.deref in Hi. rewrite Hdl, Hj in Hi. injection Hi as ->.
  exists l, i. cbn [data_ begin_ end_]. rewrite Es, Hsl. repeat split; (done || lia).
Qed.
End TrimView.

(** The hypotheses of the theorems on views hold for any buffer of less than 2^63 bytes:
    a store with one [StringBuffer] and the view of all of it. *)
Definition string_view (s : bytes) : gmap nat StringBuffer.t * DataBuffer :=
  Buf.create ∅ (StringBuffer.create s).

Abbreviation sdenotes := (denotes (wf := string_wf) (contents := StringBuffer.data_)).

Lemma string_view_denotes s :
  len s < 2 ^ 63 -> sdenotes (string_view s).1 (string_view s).2 s.
Proof. intros H. by apply (create_denotes (H := string_buffer_impl) (H0 := string_buffer_ok) ∅ (StringBuffer.create s)). Qed.

Lemma split_denotes_witness :
  exists d1 d2,
    Buf.split (string_view (lit "a--b")).1 (string_view (lit "a--b")).2 (lit "--")
      = Ok (d1, d2, true) /\
    sdenotes (string_view (lit "a--b")).1 d1 (lit "a") /\
    sdenotes (string_view (lit "a--b")).1 d2 (lit "b").
Proof.
  assert (H : sdenotes (string_view (lit "a--b")).1 (string_view (lit "a--b")).2 (lit "a--b"))
    by (by apply string_view_denotes).
  destruct (proj1 (split_denotes _ _ _ (lit "--") "-"%byte H)) as (d1 & d2 & E & H1 & H2 & _).
  exists d1, d2. split; [exact E|]. split; [exact H1|exact H2].
Defined.

Lemma comparisons_denote_witness :
  Buf.startsWithCI (string_view (lit "GET / HTTP")).1 (string_view (lit "GET / HTTP")).2
    (lit "get ") = Ok true.
Proof.
  assert (H : sdenotes (string_view (lit "GET / HTTP")).1 (string_view (lit "GET / HTTP")).2
    (lit "GET / HTTP")) by (by apply string_view_denotes).
  exact (proj1 (proj2 (comparisons_denote _ _ _ (lit "get ") H))).
Defined.

Lemma trimn_denotes_witness :
  sdenotes (string_view (lit "/abc/")).1 (Buf.trimn (string_view (lit "/abc/")).2 1 1) (lit "abc").
Proof.
  assert (H : sdenotes (string_view (lit "/abc/")).1 (string_view (lit "/abc/")).2 (lit "/abc/"))
    by (by apply string_view_denotes).
  exact (proj1 (trimn_denotes _ _ _ 1 1 H ltac:(lia) ltac:(lia)) ltac:(vm_compute; discriminate)).
Defined.

Lemma write_read_witness :
  exists h', Buf.write (string_view (lit "abcdef")).1 (string_view (lit "abcdef")).2 4 (lit "XYZ")
      = Ok (h', 2) /\
    Buf.read h' (string_view (lit "abcdef")).2 3 10 = Ok (lit "dXY").
Proof.
  assert (H : sdenotes (string_view (lit "abcdef")).1 (string_view (lit "abcdef")).2
    (lit "abcdef")) by (by apply string_view_denotes).
  destruct (write_read _ _ _ 4 (lit "XYZ") H ltac:(lia)) as (h' & H1 & H2 & _).
  exists h'. split; [exact H1|exact (H2 3 10 ltac:(lia) ltac:(lia))].
Defined.

Lemma chunks_denote_witness :
  exists l, Buf.chunks (string_view (lit "k=v")).1 (string_view (lit "k=v")).2 = Ok l /\
    flat_map snd l = lit "k=v".
Proof.
  destruct (chunks_denote (string_view (lit "k=v")).1 (string_view (lit "k=v")).2 (lit "k=v"))
    as (l & H1 & H2 & _).
  - by apply string_view_denotes.
  - by exists l.
Defined.
