(* ===== verification/FileBuffer.v ===== *)
(** * FileBuffer

    [library/mmap_file.cpp] and [library/file_buffer.cpp]: a request body stored in a
    file that is seen through one memory-mapped window at a time. The window moves as
    positions are accessed, so every operation takes the file object and returns it
    with the window it left. The theorem of the file is that this state never shows:
    [FileBuffer] is an implementation of the [DataBufferImpl] interface whatever
    window it starts from. *)

From S2P Require Import Prelude Cxx Ranges Buffer.

(** The system calls: 0, or the [errno] of the failure. *)
Record Syscalls := {
  sys_mmap : Z -> Z -> Z;      (* offset, length *)
  sys_munmap : Z -> Z -> Z;
  sys_ftruncate : Z -> Z
}.

(** ** MMapFile *)

Module MMapFile.

(** [content] is the file behind the descriptor; [pointer_] tells whether a mapping of
    [segment_len_] bytes from [segment_start_] exists. *)
Record t := MMapFile {
  content : bytes;
  pointer_ : bool;
  size_ : Z;
  window_ : Z;
  page_size_ : Z;
  segment_start_ : Z;
  segment_len_ : Z
}.

Section Ops.
Context (sys : Syscalls).

Definition error (code : Z) : exn := RuntimeError (to_string code).

Definition set_mapping (f : t) (p : bool) (start n : Z) : t :=
  MMapFile (content f) p (size_ f) (window_ f) (page_size_ f) start n.

Definition checkWindow (f : t) : t :=
  let window :=
    if window_ f =? 0 then u64 (10 * page_size_ f)
    else
      let window_index := window_ f / page_size_ f in
      let offset := window_ f - window_index * page_size_ f in
      u64 (page_size_ f * (if negb (offset =? 0) then window_index + 1 else window_index)) in
  MMapFile (content f) (pointer_ f) (size_ f) window (page_size_ f)
    (segment_start_ f) (segment_len_ f).

Definition check_index (f : t) (index : Z) : result unit :=
  if size_ f <=? index then Throw (OutOfRange (lit "mapped file index out of range"))
  else Ok tt.

Definition mapped (f : t) (b e : Z) : bool :=
  (segment_start_ f <=? b) && (e <=? u64 (segment_start_ f + segment_len_ f)).

Definition unmap (f : t) : result t :=
  if pointer_ f then
    let r := sys_munmap sys (segment_start_ f) (segment_len_ f) in
    if negb (r =? 0) then Throw (error r) else Ok (set_mapping f false 0 0)
  else Ok f.

(** The returned [char*] is the offset of the byte in the mapping. *)
Definition map_range (f : t) (b e : Z) : result (t * Z) :=
  if mapped f b e then Ok (f, b - segment_start_ f)
  else
    f ← unmap f;
    let begin_base := page_size_ f * (b / page_size_ f) in
    let r := sys_mmap sys begin_base (u64 (e - begin_base)) in
    if negb (r =? 0) then Throw (error r)
    else Ok (set_mapping f true begin_base (u64 (e - begin_base)), b - begin_base).

Definition map_segment (f : t) (segment : Z) : result (t * Z) :=
  let pos := u64 (segment * window_ f) in
  map_range f pos (u64 (pos + window_ f)).

(** [n] bytes through the mapping: bytes past the end of the file are not modelled,
    the mapping is shared so the others are the file's. *)
Definition load (f : t) (off n : Z) : result bytes :=
  let p := segment_start_ f + off in
  if pointer_ f && (0 <=? off) && (0 <=? n) && (off + n <=? segment_len_ f) &&
     (p + n <=? len (content f))
  then Ok (slice (content f) p (p + n)) else Undef.

Definition store (f : t) (off : Z) (data : bytes) : result t :=
  let p := segment_start_ f + off in
  if pointer_ f && (0 <=? off) && (off + len data <=? segment_len_ f) &&
     (p + len data <=? len (content f))
  then Ok (MMapFile (overwrite (content f) p data) (pointer_ f) (size_ f) (window_ f)
             (page_size_ f) (segment_start_ f) (segment_len_ f))
  else Undef.

(** The constructor on an existing or newly created file, from [fstat] on. *)
Definition create (content : bytes) (window page_size : Z) : result t :=
  '(f, _) ← map_segment (checkWindow (MMapFile content false (len content) window page_size 0 0)) 0;
  Ok f.

Definition clone (f : t) : result t :=
  '(f', _) ← map_segment (checkWindow
    (MMapFile (content f) false (size_ f) (window_ f) (page_size_ f) 0 0)) 0;
  Ok f'.

Definition empty (f : t) : bool := size_ f =? 0.

Definition resize (f : t) (newsize : Z) : result t :=
  f ← unmap f;
  let r := sys_ftruncate sys newsize in
  if negb (r =? 0) then Throw (error r)
  else
    '(f', _) ← map_segment (MMapFile (resize_bytes (content f) newsize) (pointer_ f) newsize
                  (window_ f) (page_size_ f) (segment_start_ f) (segment_len_ f)) 0;
    Ok f'.

(** One byte through a pointer. *)
Definition load1 (f : t) (off : Z) : result byte :=
  l ← load f off 1;
  match l with b :: _ => Ok b | [] => Undef end.

Definition at_ (f : t) (index : Z) : result (t * byte) :=
  check_index f index ≫= fun _ =>
  if mapped f index (u64 (index + 1)) then
    b ← load1 f (index - segment_start_ f); Ok (f, b)
  else
    let offset := index mod window_ f in
    let segment := index / window_ f in
    '(f, p) ← map_segment f segment;
    b ← load1 f (p + offset); Ok (f, b).

Definition atRange (f : t) (index length : Z) : result (t * Z) :=
  check_index f index ≫= fun _ =>
  (if 0 <? length then check_index f (u64 (index + length - 1)) else Ok tt) ≫= fun _ =>
  map_range f index (u64 (index + length)).

Definition atSegment (f : t) (index : Z) : result (t * (Z * Z)) :=
  check_index f index ≫= fun _ =>
  let segment_pos := index / window_ f * window_ f in
  let n := u64 (Z.min (u64 (segment_pos + window_ f)) (size_ f) - index) in
  '(f, segment) ← map_range f segment_pos (u64 (segment_pos + window_ f));
  Ok (f, (segment + index - segment_pos, n)).
End Ops.
End MMapFile.

(** ** FileBuffer *)

Module FileBuffer.
Section Ops.
Context (sys : Syscalls).

Record t := FileBuffer { file_ : MMapFile.t; window_ : Z }.

Definition set_file (s : t) (f : MMapFile.t) : t := FileBuffer f (window_ s).

Definition create (content : bytes) (window page_size : Z) : result t :=
  f ← MMapFile.create sys content window page_size; Ok (FileBuffer f (MMapFile.window_ f)).

Definition getCopy (s : t) : result t :=
  f ← MMapFile.clone sys (file_ s); Ok (FileBuffer f (window_ s)).

Definition size (s : t) : Z := MMapFile.size_ (file_ s).

Definition at_ (s : t) (pos : Z) : result (t * byte) :=
  '(f, b) ← MMapFile.at_ sys (file_ s) pos; Ok (set_file s f, b).

(** A pointer into the mapping and the number of bytes to the end of the segment. *)
Definition chunk (s : t) (pos : Z) : result (t * (Z * Z)) :=
  '(f, c) ← MMapFile.atSegment sys (file_ s) pos; Ok (set_file s f, c).

Definition segment (s : t) (pos : Z) : Z * Z :=
  let beg := window_ s * (pos / window_ s) in (pos, u64 (beg + window_ s)).

(** The copying loop of [read]; an iteration copies at least one byte. *)
Fixpoint read_loop (fuel : nat) (s : t) (pos read_len : Z) (data : bytes) : result (t * bytes) :=
  if 0 <? read_len then
    match fuel with
    | O => Undef
    | S n =>
        '(s, (p, avail)) ← chunk s pos;
        if avail =? 0 then Throw (RuntimeError (lit "Cannot fetch chunk"))
        else
          let cur_len := Z.min avail read_len in
          d ← MMapFile.load (file_ s) p cur_len;
          read_loop n s (u64 (pos + cur_len)) (read_len - cur_len) (data ++ d)
    end
  else Ok (s, data).

Definition read (s : t) (pos n : Z) : result (t * bytes) :=
  if size s <? u64 (pos + n) then Throw (RuntimeError (lit "Data is out of range"))
  else read_loop (Z.to_nat n) s pos n [].

Fixpoint write_loop (fuel : nat) (s : t) (pos : Z) (data : bytes) : result t :=
  match data with
  | [] => Ok s
  | _ =>
      match fuel with
      | O => Undef
      | S n =>
          '(s, (p, avail)) ← chunk s pos;
          if avail =? 0 then Throw (RuntimeError (lit "Cannot fetch chunk"))
          else
            let cur_len := Z.min avail (len data) in
            f ← MMapFile.store (file_ s) p (take (Z.to_nat cur_len) data);
            write_loop n (set_file s f) (u64 (pos + cur_len)) (drop (Z.to_nat cur_len) data)
      end
  end.

Definition write (s : t) (pos : Z) (data : bytes) : result t :=
  if size s <? u64 (pos + len data) then Throw (RuntimeError (lit "Data is out of range"))
  else write_loop (length data) s pos data.

(** The window search: each range overlaps the next by the length of the text. *)
Fixpoint find_loop (fuel : nat) (s : t) (e : Z) (buf : bytes) (segment_pos offset : Z)
    : result (t * Z) :=
  match fuel with
  | O => Undef
  | S n =>
      let pos := u64 (segment_pos + offset) in
      let length := u64 (window_ s - offset + len buf) in
      let finish := e <=? u64 (pos + length) in
      let length := if finish then u64 (e - pos) else length in
      '(f, p) ← MMapFile.atRange sys (file_ s) pos length;
      base ← MMapFile.load f p length;
      let res := Z.of_nat (Range.find base buf) in
      if negb (res =? len base) then Ok (set_file s f, u64 (res + pos))
      else if finish then Ok (set_file s f, e)
      else find_loop n (set_file s f) e buf (u64 (segment_pos + window_ s)) 0
  end.

Definition find (s : t) (b e : Z) (buf : bytes) : result (t * Z) :=
  if u64 (e - b) <? len buf then Ok (s, e)
  else
    let segment := b / window_ s in
    let segment_pos := u64 (window_ s * segment) in
    find_loop (S (Z.to_nat (e - b))) s e buf segment_pos (u64 (b - segment_pos)).

(** The loop from the front looks at characters; the one from the back tests
    [isspace(end - 1)], the position converted to [int]: undefined for a value that is
    neither an [unsigned char] nor [EOF]. *)
Definition is_space_pos (p : Z) : result bool :=
  let c := s32 p in
  if (c <? -1) || (255 <? c) then Undef
  else Ok (((9 <=? c) && (c <=? 13)) || (c =? 32)).

Fixpoint trim_front (fuel : nat) (s : t) (b e : Z) : result (t * Z) :=
  if b =? e then Ok (s, b)
  else
    match fuel with
    | O => Undef
    | S n =>
        '(s, c) ← at_ s b;
        if isspace c then trim_front n s (b + 1) e else Ok (s, b)
    end.

Fixpoint trim_back (fuel : nat) (b e : Z) : result Z :=
  if b =? e then Ok e
  else
    match fuel with
    | O => Undef
    | S n =>
        sp ← is_space_pos (e - 1);
        if sp : bool then trim_back n b (e - 1) else Ok e
    end.

Definition trim (s : t) (b e : Z) : result (t * (Z * Z)) :=
  '(s, b') ← trim_front (Z.to_nat (e - b)) s b e;
  e' ← trim_back (Z.to_nat (e - b')) b' e;
  Ok (s, (b', e')).

Definition resize (s : t) (n : Z) : result t :=
  f ← MMapFile.resize sys (file_ s) n; Ok (set_file s f).

(** [chunk] followed by the reads of its caller, as the segment iterator uses it. *)
Definition chunk_bytes (s : t) (pos : Z) : result bytes :=
  '(s, (p, avail)) ← chunk s pos; MMapFile.load (file_ s) p avail.
End Ops.
End FileBuffer.

(** ** The window is invisible *)

Section MapOk.
Context (sys : Syscalls).
Import MMapFile.

(** The system calls succeed. *)
Record sys_ok : Prop := {
  mmap_ok o n : sys_mmap sys o n = 0;
  munmap_ok o n : sys_munmap sys o n = 0;
  ftruncate_ok n : sys_ftruncate sys n = 0
}.

(** A window of a whole number of pages, sizes far below 2^64, and a mapping that is
    recorded as empty when there is none. *)
Record map_wf (f : t) : Prop := {
  wf_page : 0 < page_size_ f;
  wf_window : 0 < window_ f < 2 ^ 62;
  wf_size : size_ f = len (content f);
  wf_small : len (content f) < 2 ^ 62;
  wf_start : 0 <= segment_start_ f;
  wf_len : 0 <= segment_len_ f;
  wf_end : segment_start_ f + segment_len_ f < 2 ^ 63;
  wf_none : pointer_ f = false -> segment_start_ f = 0 /\ segment_len_ f = 0
}.

(** Two objects that differ in the mapping only. *)
Definition same_file (f g : t) : Prop :=
  content g = content f /\ size_ g = size_ f /\ window_ g = window_ f /\
  page_size_ g = page_size_ f.

Lemma same_file_refl f : same_file f f.
Proof. repeat split. Qed.

Lemma same_file_trans f g k : same_file f g -> same_file g k -> same_file f k.
Proof. unfold same_file. intuition congruence. Qed.

Context (Hsys : sys_ok).

Lemma unmap_ok f :
  map_wf f -> exists f', unmap sys f = Ok f' /\ map_wf f' /\ same_file f f' /\
    pointer_ f' = false.
Proof.
  intros Hw. unfold unmap. destruct (pointer_ f) eqn:E.
  - rewrite (munmap_ok Hsys). eexists. split; [done|]. destruct Hw.
    split; [split; simpl; try done; lia|]. by repeat split.
  - exists f. split; [done|]. split; [done|]. split; [apply same_file_refl|done].
Qed.

(** After [map_range] the mapping covers the range, whichever branch was taken. *)
Lemma map_range_ok f b e :
  map_wf f -> 0 <= b -> b < e -> e < 2 ^ 63 ->
  exists f' p, map_range sys f b e = Ok (f', p) /\ map_wf f' /\ same_file f f' /\
    pointer_ f' = true /\ 0 <= p /\ segment_start_ f' + p = b /\
    e <= segment_start_ f' + segment_len_ f'.
Proof.
  intros Hw Hb Hbe He. unfold map_range. destruct (mapped f b e) eqn:E.
  - unfold mapped in E. apply andb_true_iff in E as [E1 E2]. destruct Hw.
    rewrite u64_small in E2 by lia. eexists f, _. split; [done|].
    split; [done|]. split; [apply same_file_refl|].
    split; [|lia]. destruct (pointer_ f) eqn:Ep; [done|].
    destruct (wf_none0 eq_refl). lia.
  - destruct (unmap_ok f Hw) as (g & -> & Hg & Hs & Hp). cbn [mbind result_bind].
    rewrite (mmap_ok Hsys). cbn. pose proof (wf_page _ Hg) as Hpg.
    pose proof (Z.mul_div_le b (page_size_ g) Hpg).
    pose proof (Z.div_pos b (page_size_ g) Hb Hpg).
    assert (0 <= page_size_ g * (b / page_size_ g)) by (apply Z.mul_nonneg_nonneg; lia).
    set (base := page_size_ g * (b / page_size_ g)) in *.
    eexists _, _. split; [done|]. rewrite u64_small by lia.
    split; [|split; [exact Hs|cbn; lia]].
    destruct Hg. split; cbn; try done; lia.
Qed.

Lemma load_ok f off n :
  map_wf f -> pointer_ f = true -> 0 <= off -> 0 <= n -> off + n <= segment_len_ f ->
  segment_start_ f + off + n <= len (content f) ->
  load f off n = Ok (slice (content f) (segment_start_ f + off) (segment_start_ f + off + n)).
Proof.
  intros Hw Hp ????. unfold load. rewrite Hp. by rewrite !(proj2 (Z.leb_le _ _)) by lia.
Qed.

Lemma store_ok f off d :
  map_wf f -> pointer_ f = true -> 0 <= off -> off + len d <= segment_len_ f ->
  segment_start_ f + off + len d <= len (content f) ->
  exists f', store f off d = Ok f' /\ map_wf f' /\
    content f' = overwrite (content f) (segment_start_ f + off) d /\
    window_ f' = window_ f /\ page_size_ f' = page_size_ f.
Proof.
  intros Hw Hp ???. unfold store. rewrite Hp. rewrite !(proj2 (Z.leb_le _ _)) by lia. simpl.
  eexists. split; [done|]. pose proof (len_nonneg d). destruct Hw.
  split; [|done]. split; simpl; try done; rewrite overwrite_len; lia.
Qed.

Lemma slice_one (l : bytes) k b : l !! Z.to_nat k = Some b -> 0 <= k -> slice l k (k + 1) = [b].
Proof.
  intros Hb Hk. unfold slice. replace (k + 1 - k) with 1 by lia.
  by rewrite (drop_S _ _ _ Hb).
Qed.

(** The window that holds a position. *)
Lemma window_bounds w pos :
  0 < w -> 0 <= pos -> 0 <= pos / w * w /\ pos / w * w <= pos /\ pos < pos / w * w + w /\
    pos mod w = pos - pos / w * w.
Proof.
  intros. pose proof (Z.div_mod pos w ltac:(lia)). pose proof (Z.mod_pos_bound pos w ltac:(lia)).
  pose proof (Z.div_pos pos w ltac:(lia) ltac:(lia)).
  assert (0 <= pos / w * w) by (apply Z.mul_nonneg_nonneg; lia). lia.
Qed.

Lemma at_ok f k :
  map_wf f -> 0 <= k < len (content f) ->
  exists f' b, at_ sys f k = Ok (f', b) /\ map_wf f' /\ same_file f f' /\
    content f !! Z.to_nat k = Some b.
Proof.
  intros Hw Hk. pose proof (wf_small _ Hw).
  destruct (lookup_lt_is_Some_2 (content f) (Z.to_nat k)) as [b Hb].
  { unfold len in *. lia. }
  unfold at_, check_index. rewrite (wf_size _ Hw), (proj2 (Z.leb_gt _ _)) by lia.
  cbn [mbind result_bind]. rewrite (u64_small (k + 1)) by lia. destruct (mapped f k (k + 1)) eqn:E.
  - unfold mapped in E. apply andb_true_iff in E as [E1 E2]. pose proof Hw as [].
    rewrite u64_small in E2 by lia.
    assert (Hp : pointer_ f = true).
    { destruct (pointer_ f) eqn:Ep; [done|]. destruct (wf_none0 eq_refl). lia. }
    unfold load1. rewrite load_ok by (done || lia). cbn [mbind result_bind].
    replace (segment_start_ f + (k - segment_start_ f)) with k by lia.
    rewrite (slice_one _ _ _ Hb) by lia. exists f, b. split; [done|].
    split; [done|]. split; [apply same_file_refl|done].
  - unfold map_segment. pose proof (wf_window _ Hw).
    destruct (window_bounds (window_ f) k) as (? & ? & ? & Hmod); [lia|lia|].
    rewrite (u64_small (k / window_ f * window_ f)) by lia.
    rewrite u64_small by lia.
    destruct (map_range_ok f (k / window_ f * window_ f) (k / window_ f * window_ f + window_ f))
      as (g & p & -> & Hg & Hs & Hp & ? & Hst & ?); try lia; [done|].
    cbn [mbind result_bind]. unfold load1. destruct Hs as (Hc & Hs).
    rewrite load_ok; rewrite ?Hc; try done; try lia. cbn [mbind result_bind].
    replace (segment_start_ g + (p + k mod window_ f)) with k by lia.
    rewrite (slice_one _ _ _ Hb) by lia. exists g, b. split; [done|]. split; [done|]. split; [by split|done].
Qed.

Lemma atRange_ok f k n :
  map_wf f -> 0 <= k -> 0 < n -> k + n <= len (content f) ->
  exists f' p, atRange sys f k n = Ok (f', p) /\ map_wf f' /\ same_file f f' /\
    load f' p n = Ok (slice (content f) k (k + n)).
Proof.
  intros Hw ???. pose proof (wf_small _ Hw).
  unfold atRange, check_index. rewrite (wf_size _ Hw), (proj2 (Z.leb_gt _ k)) by lia.
  cbn [mbind result_bind]. rewrite (proj2 (Z.ltb_lt _ _)) by lia.
  rewrite !u64_small by lia. rewrite (proj2 (Z.leb_gt _ _)) by lia.
  cbn [mbind result_bind].
  destruct (map_range_ok f k (k + n)) as (g & p & -> & Hg & Hs & Hp & ? & Hst & ?);
    try lia; [done|].
  exists g, p. split; [done|]. split; [done|]. split; [done|]. destruct Hs as (Hc & Hs).
  rewrite load_ok; rewrite ?Hc; try done; try lia. by rewrite Hst.
Qed.

Lemma atSegment_ok f k :
  map_wf f -> 0 <= k < len (content f) ->
  let avail := Z.min (window_ f * (k / window_ f) + window_ f) (len (content f)) - k in
  0 < avail /\
  exists f' p, atSegment sys f k = Ok (f', (p, avail)) /\ map_wf f' /\ same_file f f' /\
    pointer_ f' = true /\ 0 <= p /\ segment_start_ f' + p = k /\ p + avail <= segment_len_ f'.
Proof.
  intros Hw Hk avail. pose proof (wf_small _ Hw). pose proof (wf_window _ Hw).
  destruct (window_bounds (window_ f) k) as (? & ? & ? & Hmod); [lia|lia|].
  unfold avail. clear avail. rewrite (Z.mul_comm (window_ f) (k / window_ f)).
  split; [lia|].
  unfold atSegment, check_index. rewrite (wf_size _ Hw), (proj2 (Z.leb_gt _ k)) by lia.
  cbn [mbind result_bind].
  rewrite (u64_small (k / window_ f * window_ f + window_ f)), u64_small by lia.
  destruct (map_range_ok f (k / window_ f * window_ f) (k / window_ f * window_ f + window_ f))
      as (g & p & -> & Hg & Hs & Hp & ? & Hst & ?); try lia; [done|].
  cbn [mbind result_bind]. eexists g, _. split; [done|]. repeat split; try apply Hg; try apply Hs;
    try done; lia.
Qed.
End MapOk.

Section BufferOk.
Context (sys : Syscalls) (Hsys : sys_ok sys).
Import FileBuffer.

Definition file_wf (s : t) : Prop :=
  map_wf (file_ s) /\ window_ s = MMapFile.window_ (file_ s).

Definition file_contents (s : t) : bytes := MMapFile.content (file_ s).

(** [s'] is [s] after its window moved. *)
Definition moved (s s' : t) : Prop :=
  file_wf s' /\ file_contents s' = file_contents s /\ window_ s' = window_ s.

Lemma set_file_moved s f :
  file_wf s -> map_wf f -> same_file (file_ s) f -> moved s (set_file s f).
Proof.
  intros [Hw Hwin] Hf (Hc & Hs & Hwi & Hp). split; [|done].
  split; [done|]. simpl. congruence.
Qed.

Lemma chunk_ok s k :
  file_wf s -> 0 <= k < len (file_contents s) ->
  let avail := Z.min (window_ s * (k / window_ s) + window_ s) (len (file_contents s)) - k in
  0 < avail /\
  exists s' p, chunk sys s k = Ok (s', (p, avail)) /\ moved s s' /\
    MMapFile.pointer_ (file_ s') = true /\ 0 <= p /\
    MMapFile.segment_start_ (file_ s') + p = k /\
    p + avail <= MMapFile.segment_len_ (file_ s').
Proof.
  intros Hw Hk avail. unfold avail. clear avail. pose proof Hw as [Hm Hwin].
  destruct (atSegment_ok sys Hsys (file_ s) k Hm Hk) as (Ha & f & p & E & Hf & Hs & ? & ? & ? & ?).
  rewrite Hwin. split; [exact Ha|]. unfold chunk. rewrite E. cbn [mbind result_bind].
  eexists _, p. split; [done|]. split; [by apply set_file_moved|]. done.
Qed.

Lemma read_loop_ok fuel s pos n data :
  file_wf s -> 0 <= pos -> 0 <= n -> pos + n <= len (file_contents s) ->
  (Z.to_nat n <= fuel)%nat ->
  exists s', read_loop sys fuel s pos n data =
    Ok (s', data ++ slice (file_contents s) pos (pos + n)) /\ moved s s'.
Proof.
  revert s pos n data. induction fuel as [|fuel IH]; intros s pos n data Hw Hp Hn Hl Hf;
    cbn [read_loop]; destruct (Z.ltb_spec 0 n); try lia.
  - exists s. rewrite slice_empty, app_nil_r by lia. by repeat split; try apply Hw.
  - destruct (chunk_ok s pos Hw) as (Ha & s' & p & -> & Hm & ? & ? & Hst & ?); [lia|].
    cbn [mbind result_bind]. set (avail := Z.min _ _ - pos) in *.
    rewrite (proj2 (Z.eqb_neq _ _)) by lia. pose proof Hm as (Hw' & Hc & Hwi).
    pose proof Hw' as [Hmw _]. pose proof (wf_small _ Hmw). unfold file_contents in *.
    rewrite load_ok by (done || lia || (rewrite Hc; lia)). cbn [mbind result_bind]. rewrite Hst.
    rewrite u64_small by (rewrite Hc in *; lia).
    destruct (IH s' (pos + Z.min avail n) (n - Z.min avail n)
      (data ++ slice (MMapFile.content (file_ s')) pos (pos + Z.min avail n)))
      as (s'' & -> & Hw'' & Hc'' & Hwi''); rewrite ?Hc; try lia; [done|].
    exists s''. rewrite <- app_assoc. split.
    + do 3 f_equal. replace (pos + Z.min avail n + (n - Z.min avail n)) with (pos + n) by lia.
      symmetry. apply slice_split; lia.
    + split; [done|]. unfold file_contents in *. split; congruence.
  - exists s. rewrite slice_empty, app_nil_r by lia. by repeat split; try apply Hw.
Qed.

Lemma read_ok s pos n :
  file_wf s -> 0 <= pos -> 0 <= n -> pos + n <= len (file_contents s) ->
  exists s', read sys s pos n = Ok (s', slice (file_contents s) pos (pos + n)) /\ moved s s'.
Proof.
  intros Hw ???. pose proof Hw as [Hm _]. pose proof (wf_small _ Hm).
  unfold read, size, file_contents in *. rewrite (wf_size _ Hm), u64_small by lia.
  rewrite (proj2 (Z.ltb_ge _ _)) by lia. apply (read_loop_ok _ s pos n []); (done || lia).
Qed.

Lemma overwrite_app (l : bytes) pos (d1 d2 : bytes) :
  0 <= pos -> pos + len d1 + len d2 <= len l ->
  overwrite (overwrite l pos d1) (pos + len d1) d2 = overwrite l pos (d1 ++ d2).
Proof.
  intros. pose proof (len_nonneg d1). pose proof (len_nonneg d2).
  apply list_eq. intros k.
  rewrite !overwrite_lookup; rewrite ?len_app, ?overwrite_len; try lia.
  rewrite length_app. unfold len in *.
  repeat case_decide; try lia; try done.
  - rewrite lookup_app_r by lia. f_equal. lia.
  - by rewrite lookup_app_l by lia.
Qed.

Lemma write_loop_ok fuel s pos data :
  file_wf s -> 0 <= pos -> pos + len data <= len (file_contents s) ->
  (length data <= fuel)%nat ->
  exists s', write_loop sys fuel s pos data = Ok s' /\ file_wf s' /\
    file_contents s' = overwrite (file_contents s) pos data.
Proof.
  assert (Hnil : forall (l : bytes) pos, overwrite l pos [] = l).
  { intros. unfold overwrite. simpl. by rewrite Nat.add_0_r, take_drop. }
  revert s pos data. induction fuel as [|fuel IH]; intros s pos data Hw Hp Hl Hf;
    (destruct data as [|c data]; [exists s; rewrite Hnil; done|]); [simpl in Hf; lia|].
  cbn [write_loop]. set (d := c :: data) in *.
  assert (Hpos : 0 < len d) by (unfold d; rewrite len_cons; pose proof (len_nonneg data); lia).
  destruct (chunk_ok s pos Hw) as (Ha & s' & p & -> & Hm & ? & ? & Hst & ?); [lia|].
  cbn [mbind result_bind]. set (avail := Z.min _ _ - pos) in *.
  rewrite (proj2 (Z.eqb_neq _ _)) by lia. pose proof Hm as (Hw' & Hc & Hwi).
  pose proof Hw' as [Hmw Hwin']. pose proof (wf_small _ Hmw).
  set (n := Z.min avail (len d)) in *.
  assert (Hn : len (take (Z.to_nat n) d) = n) by (unfold len in *; rewrite length_take; lia).
  assert (Hr : len (drop (Z.to_nat n) d) = len d - n) by (unfold len in *; rewrite length_drop; lia).
  unfold file_contents in *.
  destruct (store_ok (file_ s') p (take (Z.to_nat n) d)) as (f & -> & Hfw & Hfc & Hfwin & _);
    rewrite ?Hn; try done; rewrite ?Hc; try lia.
  cbn [mbind result_bind]. rewrite u64_small by (rewrite Hc in *; lia).
  rewrite Hst, Hc in Hfc.
  assert (Hlen : len (MMapFile.content f) = len (MMapFile.content (file_ s)))
    by (rewrite Hfc; apply overwrite_len; lia).
  destruct (IH (set_file s' f) (pos + n) (drop (Z.to_nat n) d)) as (s'' & -> & Hw'' & Hc'').
  - split; [done|]. simpl. congruence.
  - lia.
  - simpl. lia.
  - rewrite length_drop. unfold d, len in *. simpl in *. lia.
  - exists s''. split; [done|]. split; [done|]. unfold file_contents in *. rewrite Hc''. simpl.
    rewrite Hfc. replace (pos + n) with (pos + len (take (Z.to_nat n) d)) by lia.
    rewrite overwrite_app by lia. by rewrite take_drop.
Qed.

Lemma write_ok s pos data :
  file_wf s -> 0 <= pos -> pos + len data <= len (file_contents s) ->
  exists s', write sys s pos data = Ok s' /\ file_wf s' /\
    file_contents s' = overwrite (file_contents s) pos data.
Proof.
  intros Hw ??. pose proof Hw as [Hm _]. pose proof (wf_small _ Hm). pose proof (len_nonneg data).
  unfold write, size, file_contents in *. rewrite (wf_size _ Hm), u64_small by lia.
  rewrite (proj2 (Z.ltb_ge _ _)) by lia. by apply write_loop_ok.
Qed.

(** One window: the text found in it is the first in the rest of the range, and when
    there is none the search goes on in the next window. *)
Lemma find_loop_ok fuel s e buf seg off :
  file_wf s -> 0 <= seg -> 0 <= off < window_ s -> seg + off < e ->
  e <= len (file_contents s) -> (Z.to_nat (e - (seg + off)) < fuel)%nat ->
  len buf < 2 ^ 62 ->
  exists s', find_loop sys fuel s e buf seg off =
    Ok (s', seg + off + Z.of_nat (search (slice (file_contents s) (seg + off) e) buf)) /\
    moved s s'.
Proof.
  revert s seg off. induction fuel as [|fuel IH]; intros s seg off Hw Hs Ho Hpe He Hf Hbl; [lia|].
  pose proof Hw as [Hm Hwin]. pose proof (wf_small _ Hm). pose proof (wf_window _ Hm).
  pose proof (len_nonneg buf). unfold file_contents in He, IH |- *.
  cbn [find_loop]. rewrite (u64_small (seg + off)) by lia.
  rewrite (u64_small (window_ s - off + len buf)) by lia.
  rewrite (u64_small (seg + off + _)) by lia. set (pos := seg + off) in *.
  set (L := window_ s - off + len buf) in *. rewrite (u64_small (e - pos)) by lia.
  set (n := if e <=? pos + L then e - pos else L).
  assert (Hn : n = Z.min (e - pos) L) by (unfold n; destruct (Z.leb_spec e (pos + L)); lia).
  clearbody n. subst n. set (n := Z.min (e - pos) L).
  destruct (atRange_ok sys Hsys (file_ s) pos n) as (f & p & -> & Hfw & Hsf & Hld);
    try lia; [done|]. cbn [mbind result_bind]. rewrite Hld. cbn [mbind result_bind]. rewrite Range.find_search.
  set (whole := slice (MMapFile.content (file_ s)) pos e).
  assert (Hwl : len whole = e - pos) by (apply slice_len; lia).
  assert (Hbase : slice (MMapFile.content (file_ s)) pos (pos + n) = take (Z.to_nat n) whole).
  { unfold whole, slice. rewrite take_take. f_equal. lia. }
  rewrite Hbase. assert (Hmv : moved s (set_file s f)) by (by apply set_file_moved).
  destruct (Z.eqb_spec (Z.of_nat (search (take (Z.to_nat n) whole) buf))
    (len (take (Z.to_nat n) whole))) as [E|E]; cbn [negb].
  - destruct (Z.leb_spec e (pos + L)).
    + rewrite take_ge in E by (unfold len in *; lia). exists (set_file s f).
      split; [|done]. rewrite E. do 2 f_equal. lia.
    + assert (n = L) as HnL by lia.
      rewrite (u64_small (seg + window_ s)) by lia.
      destruct (IH (set_file s f) (seg + window_ s) 0) as (s' & E' & Hw' & Hc' & Hwi');
        try (simpl; unfold len in *; lia); [apply Hmv|simpl; destruct Hsf as [-> _]; lia|].
      rewrite E'. exists s'. destruct Hmv as (? & Hc1 & Hw1). split.
      * rewrite (search_window_none whole buf (Z.to_nat n));
          [|unfold len in *; lia|unfold len in *; lia|unfold len in *; lia].
        do 2 f_equal. unfold file_contents in Hc1. rewrite Hc1.
        assert (Hd : (Z.to_nat n - length buf)%nat = Z.to_nat (seg + window_ s + 0 - pos)) by (unfold len in *; lia).
        unfold whole. rewrite Hd, slice_drop by lia. unfold len in *. lia.
      * split; [done|]. split; congruence.
  - exists (set_file s f). split; [|done].
    rewrite (search_window_found whole buf (Z.to_nat n)) by (intros E'; apply E; unfold len; lia).
    pose proof (search_le (take (Z.to_nat n) whole) buf) as Hle. rewrite length_take in Hle.
    unfold len in *. rewrite u64_small by lia. do 2 f_equal. lia.
Qed.

Lemma find_ok s b e buf :
  file_wf s -> 0 <= b -> b < e -> e <= len (file_contents s) ->
  exists s', find sys s b e buf =
    Ok (s', b + Z.of_nat (search (slice (file_contents s) b e) buf)) /\ moved s s'.
Proof.
  intros Hw ???. pose proof Hw as [Hm Hwin]. pose proof (wf_small _ Hm). pose proof (wf_window _ Hm).
  unfold file_contents in *. unfold find. rewrite (u64_small (e - b)) by lia.
  assert (Hsl : len (slice (MMapFile.content (file_ s)) b e) = e - b) by (apply slice_len; lia).
  destruct (Z.ltb_spec (e - b) (len buf)).
  - exists s. split; [|by split]. do 2 f_equal.
    destruct (search_found (slice (MMapFile.content (file_ s)) b e) buf) as [Hs|[Hs _]].
    + apply starts_with_length in Hs. rewrite length_drop in Hs. unfold len in *. lia.
    + rewrite Hs. unfold len in *. lia.
  - destruct (window_bounds (window_ s) b) as (? & ? & ? & ?); [lia|lia|].
    rewrite (Z.mul_comm (window_ s) (b / window_ s)).
    rewrite (u64_small (b / window_ s * window_ s)), u64_small by lia.
    destruct (find_loop_ok (S (Z.to_nat (e - b))) s e buf (b / window_ s * window_ s)
      (b - b / window_ s * window_ s)) as (s' & -> & Hm'); try lia; try done.
    replace (b / window_ s * window_ s + (b - b / window_ s * window_ s)) with b by lia.
    by exists s'.
Qed.
End BufferOk.

(** ** FileBuffer implements the interface

    The interface has no room for the window: the instance runs an operation and keeps
    its result, and the laws hold from any window, so keeping it or not is the same. *)

Definition file_buffer_impl (sys : Syscalls) : DataBufferImpl FileBuffer.t := {|
  impl_read s pos n := snd <$> FileBuffer.read sys s pos n;
  impl_write s pos data := FileBuffer.write sys s pos data;
  impl_at s pos := snd <$> FileBuffer.at_ sys s pos;
  impl_find s b e buf := snd <$> FileBuffer.find sys s b e buf;
  impl_trim s b e := snd <$> FileBuffer.trim sys s b e;
  impl_chunk s pos := FileBuffer.chunk_bytes sys s pos;
  impl_segment := FileBuffer.segment;
  impl_size := FileBuffer.size;
  impl_resize s n := FileBuffer.resize sys s n
|}.

Lemma map_segment_0_ok sys f :
  sys_ok sys -> map_wf f ->
  exists f' p, MMapFile.map_segment sys f 0 = Ok (f', p) /\ map_wf f' /\ same_file f f'.
Proof.
  intros Hsys Hw. unfold MMapFile.map_segment. rewrite Z.mul_0_l. change (u64 0) with 0.
  pose proof (wf_window _ Hw). rewrite u64_small by lia.
  destruct (map_range_ok sys Hsys f 0 (0 + MMapFile.window_ f)) as (g & p & E & Hg & Hs & _);
    try lia; [done|]. by exists g, p.
Qed.

Lemma resize_ok sys s n :
  sys_ok sys -> file_wf s -> 0 <= n < 2 ^ 62 ->
  exists s', FileBuffer.resize sys s n = Ok s' /\ file_wf s' /\
    file_contents s' = resize_bytes (file_contents s) n.
Proof.
  intros Hsys [Hm Hwin] Hn. unfold FileBuffer.resize, MMapFile.resize.
  destruct (unmap_ok sys Hsys (FileBuffer.file_ s) Hm) as (g & -> & Hg & (Hc & Hs & Hw & Hp) & Hpt).
  cbn [mbind result_bind]. rewrite (ftruncate_ok _ Hsys). simpl.
  assert (Hl : len (resize_bytes (MMapFile.content g) n) = n).
  { unfold resize_bytes, len. rewrite length_app, length_take, repeat_length. lia. }
  set (f := MMapFile.MMapFile _ _ _ _ _ _ _).
  assert (Hf : map_wf f) by (destruct Hg; split; simpl; try done; lia).
  destruct (map_segment_0_ok sys f Hsys Hf) as (f' & p & -> & Hf' & Hc' & _ & Hw' & _).
  cbn [mbind result_bind]. eexists. split; [done|]. unfold file_contents. simpl. split.
  - split; [done|]. simpl in *. congruence.
  - rewrite Hc'. simpl. by rewrite Hc.
Qed.

Lemma file_buffer_ok sys (Hsys : sys_ok sys) :
  @DataBufferImplOk FileBuffer.t (file_buffer_impl sys) file_wf file_contents.
Proof.
  split; unfold impl_read, impl_write, impl_at, impl_find, impl_chunk, impl_segment,
    impl_size, impl_resize, file_buffer_impl; intros i.
  - intros [Hm _]. pose proof (wf_small _ Hm). unfold file_contents. lia.
  - intros [Hm _]. apply (wf_size _ Hm).
  - intros pos n Hw ???. by destruct (read_ok sys Hsys i pos n) as (s' & -> & _).
  - intros pos d Hw ??. by apply write_ok.
  - intros pos [Hm Hwin] ?. unfold FileBuffer.at_.
    destruct (at_ok sys Hsys (FileBuffer.file_ i) pos) as (f & b & -> & _ & _ & Hb); [done..|].
    by exists b.
  - intros b e sub Hw ???. by destruct (find_ok sys Hsys i b e sub) as (s' & -> & _).
  - intros pos [Hm Hwin] ?. unfold FileBuffer.segment. simpl. split; [done|].
    pose proof (wf_window _ Hm). pose proof (wf_small _ Hm). unfold file_contents in *.
    destruct (window_bounds (FileBuffer.window_ i) pos) as (? & ? & ? & _); try lia.
    rewrite (Z.mul_comm (FileBuffer.window_ i) (pos / FileBuffer.window_ i)).
    rewrite u64_small by lia. lia.
  - intros pos Hw Hp. unfold FileBuffer.chunk_bytes.
    destruct (chunk_ok sys Hsys i pos Hw Hp) as (Ha & s' & p & -> & Hm & ? & ? & Hst & ?).
    cbn [mbind result_bind]. pose proof Hm as (Hw' & Hc & Hwi).
    destruct Hw as [Hmi Hwin]. pose proof (wf_window _ Hmi). pose proof (wf_small _ Hmi).
    unfold file_contents in *.
    destruct (window_bounds (FileBuffer.window_ i) pos) as (? & ? & ? & _); try lia.
    rewrite (Z.mul_comm (FileBuffer.window_ i) (pos / FileBuffer.window_ i)) in *.
    unfold FileBuffer.segment. simpl.
    rewrite (Z.mul_comm (FileBuffer.window_ i) (pos / FileBuffer.window_ i)).
    rewrite u64_small by lia. rewrite load_ok by (apply Hw' || done || lia || (rewrite Hc; lia)).
    rewrite Hst, Hc. do 2 f_equal. lia.
  - intros n Hw Hn. by apply resize_ok.
Qed.

(** The constructor: a window rounded up to whole pages and the first one mapped. *)
Lemma file_create_ok sys content window page :
  sys_ok sys -> 0 < page < 2 ^ 40 -> 0 <= window < 2 ^ 40 -> len content < 2 ^ 62 ->
  exists s, FileBuffer.create sys content window page = Ok s /\ file_wf s /\
    file_contents s = content /\ FileBuffer.window_ s mod page = 0 /\
    window <= FileBuffer.window_ s.
Proof.
  intros Hsys Hp Hw Hc. unfold FileBuffer.create, MMapFile.create.
  set (f := MMapFile.checkWindow _).
  assert (Hf : (0 < MMapFile.window_ f < 2 ^ 62 /\ window <= MMapFile.window_ f) /\
    MMapFile.window_ f mod page = 0).
  { unfold f, MMapFile.checkWindow. simpl. destruct (Z.eqb_spec window 0).
    - rewrite u64_small by lia. split; [lia|]. apply Z.mod_mul. lia.
    - destruct (window_bounds page window) as (? & ? & ? & Hm); [lia|lia|].
      destruct (Z.eqb_spec (window - window / page * page) 0); simpl.
      + rewrite (Z.mul_comm page), u64_small by lia. split; [lia|]. apply Z.mod_mul. lia.
      + assert (page * (window / page + 1) = window / page * page + page) as E by lia.
        rewrite E, u64_small by lia. split; [lia|]. rewrite <- E, Z.mul_comm. apply Z.mod_mul. lia. }
  destruct Hf as [[Hf Hge] Hmod].
  assert (Hwf : map_wf f) by (split; simpl; try done; lia).
  destruct (map_segment_0_ok sys f Hsys Hwf) as (f' & p & -> & Hf' & Hc' & _ & Hw' & _).
  cbn [mbind result_bind]. eexists. split; [done|].
  split; [by split|]. split; [exact Hc'|]. split; simpl; congruence.
Qed.

(** C20: a body kept in a file behaves as the same body kept in memory, whatever window
    of it is mapped: both read, index and search alike, both are cut by the segment
    iterator into pieces that concatenate to the same bytes, and writing or resizing
    both leaves the same bytes. *)
Theorem file_string_agree sys s :
  sys_ok sys -> file_wf s ->
  let m := StringBuffer.create (file_contents s) in
  FileBuffer.size s = StringBuffer.size m /\
  (forall pos n, 0 <= pos -> 0 <= n -> pos + n <= FileBuffer.size s ->
    snd <$> FileBuffer.read sys s pos n = StringBuffer.read m pos n) /\
  (forall pos, 0 <= pos < FileBuffer.size s ->
    snd <$> FileBuffer.at_ sys s pos = StringBuffer.at_ m pos) /\
  (forall b e sub, 0 <= b -> b < e -> e <= FileBuffer.size s ->
    snd <$> FileBuffer.find sys s b e sub = StringBuffer.find m b e sub) /\
  (forall h l b e, h !! l = Some s -> 0 <= b -> b <= e -> e <= FileBuffer.size s ->
    Buf.toString (H := file_buffer_impl sys) h (MkDataBuffer (Some l) b e) =
    Buf.toString {[ l := m ]} (MkDataBuffer (Some l) b e)) /\
  (forall pos d, 0 <= pos -> pos + len d <= FileBuffer.size s ->
    file_contents <$> FileBuffer.write sys s pos d =
    StringBuffer.data_ <$> StringBuffer.write m pos d) /\
  (forall n, 0 <= n < 2 ^ 62 ->
    file_contents <$> FileBuffer.resize sys s n =
    StringBuffer.data_ <$> StringBuffer.resize m n).
Proof.
  intros Hsys Hw m. pose (Hi := file_buffer_impl sys).
  pose proof (file_buffer_ok sys Hsys : DataBufferImplOk _ file_wf file_contents) as Hok.
  pose proof (ok_small s Hw) as Hs. assert (Hm : string_wf m) by exact Hs.
  assert (Hsz : FileBuffer.size s = len (file_contents s)) by exact (ok_size s Hw).
  rewrite Hsz. split; [done|]. split; [|split; [|split; [|split; [|split]]]].
  - intros pos n ???. etransitivity; [by apply (@ok_read _ Hi _ _ Hok s)|].
    symmetry. by apply (@ok_read _ _ _ _ string_buffer_ok m).
  - intros pos Hp. destruct (@ok_at _ Hi _ _ Hok s pos Hw Hp) as (x & Hx & E).
    destruct (@ok_at _ _ _ _ string_buffer_ok m pos Hm Hp) as (y & Hy & E').
    etransitivity; [exact E|]. etransitivity; [|symmetry; exact E']. f_equal.
    simpl in Hy. congruence.
  - intros b e sub ???. etransitivity; [by apply (@ok_find _ Hi _ _ Hok s)|].
    symmetry. by apply (@ok_find _ _ _ _ string_buffer_ok m).
  - intros h l b e Hl ???.
    etransitivity; [apply (@toString_view _ Hi _ _ Hok h _ (slice (file_contents s) b e))|].
    { exists l, s. by do 6 (split; [done|]). }
    symmetry. apply toString_view. exists l, m. rewrite lookup_singleton_eq. by do 6 (split; [done|]).
  - intros pos d ??. destruct (@ok_write _ Hi _ _ Hok s pos d) as (s' & E & _ & Hc); [done..|].
    destruct (@ok_write _ _ _ _ string_buffer_ok m pos d) as (m' & E' & _ & Hc'); [done..|].
    unfold impl_write in E, E'. simpl in E, E'. rewrite E, E'. simpl. f_equal.
    simpl in Hc'. congruence.
  - intros n Hn. destruct (@ok_resize _ Hi _ _ Hok s n) as (s' & E & _ & Hc); [done..|].
    destruct (@ok_resize _ _ _ _ string_buffer_ok m n) as (m' & E' & _ & Hc'); [done..|].
    unfold impl_resize in E, E'. simpl in E, E'. rewrite E, E'. simpl. f_equal.
    simpl in Hc'. congruence.
Qed.

(** System calls that succeed, and a body of 12 bytes under a window of one 4-byte page. *)
Definition good_sys : Syscalls := Build_Syscalls (fun _ _ => 0) (fun _ _ => 0) (fun _ => 0).

Lemma good_sys_ok : sys_ok good_sys.
Proof. by split. Qed.

Definition small_file (content : bytes) : FileBuffer.t :=
  match FileBuffer.create good_sys content 4 4 with
  | Ok s => s
  | _ => FileBuffer.FileBuffer (MMapFile.MMapFile [] false 0 0 0 0 0) 0
  end.

Lemma small_file_wf content :
  len content < 2 ^ 62 ->
  file_wf (small_file content) /\ file_contents (small_file content) = content.
Proof.
  intros H. destruct (file_create_ok good_sys content 4 4) as (s & E & Hw & Hc & _);
    try lia; [apply good_sys_ok|]. unfold small_file. by rewrite E.
Qed.

Lemma file_string_agree_witness :
  snd <$> FileBuffer.find good_sys (small_file (lit "ab--needle--")) 1 12 (lit "needle") = Ok 4.
Proof.
  destruct (small_file_wf (lit "ab--needle--") ltac:(by vm_compute)) as [Hw _].
  destruct (file_string_agree good_sys (small_file (lit "ab--needle--")) good_sys_ok Hw)
    as (_ & _ & _ & Hf & _).
  etransitivity; [apply Hf; vm_compute; congruence|]. vm_compute. reflexivity.
Defined.

(** The loop of [trim] from the back looks at positions, so the spaces at the end of a
    body in a file survive where those of a body in memory are cut. *)
Lemma trim_diverges :
  snd <$> FileBuffer.trim good_sys (small_file (lit " ab   ")) 0 6 = Ok (1, 6) /\
  StringBuffer.trim (StringBuffer.create (lit " ab   ")) 0 6 = Ok (1, 3).
Proof. split; vm_compute; reflexivity. Qed.

(** The end [trim] computes for a body in a file depends on positions only: beyond
    the end position 33 (a value [isspace] rejects) and below 257 nothing is cut. *)
Lemma trim_back_by_position sys s b b' e s' :
  33 < e < 257 -> b <= b' -> b' < e ->
  FileBuffer.trim_front sys (Z.to_nat (e - b)) s b e = Ok (s', b') ->
  FileBuffer.trim sys s b e = Ok (s', (b', e)).
Proof.
  intros He Hb Hb' Hf. unfold FileBuffer.trim. rewrite Hf. cbn [mbind result_bind].
  destruct (Z.to_nat (e - b')) eqn:En; [lia|]. cbn [FileBuffer.trim_back].
  rewrite (proj2 (Z.eqb_neq _ _)) by lia.
  unfold FileBuffer.is_space_pos.
  assert (s32 (e - 1) = e - 1) as -> by (unfold s32; rewrite Z.mod_small by lia; lia).
  rewrite (proj2 (Z.ltb_ge _ _)), (proj2 (Z.ltb_ge _ _)) by lia. cbn [orb].
  assert (((9 <=? e - 1) && (e - 1 <=? 13) || (e - 1 =? 32)) = false) as -> by lia.
  done.
Qed.
