(* ===== verification/Cookie.v ===== *)
(** * Cookie

    [library/cookie.cpp] and the date functions of [library/util.cpp] its text
    needs. A [Cookie] owns its [CookieData] and copies it on assignment, so the model
    is the record itself; [out_cookies_] of a request is a [std::set] of them ordered
    by name. *)

From S2P Require Import Prelude Cxx OrdMap StringUtils.

(** ** HttpDateUtils *)

Module HttpDateUtils.

(** The fields of [struct tm] that the formats use, the year as itself. *)
Record tm := {
  tm_year : Z; tm_mon : Z; tm_mday : Z; tm_hour : Z; tm_min : Z; tm_sec : Z; tm_wday : Z
}.

(** The civil date of a day number counted from 1970-01-01 (proleptic Gregorian). *)
Definition civil_from_days (days : Z) : Z * Z * Z :=
  let z := days + 719468 in
  let era := z / 146097 in
  let doe := z mod 146097 in
  let yoe := (doe - doe / 1460 + doe / 36524 - doe / 146096) / 365 in
  let doy := doe - (365 * yoe + yoe / 4 - yoe / 100) in
  let mp := (5 * doy + 2) / 153 in
  let d := doy - (153 * mp + 2) / 5 + 1 in
  let m := if mp <? 10 then mp + 3 else mp - 9 in
  let y := yoe + era * 400 in
  (if m <=? 2 then y + 1 else y, m, d).

(** [gmtime_r]: fails when the year does not fit an [int]. *)
Definition gmtime (value : Z) : option tm :=
  let days := value / 86400 in
  let secs := value mod 86400 in
  let '(y, m, d) := civil_from_days days in
  if (y - 1900 <? - 2 ^ 31) || (2 ^ 31 <=? y - 1900) then None
  else Some {| tm_year := y; tm_mon := m; tm_mday := d;
               tm_hour := secs / 3600; tm_min := secs / 60 mod 60; tm_sec := secs mod 60;
               tm_wday := (days + 4) mod 7 |}.

Definition wday_names : list bytes :=
  [lit "Sun"; lit "Mon"; lit "Tue"; lit "Wed"; lit "Thu"; lit "Fri"; lit "Sat"].

Definition month_names : list bytes :=
  [lit "Jan"; lit "Feb"; lit "Mar"; lit "Apr"; lit "May"; lit "Jun"; lit "Jul"; lit "Aug";
   lit "Sep"; lit "Oct"; lit "Nov"; lit "Dec"].

Definition two_digits (n : Z) : bytes := [z2b (48 + n / 10); z2b (48 + n mod 10)].

(** [strftime] with ["%a, %d %b %Y %T GMT"]; its result always fits the buffer. *)
Definition strftime_http (ts : tm) : bytes :=
  nth (Z.to_nat (tm_wday ts)) wday_names [] ++ lit ", " ++ two_digits (tm_mday ts) ++ lit " " ++
  nth (Z.to_nat (tm_mon ts - 1)) month_names [] ++ lit " " ++ to_string (tm_year ts) ++ lit " " ++
  two_digits (tm_hour ts) ++ lit ":" ++ two_digits (tm_min ts) ++ lit ":" ++
  two_digits (tm_sec ts) ++ lit " GMT".

Definition format (value : Z) : result bytes :=
  match gmtime value with
  | Some ts => Ok (strftime_http ts)
  | None => Throw (RuntimeError (lit "failed to format date"))
  end.

End HttpDateUtils.

(** ** Cookie *)

Module Cookie.

Definition MAX_EXPIRES_TIME : Z := 2 ^ 31 - 1.

Record t := CookieData {
  secure_ : bool;
  http_only_ : bool;
  encode_ : bool;
  expires_ : Z;
  name_ : bytes;
  value_ : bytes;
  path_ : bytes;
  domain_ : bytes
}.

Definition create (name value : bytes) : t :=
  CookieData false false false 0 name value (lit "/") [].

Definition secure (c : t) (value : bool) : t :=
  CookieData value (http_only_ c) (encode_ c) (expires_ c) (name_ c) (value_ c) (path_ c) (domain_ c).
Definition httpOnly (c : t) (value : bool) : t :=
  CookieData (secure_ c) value (encode_ c) (expires_ c) (name_ c) (value_ c) (path_ c) (domain_ c).
Definition expires (c : t) (value : Z) : t :=
  CookieData (secure_ c) (http_only_ c) (encode_ c) value (name_ c) (value_ c) (path_ c) (domain_ c).
Definition path (c : t) (value : bytes) : t :=
  CookieData (secure_ c) (http_only_ c) (encode_ c) (expires_ c) (name_ c) (value_ c) value (domain_ c).
Definition domain (c : t) (value : bytes) : t :=
  CookieData (secure_ c) (http_only_ c) (encode_ c) (expires_ c) (name_ c) (value_ c) (path_ c) value.
Definition urlEncode (c : t) (value : bool) : t :=
  CookieData (secure_ c) (http_only_ c) value (expires_ c) (name_ c) (value_ c) (path_ c) (domain_ c).

Definition get_permanent (c : t) : bool := expires_ c =? MAX_EXPIRES_TIME.
Definition permanent (c : t) (value : bool) : t := expires c (if value then MAX_EXPIRES_TIME else 0).

Definition toString (c : t) : result bytes :=
  exp ← (if expires_ c =? 0 then Ok []
         else d ← HttpDateUtils.format (expires_ c); Ok (lit "; expires=" ++ d));
  Ok (name_ c ++ "="%byte ::
      (if encode_ c then StringUtils.urlencode (value_ c) else value_ c) ++
      (match domain_ c with [] => [] | d => lit "; domain=" ++ d end) ++
      (match path_ c with [] => [] | p => lit "; path=" ++ p end) ++
      exp ++
      (if secure_ c then lit "; secure" else []) ++
      (if http_only_ c then lit "; HttpOnly" else [])).

(** [operator <] *)
Definition ltb (a b : t) : bool := str_ltb (name_ a) (name_ b).

End Cookie.

(** ** Dates *)

Section Dates.
Import HttpDateUtils.

(** The day number of a civil date: the inverse the calendar has. *)
Definition days_from_civil (y m d : Z) : Z :=
  let y := if m <=? 2 then y - 1 else y in
  let era := y / 400 in
  let yoe := y mod 400 in
  let mp := if 2 <? m then m - 3 else m + 9 in
  let doy := (153 * mp + 2) / 5 + d - 1 in
  let doe := yoe * 365 + yoe / 4 - yoe / 100 + doy in
  era * 146097 + doe - 719468.

(** The year of the era and the day of the year, *)
Lemma year_of_era doe :
  0 <= doe < 146097 ->
  let yoe := (doe - doe / 1460 + doe / 36524 - doe / 146096) / 365 in
  let doy := doe - (365 * yoe + yoe / 4 - yoe / 100) in
  0 <= yoe < 400 /\ 0 <= doy <= 365.
Proof.
  intros H yoe doy. unfold doy, yoe. clear doy yoe. Z.to_euclidean_division_equations. lia.
Qed.

(** and the month and the day of it, months counted from March. *)
Lemma month_of_year doy :
  0 <= doy <= 365 ->
  let mp := (5 * doy + 2) / 153 in
  let d := doy - (153 * mp + 2) / 5 + 1 in
  0 <= mp < 12 /\ 1 <= d <= 31.
Proof.
  intros H mp d. unfold d, mp. clear d mp. Z.to_euclidean_division_equations. lia.
Qed.

(** every day has a civil date with a month in 1..12 and a day in 1..31 and is the
    day of that date: the dates cookies and headers carry are the dates meant, for every
    day before and after the epoch. *)
Theorem civil_days_inverse days :
  let '(y, m, d) := civil_from_days days in
  days_from_civil y m d = days /\ 1 <= m <= 12 /\ 1 <= d <= 31.
Proof.
  unfold civil_from_days. set (z := days + 719468).
  pose proof (Z.mod_pos_bound z 146097 ltac:(lia)) as Hb.
  pose proof (Z.div_mod z 146097 ltac:(lia)) as Hz.
  destruct (year_of_era _ Hb) as [Hyoe Hdoy].
  destruct (month_of_year _ Hdoy) as [Hmp Hd].
  set (doe := z mod 146097) in *. set (era := z / 146097) in *.
  set (yoe := (doe - doe / 1460 + doe / 36524 - doe / 146096) / 365) in *.
  set (doy := doe - (365 * yoe + yoe / 4 - yoe / 100)) in *.
  set (mp := (5 * doy + 2) / 153) in *.
  set (d := doy - (153 * mp + 2) / 5 + 1) in *.
  assert (Hdd : d = doy - (153 * mp + 2) / 5 + 1) by done.
  assert (Hdy : doy = doe - (365 * yoe + yoe / 4 - yoe / 100)) by done.
  clearbody d mp doy yoe doe era.
  unfold days_from_civil.
  assert (Hy : forall y', y' = yoe + era * 400 -> y' / 400 = era /\ y' mod 400 = yoe).
  { intros y' ->. rewrite Z.div_add, Z.mod_add by lia.
    rewrite Z.div_small, Z.mod_small by lia. lia. }
  destruct (Z.ltb_spec mp 10); split; try lia.
  - rewrite (proj2 (Z.leb_gt _ _)) by lia. rewrite (proj2 (Z.ltb_lt _ _)) by lia.
    destruct (Hy _ eq_refl) as [-> ->]. replace (mp + 3 - 3) with mp by lia. lia.
  - rewrite (proj2 (Z.leb_le _ _)) by lia. rewrite (proj2 (Z.ltb_ge _ _)) by lia.
    destruct (Hy (yoe + era * 400 + 1 - 1)) as [-> ->]; [lia|].
    replace (mp - 9 + 9) with mp by lia. lia.
Qed.
End Dates.
