(* ===== verification/HttpDate.v ===== *)
(** * HttpDate

    [HttpDateUtils::parse] ([library/util.cpp]): a date in one of the three forms that HTTP
    allows, read with [strptime] in the C locale. [strptime] fills the fields as it goes, so a
    format that fails leaves what it has read to the next. The local zone of the system, to which
    [mktime] refers, and the variable [timezone] of the C library are arguments. *)

From S2P Require Import Prelude Cxx Cookie.

Module HttpDateUtils.
Import Cookie.HttpDateUtils.

(** ** [strptime] *)

Definition set_year (ts : tm) (v : Z) : tm := Build_tm v (tm_mon ts) (tm_mday ts) (tm_hour ts) (tm_min ts) (tm_sec ts) (tm_wday ts).
Definition set_mon (ts : tm) (v : Z) : tm := Build_tm (tm_year ts) v (tm_mday ts) (tm_hour ts) (tm_min ts) (tm_sec ts) (tm_wday ts).
Definition set_mday (ts : tm) (v : Z) : tm := Build_tm (tm_year ts) (tm_mon ts) v (tm_hour ts) (tm_min ts) (tm_sec ts) (tm_wday ts).
Definition set_hour (ts : tm) (v : Z) : tm := Build_tm (tm_year ts) (tm_mon ts) (tm_mday ts) v (tm_min ts) (tm_sec ts) (tm_wday ts).
Definition set_min (ts : tm) (v : Z) : tm := Build_tm (tm_year ts) (tm_mon ts) (tm_mday ts) (tm_hour ts) v (tm_sec ts) (tm_wday ts).
Definition set_sec (ts : tm) (v : Z) : tm := Build_tm (tm_year ts) (tm_mon ts) (tm_mday ts) (tm_hour ts) (tm_min ts) v (tm_wday ts).
Definition set_wday (ts : tm) (v : Z) : tm := Build_tm (tm_year ts) (tm_mon ts) (tm_mday ts) (tm_hour ts) (tm_min ts) (tm_sec ts) v.

Definition weekday_names : list bytes :=
  [lit "Sunday"; lit "Monday"; lit "Tuesday"; lit "Wednesday"; lit "Thursday"; lit "Friday"; lit "Saturday"].
Definition full_month_names : list bytes :=
  [lit "January"; lit "February"; lit "March"; lit "April"; lit "May"; lit "June"; lit "July"; lit "August";
   lit "September"; lit "October"; lit "November"; lit "December"].

(** The first entry of which the full name or the abbreviation is there, in any case. *)
Fixpoint match_name (i : Z) (full abbreviated : list bytes) (s : bytes) : option (Z * bytes) :=
  match full, abbreviated with
  | f :: full', a :: abbreviated' =>
      if starts_with_ci f s then Some (i, drop (length f) s)
      else if starts_with_ci a s then Some (i, drop (length a) s)
      else match_name (i + 1) full' abbreviated' s
  | _, _ => None
  end.

(** [get_number(from, to, n)]: blanks, and then at most [n] digits, as long as one more can still
    give a number up to [to]. *)
Fixpoint more_digits (n : nat) (to val : Z) (s : bytes) : Z * bytes :=
  match n, s with
  | S n', c :: s' => if (val * 10 <=? to) && isdigit c then more_digits n' to (val * 10 + (b2z c - 48)) s' else (val, s)
  | _, _ => (val, s)
  end.

Definition get_number (from to : Z) (n : nat) (s : bytes) : option (Z * bytes) :=
  match drop_while (beqb " "%byte) s with
  | c :: s' =>
      if isdigit c then
        let '(val, rest) := more_digits (n - 1) to (b2z c - 48) s' in
        if (val <? from) || (to <? val) then None else Some (val, rest)
      else None
  | [] => None
  end.

Definition store (set : tm -> Z -> tm) (ts : tm) (r : option (Z * bytes)) : option bytes * tm :=
  match r with Some (v, rest) => (Some rest, set ts v) | None => (None, ts) end.

(** One conversion; 69 to 99 are years of the twentieth century, 0 to 68 of the next. *)
Definition conversion (c : byte) (s : bytes) (ts : tm) : option bytes * tm :=
  if beqb c "a"%byte || beqb c "A"%byte then store set_wday ts (match_name 0 weekday_names wday_names s)
  else if beqb c "b"%byte || beqb c "B"%byte then store set_mon ts (match_name 1 full_month_names month_names s)
  else if beqb c "d"%byte then store set_mday ts (get_number 1 31 2 s)
  else if beqb c "H"%byte then store set_hour ts (get_number 0 23 2 s)
  else if beqb c "M"%byte then store set_min ts (get_number 0 59 2 s)
  else if beqb c "S"%byte then store set_sec ts (get_number 0 61 2 s)
  else if beqb c "Y"%byte then store set_year ts (get_number 0 9999 4 s)
  else if beqb c "y"%byte then
    store (fun ts v => set_year ts (if 69 <=? v then 1900 + v else 2000 + v)) ts (get_number 0 99 2 s)
  else (None, ts).

(** A format: white space in it is for any in the text, other characters are for themselves. What is
    left of the text comes with the fields; [T] gives the conversion of ["%T"]. *)
Fixpoint scan (T : bytes -> tm -> option bytes * tm) (format s : bytes) (ts : tm) : option bytes * tm :=
  match format with
  | [] => (Some s, ts)
  | c :: format' =>
      if isspace c then scan T format' (drop_while isspace s) ts
      else if beqb c "%"%byte then
        match format' with
        | [] => (None, ts)
        | d :: format' =>
            match (if beqb d "T"%byte then T s ts else conversion d s ts) with
            | (Some rest, ts) => scan T format' rest ts
            | (None, ts) => (None, ts)
            end
        end
      else match s with
           | x :: s' => if beqb c x then scan T format' s' ts else (None, ts)
           | [] => (None, ts)
           end
  end.

Definition read_time : bytes -> tm -> option bytes * tm := scan (fun _ ts => (None, ts)) (lit "%H:%M:%S").
Definition strptime (format s : bytes) (ts : tm) : option bytes * tm := scan read_time format s ts.

(** ** [parse] *)

(** The seconds since the epoch that the fields name in UTC; days past the end of the month count
    on. *)
Definition timegm (ts : tm) : Z :=
  days_from_civil (tm_year ts) (tm_mon ts) (tm_mday ts) * 86400 + tm_hour ts * 3600 + tm_min ts * 60 + tm_sec ts.

(** The local zone. [west] gives the seconds by which its standard time is behind UTC at a local date,
    which may have been others in the past. [mktime] sets the variable [timezone], to
    [timezone_after] for that date; [timezone_before] is what it held. The order in which
    [mktime(&ts) - timezone] evaluates its operands is the compiler's choice: [reads_first] tells
    whether it reads the variable before the call. *)
Record Zone := MkZone {
  west : Z -> Z;
  timezone_before : Z;
  timezone_after : Z -> Z;
  reads_first : bool
}.

(** For a date without daylight saving time, as [memset] leaves [tm_isdst] 0. *)
Definition mktime (zone : Zone) (ts : tm) : Z := timegm ts + west zone (timegm ts).

Definition timezone (zone : Zone) (ts : tm) : Z :=
  if reads_first zone then timezone_before zone else timezone_after zone (timegm ts).

Definition formats : list bytes :=
  [lit "%a, %d %b %Y %T GMT"; lit "%A, %d-%b-%y %T GMT"; lit "%a %b %d %T %Y"].

(** The fields that [memset] leaves: the first month of 1900, day 0. *)
Definition no_fields : tm := Build_tm 1900 1 0 0 0 0 0.

Fixpoint parse_with (zone : Zone) (fs : list bytes) (value : bytes) (ts : tm) : Z :=
  match fs with
  | [] => 0
  | f :: fs' =>
      match strptime f value ts with
      | (Some _, ts) => mktime zone ts - timezone zone ts
      | (None, ts) => parse_with zone fs' value ts
      end
  end.

Definition parse (zone : Zone) (value : bytes) : Z := parse_with zone formats (c_str value) no_fields.
End HttpDateUtils.

(** ** Reading what was written *)

Section Roundtrip.
Import Cookie.HttpDateUtils HttpDateUtils.

(** The other two forms of a date: the one of RFC 850 and the one of [asctime]. *)
Definition time_text (ts : tm) : bytes :=
  two_digits (tm_hour ts) ++ lit ":" ++ two_digits (tm_min ts) ++ lit ":" ++ two_digits (tm_sec ts).

Definition rfc850_date (ts : tm) : bytes :=
  nth (Z.to_nat (tm_wday ts)) weekday_names [] ++ lit ", " ++ two_digits (tm_mday ts) ++ lit "-" ++
  nth (Z.to_nat (tm_mon ts - 1)) month_names [] ++ lit "-" ++ two_digits (tm_year ts mod 100) ++ lit " " ++
  time_text ts ++ lit " GMT".

Definition asctime_date (ts : tm) : bytes :=
  nth (Z.to_nat (tm_wday ts)) wday_names [] ++ lit " " ++ nth (Z.to_nat (tm_mon ts - 1)) month_names [] ++ lit " " ++
  (if tm_mday ts <? 10 then lit " " ++ to_string (tm_mday ts) else to_string (tm_mday ts)) ++ lit " " ++
  time_text ts ++ lit " " ++ to_string (tm_year ts).

(** *** Numbers *)

Lemma digit_char d : 0 <= d < 10 -> isdigit (z2b (48 + d)) = true /\ b2z (z2b (48 + d)) - 48 = d.
Proof.
  intros H. assert (E : b2z (z2b (48 + d)) = 48 + d) by (rewrite b2z_z2b; apply Z.mod_small; lia).
  unfold isdigit. rewrite E. split; [|lia]. apply andb_true_iff. rewrite !Z.leb_le. lia.
Qed.

Lemma digit_not_blank c : isdigit c = true -> beqb " "%byte c = false.
Proof. by destruct c. Qed.

Lemma get_two_digits from to n rest :
  0 <= n < 100 -> from <= n <= to -> get_number from to 2 (two_digits n ++ rest) = Some (n, rest).
Proof.
  intros Hn Hr. unfold get_number, two_digits. cbn [app drop_while].
  destruct (digit_char (n / 10)) as [H1 E1]; [Z.to_euclidean_division_equations; lia|].
  destruct (digit_char (n mod 10)) as [H2 E2]; [apply Z.mod_pos_bound; lia|].
  rewrite (digit_not_blank _ H1), H1, E1. cbn [Nat.sub more_digits]. rewrite H2, E2.
  rewrite (proj2 (Z.leb_le _ _)) by (Z.to_euclidean_division_equations; lia). cbn [andb].
  replace (n / 10 * 10 + n mod 10) with n by (Z.to_euclidean_division_equations; lia).
  rewrite (proj2 (Z.ltb_ge n from)), (proj2 (Z.ltb_ge to n)) by lia. done.
Qed.

Lemma digits_value_app acc s t : digits_value acc (s ++ t) = digits_value (digits_value acc s) t.
Proof. revert acc. induction s as [|c s IH]; intros acc; cbn; [done|]. apply IH. Qed.

Lemma digits_value_le ds acc : forallb isdigit ds = true -> 0 <= acc -> acc <= digits_value acc ds.
Proof.
  revert acc. induction ds as [|c ds IH]; intros acc Hd Ha; cbn; [lia|]. cbn in Hd. apply andb_true_iff in Hd as [Hc Hd].
  assert (Hr : 0 <= b2z c - 48) by (unfold isdigit in Hc; apply andb_true_iff in Hc; rewrite !Z.leb_le in Hc; lia).
  etrans; [|apply IH; [done|lia]]. lia.
Qed.

Lemma pretty_char r : (r < 10)%N -> Ascii.byte_of_ascii (pretty_N_char r) = z2b (48 + Z.of_N r).
Proof.
  intros H. assert (Hr : r ∈ map N.of_nat (seq 0 10)).
  { apply list_elem_of_fmap. exists (N.to_nat r). split; [lia|]. apply elem_of_seq. lia. }
  clear H. revert r Hr. apply Forall_forall. repeat constructor.
Qed.

(** The decimal text of a number: its digits, at most as many as it needs. *)
Lemma pretty_go_digits x : exists ds, (forall s, lit (pretty_N_go x s) = ds ++ lit s) /\ forallb isdigit ds = true /\
  (forall k, (x < 10 ^ N.of_nat k)%N -> (length ds <= k)%nat) /\ digits_value 0 ds = Z.of_N x /\ ((0 < x)%N -> ds <> []).
Proof.
  induction (N.lt_wf_0 x) as [x _ IH]. destruct (decide (x = 0%N)) as [->|Hx].
  - exists []. split; [intros s; by rewrite pretty_N_go_0|]. repeat split; try done. intros k _. cbn. lia.
  - assert (Hlt : (x `div` 10 < x)%N) by (apply N.div_lt; lia).
    destruct (IH _ Hlt) as (ds & Hs & Hd & Hk & Hv & _).
    assert (Hr : (x `mod` 10 < 10)%N) by (by apply N.mod_lt). pose proof (pretty_char _ Hr) as Hc.
    set (r := (x `mod` 10)%N) in *. destruct (digit_char (Z.of_N r)) as [H1 E1]; [lia|].
    exists (ds ++ [z2b (48 + Z.of_N r)]). split_and!.
    + intros s. rewrite pretty_N_go_step by lia. fold r. rewrite Hs, <- app_assoc. f_equal. cbn [app]. by rewrite <- Hc.
    + by rewrite forallb_app, Hd; cbn; rewrite H1.
    + intros [|k] Hlk; [cbn in Hlk; lia|]. rewrite length_app. cbn [length].
      enough (length ds <= k)%nat by lia. apply Hk. rewrite Nat2N.inj_succ, N.pow_succ_r' in Hlk.
      apply N.Div0.div_lt_upper_bound. lia.
    + rewrite digits_value_app, Hv. cbn [digits_value]. rewrite E1. unfold r. rewrite N2Z.inj_div, N2Z.inj_mod.
      cbn. Z.to_euclidean_division_equations. lia.
    + intros _ E. by apply app_nil in E as [_ ?].
Qed.

(** What may follow a number that is read to its end. *)
Definition ends_number (rest : bytes) : Prop := match rest with [] => True | c :: _ => isdigit c = false end.

Lemma to_string_digits y : 0 <= y -> to_string y <> [] /\ forallb isdigit (to_string y) = true /\
  (forall n, (0 < n)%nat -> y < 10 ^ Z.of_nat n -> (length (to_string y) <= n)%nat) /\ digits_value 0 (to_string y) = y.
Proof.
  intros Hy. destruct (decide (y = 0)) as [->|Hne].
  { by split_and!. }
  destruct (pretty_go_digits (Z.to_N y)) as (ds & Hs & Hd & Hk & Hv & Hn).
  assert (E : to_string y = ds).
  { unfold to_string. destruct y as [|p|p]; [done| |lia]. change (pretty (Z.pos p)) with (pretty_N_go (N.pos p) "").
    change (N.pos p) with (Z.to_N (Z.pos p)). by rewrite Hs, app_nil_r. }
  rewrite E. split_and!; [apply Hn; lia|done| |rewrite Hv; lia]. intros n _ Hlt. apply Hk.
  apply N2Z.inj_lt. rewrite N2Z.inj_pow, Z2N.id by lia. by rewrite nat_N_Z.
Qed.

Lemma more_digits_all n to ds val rest :
  forallb isdigit ds = true -> (length ds <= n)%nat -> ends_number rest -> 0 <= val -> digits_value val ds <= to ->
  more_digits n to val (ds ++ rest) = (digits_value val ds, rest).
Proof.
  revert n val. induction ds as [|c ds IH]; intros n val Hd Hn He Hv Hto.
  - cbn. destruct n, rest as [|x rest]; try done. cbn. cbn in He. by rewrite He, andb_false_r.
  - cbn in Hd. apply andb_true_iff in Hd as [Hc Hd]. destruct n as [|n]; [cbn in Hn; lia|]. cbn [length] in Hn.
    cbn [app more_digits digits_value] in *. rewrite Hc, andb_true_r.
    assert (Hr : 0 <= b2z c - 48 < 10) by (unfold isdigit in Hc; apply andb_true_iff in Hc; rewrite !Z.leb_le in Hc; lia).
    assert (Hm : val * 10 + (b2z c - 48) <= digits_value (10 * val + (b2z c - 48)) ds).
    { replace (val * 10) with (10 * val) by lia. apply digits_value_le; [done|lia]. }
    rewrite (proj2 (Z.leb_le _ _)) by lia. replace (val * 10) with (10 * val) by lia. apply IH; [done|lia|done|lia|done].
Qed.

Lemma get_string from to n y rest :
  (0 < n)%nat -> 0 <= y < 10 ^ Z.of_nat n -> from <= y <= to -> ends_number rest ->
  get_number from to n (to_string y ++ rest) = Some (y, rest).
Proof.
  intros Hn Hy Hr He. destruct (to_string_digits y) as (H1 & H2 & H3 & H4); [lia|]. specialize (H3 n Hn ltac:(lia)).
  destruct (to_string y) as [|c ds]; [done|]. cbn [forallb] in H2. apply andb_true_iff in H2 as [Hc Hd].
  assert (Hc0 : 0 <= b2z c - 48) by (unfold isdigit in Hc; apply andb_true_iff in Hc; rewrite !Z.leb_le in Hc; lia).
  cbn [digits_value] in H4. replace (10 * 0 + (b2z c - 48)) with (b2z c - 48) in H4 by lia. cbn [length] in H3.
  unfold get_number. cbn [app drop_while]. rewrite (digit_not_blank _ Hc), Hc.
  rewrite (more_digits_all _ _ ds) by (done || lia). rewrite H4.
  by rewrite (proj2 (Z.ltb_ge y from)), (proj2 (Z.ltb_ge to y)) by lia.
Qed.

(** *** Names *)

Definition is_letter (b : byte) : bool := negb (isspace b) && negb (beqb b ","%byte) && negb (beqb b "-"%byte).

(** A name is read in full or abbreviated; what follows an abbreviation is not a letter. *)
Lemma wday_read k c rest : 0 <= k < 7 -> is_letter c = false ->
  match_name 0 weekday_names wday_names (nth (Z.to_nat k) wday_names [] ++ c :: rest) = Some (k, c :: rest) /\
  match_name 0 weekday_names wday_names (nth (Z.to_nat k) weekday_names [] ++ c :: rest) = Some (k, c :: rest).
Proof.
  intros Hk Hc.
  assert (Hk' : k = 0 \/ k = 1 \/ k = 2 \/ k = 3 \/ k = 4 \/ k = 5 \/ k = 6) by lia.
  repeat (destruct Hk' as [->|Hk']); subst; (split; [destruct c; try discriminate Hc; reflexivity|reflexivity]).
Qed.

Lemma month_read k c rest : 1 <= k <= 12 -> is_letter c = false ->
  match_name 1 full_month_names month_names (nth (Z.to_nat (k - 1)) month_names [] ++ c :: rest) = Some (k, c :: rest).
Proof.
  intros Hk Hc.
  assert (Hk' : k = 1 \/ k = 2 \/ k = 3 \/ k = 4 \/ k = 5 \/ k = 6 \/ k = 7 \/ k = 8 \/ k = 9 \/ k = 10 \/ k = 11 \/ k = 12)
    by lia.
  repeat (destruct Hk' as [->|Hk']); subst; destruct c; try discriminate Hc; reflexivity.
Qed.

(** *** Fields *)

(** What [gmtime] gives. *)
Record fields_ok (ts : tm) : Prop := {
  ok_mon : 1 <= tm_mon ts <= 12;
  ok_mday : 1 <= tm_mday ts <= 31;
  ok_hour : 0 <= tm_hour ts < 24;
  ok_min : 0 <= tm_min ts < 60;
  ok_sec : 0 <= tm_sec ts < 60;
  ok_wday : 0 <= tm_wday ts < 7
}.

Lemma gmtime_fields value ts : gmtime value = Some ts -> fields_ok ts /\ timegm ts = value.
Proof.
  unfold gmtime. pose proof (civil_days_inverse (value / 86400)) as H. destruct (civil_from_days _) as [[y m] d].
  destruct H as (Hd & Hm & Hday). destruct (_ || _); [done|]. intros [= <-]. unfold timegm. cbn. rewrite Hd.
  split; [split; cbn; try done|]; Z.to_euclidean_division_equations; lia.
Qed.

(** The conversions, each on the text it is for. *)
Lemma conv_two_digits c set from to n rest ts :
  (forall s, conversion c s ts = store set ts (get_number from to 2 s)) -> 0 <= n < 100 -> from <= n <= to ->
  conversion c (two_digits n ++ rest) ts = (Some rest, set ts n).
Proof. intros Hc Hn Hr. rewrite Hc. by rewrite get_two_digits. Qed.

Lemma conv_wday c k x rest ts : beqb c "a"%byte || beqb c "A"%byte = true -> 0 <= k < 7 -> is_letter x = false ->
  conversion c (nth (Z.to_nat k) wday_names [] ++ x :: rest) ts = (Some (x :: rest), set_wday ts k) /\
  conversion c (nth (Z.to_nat k) weekday_names [] ++ x :: rest) ts = (Some (x :: rest), set_wday ts k).
Proof. intros Hc Hk Hx. unfold conversion. rewrite Hc. by destruct (wday_read k x rest Hk Hx) as [-> ->]. Qed.

Lemma conv_mon k x rest ts : 1 <= k <= 12 -> is_letter x = false ->
  conversion "b"%byte (nth (Z.to_nat (k - 1)) month_names [] ++ x :: rest) ts = (Some (x :: rest), set_mon ts k).
Proof.
  intros Hk Hx. change (conversion "b"%byte ?s ts) with (store set_mon ts (match_name 1 full_month_names month_names s)).
  by rewrite month_read.
Qed.

Lemma conv_year y rest ts : 0 <= y <= 9999 -> ends_number rest ->
  conversion "Y"%byte (to_string y ++ rest) ts = (Some rest, set_year ts y).
Proof.
  intros Hy He. change (conversion "Y"%byte ?s ts) with (store set_year ts (get_number 0 9999 4 s)).
  by rewrite get_string by (done || lia).
Qed.

Lemma conv_short_year y rest ts : 1969 <= y <= 2068 ->
  conversion "y"%byte (two_digits (y mod 100) ++ rest) ts = (Some rest, set_year ts y).
Proof.
  intros Hy. pose proof (Z.mod_pos_bound y 100 ltac:(lia)).
  rewrite (conv_two_digits _ (fun ts v => set_year ts (if 69 <=? v then 1900 + v else 2000 + v)) 0 99) by (done || lia).
  do 2 f_equal. destruct (Z.leb_spec 69 (y mod 100)); Z.to_euclidean_division_equations; lia.
Qed.

Lemma conv_day d rest ts : 1 <= d <= 31 -> ends_number rest ->
  conversion "d"%byte (to_string d ++ rest) ts = (Some rest, set_mday ts d).
Proof.
  intros Hd He. change (conversion "d"%byte ?s ts) with (store set_mday ts (get_number 1 31 2 s)).
  by rewrite get_string by (done || lia).
Qed.

(** A conversion, a character and a blank of a format. *)
Lemma scan_conv T d f s ts rest ts' :
  beqb d "T"%byte = false -> conversion d s ts = (Some rest, ts') -> scan T ("%"%byte :: d :: f) s ts = scan T f rest ts'.
Proof. intros Hd H. cbn. by rewrite Hd, H. Qed.

Lemma scan_time T f s ts rest ts' :
  T s ts = (Some rest, ts') -> scan T ("%"%byte :: "T"%byte :: f) s ts = scan T f rest ts'.
Proof. intros H. cbn. by rewrite H. Qed.

Lemma scan_char T c f s ts : isspace c = false -> beqb c "%"%byte = false -> scan T (c :: f) (c :: s) ts = scan T f s ts.
Proof. intros H1 H2. cbn. by rewrite H1, H2, beqb_refl. Qed.

Lemma scan_blank T f s ts : scan T (" "%byte :: f) (" "%byte :: s) ts = scan T f (drop_while isspace s) ts.
Proof. done. Qed.

(** [conv] reads the next conversion with a lemma about it, [chr] the next character. *)
#[local] Ltac conv lem := erewrite scan_conv; [|reflexivity|apply lem; (done || lia || (intros; reflexivity))].
#[local] Ltac text := repeat match goal with |- context [lit ?x] => let v := eval vm_compute in (lit x) in change (lit x) with v end.
#[local] Ltac chr := cbn [app]; rewrite scan_char by done.

Definition time_fields (u ts : tm) : tm := set_sec (set_min (set_hour u (tm_hour ts)) (tm_min ts)) (tm_sec ts).

Lemma time_read ts u rest : fields_ok ts ->
  read_time (time_text ts ++ rest) u = (Some rest, time_fields u ts).
Proof.
  intros [H1 H2 H3 H4 H5 H6]. unfold read_time, time_text. rewrite <- !app_assoc.
  text.
  conv (conv_two_digits "H"%byte set_hour 0 23). chr. conv (conv_two_digits "M"%byte set_min 0 59). chr.
  conv (conv_two_digits "S"%byte set_sec 0 61). done.
Qed.

Lemma drop_blanks_digits n rest : 0 <= n < 100 -> drop_while isspace (two_digits n ++ rest) = two_digits n ++ rest.
Proof.
  intros H. unfold two_digits. cbn [app drop_while].
  destruct (digit_char (n / 10)) as [H1 _]; [Z.to_euclidean_division_equations; lia|].
  destruct (isspace _) eqn:E; [|done]. by destruct (z2b _).
Qed.

Lemma drop_blanks_number y rest : 0 <= y -> drop_while isspace (to_string y ++ rest) = to_string y ++ rest.
Proof.
  intros H. destruct (to_string_digits y H) as (H1 & H2 & _). destruct (to_string y) as [|c ds]; [done|].
  cbn in H2. apply andb_true_iff in H2 as [Hc _]. cbn. by destruct c.
Qed.

Lemma drop_blanks_day d rest : 0 <= d ->
  drop_while isspace ((if d <? 10 then " "%byte :: to_string d else to_string d) ++ rest) = to_string d ++ rest.
Proof. intros H. destruct (d <? 10); [change (drop_while isspace _) with (drop_while isspace (to_string d ++ rest))|]; by apply drop_blanks_number. Qed.

Lemma drop_blanks_month k rest : 1 <= k <= 12 ->
  drop_while isspace (nth (Z.to_nat (k - 1)) month_names [] ++ rest) = nth (Z.to_nat (k - 1)) month_names [] ++ rest.
Proof.
  intros Hk.
  assert (Hk' : k = 1 \/ k = 2 \/ k = 3 \/ k = 4 \/ k = 5 \/ k = 6 \/ k = 7 \/ k = 8 \/ k = 9 \/ k = 10 \/ k = 11 \/ k = 12)
    by lia.
  by repeat (destruct Hk' as [->|Hk']); subst.
Qed.

Lemma drop_blanks_time ts rest : fields_ok ts -> drop_while isspace (time_text ts ++ rest) = time_text ts ++ rest.
Proof. intros [H1 H2 H3 H4 H5 H6]. unfold time_text. rewrite <- app_assoc. apply drop_blanks_digits. lia. Qed.

(** Each form with its format. *)
Lemma http_date_read ts u : fields_ok ts -> 0 <= tm_year ts <= 9999 ->
  exists u', strptime (lit "%a, %d %b %Y %T GMT") (strftime_http ts) u = (Some [], u') /\ timegm u' = timegm ts.
Proof.
  intros Hok Hy. pose proof Hok as [H1 H2 H3 H4 H5 H6]. unfold strptime.
  assert (E : strftime_http ts = nth (Z.to_nat (tm_wday ts)) wday_names [] ++ lit ", " ++ two_digits (tm_mday ts) ++ lit " " ++
    nth (Z.to_nat (tm_mon ts - 1)) month_names [] ++ lit " " ++ to_string (tm_year ts) ++ lit " " ++ time_text ts ++ lit " GMT")
    by (unfold strftime_http, time_text; by rewrite <- !app_assoc).
  rewrite E. text. eexists. split.
  - cbn [app]. conv (fun c k x rest ts Hc Hk Hx => proj1 (conv_wday c k x rest ts Hc Hk Hx)). chr.
    rewrite scan_blank, drop_blanks_digits by lia. conv (conv_two_digits "d"%byte set_mday 1 31).
    rewrite scan_blank, drop_blanks_month by lia. conv conv_mon.
    rewrite scan_blank, drop_blanks_number by lia. conv conv_year.
    rewrite scan_blank, drop_blanks_time by done. erewrite scan_time by (by apply time_read). reflexivity.
  - unfold timegm. reflexivity.
Qed.

Lemma rfc850_read ts u : fields_ok ts -> 1969 <= tm_year ts <= 2068 ->
  exists u', strptime (lit "%A, %d-%b-%y %T GMT") (rfc850_date ts) u = (Some [], u') /\ timegm u' = timegm ts.
Proof.
  intros Hok Hy. pose proof Hok as [H1 H2 H3 H4 H5 H6]. unfold strptime, rfc850_date. text. eexists. split.
  - cbn [app]. conv (fun c k x rest ts Hc Hk Hx => proj2 (conv_wday c k x rest ts Hc Hk Hx)). chr.
    rewrite scan_blank, drop_blanks_digits by lia. conv (conv_two_digits "d"%byte set_mday 1 31). chr.
    conv conv_mon. chr. conv conv_short_year.
    rewrite scan_blank, drop_blanks_time by done. erewrite scan_time by (by apply time_read). reflexivity.
  - unfold timegm. reflexivity.
Qed.

Lemma asctime_read ts u : fields_ok ts -> 0 <= tm_year ts <= 9999 ->
  exists u', strptime (lit "%a %b %d %T %Y") (asctime_date ts) u = (Some [], u') /\ timegm u' = timegm ts.
Proof.
  intros Hok Hy. pose proof Hok as [H1 H2 H3 H4 H5 H6]. unfold strptime, asctime_date. text. eexists. split.
  - cbn [app]. conv (fun c k x rest ts Hc Hk Hx => proj1 (conv_wday c k x rest ts Hc Hk Hx)).
    rewrite scan_blank, drop_blanks_month by lia. conv conv_mon.
    rewrite scan_blank, drop_blanks_day by lia. conv conv_day.
    rewrite scan_blank, drop_blanks_time by done. erewrite scan_time by (by apply time_read). rewrite scan_blank.
    rewrite <- (app_nil_r (to_string (tm_year ts))), drop_blanks_number by lia. conv conv_year. reflexivity.
  - unfold timegm. reflexivity.
Qed.

(** The formats before the right one fail. *)
Lemma rfc850_not_first ts u : fields_ok ts ->
  exists u', strptime (lit "%a, %d %b %Y %T GMT") (rfc850_date ts) u = (None, u').
Proof.
  intros [H1 H2 H3 H4 H5 H6]. unfold strptime, rfc850_date. text. cbn [app].
  conv (fun c k x rest ts Hc Hk Hx => proj2 (conv_wday c k x rest ts Hc Hk Hx)). chr.
  rewrite scan_blank, drop_blanks_digits by lia. conv (conv_two_digits "d"%byte set_mday 1 31).
  eexists. reflexivity.
Qed.

Lemma asctime_not_before ts u : fields_ok ts ->
  exists u1 u2, strptime (lit "%a, %d %b %Y %T GMT") (asctime_date ts) u = (None, u1) /\
    strptime (lit "%A, %d-%b-%y %T GMT") (asctime_date ts) u1 = (None, u2).
Proof.
  intros [H1 H2 H3 H4 H5 H6]. unfold strptime, asctime_date. text. cbn [app]. eexists _, _. split.
  - conv (fun c k x rest ts Hc Hk Hx => proj1 (conv_wday c k x rest ts Hc Hk Hx)). reflexivity.
  - conv (fun c k x rest ts Hc Hk Hx => proj1 (conv_wday c k x rest ts Hc Hk Hx)). reflexivity.
Qed.

(** None of the texts has a NUL. *)
Lemma nth_no_nul k l : forallb (fun s => negb (mem Byte.x00 s)) l = true -> mem Byte.x00 (nth k l []) = false.
Proof.
  intros H. destruct (nth_in_or_default k l []) as [Hin| ->]; [|done].
  rewrite forallb_forall in H. by apply negb_true_iff, H.
Qed.

Lemma digits_no_nul s : forallb isdigit s = true -> mem Byte.x00 s = false.
Proof. intros H. by apply (forallb_mem_false isdigit). Qed.

Lemma two_digits_no_nul n : 0 <= n < 100 -> mem Byte.x00 (two_digits n) = false.
Proof.
  intros H. apply digits_no_nul. unfold two_digits. cbn.
  destruct (digit_char (n / 10)) as [-> _]; [Z.to_euclidean_division_equations; lia|].
  by destruct (digit_char (n mod 10)) as [-> _]; [apply Z.mod_pos_bound; lia|].
Qed.

Lemma texts_no_nul ts : fields_ok ts -> 0 <= tm_year ts ->
  mem Byte.x00 (strftime_http ts) = false /\ mem Byte.x00 (asctime_date ts) = false /\
  mem Byte.x00 (rfc850_date ts) = false.
Proof.
  intros [H1 H2 H3 H4 H5 H6] Hy. pose proof (Z.mod_pos_bound (tm_year ts) 100 ltac:(lia)).
  assert (Hn : forall y, 0 <= y -> mem Byte.x00 (to_string y) = false).
  { intros y H0. by apply digits_no_nul, to_string_digits. }
  unfold strftime_http, asctime_date, rfc850_date, time_text.
  split_and!; rewrite ?mem_app, ?nth_no_nul, ?two_digits_no_nul, ?Hn by (done || lia); try done.
  destruct (tm_mday ts <? 10); rewrite ?mem_app, ?Hn by lia; done.
Qed.

(** What [parse] gives for the fields of a time. *)
Lemma parsed_time zone u value : timegm u = value ->
  mktime zone u - timezone zone u =
    value + (west zone value - (if reads_first zone then timezone_before zone else timezone_after zone value)).
Proof. intros <-. unfold mktime, timezone. lia. Qed.

(** C19: a date is read as the time it was written for, up to what the zone of the system does. For
    every time whose year has at most four digits, [parse] of what [format] gave differs from the
    time by the offset that the zone has at that date less the value of [timezone] that is read:
    not at all in UTC, nor in a zone whose standard time has always been the same, when [mktime]
    is evaluated before [timezone] is read or [timezone] has been set before; but by the change
    of the zone's standard time since then, or by the whole offset when [timezone] is read first
    and has not been set. The form of [asctime] is read as the same time, and so is that of RFC
    850, which has two digits for the year, for the years from 1969 to 2068. What the formats that
    fail leave behind does no harm. *)
Theorem http_date_roundtrip zone value text ts :
  gmtime value = Some ts -> 0 <= tm_year ts <= 9999 -> format value = Ok text ->
  let read := if reads_first zone then timezone_before zone else timezone_after zone value in
  parse zone text = value + (west zone value - read) /\
  parse zone (asctime_date ts) = parse zone text /\
  (1969 <= tm_year ts <= 2068 -> parse zone (rfc850_date ts) = parse zone text).
Proof.
  intros Hg Hy Hf. cbv zeta. destruct (gmtime_fields value ts Hg) as [Hok Ht]. unfold format in Hf. rewrite Hg in Hf.
  injection Hf as <-. unfold parse, formats. destruct (texts_no_nul ts Hok ltac:(lia)) as (N1 & N2 & N3).
  rewrite (c_str_id _ N1), (c_str_id _ N2), (c_str_id _ N3).
  assert (E1 : parse_with zone formats (strftime_http ts) no_fields =
    value + (west zone value - (if reads_first zone then timezone_before zone else timezone_after zone value))).
  { unfold formats. cbn [parse_with]. destruct (http_date_read ts no_fields Hok Hy) as (u & -> & E). apply parsed_time. by rewrite E. }
  unfold formats in E1. rewrite E1. split; [done|]. split.
  - cbn [parse_with]. destruct (asctime_not_before ts no_fields Hok) as (u1 & u2 & -> & ->).
    destruct (asctime_read ts u2 Hok Hy) as (u & -> & E). apply parsed_time. by rewrite E.
  - intros Hs. cbn [parse_with]. destruct (rfc850_not_first ts no_fields Hok) as (u1 & ->).
    destruct (rfc850_read ts u1 Hok Hs) as (u & -> & E). apply parsed_time. by rewrite E.
Qed.
End Roundtrip.

(** The date of RFC 9110 in its three forms, and what is not a date. *)
Section Examples.
Import Cookie.HttpDateUtils HttpDateUtils.

Definition november : tm := Build_tm 1994 11 6 8 49 37 0.

Lemma november_forms :
  strftime_http november = lit "Sun, 06 Nov 1994 08:49:37 GMT" /\
  rfc850_date november = lit "Sunday, 06-Nov-94 08:49:37 GMT" /\
  asctime_date november = lit "Sun Nov  6 08:49:37 1994".
Proof. split_and!; reflexivity. Qed.

(** UTC, and a zone that was an hour ahead of it and then two, on a system where [timezone] is read after
    the call or, not yet set, before it. *)
Definition utc : Zone := MkZone (fun _ => 0) 0 (fun _ => 0) false.
Definition moved (first : bool) : Zone := MkZone (fun t => if t <? 0 then -3600 else -7200) 0 (fun _ => -7200) first.

Lemma zone_matters :
  parse (moved false) (lit "Sun, 06 Nov 1994 08:49:37 GMT") = 784111777 /\
  parse (moved true) (lit "Sun, 06 Nov 1994 08:49:37 GMT") = 784111777 - 7200 /\
  parse (moved false) (lit "Wed, 31 Dec 1969 00:00:00 GMT") = - 86400 + 3600.
Proof. split_and!; reflexivity. Qed.

Lemma not_dates : map (parse utc) [[]; lit "yesterday"; lit "Sun, 32 Nov 1994 08:49:37 GMT"] = [0; 0; 0].
Proof. reflexivity. Qed.

(** A day past the end of its month is a day of the next. *)
Lemma day_overflows : parse utc (lit "Mon, 31 Feb 1994 00:00:00 GMT") = parse utc (lit "Thu, 03 Mar 1994 00:00:00 GMT").
Proof. reflexivity. Qed.

Lemma http_date_roundtrip_witness :
  format 784111777 = Ok (lit "Sun, 06 Nov 1994 08:49:37 GMT") /\
  parse (moved false) (lit "Sun, 06 Nov 1994 08:49:37 GMT") = 784111777 /\
  parse (moved false) (lit "Sunday, 06-Nov-94 08:49:37 GMT") = 784111777.
Proof.
  split; [reflexivity|].
  destruct (http_date_roundtrip (moved false) 784111777 (lit "Sun, 06 Nov 1994 08:49:37 GMT") november eq_refl) as (H1 & _ & H2).
  - split; discriminate.
  - reflexivity.
  - split; [exact H1|]. etransitivity; [apply H2; split; discriminate|exact H1].
Defined.
End Examples.
