(* ===== verification/Form.v ===== *)
(** * Form

    The overloads of [StringUtils::urldecode] and [StringUtils::parse] for a
    [DataBuffer] ([library/util.cpp]): url-encoded parameters in a request body. The
    body is decoded segment by segment, so an escape cut by a segment boundary is seen
    in two halves; over an implementation with one segment it cannot be. *)

From S2P Require Import Prelude Cxx Ranges StringUtils Buffer.

Module Form.
Section Ops.
Context {I : Type} `{DataBufferImpl I}.
Implicit Types h : gmap nat I.

Definition urldecode h (data : DataBuffer) : result bytes :=
  l ← Buf.chunks h data; Ok (StringUtils.urldecode_chunks (map snd l)).

Fixpoint parse_loop (fuel : nat) h (tmp : DataBuffer) (v : list (bytes * bytes))
    : result (list (bytes * bytes)) :=
  if Buf.empty tmp then Ok v
  else
    match fuel with
    | O => Undef
    | S n =>
        '(head, tail, _) ← Buf.split_char h tmp "&"%byte;
        '(key, value, _) ← Buf.split_char h head "="%byte;
        v ← (if Buf.empty key then Ok v
             else k ← urldecode h key; x ← urldecode h value; Ok (v ++ [(k, x)]));
        parse_loop n h tail v
    end.

Definition parse h (data : DataBuffer) (v : list (bytes * bytes)) : result (list (bytes * bytes)) :=
  parse_loop (S (Z.to_nat (Buf.size data))) h data v.
End Ops.

Section Safe.
Context {I : Type} `{DataBufferImplOk I wf contents}.
Implicit Types h : gmap nat I.

#[local] Abbreviation den := (denotes (wf := wf) (contents := contents)).

Lemma urldecode_total h d s : den h d s -> exists r, urldecode h d = Ok r.
Proof.
  intros Hd. unfold urldecode. destruct (chunks_view h d s Hd) as (l & -> & _). by eexists.
Qed.

(** Whatever the implementation, the parser returns: it neither throws nor loops. *)
Lemma parse_total h d s v :
  den h d s -> exists l, parse h d v = Ok (v ++ l).
Proof.
  intros Hd. unfold parse. rewrite (denotes_size _ _ _ Hd).
  assert (Hf : (length s < S (Z.to_nat (len s)))%nat) by (unfold len; lia).
  revert Hf. generalize (S (Z.to_nat (len s))) as fuel. intros fuel.
  revert d s v Hd. induction fuel as [|fuel IH]; intros d s v Hd Hf; [lia|].
  cbn [parse_loop]. rewrite (denotes_empty _ _ _ Hd).
  destruct s as [|c s]; [exists []; by rewrite app_nil_r|]. cbn [Range.empty].
  pose proof (Range.split_char_shorter (c :: s) "&"%byte ltac:(done)) as Hs.
  destruct (split_char_views h d _ "&"%byte Hd) as (head & tail & -> & Hh & Ht & _).
  cbn [mbind result_bind].
  destruct (split_char_views h head _ "="%byte Hh) as (key & value & -> & Hk & Hv & _).
  cbn [mbind result_bind].
  destruct (urldecode_total h key _ Hk) as [k ->].
  destruct (urldecode_total h value _ Hv) as [x ->].
  destruct (Buf.empty key); cbn [mbind result_bind].
  - by apply (IH _ _ v Ht); lia.
  - destruct (IH _ _ (v ++ [(k, x)]) Ht) as [l Hl]; [lia|].
    exists ((k, x) :: l). by rewrite Hl, <- app_assoc.
Qed.
End Safe.

(** ** One segment *)

Section OneSegment.
Context {I : Type} `{DataBufferImplOk I wf contents}.
Implicit Types h : gmap nat I.

#[local] Abbreviation den := (denotes (wf := wf) (contents := contents)).

(** Every segment runs to the end of the object, as in [StringBuffer]. *)
Definition one_segment : Prop :=
  forall i pos, wf i -> 0 <= pos < len (contents i) -> len (contents i) <= (impl_segment i pos).2.

Context (Hone : one_segment).

Lemma chunks_one h d s :
  den h d s -> s <> [] -> Buf.chunks h d = Ok [(begin_ d, s)].
Proof.
  intros Hd Hs. pose proof (denotes_len _ _ _ Hd). unfold Buf.chunks.
  rewrite (denotes_empty _ _ _ Hd). assert (Range.empty s = false) as -> by (by destruct s).
  assert (0 < len s) by (destruct s; [done|rewrite len_cons; pose proof (len_nonneg s); lia]).
  destruct (denotes_deref _ _ _ Hd) as (i & -> & Hw & ? & ? & ? & ? & ->).
  cbn [mbind result_bind Buf.chunks_from]. rewrite ok_chunk by (done || lia).
  cbn [mbind result_bind]. pose proof (Hone i (begin_ d) Hw ltac:(lia)).
  set (seg := (impl_segment i (begin_ d)).2) in *.
  rewrite slice_len by lia. rewrite u64_small by lia.
  rewrite (proj2 (Z.leb_le _ _)) by lia. do 3 f_equal.
  unfold slice. rewrite take_take. f_equal. lia.
Qed.

Lemma urldecode_one h d s :
  den h d s -> urldecode h d = Ok (StringUtils.urldecode s).
Proof.
  intros Hd. unfold urldecode. destruct (decide (s = [])) as [->|Hs].
  - unfold Buf.chunks. by rewrite (denotes_empty _ _ _ Hd).
  - rewrite (chunks_one _ _ _ Hd Hs). cbn. by rewrite app_nil_r.
Qed.

Lemma parse_one h d s v : den h d s -> parse h d v = Ok (StringUtils.parse s v).
Proof.
  intros Hd. unfold parse. rewrite (denotes_size _ _ _ Hd).
  assert (Hf : (length s < S (Z.to_nat (len s)))%nat) by (unfold len; lia).
  revert Hf. generalize (S (Z.to_nat (len s))) as fuel. intros fuel.
  revert d s v Hd. induction fuel as [|fuel IH]; intros d s v Hd Hf; [lia|].
  cbn [parse_loop]. rewrite (denotes_empty _ _ _ Hd), parse_step.
  destruct s as [|c s]; [done|]. cbn [Range.empty].
  pose proof (Range.split_char_shorter (c :: s) "&"%byte ltac:(done)) as Hs.
  destruct (split_char_views h d _ "&"%byte Hd) as (head & tail & -> & Hh & Ht & _).
  cbn [mbind result_bind].
  destruct (Range.split_char (c :: s) "&"%byte) as [[hb tb] ?]. cbn [fst snd] in *.
  destruct (split_char_views h head _ "="%byte Hh) as (key & value & -> & Hk & Hv & _).
  cbn [mbind result_bind].
  destruct (Range.split_char hb "="%byte) as [[kb vb] ?]. cbn [fst snd] in *.
  rewrite (urldecode_one _ _ _ Hk), (urldecode_one _ _ _ Hv), (denotes_empty _ _ _ Hk).
  destruct (Range.empty kb); cbn [mbind result_bind]; apply IH; (done || lia).
Qed.
End OneSegment.
End Form.
