(* ===== verification/Parser.v ===== *)
(** * Parser

    [library/parser.cpp] and [include/details/parser.h]: the CGI environment, the
    cookie header, [multipart/form-data] bodies and header names. The parser fills
    fields of the request it is given; those fields are the record [Parsed]. *)

From S2P Require Import Prelude Cxx OrdMap Ranges StringUtils Buffer Cookie.

(** ** Uploaded files *)

Module File.

Record t := MkFile { name_ : bytes; type_ : bytes; data_ : DataBuffer }.

(** The constructor from strings. *)
Definition of_strings (filename type : bytes) (content : DataBuffer) : result t :=
  if Range.empty filename then Throw (RuntimeError (lit "uploaded file without name"))
  else Ok (MkFile filename type content).

(** The constructor from buffers. *)
Definition of_buffers {I} `{DataBufferImpl I} (h : gmap nat I)
    (filename type content : DataBuffer) : result t :=
  type_ ← (if Buf.empty type then Ok [] else Buf.toString h type);
  if Buf.empty filename then Throw (RuntimeError (lit "uploaded file without name"))
  else name_ ← Buf.toString h filename; Ok (MkFile name_ type_ content).

End File.

(** ** The fields of a request the parser fills *)

Record Parsed := MkParsed {
  args_ : list (bytes * bytes);
  vars_ : list (bytes * bytes);
  cookies_ : list (bytes * bytes);
  headers_ : list (bytes * bytes);
  files_ : list (bytes * File.t)
}.

Definition no_input : Parsed := MkParsed [] [] [] [] [].

Definition set_args (p : Parsed) v := MkParsed v (vars_ p) (cookies_ p) (headers_ p) (files_ p).
Definition set_vars (p : Parsed) v := MkParsed (args_ p) v (cookies_ p) (headers_ p) (files_ p).
Definition set_cookies (p : Parsed) v := MkParsed (args_ p) (vars_ p) v (headers_ p) (files_ p).
Definition set_headers (p : Parsed) v := MkParsed (args_ p) (vars_ p) (cookies_ p) v (files_ p).
Definition set_files (p : Parsed) v := MkParsed (args_ p) (vars_ p) (cookies_ p) (headers_ p) v.

Module Parser.

Definition statusToString (status : Z) : bytes :=
  match status with
  | 200 => lit "OK"
  | 201 => lit "Created"
  | 202 => lit "Accepted"
  | 203 => lit "Partial Information"
  | 204 => lit "No Response"
  | 301 => lit "Moved"
  | 302 => lit "Moved Temporarily"
  | 303 => lit "Method"
  | 304 => lit "Not Modified"
  | 400 => lit "Bad request"
  | 401 => lit "Unauthorized"
  | 402 => lit "PaymentRequired"
  | 403 => lit "Forbidden"
  | 404 => lit "Not found"
  | 405 => lit "Method not allowed"
  | 500 => lit "Internal Error"
  | 501 => lit "Not implemented"
  | 502 => lit "Bad Gateway"
  | 503 => lit "Service Unavailable"
  | _ => lit "Unknown status"
  end.

(** [has], [get] and [keys] of a map. *)
Definition has {V} (ltb : bytes -> bytes -> bool) (m : list (bytes * V)) (key : bytes) : bool :=
  match om_find ltb m key with Some _ => true | None => false end.

Definition get (ltb : bytes -> bytes -> bool) (m : list (bytes * bytes)) (key : bytes) : bytes :=
  match om_find ltb m key with Some v => v | None => [] end.

Definition keys {V} (m : list (bytes * V)) : list bytes := map fst m.

(** [strncasecmp] reads the memory from the start of the trimmed tail, that is up to
    the terminating NUL of the header and not to the end of the trimmed range. *)
Definition getBoundary (range : bytes) : result bytes :=
  let '(_, tail0, _) := Range.split_char range ";"%byte in
  let tail := Range.trim tail0 in
  if starts_with_ci (lit "boundary") (drop_while isspace tail0) then
    let '(_, value, _) := Range.split_char tail "="%byte in
    let boundary := Range.trim value in
    let quote := [Byte.x22] in
    if negb (Range.empty boundary) && Range.startsWith boundary quote then
      if Nat.ltb (length boundary) 2 || negb (Range.endsWith boundary quote)
      then Throw (RuntimeError (lit "incomplete boundary quotation"))
      else Ok (lit "--" ++ Range.trimn boundary 1 1)
    else Ok (lit "--" ++ boundary)
  else Ok [].

Definition addCookie (req : Parsed) (range : bytes) : Parsed :=
  let tmp := Range.trim range in
  let '(head, tail, _) := Range.split_char tmp "="%byte in
  if Range.empty head then req
  else set_cookies req (om_put str_ltb (cookies_ req)
         (StringUtils.urldecode head) (StringUtils.urldecode tail)).

(** The two loops over a shrinking range; [fuel] bounds the iterations. *)
Fixpoint normalizeInput_loop (fuel : nat) (tmp res : bytes) : bytes :=
  match fuel, tmp with
  | S n, _ :: _ =>
      let '(head, tail, splitted) := Range.split_char tmp "_"%byte in
      normalizeInput_loop n tail (res ++ head ++ (if splitted : bool then lit "-" else []))
  | _, _ => res
  end.

Definition normalizeInputHeaderName (range : bytes) : bytes :=
  normalizeInput_loop (length range) range [].

Fixpoint normalizeOutput_loop (fuel : nat) (range res : bytes) : bytes :=
  match fuel, range with
  | S n, _ :: _ =>
      let '(head, tail, _) := Range.split_char range "-"%byte in
      let res := match head with
                 | [] => res
                 | c :: rest => res ++ toupper c :: rest
                 end in
      let range := Range.trim tail in
      normalizeOutput_loop n range (if Range.empty range then res else res ++ lit "-")
  | _, _ => res
  end.

Definition normalizeOutputHeaderName (name : bytes) : bytes :=
  let range := Range.trim name in normalizeOutput_loop (length range) range [].

Definition addHeader (req : Parsed) (key value : bytes) : Parsed :=
  set_headers req (om_put StringCILess (headers_ req) (normalizeInputHeaderName key) value).

Fixpoint parseCookies_loop (fuel : nat) (req : Parsed) (tmp : bytes) : Parsed :=
  match fuel, tmp with
  | S n, _ :: _ =>
      let '(head, tail, _) := Range.split tmp (lit "; ") in
      parseCookies_loop n (addCookie req head) (Range.trim tail)
  | _, _ => req
  end.

Definition parseCookies (req : Parsed) (range : bytes) : Parsed :=
  let tmp := Range.trim range in parseCookies_loop (length tmp) req tmp.

Definition HEADER_RANGE : bytes := lit "HTTP_".

(** One environment string. *)
Definition parse_var (req : Parsed) (env : bytes) : Parsed :=
  let '(key, value, _) := Range.split_char env "="%byte in
  if Range.eq (lit "HTTP_COOKIE") key then
    addHeader (parseCookies req value) (Range.trimn key (len HEADER_RANGE) 0) (Range.trim value)
  else if Range.eq (lit "CONTENT_TYPE") key then addHeader req key (Range.trim value)
  else if Range.eq (lit "CONTENT_LENGTH") key then addHeader req key (Range.trim value)
  else if Range.startsWith key HEADER_RANGE then
    addHeader req (Range.trimn key (len HEADER_RANGE) 0) (Range.trim value)
  else set_vars req (om_put str_ltb (vars_ req) key value).

Definition parse (req : Parsed) (env : list bytes) : Parsed := foldl parse_var req env.

Section Multipart.
Context {I : Type} `{DataBufferImpl I}.
Implicit Types h : gmap nat I.

(** The three references [name], [filename] and [type] as the line updates them. *)
Fixpoint parseLine (fuel : nat) h (line name filename type : DataBuffer)
    : result (DataBuffer * DataBuffer * DataBuffer) :=
  if Buf.empty line then Ok (name, filename, type)
  else
    match fuel with
    | O => Undef
    | S n =>
        '(head, tail, _) ← Buf.split_char h line ";"%byte;
        '(key, value, _) ← Buf.split_char h head "="%byte;
        is_name ← (if Buf.size key =? len (lit "name")
                   then Buf.startsWith h key (lit "name") else Ok false);
        is_filename ← (if Buf.size key =? len (lit "filename")
                       then Buf.startsWith h key (lit "filename") else Ok false);
        is_type ← (if Buf.size key =? len (lit "CONTENT_TYPE")
                   then Buf.startsWithCI h key (lit "CONTENT_TYPE") else Ok false);
        refs ← (if is_name : bool then Ok (Buf.trimn value 1 1, filename, type)
                else if is_filename : bool then Ok (name, Buf.trimn value 1 1, type)
                else if is_type : bool then t ← Buf.trim h value; Ok (name, filename, t)
                else Ok (name, filename, type));
        let '(name, filename, type) := refs in
        line ← Buf.trim h tail;
        parseLine n h line name filename type
    end.

(** A line of [tail] up to CRLF, or up to LF when there is no CRLF in all of it. *)
Definition split_line h (tail : DataBuffer) : result (DataBuffer * DataBuffer) :=
  '(subline, subtail, found) ← Buf.split h tail [Byte.x0d; Byte.x0a];
  if found : bool then Ok (subline, subtail)
  else '(subline, subtail, _) ← Buf.split_char h tail Byte.x0a; Ok (subline, subtail).

(** The inner loop of [parsePart]: the (possibly folded) line and what follows it. *)
Fixpoint header_line (fuel : nat) h (part line tail : DataBuffer) (lineFound : bool)
    : result (DataBuffer * DataBuffer) :=
  if Buf.empty tail then Ok (line, tail)
  else
    match fuel with
    | O => Undef
    | S n =>
        '(subline, subtail) ← split_line h tail;
        sp ← Buf.startsWith h subline (lit " ");
        folded ← (if sp : bool then Ok true else Buf.startsWith h subline [Byte.x09]);
        if folded : bool then
          line ← Buf.view h part (begin_ line) (end_ subline);
          header_line n h part line subtail true
        else if lineFound then Ok (line, tail)
        else header_line n h part subline subtail true
    end.

Fixpoint part_headers (fuel : nat) h (part headers name filename type : DataBuffer)
    : result (DataBuffer * DataBuffer * DataBuffer) :=
  if Buf.empty headers then Ok (name, filename, type)
  else
    match fuel with
    | O => Undef
    | S n =>
        '(line, tail) ← header_line (S (Z.to_nat (Buf.size headers))) h part Buf.nil headers false;
        '(name, filename, type) ←
          parseLine (S (Z.to_nat (Buf.size line))) h line name filename type;
        part_headers n h part tail name filename type
    end.

Definition parsePart h (req : Parsed) (part : DataBuffer) : result Parsed :=
  '(headers, content, found) ← Buf.split h part [Byte.x0d; Byte.x0a; Byte.x0d; Byte.x0a];
  '(headers, content) ←
    (if found : bool then Ok (headers, content)
     else '(headers, content, _) ← Buf.split h part [Byte.x0a; Byte.x0a]; Ok (headers, content));
  '(name, filename, type) ←
    part_headers (S (Z.to_nat (Buf.size headers))) h part headers Buf.nil Buf.nil Buf.nil;
  if Buf.empty name then Ok req
  else
    name_str ← Buf.toString h name;
    if negb (Buf.empty filename) then
      f ← File.of_buffers h filename type content;
      Ok (set_files req (om_insert str_ltb (files_ req) name_str f).1)
    else
      arg ← Buf.toString h content;
      Ok (set_args req (args_ req ++ [(name_str, arg)])).

Definition malformed : exn := RuntimeError (lit "malformed multipart message").

(** The line ends around the text between two boundaries are cut. *)
Definition strip_part h (head : DataBuffer) : result DataBuffer :=
  rn ← Buf.endsWith h head [Byte.x0d; Byte.x0a];
  head ← (if rn : bool then Ok (Buf.trimn head 0 2)
          else n ← Buf.endsWith h head [Byte.x0a];
               if n : bool then Ok (Buf.trimn head 0 1) else Throw malformed);
  rn ← Buf.startsWith h head [Byte.x0d; Byte.x0a];
  if rn : bool then Ok (Buf.trimn head 2 0)
  else n ← Buf.startsWith h head [Byte.x0a];
       if n : bool then Ok (Buf.trimn head 1 0) else Throw malformed.

Fixpoint multipart_loop (fuel : nat) h (req : Parsed) (data : DataBuffer) (boundary : bytes)
    : result Parsed :=
  if Buf.empty data then Ok req
  else
    match fuel with
    | O => Undef
    | S n =>
        '(head, tail, found) ← Buf.split h data boundary;
        head ← (if (found : bool) && negb (Buf.empty head) then strip_part h head else Ok head);
        req ← (if Buf.empty head then Ok req else parsePart h req head);
        last ← Buf.startsWith h tail (lit "--");
        if last : bool then Ok req else multipart_loop n h req tail boundary
    end.

Definition parseMultipart h (req : Parsed) (data : DataBuffer) (boundary : bytes)
    : result Parsed :=
  multipart_loop (S (Z.to_nat (Buf.size data))) h req data boundary.
End Multipart.

End Parser.

(** ** Header names *)

Section HeaderNames.
Import Parser.

Definition underscore_to_dash (c : byte) : byte := if beqb c "_"%byte then "-"%byte else c.

Lemma map_dash_id s : mem "_"%byte s = false -> map underscore_to_dash s = s.
Proof.
  induction s as [|a s IH]; simpl; [done|]. rewrite orb_false_iff. intros [Ha Hs].
  rewrite IH by done. unfold underscore_to_dash. destruct (beqb a "_"%byte) eqn:E; [|done].
  apply beqb_true in E as ->. done.
Qed.

Lemma normalizeInput_loop_spec fuel tmp res :
  (length tmp <= fuel)%nat -> normalizeInput_loop fuel tmp res = res ++ map underscore_to_dash tmp.
Proof.
  revert tmp res. induction fuel as [|n IH]; intros tmp res Hf.
  - destruct tmp; [|simpl in Hf; lia]. by rewrite app_nil_r.
  - destruct tmp as [|c tmp]; [by rewrite app_nil_r|]. cbn [normalizeInput_loop].
    pose proof (Range.split_char_shorter (c :: tmp) "_"%byte ltac:(done)) as Hs.
    destruct (Range.split_char_cases (c :: tmp) "_"%byte) as [(a & b & E & Ha & E')|[Ha E']];
      rewrite E' in *; cbn [fst snd] in Hs; rewrite IH by (simpl in *; lia); rewrite <- app_assoc.
    + rewrite E, map_app, (map_dash_id a) by done. simpl. by rewrite <- !app_assoc.
    + rewrite (map_dash_id (c :: tmp)) by done. by rewrite !app_nil_r.
Qed.

Lemma normalizeInputHeaderName_loop s :
  normalizeInputHeaderName s = map underscore_to_dash s.
Proof. apply (normalizeInput_loop_spec _ _ []). lia. Qed.

(** the loop over the pieces of a CGI variable name replaces every underscore by a
    dash and changes nothing else, on every name. *)
Theorem normalizeInputHeaderName_spec s :
  normalizeInputHeaderName s = map underscore_to_dash s.
Proof. apply normalizeInputHeaderName_loop. Qed.

(** The first character of every piece between dashes in upper case. *)
Fixpoint capitalize (start : bool) (s : bytes) : bytes :=
  match s with
  | [] => []
  | c :: r =>
      if beqb c "-"%byte then c :: capitalize true r
      else (if start then toupper c else c) :: capitalize false r
  end.

Lemma capitalize_tail s : mem "-"%byte s = false -> capitalize false s = s.
Proof.
  induction s as [|a s IH]; simpl; [done|]. rewrite orb_false_iff. intros [Ha Hs].
  rewrite IH by done. destruct (beqb a "-"%byte) eqn:E; [|done].
  apply beqb_true in E as ->. by rewrite beqb_refl in Ha.
Qed.

Lemma capitalize_app a r st :
  mem "-"%byte a = false ->
  capitalize st (a ++ "-"%byte :: r) = capitalize st a ++ "-"%byte :: capitalize true r.
Proof.
  revert st. induction a as [|x a IH]; intros st; simpl; [done|].
  rewrite orb_false_iff. intros [Hx Ha]. destruct (beqb x "-"%byte); by rewrite IH.
Qed.

Lemma capitalize_head a st :
  mem "-"%byte a = false ->
  capitalize st a = match a with [] => [] | c :: r => (if st then toupper c else c) :: r end.
Proof.
  destruct a as [|x a]; simpl; [done|]. rewrite orb_false_iff. intros [Hx Ha].
  destruct (beqb x "-"%byte) eqn:E.
  - apply beqb_true in E as ->. by rewrite beqb_refl in Hx.
  - by rewrite capitalize_tail.
Qed.

Definition no_space (s : bytes) : bool := forallb (fun c => negb (isspace c)) s.

(** A name without white space that does not end in a dash. *)
Definition clean_name (s : bytes) : bool :=
  no_space s && negb (Range.endsWith s (lit "-")).

Lemma endsWith_suffix a r p : r <> [] -> length p = 1%nat ->
  Range.endsWith (a ++ r) p = Range.endsWith r p.
Proof.
  intros Hr Hp. apply eq_true_iff_eq. rewrite !Range.endsWith_spec. split.
  - intros [t E]. destruct (exists_last Hr) as (l & x & ->). destruct p as [|y [|]]; try done.
    rewrite app_assoc in E. apply app_inj_tail in E as [_ ->]. by exists l.
  - intros [t ->]. exists (a ++ t). by rewrite app_assoc.
Qed.

Lemma normalizeOutput_loop_spec fuel range res :
  (length range <= fuel)%nat -> clean_name range = true ->
  normalizeOutput_loop fuel range res = res ++ capitalize true range.
Proof.
  revert range res. induction fuel as [|n IH]; intros range res Hf Hc.
  - destruct range; [|simpl in Hf; lia]. by rewrite app_nil_r.
  - destruct range as [|c range]; [by rewrite app_nil_r|]. cbn [normalizeOutput_loop].
    apply andb_true_iff in Hc as [Hsp Hd]. apply negb_true_iff in Hd.
    pose proof (Range.split_char_shorter (c :: range) "-"%byte ltac:(done)) as Hs.
    destruct (Range.split_char_cases (c :: range) "-"%byte) as [(a & b & E & Ha & E')|[Ha E']];
      rewrite E' in *; cbn [fst snd] in Hs.
    + rewrite E in Hsp, Hd. unfold no_space in Hsp. rewrite forallb_app in Hsp. simpl in Hsp.
      apply andb_true_iff in Hsp as [_ Hsp]. rewrite Range.trim_no_space by done.
      assert (Hb : b <> []).
      { intros ->. rewrite (proj2 (Range.endsWith_spec _ _)) in Hd; [done|]. by exists a. }
      assert (Range.empty b = false) as -> by (by destruct b).
      rewrite IH; [|simpl in *; lia|].
      * rewrite E, capitalize_app by done. rewrite (capitalize_head a) by done.
        rewrite <- app_assoc. destruct a; [done|]. by rewrite <- app_assoc.
      * unfold clean_name, no_space. rewrite Hsp. simpl.
        rewrite (endsWith_suffix a ("-"%byte :: b)) in Hd by done.
        change ("-"%byte :: b) with (lit "-" ++ b) in Hd.
        rewrite endsWith_suffix in Hd by done. by rewrite Hd.
    + rewrite (capitalize_head (c :: range)) by done. cbn. by destruct n.
Qed.

Lemma tolower_toupper c : tolower (toupper c) = tolower c.
Proof. by destruct c. Qed.

Lemma toupper_idem c : toupper (toupper c) = toupper c.
Proof. by destruct c. Qed.

Lemma toupper_dash c : beqb (toupper c) "-"%byte = beqb c "-"%byte.
Proof. by destruct c. Qed.

Lemma tolower_capitalize st s : tolower_str (capitalize st s) = tolower_str s.
Proof.
  revert st. induction s as [|c s IH]; intros st; simpl; [done|].
  destruct (beqb c "-"%byte); simpl; rewrite IH; [done|].
  destruct st; [by rewrite tolower_toupper|done].
Qed.

Lemma capitalize_idem st s : capitalize st (capitalize st s) = capitalize st s.
Proof.
  revert st. induction s as [|c s IH]; intros st; simpl; [done|].
  destruct (beqb c "-"%byte) eqn:E; simpl; rewrite ?E, ?IH; [done|].
  destruct st; simpl; rewrite ?toupper_dash, ?toupper_idem, ?E, ?IH; done.
Qed.

Lemma capitalize_clean s : clean_name s = true -> clean_name (capitalize true s) = true.
Proof.
  unfold clean_name. rewrite !andb_true_iff, !negb_true_iff. intros [Hs Hd]. split.
  - enough (Hg : forall st, no_space s = true -> no_space (capitalize st s) = true) by auto.
    clear. unfold no_space. induction s as [|c s IH]; intros st; simpl; [done|].
    intros [Hc Hs]%andb_true_iff. destruct (beqb c "-"%byte); simpl; rewrite IH by done;
      rewrite andb_true_r; [done|]. destruct st; [|done].
    assert (Hall : (isspace c || negb (isspace (toupper c))) = true) by by_bytes c.
    apply negb_true_iff in Hc. by rewrite Hc in Hall.
  - destruct (Range.endsWith (capitalize true s) (lit "-")) eqn:E; [|done].
    exfalso. apply Range.endsWith_spec in E as [r Hr].
    destruct s as [|c s] using rev_ind; [by destruct r|].
    rewrite (endsWith_suffix s [c]) in Hd by done.
    assert (Hl : forall st l, exists st', capitalize st (l ++ [c]) = capitalize st l ++ capitalize st' [c]).
    { clear. intros st l. revert st. induction l as [|x l IH]; intros st; [by exists st|].
      simpl. destruct (beqb x "-"%byte); [destruct (IH true) as [s' ->]|destruct (IH false) as [s' ->]];
        by exists s'. }
    destruct (Hl true s) as [st' E]. rewrite E in Hr. clear E Hl. simpl in Hr.
    destruct (beqb c "-"%byte) eqn:Ec.
    + apply beqb_true in Ec as ->. done.
    + apply app_inj_tail in Hr as [_ Hr].
      destruct st'; [rewrite <- (toupper_dash c), Hr in Ec; done|subst c; done].
Qed.

(** for a header name without white space that does not end in a dash,
    [normalizeOutputHeaderName] upper-cases the first letter of every piece between
    dashes; the result is the same key for the case-insensitive header maps, and
    normalizing it again changes nothing. *)
Theorem normalizeOutputHeaderName_spec s :
  clean_name s = true ->
  normalizeOutputHeaderName s = capitalize true s /\
  keq StringCILess (normalizeOutputHeaderName s) s = true /\
  normalizeOutputHeaderName (normalizeOutputHeaderName s) = normalizeOutputHeaderName s.
Proof.
  intros Hc.
  assert (Hn : forall t, clean_name t = true -> normalizeOutputHeaderName t = capitalize true t).
  { intros t Ht. unfold normalizeOutputHeaderName.
    pose proof Ht as [Hs _]%andb_true_iff. rewrite Range.trim_no_space by done.
    by rewrite normalizeOutput_loop_spec. }
  rewrite Hn by done. split; [done|]. split.
  - apply ci_keq, tolower_capitalize.
  - rewrite Hn by by apply capitalize_clean. apply capitalize_idem.
Qed.

Lemma normalizeOutputHeaderName_witness :
  normalizeOutputHeaderName (lit "x-forwarded-for") = lit "X-Forwarded-For".
Proof.
  etransitivity; [apply (normalizeOutputHeaderName_spec (lit "x-forwarded-for"))|]; reflexivity.
Defined.

End HeaderNames.

(** ** Cookies *)

Section Cookies.
Import Parser.

(** What a client sends back for a cookie: the text before the first attribute. *)
Definition cookie_pair (set_cookie : bytes) : bytes :=
  take_while (fun c => negb (beqb c ";"%byte)) set_cookie.

Definition unreserved_char (c : byte) : bool := isalnum c || mem c StringUtils.unreserved.

(** A cookie whose text survives the round trip: encoded, with a plain name. *)
Definition sendable (c : Cookie.t) : bool :=
  Cookie.encode_ c && negb (Range.empty (Cookie.name_ c)) &&
  forallb unreserved_char (Cookie.name_ c).

Definition pair_of (c : Cookie.t) : bytes :=
  Cookie.name_ c ++ "="%byte :: StringUtils.urlencode (Cookie.value_ c).

Lemma urlencode_plain s : forallb unreserved_char s = true -> StringUtils.urlencode s = s.
Proof.
  unfold StringUtils.urlencode. induction s as [|c s IH]; simpl; [done|].
  intros [Hc Hs]%andb_true_iff. rewrite IH by done.
  assert (StringUtils.urlencode_char c = [c]) as ->; [|done].
  unfold StringUtils.urlencode_char, unreserved_char in *.
  destruct (isalnum c); [done|]. rewrite orb_false_l in Hc. by rewrite Hc.
Qed.

Lemma unreserved_safe s : forallb unreserved_char s = true -> forallb url_safe s = true.
Proof. intros H. rewrite <- (urlencode_plain s H). apply urlencode_safe. Qed.

(** The text of such a pair has neither separator nor white space. *)
Definition pair_char (c : byte) : bool := url_safe c || beqb c "="%byte.

Lemma pair_chars c : sendable c = true -> forallb pair_char (pair_of c) = true.
Proof.
  unfold sendable, pair_of. rewrite !andb_true_iff. intros [[_ _] Hn].
  rewrite forallb_app. apply andb_true_iff. split.
  - apply unreserved_safe in Hn. rewrite forallb_forall in *. intros x Hx.
    unfold pair_char. by rewrite Hn.
  - simpl. pose proof (urlencode_safe (Cookie.value_ c)) as Hv.
    rewrite forallb_forall in *. intros x Hx. unfold pair_char. by rewrite Hv.
Qed.

Lemma pair_char_space b : (negb (pair_char b) || negb (isspace b)) = true.
Proof. by_bytes b. Qed.

Lemma pair_trim s : forallb pair_char s = true -> Range.trim s = s.
Proof.
  intros H. apply Range.trim_no_space. rewrite forallb_forall in *. intros x Hx.
  pose proof (pair_char_space x) as Hp. by rewrite (H x Hx) in Hp.
Qed.

(** The text of a cookie starts with its pair, and an attribute follows if anything. *)
Lemma toString_pair c s :
  sendable c = true -> Cookie.toString c = Ok s -> cookie_pair s = pair_of c.
Proof.
  intros Hc Hs. pose proof (pair_chars c Hc) as Hp.
  assert (Hsemi : forallb (fun x => negb (beqb x ";"%byte)) (pair_of c) = true).
  { rewrite forallb_forall in *. intros x Hx. specialize (Hp x Hx).
    destruct (beqb x ";"%byte) eqn:E; [|done]. apply beqb_true in E as ->. done. }
  unfold sendable in Hc. rewrite !andb_true_iff in Hc. destruct Hc as [[He _] _].
  unfold Cookie.toString in Hs. rewrite He in Hs.
  assert (Hrest : exists r, s = pair_of c ++ r /\ (r = [] \/ exists r', r = ";"%byte :: r')).
  { destruct (if Cookie.expires_ c =? 0 then _ else _) as [e| |] eqn:Ee; [|done|done].
    cbn [mbind result_bind] in Hs. injection Hs as <-. unfold pair_of.
    eexists. split; [rewrite <- app_assoc; cbn [app]; reflexivity|].
    destruct (Cookie.domain_ c); [|right; eexists; reflexivity].
    destruct (Cookie.path_ c); [|right; eexists; reflexivity].
    cbn [app]. assert (e = [] \/ exists r', e = ";"%byte :: r') as [->|[r' ->]].
    { destruct (Cookie.expires_ c =? 0); [injection Ee as <-; by left|]. right.
      destruct (HttpDateUtils.format _); [|done|done]. injection Ee as <-. eexists. reflexivity. }
    - destruct (Cookie.secure_ c); [right; eexists; reflexivity|].
      destruct (Cookie.http_only_ c); [right; eexists; reflexivity|by left].
    - right. eexists. reflexivity. }
  destruct Hrest as (r & -> & [->|[r' ->]]); unfold cookie_pair.
  - rewrite app_nil_r. by apply take_while_all.
  - by apply take_while_app_stop.
Qed.

(** One iteration of the loop over the header. *)
Lemma addCookie_pair req c :
  sendable c = true ->
  addCookie req (pair_of c) =
  set_cookies req (om_put str_ltb (cookies_ req) (Cookie.name_ c) (Cookie.value_ c)).
Proof.
  intros Hc. unfold addCookie. rewrite pair_trim by by apply pair_chars.
  unfold sendable in Hc. rewrite !andb_true_iff, negb_true_iff in Hc. destruct Hc as [[_ He] Hn].
  unfold pair_of. rewrite Range.split_char_app.
  - rewrite He. rewrite <- (urlencode_plain _ Hn) at 1.
    by rewrite !url_decode_encode.
  - eapply forallb_mem_false; [exact Hn|]. reflexivity.
Qed.

Lemma pairs_clean cs :
  Forall (fun c => sendable c = true) cs ->
  Range.clean_ends (join (lit "; ") (map pair_of cs)) = true.
Proof.
  intros H.
  assert (Hsp : forall c, sendable c = true -> exists a l x, pair_of c = a :: l /\
    isspace a = false /\ (exists k, pair_of c = k ++ [x]) /\ isspace x = false).
  { intros c Hc. pose proof (pair_chars c Hc) as Hp. rewrite forallb_forall in Hp.
    assert (Hns : forall x, In x (pair_of c) -> isspace x = false).
    { intros x Hx. pose proof (pair_char_space x) as Hs. rewrite (Hp x Hx) in Hs.
      by apply negb_true_iff in Hs. }
    assert (Hne : pair_of c <> []) by (unfold pair_of; intros E; by apply app_eq_nil in E as [_ ?]).
    destruct (exists_last Hne) as (k & x & E). destruct (pair_of c) as [|a l] eqn:El; [done|].
    exists a, l, x. split; [done|]. split; [apply Hns; by left|]. split; [by exists k|].
    apply Hns. rewrite E. apply in_or_app. right. by left. }
  destruct H as [|c cs Hc Hcs]; [done|].
  assert (Hlast : exists k x, join (lit "; ") (map pair_of (c :: cs)) = k ++ [x] /\ isspace x = false).
  { revert c Hc. induction Hcs as [|c' cs Hc' Hcs IH]; intros c Hc.
    - destruct (Hsp c Hc) as (a & l & x & _ & _ & [k E] & Hx). exists k, x. done.
    - destruct (IH c' Hc') as (k & x & E & Hx). cbn [map]. rewrite join_cons by done.
      cbn [map] in E. rewrite E. exists (pair_of c ++ lit "; " ++ k), x.
      by rewrite <- !app_assoc. }
  destruct Hlast as (k & x & E & Hx).
  destruct (Hsp c Hc) as (a & l & y & El & Ha & _).
  assert (Hhd : exists r, join (lit "; ") (map pair_of (c :: cs)) = a :: r).
  { cbn [map]. destruct cs; [exists l; done|]. rewrite join_cons by done. rewrite El. by eexists. }
  destruct Hhd as [r Hr]. rewrite Hr in *. unfold Range.clean_ends.
  rewrite Ha. change (negb false) with true. rewrite andb_true_l, E, List.last_last. by rewrite Hx.
Qed.

Lemma parseCookies_loop_pairs fuel req cs :
  Forall (fun c => sendable c = true) cs ->
  (length (join (lit "; ") (map pair_of cs)) <= fuel)%nat ->
  parseCookies_loop fuel req (join (lit "; ") (map pair_of cs)) =
  set_cookies req (foldl (fun m c => om_put str_ltb m (Cookie.name_ c) (Cookie.value_ c))
    (cookies_ req) cs).
Proof.
  intros H. revert fuel req. induction H as [|c cs Hc Hcs IH]; intros fuel req Hf.
  - simpl. destruct fuel; by destruct req.
  - assert (Hmem : mem ";"%byte (pair_of c) = false)
      by (eapply forallb_mem_false; [by apply pair_chars|reflexivity]).
    assert (Hne : forall t, exists a l, pair_of c ++ t = a :: l).
    { intros t. unfold pair_of. destruct (Cookie.name_ c); simpl; eauto. }
    destruct cs as [|c' cs].
    + cbn [map join] in *. destruct (Hne []) as (a & l & E). rewrite app_nil_r in E.
      destruct fuel as [|n]; [rewrite E in Hf; simpl in Hf; lia|].
      cbn [parseCookies_loop]. rewrite E. rewrite <- E.
      change (lit "; ") with (";"%byte :: lit " "). rewrite Range.split_none by done.
      rewrite addCookie_pair by done. by destruct n.
    + cbn [map] in *. rewrite join_cons in * by done.
      destruct (Hne (lit "; " ++ join (lit "; ") (map pair_of (c' :: cs)))) as (a & l & E).
      destruct fuel as [|n]; [simpl map in E; rewrite E in Hf; simpl in Hf; lia|].
      cbn [parseCookies_loop map] in *. rewrite E. rewrite <- E.
      change (lit "; ") with (";"%byte :: lit " ") at 1 3. rewrite Range.split_app by done.
      rewrite Range.trim_id by exact (pairs_clean (c' :: cs) Hcs).
      rewrite IH.
      * rewrite addCookie_pair by done. by destruct req.
      * rewrite length_app in Hf. cbn [length app lit String.list_byte_of_string] in Hf.
        assert (length (lit "; ") = 2%nat) as Hl by done. rewrite length_app, Hl in Hf. lia.
Qed.

(** C18: cookies the container set with [urlEncode], sent back by a client in one header
    in the order they were set, are parsed back into their names and values, whatever
    bytes the values contain; a later cookie of the same name wins. Their names are not empty and
    consist of characters that percent encoding leaves as they are (letters, digits and the marks
    of [StringUtils.unreserved]): a name is sent without encoding but decoded when it comes back,
    so that other names need not survive. *)
Theorem cookie_roundtrip req cs texts :
  Forall (fun c => sendable c = true) cs ->
  Forall2 (fun c s => Cookie.toString c = Ok s) cs texts ->
  parseCookies req (join (lit "; ") (map cookie_pair texts)) =
  set_cookies req (foldl (fun m c => om_put str_ltb m (Cookie.name_ c) (Cookie.value_ c))
    (cookies_ req) cs).
Proof.
  intros Hs Ht.
  assert (map cookie_pair texts = map pair_of cs) as ->.
  { induction Ht as [|c s cs texts Hcs Ht IH]; [done|]. apply Forall_cons in Hs as [Hc Hs].
    simpl. rewrite IH by done. by rewrite (toString_pair c s). }
  unfold parseCookies. rewrite Range.trim_id by by apply pairs_clean.
  by apply parseCookies_loop_pairs.
Qed.

Definition demo_cookie : Cookie.t :=
  Cookie.secure (Cookie.urlEncode (Cookie.create (lit "FCSESSION") (lit "a;b c=%")) true) true.

Lemma cookie_roundtrip_witness :
  parseCookies no_input (join (lit "; ")
    (map cookie_pair [lit "FCSESSION=a%3Bb%20c%3D%25; path=/; secure"])) =
  set_cookies no_input [(lit "FCSESSION", lit "a;b c=%")].
Proof.
  apply (cookie_roundtrip no_input [demo_cookie]).
  - repeat constructor.
  - repeat constructor.
Defined.

End Cookies.

(** ** The environment *)

Section Environment.
Import Parser.

(** The maps of a request keep the order of [std::map]. *)
Definition wf_parsed (p : Parsed) : Prop :=
  sorted str_ltb (vars_ p) /\ sorted str_ltb (cookies_ p) /\
  sorted StringCILess (headers_ p) /\ sorted str_ltb (files_ p).

Lemma no_input_wf : wf_parsed no_input.
Proof. repeat split; apply sorted_nil. Qed.

(** The request header an environment string stands for, if any, *)
Definition env_header (env : bytes) : option (bytes * bytes) :=
  let '(key, value, _) := Range.split_char env "="%byte in
  if str_eqb key (lit "CONTENT_TYPE") || str_eqb key (lit "CONTENT_LENGTH")
  then Some (map underscore_to_dash key, Range.trim value)
  else if starts_with HEADER_RANGE key
  then Some (map underscore_to_dash (drop 5 key), Range.trim value)
  else None.

(** and the variable it sets otherwise. *)
Definition env_var (env : bytes) : option (bytes * bytes) :=
  let '(key, value, _) := Range.split_char env "="%byte in
  match env_header env with Some _ => None | None => Some (key, value) end.

(** The value of the last entry for a key, [old] if there is none. *)
Definition last_for (ltb : bytes -> bytes -> bool) (entry : bytes -> option (bytes * bytes))
    (k : bytes) (old : option bytes) (env : list bytes) : option bytes :=
  foldl (fun acc e => match entry e with
                      | Some (k', v) => if keq ltb k' k then Some v else acc
                      | None => acc
                      end) old env.

Lemma parseCookies_fields req range :
  vars_ (parseCookies req range) = vars_ req /\
  headers_ (parseCookies req range) = headers_ req /\
  args_ (parseCookies req range) = args_ req /\ files_ (parseCookies req range) = files_ req /\
  (sorted str_ltb (cookies_ req) -> sorted str_ltb (cookies_ (parseCookies req range))).
Proof.
  unfold parseCookies. generalize (length (Range.trim range)) as n.
  generalize (Range.trim range) as tmp. intros tmp n. revert req tmp. induction n as [|n IH]; intros req tmp; [done|].
  destruct tmp as [|c tmp]; [done|]. cbn [parseCookies_loop].
  destruct (Range.split (c :: tmp) (lit "; ")) as [[head tail] found].
  destruct (IH (addCookie req head) (Range.trim tail)) as (-> & -> & -> & -> & Hs).
  unfold addCookie in *. destruct (Range.split_char (Range.trim head) "="%byte) as [[key value] ?].
  destruct (Range.empty key); [by auto|]. repeat split. intros Hc. apply Hs. cbn [set_cookies cookies_]. by apply (sorted_put str_ltb).
Qed.

Lemma range_eq_eqb a b : Range.eq a b = str_eqb b a.
Proof.
  apply eq_true_iff_eq. rewrite Range.eq_spec, str_eqb_true. intuition congruence.
Qed.

Lemma startsWith_eqb s p : Range.startsWith s p = starts_with p s.
Proof. apply eq_true_iff_eq. by rewrite Range.startsWith_spec, starts_with_spec. Qed.

Lemma trimn_prefix key : Range.trimn key (len HEADER_RANGE) 0 = drop 5 key.
Proof.
  change (len HEADER_RANGE) with 5. rewrite Range.trimn_spec by lia.
  apply take_ge. rewrite length_drop. lia.
Qed.

(** One environment string: the header or the variable it sets, nothing else. *)
Lemma parse_var_spec req e :
  wf_parsed req ->
  wf_parsed (parse_var req e) /\
  headers_ (parse_var req e) =
    match env_header e with
    | Some (k, v) => om_put StringCILess (headers_ req) k v
    | None => headers_ req
    end /\
  vars_ (parse_var req e) =
    match env_var e with
    | Some (k, v) => om_put str_ltb (vars_ req) k v
    | None => vars_ req
    end /\
  args_ (parse_var req e) = args_ req /\ files_ (parse_var req e) = files_ req.
Proof.
  intros (Hv & Hc & Hh & Hf). unfold parse_var, env_var, env_header.
  destruct (Range.split_char e "="%byte) as [[key value] ?].
  rewrite !range_eq_eqb, startsWith_eqb, !trimn_prefix.
  unfold addHeader. rewrite !normalizeInputHeaderName_loop.
  destruct (parseCookies_fields req value) as (E1 & E2 & E3 & E4 & E5).
  destruct (str_eqb key (lit "HTTP_COOKIE")) eqn:Ecookie.
  { apply str_eqb_true in Ecookie as ->.
    change (str_eqb (lit "HTTP_COOKIE") (lit "CONTENT_TYPE") ||
      str_eqb (lit "HTTP_COOKIE") (lit "CONTENT_LENGTH")) with false.
    change (starts_with HEADER_RANGE (lit "HTTP_COOKIE")) with true.
    unfold wf_parsed. cbn [set_headers vars_ cookies_ headers_ files_ args_].
    rewrite E1, E2, E3, E4. repeat split; auto; by apply (sorted_put StringCILess). }
  destruct (str_eqb key (lit "CONTENT_TYPE")); cbn [orb];
    [repeat split; auto; by apply (sorted_put StringCILess)|].
  destruct (str_eqb key (lit "CONTENT_LENGTH")); cbn [orb];
    [repeat split; auto; by apply (sorted_put StringCILess)|].
  destruct (starts_with HEADER_RANGE key);
    repeat split; auto; by apply (sorted_put _).
Qed.

(** After the environment has been parsed, a header looked up under any spelling of
    its name has the (trimmed) value of the last environment string for it, a variable
    the value of the last string that is not a header, and what the environment does
    not mention keeps its old value; the maps stay well-formed. *)
Theorem parse_env_lookup req env :
  wf_parsed req ->
  wf_parsed (parse req env) /\
  (forall k, om_find StringCILess (headers_ (parse req env)) k =
    last_for StringCILess env_header k (om_find StringCILess (headers_ req) k) env) /\
  (forall k, om_find str_ltb (vars_ (parse req env)) k =
    last_for str_ltb env_var k (om_find str_ltb (vars_ req) k) env).
Proof.
  unfold parse, last_for. revert req. induction env as [|e env IH]; intros req Hw; [done|].
  cbn [foldl]. destruct (parse_var_spec req e Hw) as (Hw' & Hh & Hv & _ & _).
  destruct (IH _ Hw') as (IH1 & IH2 & IH3). split; [done|].
  destruct Hw as (Hsv & _ & Hsh & _). split; intros k.
  - rewrite IH2, Hh. f_equal. destruct (env_header e) as [[k' v]|]; [|done].
    by rewrite om_find_put.
  - rewrite IH3, Hv. f_equal. destruct (env_var e) as [[k' v]|]; [|done].
    by rewrite om_find_put.
Qed.

Definition demo_env : list bytes :=
  [lit "REQUEST_METHOD=POST"; lit "HTTP_X_REAL_IP= 10.0.0.1 "; lit "CONTENT_LENGTH=3"].

Lemma parse_env_lookup_witness :
  om_find StringCILess (headers_ (parse no_input demo_env)) (lit "x-Real-IP") =
  Some (lit "10.0.0.1").
Proof.
  etransitivity; [apply (parse_env_lookup no_input demo_env no_input_wf)|]. reflexivity.
Defined.
End Environment.

(** ** Multipart bodies: the parser stays inside the body and returns *)

Section MultipartSafe.
Context {I : Type} `{DataBufferTrimOk I wf contents}.
Implicit Types h : gmap nat I.
Import Parser.

#[local] Abbreviation den := (denotes (wf := wf) (contents := contents)).

(** A default-constructed buffer or a view of live bytes. *)
Definition viewable h (d : DataBuffer) : Prop := d = Buf.nil \/ exists s, den h d s.

(** [d] is a view of the same object whose indices are inside those of [data]. *)
Definition within (data d : DataBuffer) : Prop :=
  data_ d = data_ data /\ begin_ data <= begin_ d /\ end_ d <= end_ data.

Lemma within_refl d : within d d.
Proof. unfold within. split; [done|lia]. Qed.

Lemma within_trans a b c : within a b -> within b c -> within a c.
Proof. unfold within. intros (? & ? & ?) (? & ? & ?). split; [congruence|lia]. Qed.

Lemma trimn_within h d s b e :
  den h d s -> 0 <= b < 2 ^ 63 -> 0 <= e -> (s = [] \/ e <= end_ d) ->
  exists s', den h (Buf.trimn d b e) s' /\ within d (Buf.trimn d b e).
Proof.
  intros Hd Hb He Hor. pose proof (denotes_bounds _ _ _ Hd).
  destruct (decide (s = [])) as [->|Hs].
  { assert (Buf.trimn d b e = d) as ->.
    { unfold Buf.trimn. by rewrite (denotes_empty _ _ _ Hd). }
    exists []. split; [done|apply within_refl]. }
  destruct Hor as [|Hle]; [done|].
  exists (Range.trimn s b e). split; [by apply trimn_view|].
  unfold within, Buf.trimn. destruct (Buf.empty d); [split; [done|lia]|].
  rewrite !u64_small by lia.
  destruct (Z.leb_spec (end_ d) (begin_ d + b)); cbn; split; (done || lia).
Qed.

Lemma view_safe h part P b e :
  den h part P -> 0 <= b -> b <= e ->
  safe (Buf.view h part b e) (fun d => exists s, den h d s /\ d = MkDataBuffer (data_ part) b e).
Proof.
  intros Hp Hb He. unfold Buf.view.
  destruct (denotes_deref _ _ _ Hp) as (i & Hi & Hw & _). rewrite Hi. cbn [mbind result_bind].
  rewrite (ok_size i) by done. destruct (Z.ltb_spec (len (contents i)) e); [done|].
  cbn. eexists. split; [|done]. destruct Hp as (l & j & Hd & Hl & _).
  unfold Buf.deref in Hi. rewrite Hd, Hl in Hi. injection Hi as ->.
  exists l, i. cbn. repeat split; done.
Qed.

Lemma split_within d delim d1 d2 found :
  split_shape d delim d1 d2 found -> begin_ d1 <= end_ d1 -> begin_ d2 <= end_ d2 ->
  end_ d1 <= end_ d -> within d d1 /\ (found = true -> within d d2).
Proof.
  intros (? & ? & ? & Hf) ???. unfold within. split; [split; [done|lia]|].
  intros ->. destruct Hf as (? & ? & ?). pose proof (len_nonneg delim).
  split; [congruence|]. lia.
Qed.

(** A split in the form the proofs below step through. *)
Lemma split_step {A} h d s delim (k : DataBuffer * DataBuffer * bool -> result A) Q :
  den h d s ->
  (forall d1 d2 a b f, Range.split s delim = (a, b, f) -> den h d1 a -> den h d2 b ->
     within d d1 -> begin_ d1 = begin_ d -> (f = true -> within d d2) ->
     (f = false -> d1 = d /\ d2 = MkDataBuffer (data_ d) 0 0 /\ b = []) ->
     safe (k (d1, d2, f)) Q) ->
  safe (Buf.split h d delim ≫= k) Q.
Proof.
  intros Hd Hk. destruct (split_views h d s delim Hd) as (d1 & d2 & E & H1' & H2' & Hsh).
  rewrite E. cbn [mbind result_bind].
  destruct (Range.split s delim) as [[a b] f] eqn:Es. cbn [fst snd] in *.
  pose proof (denotes_bounds _ _ _ H1') as B1. pose proof (denotes_bounds _ _ _ H2') as B2.
  pose proof (denotes_bounds _ _ _ Hd) as B.
  assert (He : end_ d1 <= end_ d).
  { destruct Hsh as (_ & _ & _ & Hf). destruct f.
    - destruct Hf as (? & ? & ?). pose proof (len_nonneg delim). lia.
    - destruct Hf as [-> _]. lia. }
  destruct (split_within _ _ _ _ _ Hsh) as [W1 W2]; try lia.
  apply (Hk d1 d2 a b f); try done; [by apply Hsh|]. intros ->. destruct Hsh as (_ & _ & _ & -> & ->).
  split; [done|]. split; [done|]. by apply Range.split_false in Es as [_ ->].
Qed.

Lemma parseLine_safe fuel h line name filename type s :
  den h line s -> (length s < fuel)%nat ->
  viewable h name -> viewable h filename -> viewable h type ->
  safe (parseLine fuel h line name filename type)
    (fun '(n, f, t) => viewable h n /\ viewable h f /\ viewable h t).
Proof.
  revert line name filename type s. induction fuel as [|fuel IH];
    intros line name filename type s Hl Hf Hn Hfn Ht; [lia|].
  cbn [parseLine]. rewrite (denotes_empty _ _ _ Hl).
  destruct s as [|c s]; [done|]. cbn [Range.empty].
  rewrite split_char_eq. apply (split_step h line (c :: s)); [done|].
  intros head tail a b f Es Hh Htl _ _ _ _.
  assert (Hlt : (length b < length (c :: s))%nat).
  { pose proof (Range.split_shorter (c :: s) [";"%byte]) as Hsh. rewrite Es in Hsh. by apply Hsh. }
  rewrite split_char_eq. apply (split_step h head a); [done|].
  intros key value ka va g _ Hk Hv _ _ _ _.
  rewrite !(startsWith_view _ _ _ _ Hk), (startsWithCI_view _ _ _ _ Hk).
  assert (Hv1 : viewable h (Buf.trimn value 1 1)).
  { destruct (trimn_within h value va 1 1 Hv) as (v' & Hv' & _); [lia|lia| |right; by exists v'].
    pose proof (denotes_bounds _ _ _ Hv). pose proof (denotes_len _ _ _ Hv) as HL.
    destruct va; [by left|right]. rewrite len_cons in HL. pose proof (len_nonneg va). lia. }
  destruct (trim_view h value va Hv) as (vt & Et & Hvt & _).
  destruct (trim_view h tail b Htl) as (line' & El & Hl' & _).
  assert (Hrec : forall n f t, viewable h n -> viewable h f -> viewable h t ->
    safe (parseLine fuel h line' n f t)
      (fun '(n, f, t) => viewable h n /\ viewable h f /\ viewable h t)).
  { intros n f' t ???. eapply IH; [exact Hl'| |done|done|done].
    pose proof (Range.trim_length b). simpl in *. lia. }
  assert (Hite : forall (x : bool) (u : bool), (if x then Ok u else Ok false) = Ok (x && u))
    by (by intros [] []).
  rewrite !Hite. cbn [mbind result_bind].
  destruct (_ && _); [rewrite El; cbn [mbind result_bind]; by apply Hrec|].
  destruct (_ && _); [rewrite El; cbn [mbind result_bind]; by apply Hrec|].
  destruct (_ && _); [rewrite Et|]; cbn [mbind result_bind]; rewrite El; cbn [mbind result_bind];
    apply Hrec; try done. right. by eexists.
Qed.

Lemma split_line_safe h tail T :
  den h tail T ->
  safe (split_line h tail) (fun '(subline, subtail) =>
    exists a b, den h subline a /\ den h subtail b /\ within tail subline /\ begin_ subline = begin_ tail /\
      (T <> [] -> (length b < length T)%nat) /\
      (within tail subtail \/ b = [])).
Proof.
  intros Ht. unfold split_line. apply (split_step h tail T); [done|].
  intros d1 d2 a b f Es H1' H2' W1 B1 W2 _. destruct f.
  - cbn. exists a, b. repeat (split; [done|]). split; [|left; by apply W2].
    intros HT. pose proof (Range.split_shorter T [Byte.x0d; Byte.x0a] HT) as Hs.
    rewrite Es in Hs. by apply Hs.
  - rewrite split_char_eq. apply (split_step h tail T); [done|].
    clear Es. intros e1 e2 a' b' f Es He1 He2 V1 B2 V2 Vf. cbn. exists a', b'.
    repeat (split; [done|]). split.
    + intros HT. pose proof (Range.split_shorter T [Byte.x0a] HT) as Hs. rewrite Es in Hs.
      by apply Hs.
    + destruct f; [left; by apply V2|right; by destruct Vf as (_ & _ & ?)].
Qed.

Lemma header_line_safe fuel h part P line tail T lineFound :
  den h part P -> den h tail T -> (length T < fuel)%nat ->
  viewable h line -> (T <> [] -> begin_ line <= begin_ tail) -> 0 <= begin_ line ->
  safe (header_line fuel h part line tail lineFound) (fun '(line', tail') =>
    viewable h line' /\ exists T', den h tail' T' /\ (length T' <= length T)%nat /\
      (T <> [] -> lineFound = false -> (length T' < length T)%nat)).
Proof.
  revert line tail T lineFound. induction fuel as [|fuel IH];
    intros line tail T lineFound Hp Ht Hf Hl Hb Hb0; [lia|].
  cbn [header_line]. rewrite (denotes_empty _ _ _ Ht).
  destruct T as [|c T]; [cbn; split; [done|]; exists []; by repeat split|]. cbn [Range.empty].
  apply safe_bind. eapply safe_mono; [by apply split_line_safe|].
  intros [subline subtail] (a & b & Ha & Hb' & W & Hbeg & Hlt & Hw).
  specialize (Hlt ltac:(done)). specialize (Hb ltac:(done)).
  pose proof (denotes_bounds _ _ _ Ha) as Ba. destruct W as (Wd & Wb & We).
  assert (Hnext : forall line' : DataBuffer, viewable h line' -> 0 <= begin_ line' ->
    begin_ line' <= begin_ tail ->
    safe (header_line fuel h part line' subtail true) (fun '(line', tail') =>
      viewable h line' /\ exists T', den h tail' T' /\ (length T' <= length (c :: T))%nat /\
        (c :: T <> [] -> lineFound = false -> (length T' < length (c :: T))%nat))).
  { intros line' Hv' H0' Hle. eapply safe_mono.
    - apply (IH line' subtail b true); try done; [simpl in *; lia|].
      intros Hbn. destruct Hw as [(_ & Hw & _)|]; [lia|done].
    - intros [l t] (Hlv & T' & HT' & Hlen & _). split; [done|]. exists T'.
      split; [done|]. simpl in *. split; lia. }
  rewrite !(startsWith_view _ _ _ _ Ha).
  destruct (Range.startsWith a (lit " ")); cbn [mbind result_bind];
    [|destruct (Range.startsWith a [Byte.x09])].
  1, 2: apply safe_bind; (eapply safe_mono; [apply (view_safe h part P); (done || lia)|]);
    intros d (s & Hs & ->); apply Hnext; [right; by exists s|done|cbn; lia].
  destruct lineFound.
  - cbn. split; [done|]. exists (c :: T). split; [done|]. split; [done|]. done.
  - apply Hnext; [right; by exists a|lia|lia].
Qed.

Lemma part_headers_safe fuel h part P headers T name filename type :
  den h part P -> den h headers T -> (length T < fuel)%nat ->
  viewable h name -> viewable h filename -> viewable h type ->
  safe (part_headers fuel h part headers name filename type)
    (fun '(n, f, t) => viewable h n /\ viewable h f /\ viewable h t).
Proof.
  revert headers T name filename type. induction fuel as [|fuel IH];
    intros headers T name filename type Hp Hh Hf Hn Hfn Ht; [lia|].
  cbn [part_headers]. rewrite (denotes_empty _ _ _ Hh), (denotes_size _ _ _ Hh).
  destruct T as [|c T]; [done|]. cbn [Range.empty].
  pose proof (denotes_bounds _ _ _ Hh).
  apply safe_bind. eapply safe_mono.
  { eapply (header_line_safe _ h part P Buf.nil headers (c :: T) false); try done.
    - unfold len. lia.
    - by left.
    - cbn. lia. }
  intros [line tail] (Hl & T' & HT' & _ & Hlt). specialize (Hlt ltac:(done) ltac:(done)).
  apply safe_bind. eapply safe_mono with
    (P := fun '(n, f, t) => viewable h n /\ viewable h f /\ viewable h t).
  - destruct Hl as [->|[s Hs]].
    + cbn. done.
    + eapply parseLine_safe; [exact Hs| |done|done|done].
      rewrite (denotes_size _ _ _ Hs). unfold len. lia.
  - intros [[n f] t] (? & ? & ?). eapply IH; [done|exact HT'|simpl in *; lia|done|done|done].
Qed.

(** What a parsed body adds to the request: arguments at the end, and files whose
    contents are views into the body. *)
Definition added h (data : DataBuffer) (req req' : Parsed) : Prop :=
  vars_ req' = vars_ req /\ cookies_ req' = cookies_ req /\ headers_ req' = headers_ req /\
  (exists l, args_ req' = args_ req ++ l) /\
  (sorted str_ltb (files_ req) -> sorted str_ltb (files_ req')) /\
  Forall (fun nf => In nf (files_ req) \/
    ((exists s, den h (File.data_ nf.2) s) /\
     (within data (File.data_ nf.2) \/ File.data_ nf.2 = MkDataBuffer (data_ data) 0 0)))
    (files_ req').

Lemma added_refl h data req : added h data req req.
Proof.
  repeat split; try done; [exists []; by rewrite app_nil_r|].
  apply List.Forall_forall. auto.
Qed.

Lemma added_trans h data a b c : added h data a b -> added h data b c -> added h data a c.
Proof.
  intros (V1 & C1 & H1' & (l1 & A1) & S1 & F1) (V2 & C2 & H2' & (l2 & A2) & S2 & F2).
  repeat split; try congruence; [|auto|].
  - exists (l1 ++ l2). by rewrite A2, A1, app_assoc.
  - rewrite List.Forall_forall in *. intros x Hx. destruct (F2 x Hx) as [Hb|]; [|by right].
    by apply F1.
Qed.

Lemma added_within h data d req req' :
  within data d -> added h d req req' -> added h data req req'.
Proof.
  intros Hw (V & C & Hh & A & S & F). repeat split; try done.
  eapply List.Forall_impl; [|exact F]. cbn. intros nf [|[Hv [Hi|Hz]]]; [by left|right..].
  - split; [done|]. left. by eapply within_trans.
  - split; [done|]. right. destruct Hw as [Hw _]. congruence.
Qed.

Lemma om_insert_In {V} m k (v : V) x :
  In x (om_insert str_ltb m k v).1 -> x = (k, v) \/ In x m.
Proof.
  induction m as [|[k' v'] m IH]; simpl; [intuition congruence|].
  destruct (str_ltb k' k).
  - destruct (om_insert str_ltb m k v) as [r b]. simpl in *. intros [|Hx]; [tauto|].
    destruct (IH Hx); tauto.
  - destruct (str_ltb k k'); simpl; intuition congruence.
Qed.

Lemma parsePart_safe h req part P :
  den h part P -> safe (parsePart h req part) (added h part req).
Proof.
  intros Hp. unfold parsePart. apply (split_step h part P); [done|].
  intros h1 c1 a b f _ Ha Hb _ _ Wb Fb.
  assert (Hsplit : safe (if f then Ok (h1, c1)
      else '(headers, content, _) ← Buf.split h part [Byte.x0a; Byte.x0a]; Ok (headers, content))
    (fun '(headers, content) => (exists s, den h headers s) /\ (exists s, den h content s) /\
      (within part content \/ content = MkDataBuffer (data_ part) 0 0))).
  { destruct f.
    - cbn. split; [by exists a|]. split; [by exists b|]. left. by apply Wb.
    - apply (split_step h part P); [done|]. intros d1 d2 a' b' g _ Hd1 Hd2 _ _ W2 F2. cbn.
      split; [by exists a'|]. split; [by exists b'|].
      destruct g; [left; by apply W2|right; by apply F2]. }
  apply safe_bind. eapply safe_mono; [exact Hsplit|]. clear Hsplit.
  intros [headers content] ([T HT] & [C HC] & Hin). apply safe_bind. eapply safe_mono.
  { eapply (part_headers_safe _ h part P headers T); try done; try by left.
    rewrite (denotes_size _ _ _ HT). unfold len. lia. }
  intros [[name filename] type] (Hn & Hfn & Ht).
  destruct (Buf.empty name) eqn:En; [apply added_refl|].
  destruct Hn as [->|[ns Hn]]; [done|]. rewrite (toString_view _ _ _ Hn). cbn [mbind result_bind].
  destruct (Buf.empty filename) eqn:Ef; cbn [negb].
  - rewrite (toString_view _ _ _ HC). cbn. repeat split; try done.
    + by eexists.
    + apply List.Forall_forall. auto.
  - destruct Hfn as [->|[fs Hfs]]; [done|].
    unfold File.of_buffers. rewrite Ef, (toString_view _ _ _ Hfs).
    assert (Htype : exists t, (if Buf.empty type then Ok [] else Buf.toString h type) = Ok t).
    { destruct (Buf.empty type) eqn:Et; [by eexists|]. destruct Ht as [->|[ts Hts]]; [done|].
      eexists. by apply toString_view. }
    destruct Htype as [t ->]. cbn. repeat split; try done.
    + exists []. by rewrite app_nil_r.
    + intros Hs. by apply sorted_insert.
    + apply List.Forall_forall. intros nf Hnf. apply om_insert_In in Hnf as [->|]; [right|by left].
      cbn. split; [by exists C|done].
Qed.

Lemma strip_part_safe h head s :
  den h head s ->
  safe (strip_part h head) (fun d => (exists s', den h d s') /\ within head d).
Proof.
  intros Hd. unfold strip_part. pose proof (denotes_bounds _ _ _ Hd).
  pose proof (denotes_len _ _ _ Hd) as HL.
  rewrite !(endsWith_view _ _ _ _ Hd). cbn [mbind result_bind].
  assert (Hfront : forall d t, den h d t -> within head d ->
    safe (rn ← Buf.startsWith h d [Byte.x0d; Byte.x0a];
      if rn : bool then Ok (Buf.trimn d 2 0)
      else n ← Buf.startsWith h d [Byte.x0a];
           if n : bool then Ok (Buf.trimn d 1 0) else Throw malformed)
    (fun d => (exists s', den h d s') /\ within head d)).
  { intros d t Ht Hw. rewrite !(startsWith_view _ _ _ _ Ht). cbn [mbind result_bind].
    pose proof (denotes_bounds _ _ _ Ht).
    assert (Hcut : forall b, 0 <= b < 2 ^ 63 ->
      (exists s', den h (Buf.trimn d b 0) s') /\ within head (Buf.trimn d b 0)).
    { intros b Hb. destruct (trimn_within h d t b 0 Ht) as (s' & Hs' & Hw'); [lia|lia|right; lia|].
      split; [by exists s'|]. by eapply within_trans. }
    destruct (Range.startsWith t _); [apply Hcut; lia|].
    destruct (Range.startsWith t _); [apply Hcut; lia|done]. }
  assert (Hback : forall e suf, 0 <= e -> e <= len suf -> Range.endsWith s suf = true ->
    exists t, den h (Buf.trimn head 0 e) t /\ within head (Buf.trimn head 0 e)).
  { intros e suf He Hes Hsuf. apply Range.endsWith_spec in Hsuf as [r ->].
    rewrite len_app in HL. pose proof (len_nonneg r).
    destruct (trimn_within h head _ 0 e Hd) as (t & Ht & Hw); [lia|lia|right; lia|].
    by exists t. }
  destruct (Range.endsWith s [Byte.x0d; Byte.x0a]) eqn:E1; cbn [mbind result_bind].
  - destruct (Hback 2 [Byte.x0d; Byte.x0a]) as (t & Ht & Hw); [lia|done|done|].
    by apply (Hfront _ t).
  - destruct (Range.endsWith s [Byte.x0a]) eqn:E2; cbn [mbind result_bind]; [|done].
    destruct (Hback 1 [Byte.x0a]) as (t & Ht & Hw); [lia|done|done|].
    by apply (Hfront _ t).
Qed.

Lemma multipart_loop_safe fuel h req data s boundary :
  den h data s -> boundary <> [] -> (length s < fuel)%nat ->
  safe (multipart_loop fuel h req data boundary) (added h data req).
Proof.
  revert req data s. induction fuel as [|fuel IH]; intros req data s Hd Hb Hf; [lia|].
  cbn [multipart_loop]. rewrite (denotes_empty _ _ _ Hd).
  destruct s as [|c s]; [apply added_refl|]. cbn [Range.empty].
  apply (split_step h data (c :: s)); [done|].
  intros head tail a b f Es Ha Hb' Wh _ Wt Ff. apply safe_bind.
  eapply safe_mono with (P := fun d => (exists s', den h d s') /\ within data d).
  { destruct (f && negb (Buf.empty head)).
    - eapply safe_mono; [by apply (strip_part_safe h head a)|].
      intros d [Hv Hw]. split; [done|]. by eapply within_trans.
    - cbn. split; [by exists a|done]. }
  intros head' [[a' Ha'] Wh']. apply safe_bind.
  eapply safe_mono with (P := added h data req).
  { destruct (Buf.empty head'); [apply added_refl|].
    eapply safe_mono; [by apply (parsePart_safe h req head' a')|].
    intros req'. by apply added_within. }
  intros req' Hreq. rewrite (startsWith_view _ _ _ _ Hb'). cbn [mbind result_bind].
  destruct (Range.startsWith b (lit "--")); [done|].
  destruct f.
  - eapply safe_mono.
    + apply (IH req' tail b); [done|done|].
      pose proof (Range.split_shorter (c :: s) boundary ltac:(done) Hb) as Hs.
      rewrite Es in Hs. simpl in *. lia.
    + intros req'' Hr. eapply added_trans; [exact Hreq|].
      eapply added_within; [by apply Wt|done].
  - destruct (Ff eq_refl) as (_ & -> & ->).
    assert (Buf.empty (MkDataBuffer (data_ data) 0 0) = true) as E by apply orb_true_r.
    destruct fuel; cbn [multipart_loop]; by rewrite E.
Qed.

(** C3: on a body of any bytes that is kept in memory, and any boundary that is not empty, the
    multipart parser terminates without leaving the body: it either throws or returns the request
    with arguments appended and with files whose contents are views inside the body, and
    touches neither headers, cookies nor variables. The same holds of every kind of buffer whose
    [trim] cuts white space off both ends. The buffers of files are not of that kind: at the end
    [FileBuffer::trim] looks at the position instead of the character there, which is undefined
    for large positions, and so is then the parser on a body that is kept in a file. *)
Theorem parseMultipart_safe h req data s boundary :
  den h data s -> boundary <> [] ->
  safe (parseMultipart h req data boundary) (added h data req).
Proof.
  intros Hd Hb. unfold parseMultipart. eapply multipart_loop_safe; [done|done|].
  rewrite (denotes_size _ _ _ Hd). unfold len. lia.
Qed.
End MultipartSafe.

(** ** Multipart bodies: what a client renders is parsed back *)

Section MultipartRoundtrip.
Context {I : Type} `{DataBufferTrimOk I wf contents}.
Implicit Types h : gmap nat I.
Import Parser.

#[local] Abbreviation den := (denotes (wf := wf) (contents := contents)).

Definition CRLF : bytes := [Byte.x0d; Byte.x0a].

Definition field_header (name : bytes) : bytes :=
  lit "Content-Disposition: form-data; name=" ++ Byte.x22 :: name ++ [Byte.x22].

(** One field of a form, as it follows its boundary. *)
Definition render_field (nv : bytes * bytes) : bytes :=
  CRLF ++ (field_header nv.1 ++ CRLF ++ CRLF ++ nv.2) ++ CRLF.

(** The body: every field after a boundary, then the closing boundary. *)
Fixpoint render_fields (boundary : bytes) (fields : list (bytes * bytes)) : bytes :=
  match fields with
  | [] => boundary ++ lit "--" ++ CRLF
  | nv :: fields' => boundary ++ render_field nv ++ render_fields boundary fields'
  end.

(** A field name without the characters that end it, and a boundary that does not occur
    in the rendered field. *)
Definition field_ok (boundary : bytes) (nv : bytes * bytes) : Prop :=
  nv.1 <> [] /\
  forallb (fun c => negb (mem c [";"%byte; Byte.x22; Byte.x0d; Byte.x0a])) nv.1 = true /\
  search (render_field nv ++ boundary) boundary = length (render_field nv).

Lemma split_exact h d s delim a b f :
  den h d s -> Range.split s delim = (a, b, f) ->
  exists d1 d2, Buf.split h d delim = Ok (d1, d2, f) /\ den h d1 a /\ den h d2 b.
Proof.
  intros Hd E. destruct (split_views h d s delim Hd) as (d1 & d2 & E' & H1' & H2' & _).
  rewrite E in *. by exists d1, d2.
Qed.

Lemma field_header_mem name c :
  forallb (fun c => negb (mem c [";"%byte; Byte.x22; Byte.x0d; Byte.x0a])) name = true ->
  mem c [Byte.x0d; Byte.x0a] = true -> mem c (field_header name) = false.
Proof.
  intros Hn Hc. unfold field_header. rewrite mem_app. cbn [mem existsb].
  assert (c = Byte.x0d \/ c = Byte.x0a) as Hc'.
  { cbn in Hc. rewrite orb_false_r, orb_true_iff, !beqb_true in Hc. done. }
  change (existsb (beqb c) (name ++ [Byte.x22])) with (mem c (name ++ [Byte.x22])).
  rewrite mem_app. rewrite (forallb_mem_false _ c name Hn) by (by destruct Hc' as [-> | ->]).
  by destruct Hc' as [-> | ->].
Qed.

(** One turn of the loop on a parameter, whose name is that of the field or none that is known. *)
Lemma parseLine_turn k h line s (key value tail : bytes) (found found' : bool) n :
  den h line s -> Range.empty s = false ->
  Range.split s [";"%byte] = (key ++ (if found' then "="%byte :: value else []), tail, found) ->
  Range.split (key ++ (if found' then "="%byte :: value else [])) ["="%byte] = (key, value, found') ->
  key = lit "name" \/ (len key <> len (lit "name") /\ len key <> len (lit "filename") /\ len key <> len (lit "CONTENT_TYPE")) ->
  exists line' v, den h line' (Range.trim tail) /\ den h v value /\
    parseLine (S k) h line n Buf.nil Buf.nil =
      parseLine k h line' (if str_eqb key (lit "name") then Buf.trimn v 1 1 else n) Buf.nil Buf.nil.
Proof.
  intros Hl He E1 E2 Hkey. cbn [parseLine]. rewrite (denotes_empty _ _ _ Hl), He, !split_char_eq.
  destruct (split_exact h line s _ _ _ _ Hl E1) as (head & t & -> & Hh & Ht). cbn [mbind result_bind].
  rewrite !split_char_eq. destruct (split_exact h head _ _ _ _ _ Hh E2) as (k' & v & -> & Hk & Hv). cbn [mbind result_bind].
  destruct (trim_view h t _ Ht) as (line' & Et & Hl' & _). exists line', v. split; [done|]. split; [done|].
  rewrite (denotes_size _ _ _ Hk), !(startsWith_view _ _ _ _ Hk). destruct Hkey as [->|(Hk1 & Hk2 & Hk3)].
  - cbn [mbind result_bind]. by rewrite Et.
  - apply Z.eqb_neq in Hk1, Hk2, Hk3. rewrite Hk1, Hk2, Hk3. cbn [mbind result_bind]. rewrite Et. cbn [mbind result_bind].
    assert (Hne : str_eqb key (lit "name") = false) by (apply str_eqb_false; intros E; by rewrite E in Hk1).
    by rewrite Hne.
Qed.

Lemma trim_quoted name : Range.trim (lit " name=" ++ Byte.x22 :: name ++ [Byte.x22]) = lit "name=" ++ Byte.x22 :: name ++ [Byte.x22].
Proof.
  unfold Range.trim. change (drop_while isspace (lit " name=" ++ Byte.x22 :: name ++ [Byte.x22])) with (lit "name=" ++ Byte.x22 :: name ++ [Byte.x22]).
  rewrite app_comm_cons, app_assoc. by apply Range.drop_while_end_id.
Qed.

Lemma trimn_quoted name : Range.trimn (Byte.x22 :: name ++ [Byte.x22]) 1 1 = name.
Proof.
  rewrite Range.trimn_spec by lia. change (drop (Z.to_nat 1) (Byte.x22 :: name ++ [Byte.x22])) with (name ++ [Byte.x22]).
  replace (length (Byte.x22 :: name ++ [Byte.x22]) - Z.to_nat 1 - Z.to_nat 1)%nat with (length name); [apply take_app_length|].
  cbn [length]. rewrite length_app. cbn [length]. lia.
Qed.

(** The header of a field, parsed from any view of it. *)
Lemma parseLine_field h line name :
  name <> [] ->
  forallb (fun c => negb (mem c [";"%byte; Byte.x22; Byte.x0d; Byte.x0a])) name = true ->
  den h line (field_header name) ->
  exists n, parseLine (S (Z.to_nat (Buf.size line))) h line Buf.nil Buf.nil Buf.nil =
    Ok (n, Buf.nil, Buf.nil) /\ den h n name.
Proof.
  intros Hne Hn Hl. rewrite (denotes_size _ _ _ Hl). unfold len. rewrite Nat2Z.id.
  assert (Hlen : exists k, length (field_header name) = S (S k)).
  { unfold field_header. rewrite length_app. by eexists. }
  destruct Hlen as [k ->]. set (quoted := Byte.x22 :: name ++ [Byte.x22]).
  assert (Hsemi : mem ";"%byte quoted = false).
  { unfold quoted. cbn [mem existsb].
    change (existsb (beqb ";"%byte) (name ++ [Byte.x22])) with (mem ";"%byte (name ++ [Byte.x22])).
    rewrite mem_app. by rewrite (forallb_mem_false _ ";"%byte name Hn). }
  destruct (parseLine_turn (S (S k)) h line (field_header name) (lit "Content-Disposition: form-data") []
    (lit " name=" ++ quoted) true false Buf.nil Hl) as (line' & v & Hl' & _ & ->); [done| |by apply Range.split_none|by right|].
  { apply (Range.split_app ";"%byte [] (lit "Content-Disposition: form-data")). reflexivity. }
  change (str_eqb (lit "Content-Disposition: form-data") (lit "name")) with false. cbn iota.
  unfold quoted in Hl'. rewrite trim_quoted in Hl'. fold quoted in Hl'.
  destruct (parseLine_turn (S k) h line' _ (lit "name") quoted [] false true Buf.nil Hl')
    as (line3 & v2 & Hl3 & Hv2 & ->); [done| | |by left|].
  { apply Range.split_none. exact Hsemi. }
  { by apply (Range.split_app "="%byte [] (lit "name") quoted). }
  rewrite str_eqb_refl. cbn [parseLine]. rewrite (denotes_empty _ _ _ Hl3). eexists. split; [done|].
  pose proof (denotes_bounds _ _ _ Hv2). pose proof (denotes_len _ _ _ Hv2) as HL.
  unfold quoted in HL. rewrite len_cons in HL. pose proof (len_nonneg (name ++ [Byte.x22])).
  rewrite <- (trimn_quoted name). apply trimn_view; (done || lia).
Qed.

Lemma header_line_nil fuel h part line tail found :
  den h tail [] -> header_line fuel h part line tail found = Ok (line, tail).
Proof. intros Ht. destruct fuel; cbn [header_line]; by rewrite (denotes_empty _ _ _ Ht). Qed.

Lemma part_headers_nil fuel h part headers n f t :
  den h headers [] -> part_headers fuel h part headers n f t = Ok (n, f, t).
Proof. intros Ht. destruct fuel; cbn [part_headers]; by rewrite (denotes_empty _ _ _ Ht). Qed.

Lemma parsePart_field h req part nv boundary :
  field_ok boundary nv -> den h part (field_header nv.1 ++ CRLF ++ CRLF ++ nv.2) ->
  parsePart h req part = Ok (set_args req (args_ req ++ [nv])).
Proof.
  intros (Hne & Hn & _) Hp. destruct nv as [name value]. cbn [fst snd] in *.
  assert (Hcr : forall c, mem c [Byte.x0d; Byte.x0a] = true -> mem c (field_header name) = false)
    by (intros c; by apply field_header_mem).
  unfold parsePart.
  destruct (split_exact h part _ [Byte.x0d; Byte.x0a; Byte.x0d; Byte.x0a]
    (field_header name) value true Hp) as (headers & content & E & Hh & Hc).
  { apply (Range.split_app Byte.x0d [Byte.x0a; Byte.x0d; Byte.x0a]). by apply Hcr. }
  rewrite E. cbn [mbind result_bind]. clear E.
  rewrite (denotes_size _ _ _ Hh). unfold len at 1. rewrite Nat2Z.id.
  cbn [part_headers]. rewrite (denotes_empty _ _ _ Hh).
  change (Range.empty (field_header name)) with false.
  rewrite (denotes_size _ _ _ Hh). unfold len at 1. rewrite Nat2Z.id.
  cbn [header_line]. rewrite (denotes_empty _ _ _ Hh).
  change (Range.empty (field_header name)) with false. unfold split_line.
  destruct (split_exact h headers _ CRLF (field_header name) [] false Hh)
    as (s1 & t1 & E & Hs1 & Ht1); [apply Range.split_none; by apply Hcr|].
  unfold CRLF in E. rewrite E. cbn [mbind result_bind]. clear E.
  rewrite split_char_eq.
  destruct (split_exact h headers _ [Byte.x0a] (field_header name) [] false Hh)
    as (s2 & t2 & E & Hs2 & Ht2); [apply Range.split_none; by apply Hcr|].
  rewrite E. cbn [mbind result_bind]. clear E.
  rewrite !(startsWith_view _ _ _ _ Hs2).
  change (Range.startsWith (field_header name) (lit " ")) with false.
  change (Range.startsWith (field_header name) [Byte.x09]) with false.
  cbn [mbind result_bind]. rewrite header_line_nil by done. cbn [mbind result_bind].
  destruct (parseLine_field h s2 name Hne Hn Hs2) as (n & E & Hnm). rewrite E.
  cbn [mbind result_bind]. clear E. rewrite part_headers_nil by done.
  cbn [mbind result_bind]. rewrite (denotes_empty _ _ _ Hnm).
  assert (Range.empty name = false) as -> by (by destruct name).
  rewrite (toString_view _ _ _ Hnm). cbn [mbind result_bind].
  change (Buf.empty Buf.nil) with true. cbn [negb].
  by rewrite (toString_view _ _ _ Hc).
Qed.

Lemma strip_part_exact h head m :
  den h head (CRLF ++ m ++ CRLF) -> exists d, strip_part h head = Ok d /\ den h d m.
Proof.
  intros Hd. unfold strip_part. rewrite !(endsWith_view _ _ _ _ Hd).
  assert (Range.endsWith (CRLF ++ m ++ CRLF) [Byte.x0d; Byte.x0a] = true) as ->.
  { apply Range.endsWith_spec. exists (CRLF ++ m). by rewrite <- app_assoc. }
  cbn [mbind result_bind]. pose proof (denotes_bounds _ _ _ Hd).
  pose proof (denotes_len _ _ _ Hd) as HL. rewrite !len_app in HL.
  change (len CRLF) with 2 in HL. pose proof (len_nonneg m).
  assert (H1' : den h (Buf.trimn head 0 2) (CRLF ++ m)).
  { replace (CRLF ++ m) with (Range.trimn (CRLF ++ m ++ CRLF) 0 2).
    - apply trimn_view; (done || lia).
    - rewrite Range.trimn_spec by lia. cbn [Z.to_nat]. rewrite drop_0, app_assoc.
      rewrite length_app. replace (_ - _ - _)%nat with (length (CRLF ++ m)); [apply take_app_length|].
      rewrite length_app. change (length CRLF) with 2%nat. lia. }
  rewrite !(startsWith_view _ _ _ _ H1').
  assert (Range.startsWith (CRLF ++ m) [Byte.x0d; Byte.x0a] = true) as ->
    by apply (Range.startsWith_app CRLF).
  cbn [mbind result_bind]. eexists. split; [done|].
  replace m with (Range.trimn (CRLF ++ m) 2 0).
  - pose proof (denotes_bounds _ _ _ H1'). apply trimn_view; (done || lia).
  - rewrite Range.trimn_spec by lia.
    change (drop (Z.to_nat 2) (CRLF ++ m)) with m. apply take_ge.
    rewrite length_app. change (length CRLF) with 2%nat. lia.
Qed.

(** Between two boundaries: nothing, or one field. *)
Definition between (boundary : bytes) (pre : bytes) (fields : list (bytes * bytes)) : Prop :=
  (pre = [] /\ fields = []) \/
  (exists nv, pre = render_field nv /\ fields = [nv] /\ field_ok boundary nv).

Lemma search_self (b : bytes) : search b b = O.
Proof.
  destruct b as [|c b]; [done|]. cbn [search].
  pose proof (starts_with_app (c :: b) []) as E. rewrite app_nil_r in E. by rewrite E.
Qed.

(** One iteration of the loop. *)
Lemma multipart_step fuel h req data boundary pre parsed rest :
  boundary <> [] -> between boundary pre parsed -> den h data (pre ++ boundary ++ rest) ->
  exists tail, den h tail rest /\
    multipart_loop (S fuel) h req data boundary =
    (if Range.startsWith rest (lit "--") then Ok (set_args req (args_ req ++ parsed))
     else multipart_loop fuel h (set_args req (args_ req ++ parsed)) tail boundary).
Proof.
  intros Hb Hpre Hd. cbn [multipart_loop]. rewrite (denotes_empty _ _ _ Hd).
  assert (Range.empty (pre ++ boundary ++ rest) = false) as ->
    by (destruct pre; [by destruct boundary|done]).
  destruct (split_exact h data _ boundary pre rest true Hd) as (head & tail & E & Hh & Ht).
  { apply Range.split_first; [done|]. destruct Hpre as [[-> _]|(nv & -> & _ & Hok)];
      [apply search_self|apply Hok]. }
  rewrite E. cbn [mbind result_bind]. clear E. exists tail. split; [done|].
  rewrite (denotes_empty _ _ _ Hh), (startsWith_view _ _ _ _ Ht).
  destruct Hpre as [[-> ->]|(nv & -> & -> & Hok)].
  - cbn [Range.empty negb andb mbind result_bind]. rewrite (denotes_empty _ _ _ Hh).
    cbn [Range.empty mbind result_bind]. rewrite app_nil_r. by destruct req.
  - change (Range.empty (render_field nv)) with false. cbn [negb andb].
    destruct (strip_part_exact h head _ Hh) as (d & E & Hdd). rewrite E.
    cbn [mbind result_bind]. clear E. rewrite (denotes_empty _ _ _ Hdd).
    change (Range.empty (field_header nv.1 ++ CRLF ++ CRLF ++ nv.2)) with false.
    by rewrite (parsePart_field h req d nv boundary).
Qed.

Lemma multipart_loop_fields fuel h req data boundary pre parsed fields :
  boundary <> [] -> between boundary pre parsed -> Forall (field_ok boundary) fields ->
  den h data (pre ++ render_fields boundary fields) -> (length fields < fuel)%nat ->
  multipart_loop fuel h req data boundary = Ok (set_args req (args_ req ++ parsed ++ fields)).
Proof.
  intros Hb Hpre Hf. revert fuel req data pre parsed Hpre.
  induction Hf as [|nv fields Hnv Hf IH]; intros fuel req data pre parsed Hpre Hd Hfuel;
    (destruct fuel as [|fuel]; [simpl in Hfuel; lia|]); cbn [render_fields] in Hd;
    destruct (multipart_step fuel h req data boundary pre parsed _ Hb Hpre Hd) as (tail & Ht & ->).
  - change (Range.startsWith (lit "--" ++ CRLF) (lit "--")) with true. by rewrite app_nil_r.
  - change (Range.startsWith (render_field nv ++ render_fields boundary fields) (lit "--")) with false.
    rewrite (IH fuel _ tail (render_field nv) [nv]); [|right; by exists nv|done|simpl in Hfuel; lia].
    cbn [args_ set_args vars_ cookies_ headers_ files_]. by rewrite <- !app_assoc.
Qed.

Lemma render_fields_length boundary fields :
  (length fields < length (render_fields boundary fields))%nat.
Proof.
  induction fields as [|nv fields IH]; cbn [render_fields]; rewrite !length_app; simpl; lia.
Qed.

(** C4: a form rendered as [multipart/form-data], kept in memory, is parsed back to its fields: every
    name and value, in order and with duplicates, is appended to the arguments, with values of
    arbitrary bytes as long as the boundary, which is not empty, does not occur in them. A name is
    not empty and has no semicolon, double quote, carriage return or line feed, which would end
    it. (For other buffers than those in memory [trim] must cut white space off both ends, which
    that of a body in a file does not.) *)
Theorem multipart_roundtrip h req data boundary fields :
  boundary <> [] -> Forall (field_ok boundary) fields ->
  den h data (render_fields boundary fields) ->
  parseMultipart h req data boundary = Ok (set_args req (args_ req ++ fields)).
Proof.
  intros Hb Hf Hd. unfold parseMultipart. rewrite (denotes_size _ _ _ Hd).
  apply (multipart_loop_fields _ h req data boundary [] []); try done; [by left|].
  unfold len. pose proof (render_fields_length boundary fields). lia.
Qed.
End MultipartRoundtrip.

Lemma multipart_roundtrip_witness :
  let fields := [(lit "user", lit "a=b; c"); (lit "note", [Byte.x0d; Byte.x0a; Byte.x00])] in
  let v := string_view (render_fields (lit "--XyZ") fields) in
  Parser.parseMultipart v.1 no_input v.2 (lit "--XyZ") = Ok (set_args no_input fields).
Proof.
  intros fields v. apply (multipart_roundtrip v.1 no_input v.2 (lit "--XyZ") fields).
  - discriminate.
  - repeat constructor; try discriminate.
  - by apply string_view_denotes.
Defined.

Lemma parseMultipart_safe_witness :
  let v := string_view (lit "--B; not multipart --B--") in
  safe (Parser.parseMultipart v.1 no_input v.2 (lit "--B")) (added (wf := string_wf)
    (contents := StringBuffer.data_) v.1 v.2 no_input).
Proof.
  intros v. apply (parseMultipart_safe v.1 no_input v.2 (lit "--B; not multipart --B--")).
  - by apply string_view_denotes.
  - discriminate.
Defined.
