(* ===== verification/Except.v ===== *)
(** * Except

    [library/except.cpp]: the exceptions with a status, and the text that [what()] gives for the
    exceptions of the model. *)

From S2P Require Import Prelude Cxx Parser.

Module Exceptions.

(** [HttpException(unsigned short)] and its classes. *)
Definition create (status : Z) : exn := HttpException (u16 status).
Definition InternalError : exn := create 500.
Definition NotImplemented : exn := create 501.
Definition NotFound : exn := create 404.
Definition Forbidden : exn := create 403.
Definition Unauthorized : exn := create 401.

(** [BadMethod] copies its reason, a C string, into an array of 256 bytes. *)
Record BadMethod := MkBadMethod { http : exn; reason_ : bytes }.
Definition bad_method (reason : bytes) : BadMethod := MkBadMethod (create 400) (take 255 (c_str reason)).

(** [what()]; the text of the system's errors is an argument, and [std::exception] has its own name.
    A string that is thrown is not an [std::exception]. *)
Definition what (system_text : Z -> bytes) (e : exn) : bytes :=
  match e with
  | OutOfRange what | RuntimeError what | LogicError what | InvalidArgument what | LengthError what => what
  | HttpException status => Parser.statusToString status
  | DispatchException _ _ _ _ _ => lit "std::exception"
  | SystemError code => system_text code
  | StringThrown _ => []
  end.
End Exceptions.

(** The reason of a [BadMethod] is the C string it is given when it fits. *)
Lemma bad_method_reason reason :
  len (Exceptions.reason_ (Exceptions.bad_method reason)) <= 255 /\
  (len (c_str reason) <= 255 -> Exceptions.reason_ (Exceptions.bad_method reason) = c_str reason).
Proof.
  cbn [Exceptions.bad_method Exceptions.reason_]. unfold len. rewrite length_take. split; [lia|].
  intros H. apply take_ge. lia.
Qed.
