(* ===== verification/Codec.v ===== *)
(** * Codec

    The serialized form of a request ([library/request.cpp]: [serialize*], [parse*],
    [restore]): a request that is to be tried again later is written to a buffer of
    the request cache and read back from it. Lengths are 64-bit integers in the byte
    order of the machine (little-endian here). *)

From S2P Require Import Prelude Cxx OrdMap Ranges StringUtils Buffer Parser.

Module Codec.

(** The [n] low bytes of an integer, and the integer of some bytes. *)
Fixpoint le_bytes (n : nat) (v : Z) : bytes :=
  match n with
  | O => []
  | S n' => z2b v :: le_bytes n' (v / 256)
  end.

Fixpoint le_value (l : bytes) : Z :=
  match l with
  | [] => 0
  | b :: l' => b2z b + 256 * le_value l'
  end.

Definition le64 (v : Z) : bytes := le_bytes 8 v.

(** Sizes of the fields; additions of [std::uint64_t]. *)
Definition pairs_size (m : list (bytes * bytes)) : Z :=
  foldl (fun acc kv => u64 (u64 (u64 (acc + len kv.1) + len kv.2) + 2 * 8)) 0 m.

Definition argsSerializedSize (p : Parsed) : Z := pairs_size (args_ p).

Definition filesSerializedSize (p : Parsed) : Z :=
  foldl (fun acc nf =>
    u64 (acc + 8 + len nf.1 + 8 + len (File.name_ nf.2) + 8 + len (File.type_ nf.2) + 2 * 8))
    0 (files_ p).

Section Ops.
Context {I : Type} `{DataBufferImpl I}.
Implicit Types h : gmap nat I.

(** *** Writing: the store and the position after the field *)

Definition serializeInt h (buffer : DataBuffer) (pos val : Z) : result (gmap nat I * Z) :=
  '(h, n) ← Buf.write h buffer pos (le64 val); Ok (h, u64 (pos + n)).

Definition serializeString h (buffer : DataBuffer) (pos : Z) (val : bytes)
    : result (gmap nat I * Z) :=
  '(h, pos) ← serializeInt h buffer pos (len val);
  '(h, n) ← Buf.write h buffer pos val; Ok (h, u64 (pos + n)).

Fixpoint write_chunks h (buffer : DataBuffer) (pos : Z) (chunks : list (Z * bytes))
    : result (gmap nat I * Z) :=
  match chunks with
  | [] => Ok (h, pos)
  | (_, c) :: chunks' =>
      '(h, n) ← Buf.write h buffer pos c; write_chunks h buffer (u64 (pos + n)) chunks'
  end.

Definition serializeBuffer h (buffer : DataBuffer) (pos : Z) (src : DataBuffer)
    : result (gmap nat I * Z) :=
  '(h, pos) ← serializeInt h buffer pos (Buf.size src);
  chunks ← Buf.chunks h src;
  write_chunks h buffer pos chunks.

Fixpoint serializePairs h (buffer : DataBuffer) (pos : Z) (m : list (bytes * bytes))
    : result (gmap nat I * Z) :=
  match m with
  | [] => Ok (h, pos)
  | (k, v) :: m' =>
      '(h, pos) ← serializeString h buffer pos k;
      '(h, pos) ← serializeString h buffer pos v;
      serializePairs h buffer pos m'
  end.

(** The buffer is resized for the environment and [add_size] more bytes. *)
Definition serializeEnv h (p : Parsed) (buffer : DataBuffer) (add_size : Z)
    : result (gmap nat I * DataBuffer * Z) :=
  let header_size := pairs_size (headers_ p) in
  let cookie_size := pairs_size (cookies_ p) in
  let var_size := pairs_size (vars_ p) in
  '(h, buffer) ← Buf.resize h buffer
    (u64 (add_size + header_size + cookie_size + var_size + 3 * 8));
  '(h, pos) ← serializeInt h buffer 0 header_size;
  '(h, pos) ← serializePairs h buffer pos (headers_ p);
  '(h, pos) ← serializeInt h buffer pos cookie_size;
  '(h, pos) ← serializePairs h buffer pos (cookies_ p);
  '(h, pos) ← serializeInt h buffer pos var_size;
  '(h, pos) ← serializePairs h buffer pos (vars_ p);
  Ok (h, buffer, pos).

Fixpoint serializeFileList h (buffer : DataBuffer) (pos : Z) (body : DataBuffer)
    (l : list (bytes * File.t)) : result (gmap nat I * Z) :=
  match l with
  | [] => Ok (h, pos)
  | (name, f) :: l' =>
      '(h, pos) ← serializeString h buffer pos name;
      '(h, pos) ← serializeString h buffer pos (File.name_ f);
      '(h, pos) ← serializeString h buffer pos (File.type_ f);
      let file := File.data_ f in
      '(h, pos) ← serializeInt h buffer pos (u64 (begin_ file - begin_ body));
      '(h, pos) ← serializeInt h buffer pos (u64 (end_ file - begin_ file));
      serializeFileList h buffer pos body l'
  end.

Definition serializeFiles h (p : Parsed) (body buffer : DataBuffer) (pos : Z)
    : result (gmap nat I * Z) :=
  '(h, pos) ← serializeInt h buffer pos (filesSerializedSize p);
  serializeFileList h buffer pos body (files_ p).

Definition serializeArgs h (p : Parsed) (buffer : DataBuffer) (pos : Z)
    : result (gmap nat I * Z) :=
  '(h, pos) ← serializeInt h buffer pos (argsSerializedSize p);
  serializePairs h buffer pos (args_ p).

Definition serialize h (p : Parsed) (body buffer : DataBuffer) : result (gmap nat I * DataBuffer) :=
  let add_size := u64 (8 + Buf.size body + 8 + filesSerializedSize p + 8 + argsSerializedSize p) in
  '(h, buffer, pos) ← serializeEnv h p buffer add_size;
  '(h, pos) ← serializeBuffer h buffer pos body;
  '(h, pos) ← serializeFiles h p body buffer pos;
  '(h, _) ← serializeArgs h p buffer pos;
  Ok (h, buffer).

(** *** Reading: the value and the position after it *)

(** The variable read into is zero, and a short read leaves its high bytes alone. *)
Definition parseInt h (buffer : DataBuffer) (pos : Z) : result (Z * Z) :=
  d ← Buf.read h buffer pos 8; Ok (le_value d, u64 (pos + len d)).

(** [resize] then a read over the string, whose unread tail stays zero. *)
Definition parseString h (buffer : DataBuffer) (pos : Z) : result (bytes * Z) :=
  '(n, pos) ← parseInt h buffer pos;
  if 2 ^ 63 - 1 <? n then Throw (LengthError (lit "basic_string::_M_replace_aux"))
  else
    d ← Buf.read h buffer pos n;
    Ok (d ++ repeat Byte.x00 (Z.to_nat (n - len d)), u64 (pos + len d)).

(** The size of a field and the position of its end, checked against the buffer. *)
Definition parseField h (buffer : DataBuffer) (pos : Z) (what : string) : result (Z * Z) :=
  '(field_size, pos) ← parseInt h buffer pos;
  let pos_end := u64 (pos + field_size) in
  if Buf.size buffer <? pos_end then Throw (RuntimeError (lit what))
  else Ok (pos, pos_end).

(** The loop over names and values, [add] being what it does with a pair. *)
Fixpoint parsePairs {A} (fuel : nat) h (buffer : DataBuffer) (pos pos_end : Z)
    (add : A -> bytes -> bytes -> A) (acc : A) : result (A * Z) :=
  if pos <? pos_end then
    match fuel with
    | O => Undef
    | S n =>
        '(name, pos) ← parseString h buffer pos;
        '(value, pos) ← parseString h buffer pos;
        parsePairs n h buffer pos pos_end add (add acc name value)
    end
  else Ok (acc, pos).

Definition fuel_of (buffer : DataBuffer) : nat := S (Z.to_nat (Buf.size buffer)).

Definition parseHeaders h (buffer : DataBuffer) (pos : Z) (p : Parsed) : result (Parsed * Z) :=
  '(pos, pos_end) ← parseField h buffer pos "Cannot parse request headers";
  parsePairs (fuel_of buffer) h buffer pos pos_end
    (fun p k v => set_headers p (om_insert StringCILess (headers_ p) k v).1) p.

Definition parseCookies h (buffer : DataBuffer) (pos : Z) (p : Parsed) : result (Parsed * Z) :=
  '(pos, pos_end) ← parseField h buffer pos "Cannot parse request cookies";
  parsePairs (fuel_of buffer) h buffer pos pos_end
    (fun p k v => set_cookies p (om_insert str_ltb (cookies_ p) k v).1) p.

Definition parseVars h (buffer : DataBuffer) (pos : Z) (p : Parsed) : result (Parsed * Z) :=
  '(pos, pos_end) ← parseField h buffer pos "Cannot parse request vars";
  parsePairs (fuel_of buffer) h buffer pos pos_end
    (fun p k v => set_vars p (om_insert str_ltb (vars_ p) k v).1) p.

Definition parseBody h (buffer : DataBuffer) (pos : Z) : result (DataBuffer * Z) :=
  '(pos, pos_end) ← parseField h buffer pos "Cannot parse request body";
  body ← Buf.view h buffer (u64 (pos + begin_ buffer)) (u64 (pos_end + begin_ buffer));
  Ok (body, pos_end).

Fixpoint parseFileList (fuel : nat) h (buffer body : DataBuffer) (pos pos_end : Z) (p : Parsed)
    : result (Parsed * Z) :=
  if pos <? pos_end then
    match fuel with
    | O => Undef
    | S n =>
        '(name, pos) ← parseString h buffer pos;
        '(remote_name, pos) ← parseString h buffer pos;
        '(type, pos) ← parseString h buffer pos;
        '(offset, pos) ← parseInt h buffer pos;
        '(length, pos) ← parseInt h buffer pos;
        file_buffer ← Buf.view h body (u64 (offset + begin_ body))
                                      (u64 (offset + length + begin_ body));
        f ← File.of_strings remote_name type file_buffer;
        parseFileList n h buffer body pos pos_end
          (set_files p (om_insert str_ltb (files_ p) name f).1)
    end
  else Ok (p, pos).

Definition parseFiles h (buffer body : DataBuffer) (pos : Z) (p : Parsed) : result (Parsed * Z) :=
  '(pos, pos_end) ← parseField h buffer pos "Cannot parse request files";
  parseFileList (fuel_of buffer) h buffer body pos pos_end p.

(** A value with a line end or a NUL comes back percent-encoded. *)
Definition restored_value (value : bytes) : bytes :=
  if mem Byte.x0d value || mem Byte.x0a value || mem Byte.x00 value
  then StringUtils.urlencode value else value.

Definition parseArgs h (buffer : DataBuffer) (pos : Z) (p : Parsed) : result (Parsed * Z) :=
  '(pos, pos_end) ← parseField h buffer pos "Cannot parse request args";
  parsePairs (fuel_of buffer) h buffer pos pos_end
    (fun p k v => set_args p (args_ p ++ [(k, restored_value v)])) p.

(** [parse], and [restore], which clears the fields first. *)
Definition parse h (buffer : DataBuffer) (p : Parsed) : result (Parsed * DataBuffer) :=
  '(p, pos) ← parseHeaders h buffer 0 p;
  '(p, pos) ← parseCookies h buffer pos p;
  '(p, pos) ← parseVars h buffer pos p;
  '(body, pos) ← parseBody h buffer pos;
  '(p, pos) ← parseFiles h buffer body pos p;
  '(p, _) ← parseArgs h buffer pos p;
  Ok (p, body).
End Ops.
End Codec.

(** ** The format *)

Section Format.
Import Codec.

Definition enc_str (s : bytes) : bytes := le64 (len s) ++ s.
Definition enc_pair (kv : bytes * bytes) : bytes := enc_str kv.1 ++ enc_str kv.2.
Definition enc_pairs (m : list (bytes * bytes)) : bytes := flat_map enc_pair m.

Definition enc_file (body : DataBuffer) (nf : bytes * File.t) : bytes :=
  enc_str nf.1 ++ enc_str (File.name_ nf.2) ++ enc_str (File.type_ nf.2) ++
  le64 (begin_ (File.data_ nf.2) - begin_ body) ++
  le64 (end_ (File.data_ nf.2) - begin_ (File.data_ nf.2)).

Definition enc_files (body : DataBuffer) (l : list (bytes * File.t)) : bytes :=
  flat_map (enc_file body) l.

(** A field: its size, then its bytes. *)
Definition enc_field (s : bytes) : bytes := enc_str s.

(** A whole request; [sb] are the bytes of its body. *)
Definition enc_request (p : Parsed) (body : DataBuffer) (sb : bytes) : bytes :=
  enc_field (enc_pairs (headers_ p)) ++ enc_field (enc_pairs (cookies_ p)) ++
  enc_field (enc_pairs (vars_ p)) ++ enc_field sb ++
  enc_field (enc_files body (files_ p)) ++ enc_field (enc_pairs (args_ p)).

Lemma le_bytes_length n v : length (le_bytes n v) = n.
Proof. revert v. induction n as [|n IH]; intros v; simpl; [done|]. by rewrite IH. Qed.

Lemma len_le64 v : len (le64 v) = 8.
Proof. unfold len, le64. by rewrite le_bytes_length. Qed.

Lemma le_value_bytes n v : 0 <= v < 256 ^ Z.of_nat n -> le_value (le_bytes n v) = v.
Proof.
  revert v. induction n as [|n IH]; intros v Hv.
  - change (256 ^ Z.of_nat 0) with 1 in Hv. simpl. lia.
  - cbn [le_bytes le_value]. rewrite b2z_z2b.
    replace (Z.of_nat (S n)) with (1 + Z.of_nat n) in Hv by lia.
    rewrite Z.pow_add_r in Hv by lia. change (256 ^ 1) with 256 in Hv.
    rewrite IH; [pose proof (Z.div_mod v 256); lia|].
    split; [apply Z.div_pos; lia|]. apply Z.div_lt_upper_bound; lia.
Qed.

Lemma le_value_64 v : 0 <= v < 2 ^ 64 -> le_value (le64 v) = v.
Proof. intros. by apply le_value_bytes. Qed.

Lemma len_enc_str s : len (enc_str s) = 8 + len s.
Proof. unfold enc_str. by rewrite len_app, len_le64. Qed.

Lemma len_enc_pair kv : len (enc_pair kv) = len kv.1 + len kv.2 + 16.
Proof. unfold enc_pair. rewrite len_app, !len_enc_str. lia. Qed.

Lemma len_enc_pairs_cons kv m : len (enc_pairs (kv :: m)) = len (enc_pair kv) + len (enc_pairs m).
Proof. apply len_app. Qed.

(** The sizes the code computes are the sizes of what it writes. *)
Lemma pairs_size_ok m : len (enc_pairs m) < 2 ^ 64 -> pairs_size m = len (enc_pairs m).
Proof.
  unfold pairs_size.
  enough (Hg : forall acc, 0 <= acc -> acc + len (enc_pairs m) < 2 ^ 64 ->
    foldl (fun acc kv => u64 (u64 (u64 (acc + len kv.1) + len kv.2) + 2 * 8)) acc m =
    acc + len (enc_pairs m)) by (intros; rewrite Hg; lia).
  induction m as [|kv m IH]; intros acc Ha Hl.
  - cbn. unfold len. simpl. lia.
  - rewrite len_enc_pairs_cons, len_enc_pair in *. cbn [foldl].
    pose proof (len_nonneg kv.1). pose proof (len_nonneg kv.2). pose proof (len_nonneg (enc_pairs m)).
    rewrite (u64_small (acc + len kv.1)) by lia. rewrite (u64_small (acc + len kv.1 + len kv.2)) by lia.
    rewrite u64_small by lia. rewrite IH by lia. lia.
Qed.

Lemma len_enc_file body nf :
  len (enc_file body nf) = 8 + len nf.1 + 8 + len (File.name_ nf.2) + 8 + len (File.type_ nf.2) + 16.
Proof. unfold enc_file. rewrite !len_app, !len_enc_str, !len_le64. lia. Qed.

Lemma len_enc_files_cons body nf l :
  len (enc_files body (nf :: l)) = len (enc_file body nf) + len (enc_files body l).
Proof. apply len_app. Qed.

Lemma files_size_ok p body :
  len (enc_files body (files_ p)) < 2 ^ 64 ->
  filesSerializedSize p = len (enc_files body (files_ p)).
Proof.
  unfold filesSerializedSize. generalize (files_ p). intros l.
  enough (Hg : forall acc, 0 <= acc -> acc + len (enc_files body l) < 2 ^ 64 ->
    foldl (fun acc nf => u64 (acc + 8 + len nf.1 + 8 + len (File.name_ nf.2) + 8 +
      len (File.type_ nf.2) + 2 * 8)) acc l =
    acc + len (enc_files body l)) by (intros; rewrite Hg; lia).
  induction l as [|nf l IH]; intros acc Ha Hl.
  - cbn. unfold len. simpl. lia.
  - rewrite len_enc_files_cons, len_enc_file in *. cbn [foldl].
    pose proof (len_nonneg nf.1). pose proof (len_nonneg (File.name_ nf.2)).
    pose proof (len_nonneg (File.type_ nf.2)). pose proof (len_nonneg (enc_files body l)).
    rewrite u64_small by lia. rewrite IH by lia. lia.
Qed.

End Format.

(** [advance Hd] counts the next field of the buffer [Hd] is about as read. *)
Ltac advance Hd :=
  match type of Hd with
  | denotes _ _ (?a ++ ?x ++ ?b) => rewrite (app_assoc a x b) in Hd
  end.

(** ** Reading what the format says *)

Section Reading.
Context {I : Type} `{DataBufferImplOk I wf contents}.
Implicit Types h : gmap nat I.
Import Codec.

#[local] Abbreviation den := (denotes (wf := wf) (contents := contents)).

Lemma denotes_small h d s : den h d s -> len s < 2 ^ 63.
Proof.
  intros Hd. pose proof (denotes_len _ _ _ Hd). pose proof (denotes_bounds _ _ _ Hd). lia.
Qed.

Lemma read_mid h buf a x b :
  den h buf (a ++ x ++ b) -> Buf.read h buf (len a) (len x) = Ok x.
Proof.
  intros Hd. pose proof (len_nonneg a). pose proof (len_nonneg x). pose proof (len_nonneg b).
  rewrite (read_denotes _ _ _ _ _ Hd) by lia.
  rewrite !len_app, Z.min_r by lia. by rewrite slice_mid.
Qed.

Lemma parseInt_at h buf a v b :
  den h buf (a ++ le64 v ++ b) -> 0 <= v < 2 ^ 64 ->
  parseInt h buf (len a) = Ok (v, len (a ++ le64 v)).
Proof.
  intros Hd Hv. unfold parseInt. pose proof (read_mid _ _ _ _ _ Hd) as E.
  rewrite len_le64 in E. rewrite E. cbn [mbind result_bind].
  pose proof (denotes_small _ _ _ Hd) as Hs. rewrite !len_app, len_le64 in *.
  pose proof (len_nonneg a). pose proof (len_nonneg b).
  rewrite le_value_64 by done. rewrite u64_small by lia. done.
Qed.

Lemma parseString_at h buf a s b :
  den h buf (a ++ enc_str s ++ b) ->
  parseString h buf (len a) = Ok (s, len (a ++ enc_str s)).
Proof.
  intros Hd. pose proof (denotes_small _ _ _ Hd) as Hs. rewrite !len_app, len_enc_str in Hs.
  pose proof (len_nonneg a). pose proof (len_nonneg b). pose proof (len_nonneg s).
  unfold parseString. unfold enc_str in Hd. rewrite <- !app_assoc in Hd.
  rewrite (parseInt_at _ _ _ _ _ Hd) by lia. cbn [mbind result_bind].
  rewrite (proj2 (Z.ltb_ge _ _)) by lia. rewrite app_assoc in Hd.
  rewrite (read_mid _ _ _ _ _ Hd). cbn [mbind result_bind].
  rewrite Z.sub_diag. cbn [Z.to_nat repeat]. rewrite app_nil_r.
  unfold enc_str. rewrite !len_app, len_le64, u64_small by lia. do 2 f_equal. lia.
Qed.

Lemma parseField_at h buf a s b what :
  den h buf (a ++ enc_field s ++ b) ->
  parseField h buf (len a) what = Ok (len (a ++ le64 (len s)), len (a ++ enc_field s)).
Proof.
  intros Hd. pose proof (denotes_small _ _ _ Hd) as Hs. pose proof (denotes_size _ _ _ Hd) as Hsz.
  unfold enc_field, enc_str in *. rewrite !len_app, len_le64 in Hs, Hsz.
  pose proof (len_nonneg a). pose proof (len_nonneg b). pose proof (len_nonneg s).
  unfold parseField. rewrite <- !app_assoc in Hd.
  rewrite (parseInt_at _ _ _ _ _ Hd) by lia. cbn [mbind result_bind].
  rewrite !len_app, len_le64, u64_small by lia. rewrite Hsz.
  rewrite (proj2 (Z.ltb_ge _ _)) by lia. do 2 f_equal. lia.
Qed.

Lemma enc_pairs_cons kv m : enc_pairs (kv :: m) = enc_str kv.1 ++ enc_str kv.2 ++ enc_pairs m.
Proof. change (enc_pairs (kv :: m)) with (enc_pair kv ++ enc_pairs m). unfold enc_pair. by rewrite <- app_assoc. Qed.

Lemma parsePairs_at {A} fuel h buf a m b (add : A -> bytes -> bytes -> A) acc :
  den h buf (a ++ enc_pairs m ++ b) -> (length m < fuel)%nat ->
  parsePairs fuel h buf (len a) (len (a ++ enc_pairs m)) add acc =
  Ok (foldl (fun acc kv => add acc kv.1 kv.2) acc m, len (a ++ enc_pairs m)).
Proof.
  revert fuel a acc. induction m as [|kv m IH]; intros fuel a acc Hd Hf;
    (destruct fuel as [|fuel]; [simpl in Hf; lia|]); cbn [parsePairs].
  - rewrite app_nil_r, (proj2 (Z.ltb_ge _ _)) by lia. done.
  - pose proof (len_enc_pairs_cons kv m) as HL. rewrite len_enc_pair in HL.
    pose proof (len_nonneg kv.1). pose proof (len_nonneg kv.2). pose proof (len_nonneg (enc_pairs m)).
    rewrite (proj2 (Z.ltb_lt _ _)) by (rewrite len_app; lia).
    rewrite enc_pairs_cons in *. rewrite <- !app_assoc in Hd.
    rewrite (parseString_at _ _ _ _ _ Hd). cbn [mbind result_bind].
    rewrite app_assoc in Hd. rewrite (parseString_at _ _ _ _ _ Hd). cbn [mbind result_bind].
    rewrite app_assoc in Hd. simpl in Hf.
    rewrite !app_assoc. exact (IH fuel _ _ Hd ltac:(lia)).
Qed.

(** Encoded pairs are at least one byte each, so the fuel is enough. *)
Lemma enc_pairs_count m : Z.of_nat (length m) <= len (enc_pairs m).
Proof.
  induction m as [|kv m IH]; [done|]. rewrite len_enc_pairs_cons, len_enc_pair. simpl length.
  pose proof (len_nonneg kv.1). pose proof (len_nonneg kv.2). lia.
Qed.

(** A whole field of pairs. *)
Lemma parsePairs_field {A} h buf a m b what (add : A -> bytes -> bytes -> A) acc :
  den h buf (a ++ enc_field (enc_pairs m) ++ b) ->
  ('(pos, pos_end) ← parseField h buf (len a) what;
   parsePairs (fuel_of buf) h buf pos pos_end add acc) =
  Ok (foldl (fun acc kv => add acc kv.1 kv.2) acc m, len (a ++ enc_field (enc_pairs m))).
Proof.
  intros Hd. rewrite (parseField_at _ _ _ _ _ _ Hd). cbn [mbind result_bind].
  unfold enc_field, enc_str in *. rewrite <- !app_assoc in Hd.
  pose proof (denotes_size _ _ _ Hd) as Hsz. rewrite !len_app in Hsz.
  rewrite !app_assoc in *. rewrite <- (app_assoc (a ++ _)) in Hd.
  eapply parsePairs_at; [exact Hd|]. unfold fuel_of.
  pose proof (enc_pairs_count m). pose proof (len_nonneg a). pose proof (len_nonneg b).
  pose proof (len_nonneg (le64 (len (enc_pairs m)))). lia.
Qed.
End Reading.

(** ** Restoring a serialized request *)

Section Restore.
Context {I : Type} `{DataBufferImplOk I wf contents}.
Implicit Types h : gmap nat I.
Import Codec.

#[local] Abbreviation den := (denotes (wf := wf) (contents := contents)).

(** An uploaded file and its restored copy: the same names and type, and the restored
    view at the same place of the restored body. *)
Definition file_restored (body body' : DataBuffer) (nf nf' : bytes * File.t) : Prop :=
  nf'.1 = nf.1 /\ File.name_ nf'.2 = File.name_ nf.2 /\ File.type_ nf'.2 = File.type_ nf.2 /\
  File.data_ nf'.2 = MkDataBuffer (data_ body')
    (begin_ body' + (begin_ (File.data_ nf.2) - begin_ body))
    (begin_ body' + (end_ (File.data_ nf.2) - begin_ body)).

(** What the parser promises of a file ([parseMultipart_safe]): its contents are a view
    inside the body; and it has a name. *)
Definition file_ok (body : DataBuffer) (nf : bytes * File.t) : Prop :=
  within body (File.data_ nf.2) /\ begin_ (File.data_ nf.2) <= end_ (File.data_ nf.2) /\
  File.name_ nf.2 <> [].

Definition restored_file (body body' : DataBuffer) (nf : bytes * File.t) : bytes * File.t :=
  (nf.1, File.MkFile (File.name_ nf.2) (File.type_ nf.2)
    (MkDataBuffer (data_ body')
      (begin_ body' + (begin_ (File.data_ nf.2) - begin_ body))
      (begin_ body' + (end_ (File.data_ nf.2) - begin_ body)))).

Lemma view_ok h d s b e :
  den h d s -> 0 <= b -> e <= end_ d ->
  Buf.view h d b e = Ok (MkDataBuffer (data_ d) b e).
Proof.
  intros Hd Hb He. unfold Buf.view.
  destruct (denotes_deref _ _ _ Hd) as (i & -> & Hw & ? & ? & ? & ? & _). cbn [mbind result_bind].
  rewrite (ok_size i) by done. by rewrite (proj2 (Z.ltb_ge _ _)) by lia.
Qed.

Lemma enc_files_count body l : Z.of_nat (length l) <= len (enc_files body l).
Proof.
  induction l as [|nf l IH]; [done|]. rewrite len_enc_files_cons, len_enc_file. simpl length.
  pose proof (len_nonneg nf.1). pose proof (len_nonneg (File.name_ nf.2)).
  pose proof (len_nonneg (File.type_ nf.2)). lia.
Qed.

Lemma parseFileList_at fuel h buf body body' sb a l b p :
  den h buf (a ++ enc_files body l ++ b) -> den h body' sb ->
  0 <= begin_ body -> end_ body - begin_ body = len sb ->
  Forall (file_ok body) l -> (length l < fuel)%nat ->
  parseFileList fuel h buf body' (len a) (len (a ++ enc_files body l)) p =
  Ok (set_files p (om_insert_all str_ltb (files_ p) (map (restored_file body body') l)),
      len (a ++ enc_files body l)).
Proof.
  intros Hd Hb' Hb0 Hbl Hok. revert fuel a p Hd.
  pose proof (denotes_bounds _ _ _ Hb'). pose proof (denotes_len _ _ _ Hb').
  pose proof (denotes_small _ _ _ Hb').
  induction Hok as [|nf l (Hw & Hbe & Hn) Hok IH]; intros fuel a p Hd Hf;
    (destruct fuel as [|fuel]; [simpl in Hf; lia|]); cbn [parseFileList].
  - rewrite app_nil_r, (proj2 (Z.ltb_ge _ _)) by lia. by destruct p.
  - pose proof (len_enc_files_cons body nf l) as HL. rewrite len_enc_file in HL.
    pose proof (len_nonneg nf.1). pose proof (len_nonneg (File.name_ nf.2)).
    pose proof (len_nonneg (File.type_ nf.2)). pose proof (len_nonneg (enc_files body l)).
    rewrite (proj2 (Z.ltb_lt _ _)) by (rewrite len_app; lia).
    assert (Hc : enc_files body (nf :: l) = enc_file body nf ++ enc_files body l) by done.
    rewrite Hc in *. clear Hc HL. unfold enc_file in *. rewrite <- !app_assoc in Hd |- *.
    rewrite <- (app_assoc (le64 _)) in Hd. destruct nf as [name f]. cbn [fst snd] in *. destruct Hw as (_ & Hw1 & Hw2).
    rewrite (parseString_at _ _ _ _ _ Hd). cbn [mbind result_bind]. advance Hd.
    rewrite (parseString_at _ _ _ _ _ Hd). cbn [mbind result_bind]. advance Hd.
    rewrite (parseString_at _ _ _ _ _ Hd). cbn [mbind result_bind]. advance Hd.
    rewrite (parseInt_at _ _ _ _ _ Hd) by lia. cbn [mbind result_bind]. advance Hd.
    rewrite (parseInt_at _ _ _ _ _ Hd) by lia. cbn [mbind result_bind]. advance Hd.
    rewrite !u64_small by lia. rewrite (view_ok _ _ _ _ _ Hb') by lia. cbn [mbind result_bind].
    unfold File.of_strings. assert (Range.empty (File.name_ f) = false) as -> by (by destruct (File.name_ f)).
    cbn [mbind result_bind]. rewrite !app_assoc. simpl in Hf.
    etransitivity; [exact (IH fuel _ _ Hd ltac:(lia))|]. do 2 f_equal.
    unfold om_insert_all. cbn [map foldl set_files files_ args_ vars_ cookies_ headers_ fst snd].
    unfold restored_file at 3. cbn [fst snd].
    replace (begin_ body' + (begin_ (File.data_ f) - begin_ body))
      with (begin_ (File.data_ f) - begin_ body + begin_ body') by lia.
    replace (begin_ body' + (end_ (File.data_ f) - begin_ body))
      with (begin_ (File.data_ f) - begin_ body + (end_ (File.data_ f) - begin_ (File.data_ f)) + begin_ body')
      by lia.
    done.
Qed.

(** The folds of the loops, as operations on the field they fill. *)
Lemma fold_headers m p :
  foldl (fun p kv => set_headers p (om_insert StringCILess (headers_ p) kv.1 kv.2).1) p m =
  set_headers p (om_insert_all StringCILess (headers_ p) m).
Proof.
  unfold om_insert_all. revert p. induction m as [|kv m IH]; intros p; [by destruct p|].
  cbn [foldl]. by rewrite IH.
Qed.

Lemma fold_cookies m p :
  foldl (fun p kv => set_cookies p (om_insert str_ltb (cookies_ p) kv.1 kv.2).1) p m =
  set_cookies p (om_insert_all str_ltb (cookies_ p) m).
Proof.
  unfold om_insert_all. revert p. induction m as [|kv m IH]; intros p; [by destruct p|].
  cbn [foldl]. by rewrite IH.
Qed.

Lemma fold_vars m p :
  foldl (fun p kv => set_vars p (om_insert str_ltb (vars_ p) kv.1 kv.2).1) p m =
  set_vars p (om_insert_all str_ltb (vars_ p) m).
Proof.
  unfold om_insert_all. revert p. induction m as [|kv m IH]; intros p; [by destruct p|].
  cbn [foldl]. by rewrite IH.
Qed.

Lemma fold_args m p :
  foldl (fun p kv => set_args p (args_ p ++ [(kv.1, restored_value kv.2)])) p m =
  set_args p (args_ p ++ map (fun kv => (kv.1, restored_value kv.2)) m).
Proof.
  revert p. induction m as [|kv m IH]; intros p; cbn [foldl map].
  - rewrite app_nil_r. by destruct p.
  - rewrite IH. cbn [set_args args_ vars_ cookies_ headers_ files_]. by rewrite <- app_assoc.
Qed.

Lemma map_keys_sorted (g : bytes * File.t -> bytes * File.t) l :
  (forall nf, (g nf).1 = nf.1) -> sorted str_ltb l -> sorted str_ltb (map g l).
Proof.
  intros Hg. induction l as [|nf l IH]; [done|]. intros [Hs Hf]%sorted_inv. simpl.
  constructor; [by apply IH|]. apply Forall_fmap. eapply Forall_impl; [exact Hf|].
  intros x. simpl. by rewrite !Hg.
Qed.

(** The request as it comes back: arguments as [restored_value] leaves them, files as
    views of the restored body. *)
Definition restored (p : Parsed) (body body' : DataBuffer) : Parsed :=
  MkParsed (map (fun kv => (kv.1, restored_value kv.2)) (args_ p)) (vars_ p) (cookies_ p)
    (headers_ p) (map (restored_file body body') (files_ p)).

(** Each part of the text is read back where it stands. *)
Lemma headers_back h buf hs rest :
  sorted StringCILess hs -> den h buf (enc_field (enc_pairs hs) ++ rest) ->
  parseHeaders h buf 0 no_input = Ok (set_headers no_input hs, len (enc_field (enc_pairs hs))).
Proof.
  intros Hs Hd. unfold parseHeaders. rewrite <- (len_nil (A := byte)).
  rewrite (parsePairs_field (wf := wf) (contents := contents) h buf [] hs _ _ _ _ Hd). cbn [app].
  rewrite fold_headers. cbn [headers_ no_input]. by rewrite (om_insert_all_id StringCILess).
Qed.

Lemma cookies_back h buf a cs rest p :
  sorted str_ltb cs -> cookies_ p = [] -> den h buf (a ++ enc_field (enc_pairs cs) ++ rest) ->
  parseCookies h buf (len a) p = Ok (set_cookies p cs, len (a ++ enc_field (enc_pairs cs))).
Proof.
  intros Hs Hp Hd. unfold parseCookies.
  rewrite (parsePairs_field (wf := wf) (contents := contents) h buf a cs _ _ _ _ Hd), fold_cookies, Hp.
  by rewrite (om_insert_all_id str_ltb).
Qed.

Lemma vars_back h buf a vs rest p :
  sorted str_ltb vs -> vars_ p = [] -> den h buf (a ++ enc_field (enc_pairs vs) ++ rest) ->
  parseVars h buf (len a) p = Ok (set_vars p vs, len (a ++ enc_field (enc_pairs vs))).
Proof.
  intros Hs Hp Hd. unfold parseVars.
  rewrite (parsePairs_field (wf := wf) (contents := contents) h buf a vs _ _ _ _ Hd), fold_vars, Hp.
  by rewrite (om_insert_all_id str_ltb).
Qed.

Lemma body_back h buf a sb rest :
  den h buf (a ++ enc_field sb ++ rest) ->
  exists body', parseBody h buf (len a) = Ok (body', len (a ++ enc_field sb)) /\ den h body' sb /\ data_ body' = data_ buf.
Proof.
  intros Hd. pose proof (denotes_bounds _ _ _ Hd) as Bd. pose proof (denotes_len _ _ _ Hd) as Ld.
  assert (Hlen : len (a ++ enc_field sb ++ rest) = len a + 8 + len sb + len rest).
  { rewrite !len_app. unfold enc_field, enc_str. rewrite len_app, len_le64. lia. }
  pose proof (len_nonneg a). pose proof (len_nonneg sb). pose proof (len_nonneg rest).
  exists (MkDataBuffer (data_ buf) (begin_ buf + (len a + 8)) (begin_ buf + (len a + 8 + len sb))).
  split; [|split; [|done]].
  - unfold parseBody. rewrite (parseField_at _ _ _ _ _ _ Hd). cbn [mbind result_bind].
    unfold enc_field, enc_str. rewrite !len_app, len_le64, !u64_small by lia.
    rewrite (view_ok _ _ _ _ _ Hd) by lia. cbn [mbind result_bind]. do 3 f_equal; lia.
  - pose proof (denotes_sub _ _ _ (len a + 8) (len a + 8 + len sb) Hd) as Hsub.
    assert (Hsl : slice (a ++ enc_field sb ++ rest) (len a + 8) (len a + 8 + len sb) = sb).
    { unfold enc_field, enc_str. rewrite <- !app_assoc, app_assoc.
      pose proof (slice_mid (a ++ le64 (len sb)) sb rest) as Hm. rewrite len_app, len_le64 in Hm. exact Hm. }
    rewrite Hsl in Hsub. apply Hsub; lia.
Qed.

Lemma files_back h buf a body body' sb fs rest p :
  sorted str_ltb fs -> Forall (file_ok body) fs -> files_ p = [] ->
  0 <= begin_ body -> end_ body - begin_ body = len sb -> den h body' sb ->
  den h buf (a ++ enc_field (enc_files body fs) ++ rest) ->
  parseFiles h buf body' (len a) p =
    Ok (set_files p (map (restored_file body body') fs), len (a ++ enc_field (enc_files body fs))).
Proof.
  intros Hs Hok Hp Hb0 Hbl Hb' Hd. unfold parseFiles. rewrite (parseField_at _ _ _ _ _ _ Hd). cbn [mbind result_bind].
  unfold enc_field, enc_str in Hd |- *. rewrite <- !app_assoc in Hd.
  pose proof (denotes_size _ _ _ Hd) as Hsz. rewrite !len_app in Hsz. rewrite app_assoc in Hd. rewrite app_assoc.
  rewrite (parseFileList_at _ _ _ body body' sb _ _ rest _ Hd); try done.
  - rewrite Hp. do 3 f_equal. apply om_insert_all_id, map_keys_sorted; done.
  - unfold fuel_of. pose proof (enc_files_count body fs). pose proof (len_nonneg a).
    pose proof (len_nonneg (le64 (len (enc_files body fs)))). pose proof (len_nonneg rest). lia.
Qed.

Lemma parse_encoded h buf p body sb :
  wf_parsed p -> Forall (file_ok body) (files_ p) ->
  0 <= begin_ body -> end_ body - begin_ body = len sb ->
  den h buf (enc_request p body sb) ->
  exists body', parse h buf no_input = Ok (restored p body body', body') /\ den h body' sb /\
    data_ body' = data_ buf.
Proof.
  intros (Hv & Hc & Hh & Hfs) Hok Hb0 Hbl Hd. unfold enc_request in Hd. unfold parse.
  rewrite (headers_back _ _ _ _ Hh Hd). cbn [mbind result_bind].
  erewrite cookies_back; [|exact Hc|done|exact Hd]. cbn [mbind result_bind]. rewrite app_assoc in Hd.
  erewrite vars_back; [|exact Hv|done|exact Hd]. cbn [mbind result_bind]. rewrite app_assoc in Hd.
  destruct (body_back _ _ _ _ _ Hd) as (body' & -> & Hb' & Hdata). cbn [mbind result_bind]. rewrite app_assoc in Hd.
  erewrite files_back; [|exact Hfs|exact Hok|done|exact Hb0|exact Hbl|exact Hb'|exact Hd]. cbn [mbind result_bind]. rewrite app_assoc in Hd.
  unfold parseArgs. rewrite <- (app_nil_r (enc_field (enc_pairs (args_ p)))) in Hd.
  rewrite (parsePairs_field (wf := wf) (contents := contents) h buf _ (args_ p) _ _ _ _ Hd).
  cbn [mbind result_bind]. rewrite fold_args. by exists body'.
Qed.
End Restore.

(** ** Writing the format *)

Section Writing.
Context {I : Type} `{DataBufferImplOk I wf contents}.
Implicit Types h : gmap nat I.
Import Codec.

#[local] Abbreviation den := (denotes (wf := wf) (contents := contents)).

(** [w] has been written to [buf] and [n] bytes are left. *)
Definition written h (buf : DataBuffer) (w : bytes) (n : Z) : Prop :=
  exists rest, len rest = n /\ den h buf (w ++ rest).

(** The other objects are as they were. *)
Definition frame h h' (buf : DataBuffer) : Prop :=
  forall d t, den h d t -> data_ d <> data_ buf -> den h' d t.

Lemma frame_refl h buf : frame h h buf.
Proof. by intros d t. Qed.

Lemma frame_trans h h' h'' buf : frame h h' buf -> frame h' h'' buf -> frame h h'' buf.
Proof. intros F1 F2 d t Hd Hne. by apply F2; [apply F1|]. Qed.

(** [emit L] runs the next write of the goal with the lemma [L]. *)
Ltac emit L :=
  match goal with
  | Hw : written ?h ?buf ?w ?n, F : frame ?h0 ?h ?b |- _ =>
      let h' := fresh "h" in let E := fresh "E" in let Hw' := fresh "Hw" in
      let F' := fresh "F" in
      destruct (L h w n Hw) as (h' & E & Hw' & F');
        [rewrite ?len_le64; lia|];
        rewrite E; cbn [mbind result_bind]; clear E;
        assert (frame h0 h' b) by (eapply frame_trans; [exact F|exact F']);
        clear Hw F F'; rename Hw' into Hw;
        rewrite ?len_le64 in Hw
  end.

(** The operation writes [d] at its position and advances past it. *)
Definition emits (buf : DataBuffer) (op : gmap nat I -> Z -> result (gmap nat I * Z))
    (d : bytes) : Prop :=
  forall h w n, written h buf w n -> len d <= n ->
    exists h', op h (len w) = Ok (h', len (w ++ d)) /\ written h' buf (w ++ d) (n - len d) /\
      frame h h' buf.

Lemma emits_write buf d :
  emits buf (fun h pos => '(h, n) ← Buf.write h buf pos d; Ok (h, u64 (pos + n))) d.
Proof.
  intros h w n (rest & Hr & Hd) Hn. pose proof (len_nonneg w). pose proof (len_nonneg d).
  destruct (write_view h buf _ (len w) d Hd) as (h' & E & Hd' & Hfr); [lia|].
  rewrite len_app in E, Hd', Hfr.
  replace (Z.min (Z.max 0 (len w + len rest - len w)) (len d)) with (len d) in E, Hd', Hfr by lia.
  rewrite E. cbn [mbind result_bind]. exists h'.
  pose proof (denotes_small _ _ _ Hd) as Hsm. rewrite len_app in Hsm.
  rewrite len_app, u64_small by lia. split; [done|]. split.
  - exists (drop (length d) rest). split; [unfold len in *; rewrite length_drop; lia|].
    assert (Et : take (Z.to_nat (len d)) d = d) by (apply take_ge; unfold len; lia).
    rewrite Et, overwrite_app_mid in Hd' by lia. by rewrite <- app_assoc.
  - intros d' t Ht Hne. apply Hfr; [done|]. by left.
Qed.

Lemma emits_seq buf op1 op2 d1 d2 :
  emits buf op1 d1 -> emits buf op2 d2 ->
  emits buf (fun h pos => '(h, pos) ← op1 h pos; op2 h pos) (d1 ++ d2).
Proof.
  intros E1 E2 h w n Hw Hn. rewrite len_app in Hn. pose proof (len_nonneg d2).
  destruct (E1 h w n Hw) as (h1 & -> & Hw1 & F1); [lia|]. cbn [mbind result_bind].
  destruct (E2 h1 _ _ Hw1) as (h2 & -> & Hw2 & F2); [lia|].
  exists h2. rewrite <- !app_assoc in *. rewrite (len_app d1 d2). split; [done|].
  replace (n - (len d1 + len d2)) with (n - len d1 - len d2) by lia.
  split; [done|]. by eapply frame_trans.
Qed.

Lemma emits_nil buf : emits buf (fun h pos => Ok (h, pos)) [].
Proof.
  intros h w n Hw _. exists h. rewrite app_nil_r, Z.sub_0_r.
  split; [done|]. split; [done|apply frame_refl].
Qed.

Lemma emits_int buf v : emits buf (fun h pos => serializeInt h buf pos v) (le64 v).
Proof. apply emits_write. Qed.

Lemma emits_str buf s : emits buf (fun h pos => serializeString h buf pos s) (enc_str s).
Proof. apply emits_seq; [apply emits_int|apply emits_write]. Qed.

Lemma emits_pairs buf m : emits buf (fun h pos => serializePairs h buf pos m) (enc_pairs m).
Proof.
  induction m as [|[k v] m IH]; [apply emits_nil|].
  change (enc_pairs ((k, v) :: m)) with ((enc_str k ++ enc_str v) ++ enc_pairs m).
  rewrite <- app_assoc. cbn [serializePairs].
  apply emits_seq; [apply emits_str|]. apply emits_seq; [apply emits_str|exact IH].
Qed.

Lemma emits_chunks buf l :
  emits buf (fun h pos => write_chunks h buf pos l) (flat_map snd l).
Proof.
  induction l as [|[p c] l IH]; [apply emits_nil|]. cbn [flat_map snd].
  intros h w n Hw Hn. rewrite len_app in Hn. pose proof (len_nonneg (flat_map snd l)).
  destruct (emits_write buf c h w n Hw) as (h1 & E1 & Hw1 & F1); [lia|].
  cbn [write_chunks]. destruct (Buf.write h buf (len w) c) as [[h1' k]| |]; try done.
  cbn [mbind result_bind] in E1 |- *. injection E1 as -> ->.
  destruct (IH h1 _ _ Hw1) as (h2 & -> & Hw2 & F2); [lia|].
  exists h2. rewrite <- !app_assoc in *. rewrite (len_app c). split; [done|].
  replace (n - (len c + _)) with (n - len c - len (flat_map snd l)) by lia.
  split; [done|]. by eapply frame_trans.
Qed.

Lemma emits_file_list buf body l :
  0 <= begin_ body -> end_ body < 2 ^ 63 -> Forall (file_ok body) l ->
  emits buf (fun h pos => serializeFileList h buf pos body l) (enc_files body l).
Proof.
  intros Hb0 Hb1 Hl. induction Hl as [|[name f] l (Hw & Hbe & Hn) Hl IH]; [apply emits_nil|].
  change (enc_files body ((name, f) :: l)) with (enc_file body (name, f) ++ enc_files body l).
  unfold enc_file. cbn [fst snd] in *. destruct Hw as (_ & ? & ?).
  rewrite <- !app_assoc. rewrite <- ?(app_assoc (le64 _)). cbn [serializeFileList].
  apply emits_seq; [apply emits_str|]. apply emits_seq; [apply emits_str|].
  apply emits_seq; [apply emits_str|]. rewrite !u64_small by lia.
  apply emits_seq; [apply emits_int|]. apply emits_seq; [apply emits_int|exact IH].
Qed.

(** [serialize] writes exactly the format: on a buffer of any previous contents, it
    resizes it to the exact size and leaves in it the encoding of the headers, cookies,
    variables, body, files and arguments, without touching any other object. *)
Lemma enc_request_len p body sb :
  len (enc_request p body sb) = 48 + len (enc_pairs (headers_ p)) + len (enc_pairs (cookies_ p)) +
    len (enc_pairs (vars_ p)) + len sb + len (enc_files body (files_ p)) + len (enc_pairs (args_ p)).
Proof. unfold enc_request, enc_field. rewrite !len_app, !len_enc_str. lia. Qed.

Lemma serialize_writes h p body sb buf s0 :
  den h body sb -> den h buf s0 -> data_ body <> data_ buf ->
  Forall (file_ok body) (files_ p) ->
  begin_ buf + len (enc_request p body sb) < 2 ^ 62 ->
  exists h' buf', serialize h p body buf = Ok (h', buf') /\
    data_ buf' = data_ buf /\ begin_ buf' = begin_ buf /\
    den h' buf' (enc_request p body sb) /\ frame h h' buf.
Proof.
  intros Hb Hd Hne Hf Hlim. pose proof (denotes_bounds _ _ _ Hb) as Bb.
  pose proof (denotes_bounds _ _ _ Hd) as Bd.
  set (total := len (enc_request p body sb)) in *.
  pose proof (enc_request_len p body sb) as Ht. fold total in Ht.
  pose proof (len_nonneg (enc_pairs (headers_ p))). pose proof (len_nonneg (enc_pairs (cookies_ p))).
  pose proof (len_nonneg (enc_pairs (vars_ p))). pose proof (len_nonneg sb).
  pose proof (len_nonneg (enc_files body (files_ p))). pose proof (len_nonneg (enc_pairs (args_ p))).
  unfold serialize, serializeEnv, argsSerializedSize.
  rewrite !pairs_size_ok by lia. rewrite (files_size_ok p body) by lia.
  rewrite (denotes_size _ _ _ Hb). rewrite !u64_small by (rewrite ?u64_small; lia).
  match goal with |- context [Buf.resize h buf ?n] => replace n with total by lia end.
  destruct (resize_view h buf s0 total Hd) as (h1 & -> & (s1 & Hs1 & Hd1 & _) & F1); [lia|lia|].
  cbn [mbind result_bind]. set (buf' := MkDataBuffer (data_ buf) (begin_ buf) (begin_ buf + total)) in *.
  assert (Hw : written h1 buf' [] total) by (exists s1; done).
  assert (Fr1 : frame h h1 buf) by (intros d t Ht' Hne'; by apply F1).
  change (serializeInt h1 buf' 0) with (serializeInt h1 buf' (len (@nil byte))).
  emit (emits_int buf' (len (enc_pairs (headers_ p)))).
  emit (emits_pairs buf' (headers_ p)).
  emit (emits_int buf' (len (enc_pairs (cookies_ p)))).
  emit (emits_pairs buf' (cookies_ p)).
  emit (emits_int buf' (len (enc_pairs (vars_ p)))).
  emit (emits_pairs buf' (vars_ p)).
  unfold serializeBuffer. rewrite (denotes_size _ _ _ Hb).
  emit (emits_int buf' (len sb)).
  match goal with Hf : frame h ?hn buf |- context [Buf.chunks ?hn body] =>
    destruct (chunks_view hn body sb (Hf body sb Hb Hne)) as (l & Hl & Hlc & _) end.
  rewrite Hl. cbn [mbind result_bind]. clear Hl. rewrite <- Hlc in *.
  emit (emits_chunks buf' l).
  unfold serializeFiles. rewrite (files_size_ok p body) by lia.
  emit (emits_int buf' (len (enc_files body (files_ p)))).
  emit (emits_file_list buf' body (files_ p) ltac:(lia) ltac:(lia) Hf).
  unfold serializeArgs, argsSerializedSize. rewrite pairs_size_ok by lia.
  emit (emits_int buf' (len (enc_pairs (args_ p)))).
  emit (emits_pairs buf' (args_ p)).
  eexists _, buf'. split; [done|]. split; [done|]. split; [done|]. split; [|done].
  destruct Hw as (rest & Hr & Hden).
  assert (rest = []) as -> by (apply len_0_iff; lia).
  rewrite app_nil_r in Hden. unfold enc_request, enc_field, enc_str.
  rewrite <- !app_assoc in *. exact Hden.
Qed.
End Writing.

(** ** Reading arbitrary bytes *)

Section AnyBytes.
Context {I : Type} `{DataBufferImplOk I wf contents}.
Implicit Types h : gmap nat I.
Import Codec.

#[local] Abbreviation den := (denotes (wf := wf) (contents := contents)).

(** The position moves forward inside the buffer, and does move before its end. *)
Definition forward (s : bytes) (pos pos' : Z) : Prop :=
  pos <= pos' /\ pos' <= len s /\ (pos < len s -> pos < pos').

Lemma le_value_range l : 0 <= le_value l < 256 ^ len l.
Proof.
  induction l as [|b l IH]; [change (0 <= 0 < 1); lia|]. cbn [le_value]. rewrite len_cons.
  pose proof (b2z_range b). pose proof (len_nonneg l).
  rewrite Z.pow_add_r by lia. change (256 ^ 1) with 256. lia.
Qed.

Lemma read_forward h buf s pos n :
  den h buf s -> 0 <= pos <= len s -> 0 <= n ->
  exists d, Buf.read h buf pos n = Ok d /\ len d = Z.min n (len s - pos).
Proof.
  intros Hd Hp Hn. rewrite (read_denotes _ _ _ _ _ Hd) by lia. eexists. split; [done|].
  rewrite slice_len by lia. lia.
Qed.

Lemma parseInt_forward h buf s pos :
  den h buf s -> 0 <= pos <= len s ->
  exists v pos', parseInt h buf pos = Ok (v, pos') /\ 0 <= v < 2 ^ 64 /\ forward s pos pos'.
Proof.
  intros Hd Hp. unfold parseInt. pose proof (denotes_small _ _ _ Hd).
  destruct (read_forward h buf s pos 8 Hd Hp) as (d & -> & Hl); [lia|].
  cbn [mbind result_bind]. eexists _, _. split; [done|].
  rewrite u64_small by lia. split; [|unfold forward; lia].
  pose proof (le_value_range d) as Hr.
  assert (256 ^ len d <= 256 ^ 8) by (apply Z.pow_le_mono_r; lia).
  change (2 ^ 64) with (256 ^ 8). lia.
Qed.

Lemma parseString_forward h buf s pos :
  den h buf s -> 0 <= pos <= len s ->
  safe (parseString h buf pos) (fun '(_, pos') => forward s pos pos').
Proof.
  intros Hd Hp. unfold parseString. pose proof (denotes_small _ _ _ Hd).
  destruct (parseInt_forward h buf s pos Hd Hp) as (n & p1 & -> & Hn & Hf1 & Hf2 & Hf3).
  cbn [mbind result_bind]. destruct (Z.ltb_spec (2 ^ 63 - 1) n); [done|].
  destruct (read_forward h buf s p1 n Hd) as (d & -> & Hl); [lia|lia|].
  cbn [mbind result_bind safe]. rewrite u64_small by lia. unfold forward. lia.
Qed.

Lemma parseField_forward h buf s pos what :
  den h buf s -> 0 <= pos <= len s ->
  safe (parseField h buf pos what)
    (fun '(p1, pos_end) => 0 <= p1 <= len s /\ 0 <= pos_end <= len s).
Proof.
  intros Hd Hp. unfold parseField.
  destruct (parseInt_forward h buf s pos Hd Hp) as (n & p1 & -> & Hn & Hf1 & Hf2 & Hf3).
  cbn [mbind result_bind]. rewrite (denotes_size _ _ _ Hd).
  destruct (Z.ltb_spec (len s) (u64 (p1 + n))); [done|]. cbn.
  pose proof (u64_range (p1 + n)). lia.
Qed.

Lemma parsePairs_forward {A} fuel h buf s pos pos_end (add : A -> bytes -> bytes -> A) acc :
  den h buf s -> 0 <= pos <= len s -> pos_end <= len s ->
  (Z.to_nat (len s - pos) < fuel)%nat ->
  safe (parsePairs fuel h buf pos pos_end add acc) (fun '(_, pos') => 0 <= pos' <= len s).
Proof.
  intros Hd. revert pos acc. induction fuel as [|fuel IH]; intros pos acc Hp He Hf; [lia|].
  cbn [parsePairs]. destruct (Z.ltb_spec pos pos_end); [|exact Hp].
  apply safe_bind. eapply safe_mono; [by apply parseString_forward|].
  intros [name p1] (Hf1 & Hf2 & Hf3). apply safe_bind.
  eapply safe_mono; [apply (parseString_forward _ _ _ p1 Hd); lia|].
  intros [value p2] (Hg1 & Hg2 & Hg3). apply IH; lia.
Qed.

Lemma pairs_field_forward {A} h buf s pos what (add : A -> bytes -> bytes -> A) acc :
  den h buf s -> 0 <= pos <= len s ->
  safe ('(pos, pos_end) ← parseField h buf pos what;
        parsePairs (fuel_of buf) h buf pos pos_end add acc)
    (fun '(_, pos') => 0 <= pos' <= len s).
Proof.
  intros Hd Hp. apply safe_bind. eapply safe_mono; [by apply parseField_forward|].
  intros [p1 pe] [Hp1 Hpe]. apply parsePairs_forward; [done|done|lia|].
  unfold fuel_of. rewrite (denotes_size _ _ _ Hd). lia.
Qed.

(** A view with any indices on a live object: defined, or out of range. *)
Lemma view_any h d s b e :
  den h d s -> safe (Buf.view h d b e) (fun v => data_ v = data_ d).
Proof.
  intros Hd. unfold Buf.view. destruct (denotes_deref _ _ _ Hd) as (i & -> & _).
  cbn [mbind result_bind]. by destruct (impl_size i <? e).
Qed.

Lemma view_shared h d s body b e :
  den h d s -> data_ body = data_ d -> safe (Buf.view h body b e) (fun v => data_ v = data_ d).
Proof.
  intros Hd E. unfold Buf.view, Buf.deref. rewrite E.
  destruct (denotes_deref _ _ _ Hd) as (i & Hi & _). unfold Buf.deref in Hi.
  destruct (data_ d) as [l|] eqn:Ed; [|done]. destruct (h !! l); [|done].
  cbn [mbind result_bind]. by destruct (impl_size _ <? e).
Qed.

Lemma parseFileList_forward fuel h buf s body pos pos_end p :
  den h buf s -> data_ body = data_ buf -> 0 <= pos <= len s -> pos_end <= len s ->
  (Z.to_nat (len s - pos) < fuel)%nat ->
  safe (parseFileList fuel h buf body pos pos_end p) (fun '(_, pos') => 0 <= pos' <= len s).
Proof.
  intros Hd Hb. revert pos p. induction fuel as [|fuel IH]; intros pos p Hp He Hf; [lia|].
  cbn [parseFileList]. destruct (Z.ltb_spec pos pos_end); [|exact Hp].
  apply safe_bind. eapply safe_mono; [by apply parseString_forward|].
  intros [name p1] (Hf1 & Hf2 & Hf3). apply safe_bind.
  eapply safe_mono; [apply (parseString_forward _ _ _ p1 Hd); lia|].
  intros [remote p2] (Hg1 & Hg2 & Hg3). apply safe_bind.
  eapply safe_mono; [apply (parseString_forward _ _ _ p2 Hd); lia|].
  intros [type p3] (Hh1 & Hh2 & Hh3).
  destruct (parseInt_forward h buf s p3 Hd) as (off & p4 & -> & _ & Hi1 & Hi2 & _); [lia|].
  cbn [mbind result_bind].
  destruct (parseInt_forward h buf s p4 Hd) as (n & p5 & -> & _ & Hj1 & Hj2 & _); [lia|].
  cbn [mbind result_bind]. apply safe_bind.
  eapply safe_mono; [by apply (view_shared h buf s)|]. intros v _. apply safe_bind.
  unfold File.of_strings. destruct (Range.empty remote); [done|]. cbn [safe].
  apply IH; lia.
Qed.

(** C10: restoring a request from any bytes whatever terminates without leaving the
    buffer: it returns a request whose body is a view of the buffer's object, or throws. *)
Theorem parse_any_bytes h buf s p :
  den h buf s -> safe (parse h buf p) (fun '(_, body) => data_ body = data_ buf).
Proof.
  intros Hd. unfold parse. pose proof (len_nonneg s).
  apply safe_bind. eapply safe_mono; [apply (pairs_field_forward _ _ s 0); [done|lia]|].
  intros [q1 p1] H1'. apply safe_bind.
  eapply safe_mono; [by apply (pairs_field_forward _ _ s p1)|].
  intros [q2 p2] H2'. apply safe_bind.
  eapply safe_mono; [by apply (pairs_field_forward _ _ s p2)|].
  intros [q3 p3] H3'. apply safe_bind.
  eapply safe_mono with (P := fun '(body, pos) => data_ body = data_ buf /\ 0 <= pos <= len s).
  { unfold parseBody. apply safe_bind. eapply safe_mono; [by apply parseField_forward|].
    intros [a b] [Ha Hb]. apply safe_bind. eapply safe_mono; [by apply (view_any h buf s)|].
    intros v Hv. cbn. split; [done|lia]. }
  intros [body p4] [Hb H4]. apply safe_bind.
  eapply safe_mono with (P := fun '(_, pos) => 0 <= pos <= len s).
  { unfold parseFiles. apply safe_bind. eapply safe_mono; [by apply parseField_forward|].
    intros [a b] [Ha Hb']. apply parseFileList_forward; try done; [lia|].
    unfold fuel_of. rewrite (denotes_size _ _ _ Hd). lia. }
  intros [q5 p5] H5. apply safe_bind.
  eapply safe_mono; [by apply (pairs_field_forward _ _ s p5)|].
  intros [q6 p6] _. done.
Qed.
End AnyBytes.

(** ** The round trip *)

Section Roundtrip.
Context {I : Type} `{DataBufferImplOk I wf contents}.
Implicit Types h : gmap nat I.
Import Codec.

#[local] Abbreviation den := (denotes (wf := wf) (contents := contents)).

(** A view inside a body denotes a slice of it, wherever the body is. *)
Lemma within_slice h body sb d s :
  den h body sb -> within body d -> den h d s ->
  begin_ body <= begin_ d -> begin_ d <= end_ d -> end_ d <= end_ body ->
  s = slice sb (begin_ d - begin_ body) (end_ d - begin_ body).
Proof.
  intros Hb (Hw & _) Hd ???. pose proof (denotes_len _ _ _ Hb).
  pose proof (denotes_sub _ _ _ (begin_ d - begin_ body) (end_ d - begin_ body) Hb) as Hs.
  replace (begin_ body + (begin_ d - begin_ body)) with (begin_ d) in Hs by lia.
  replace (begin_ body + (end_ d - begin_ body)) with (end_ d) in Hs by lia.
  rewrite <- Hw in Hs. destruct d as [dd db de]. cbn in *.
  eapply denotes_fun; [exact Hd|]. apply Hs; lia.
Qed.

(** C1: a request saved to a buffer and restored is the request that was saved:
    variables, cookies, headers, the body and every uploaded file with its contents
    are unchanged; an argument is unchanged unless its value has a line end or a NUL,
    in which case it comes back percent-encoded. *)
Theorem serialize_restore h p body sb buf s0 :
  den h body sb -> den h buf s0 -> data_ body <> data_ buf ->
  wf_parsed p -> Forall (file_ok body) (files_ p) ->
  begin_ buf + len (enc_request p body sb) < 2 ^ 62 ->
  exists h' buf' body', serialize h p body buf = Ok (h', buf') /\
    parse h' buf' no_input = Ok (restored p body body', body') /\ den h' body' sb /\
    Forall (fun nf => forall s, den h (File.data_ nf.2) s ->
      den h' (File.data_ (restored_file body body' nf).2) s) (files_ p).
Proof.
  intros Hb Hd Hne Hw Hf Hlim.
  destruct (serialize_writes h p body sb buf s0 Hb Hd Hne Hf Hlim)
    as (h' & buf' & E & _ & _ & Hd' & _).
  pose proof (denotes_bounds _ _ _ Hb) as Bb. pose proof (denotes_len _ _ _ Hb) as Lb.
  destruct (parse_encoded h' buf' p body sb) as (body' & E' & Hb' & _); [done|done|lia|lia|done|].
  exists h', buf', body'. split; [done|]. split; [done|]. split; [done|].
  eapply Forall_impl; [exact Hf|]. intros [name f] (Hin & Hbe & _) s Hs. cbn in *.
  pose proof Hin as (_ & ? & ?).
  rewrite (within_slice h body sb _ s Hb Hin Hs) by done.
  apply denotes_sub; [done|lia|lia|lia].
Qed.
End Roundtrip.

(** A request with a header, a cookie, two arguments, a body and a file in it. *)
Section RoundtripWitness.
Definition demo_body : gmap nat StringBuffer.t * DataBuffer := string_view (lit "0123456789").
Definition demo_store : gmap nat StringBuffer.t * DataBuffer :=
  Buf.create demo_body.1 (StringBuffer.create (lit "old")).

Definition demo_request : Parsed :=
  MkParsed [(lit "a", lit "1"); (lit "b", [Byte.x0a])] [(lit "REQUEST_METHOD", lit "POST")]
    [(lit "sid", lit "42")] [(lit "Host", lit "example.org")]
    [(lit "upload", File.MkFile (lit "x.txt") (lit "text/plain")
       (MkDataBuffer (data_ demo_body.2) 2 5))].

Lemma serialize_restore_witness :
  exists h' buf' body',
    Codec.serialize demo_store.1 demo_request demo_body.2 demo_store.2 = Ok (h', buf') /\
    Codec.parse h' buf' no_input = Ok (restored demo_request demo_body.2 body', body') /\
    sdenotes h' body' (lit "0123456789").
Proof.
  assert (Hb : sdenotes demo_body.1 demo_body.2 (lit "0123456789")) by (by apply string_view_denotes).
  destruct (serialize_restore demo_store.1 demo_request demo_body.2 (lit "0123456789")
    demo_store.2 (lit "old")) as (h' & buf' & body' & E1 & E2 & E3 & _).
  - apply (create_frame (wf := string_wf) (contents := StringBuffer.data_) demo_body.1 (StringBuffer.create (lit "old")) _ _ Hb).
  - apply (create_denotes (wf := string_wf) (contents := StringBuffer.data_) demo_body.1 (StringBuffer.create (lit "old"))). by vm_compute.
  - intros E. vm_compute in E. discriminate E.
  - repeat split; repeat constructor.
  - repeat constructor; cbn; try lia; discriminate.
  - by vm_compute.
  - exists h', buf', body'. split; [exact E1|]. split; [exact E2|exact E3].
Defined.

Lemma parse_any_bytes_witness :
  safe (Codec.parse (string_view (lit "garbage")).1 (string_view (lit "garbage")).2 no_input)
    (fun '(_, body) => data_ body = data_ (string_view (lit "garbage")).2).
Proof.
  apply (parse_any_bytes (string_view (lit "garbage")).1 (string_view (lit "garbage")).2
    (lit "garbage") no_input).
  by apply string_view_denotes.
Defined.
End RoundtripWitness.
