(* ===== verification/Request.v ===== *)
(** * Request

    [library/request.cpp]: the request object. Its input fields are filled by
    [attach] (or [restore]); its output side is a small state machine: status, headers
    and cookies may be set until the headers have been written to the stream, then
    only body bytes follow.

    The object is the record [t]; a member function that throws halfway returns the
    state it left together with the outcome. *)

From Stdlib Require Import Sorting.Sorted.
From S2P Require Import Prelude Cxx OrdMap Ranges StringUtils Buffer Form Cookie Parser Codec.

(** The stream behind a request ([request_io_stream.h]). [io_read s n] asks for [n] bytes: it
    gives the bytes stored at the front of the caller's memory and the value returned.
    [io_write s d n] passes the memory [d] and the [int] size [n]; it may throw. The last
    operation copies the contents of a [streambuf]. *)
Class IOStream (S : Type) := {
  io_read : S -> Z -> S * bytes * Z;
  io_write : S -> bytes -> Z -> S * result Z;
  io_write_buf : S -> bytes -> S
}.

(** What a request relies on: reads return the [pending] input, short only at its end; writes
    append to what has been [written]. This is the documented behaviour of the FastCGI
    streams as long as the connection is open. *)
Class IOStreamOk (S : Type) `{IOStream S} (pending written : S -> bytes) := {
  ok_io_read s n : 0 <= n < 2 ^ 31 ->
    exists s', io_read s n = (s', take (Z.to_nat n) (pending s), len (take (Z.to_nat n) (pending s))) /\
      pending s' = drop (Z.to_nat n) (pending s) /\ written s' = written s;
  ok_io_write s d n : 0 <= n <= len d ->
    exists s', io_write s d n = (s', Ok n) /\
      pending s' = pending s /\ written s' = written s ++ take (Z.to_nat n) d;
  ok_io_write_buf s d :
    pending (io_write_buf s d) = pending s /\ written (io_write_buf s d) = written s ++ d
}.

(** A stream between two strings. *)
Record MemStream := MkStream { input_ : bytes; output_ : bytes }.

#[export] Instance mem_stream : IOStream MemStream := {
  io_read s n := (MkStream (drop (Z.to_nat n) (input_ s)) (output_ s), take (Z.to_nat n) (input_ s),
                  len (take (Z.to_nat n) (input_ s)));
  io_write s d n := (MkStream (input_ s) (output_ s ++ take (Z.to_nat n) d), Ok n);
  io_write_buf s d := MkStream (input_ s) (output_ s ++ d)
}.

#[export] Instance mem_stream_ok : IOStreamOk MemStream input_ output_.
Proof. split; intros; [eexists; done|eexists; done|done]. Qed.

Module Request.

(** [session_] and [subject_] are shared pointers, given by the address they hold. *)
Record t (S : Type) := MkRequest {
  in_ : Parsed;
  body_ : DataBuffer;
  status_ : Z;
  headers_sent_ : bool;
  processed_ : bool;
  delay_ : Z;
  stream_ : option S;
  out_headers_ : list (bytes * bytes);
  out_cookies_ : list (bytes * Cookie.t);
  session_ : option nat;
  subject_ : option nat
}.
Arguments MkRequest {S}.
Arguments in_ {S}.
Arguments body_ {S}.
Arguments status_ {S}.
Arguments headers_sent_ {S}.
Arguments processed_ {S}.
Arguments delay_ {S}.
Arguments stream_ {S}.
Arguments out_headers_ {S}.
Arguments out_cookies_ {S}.
Arguments session_ {S}.
Arguments subject_ {S}.

Section Ops.
Context {S : Type} {IO : IOStream S}.
Implicit Types r : t S.

Definition set_in (r : t S) v := MkRequest v (body_ r) (status_ r) (headers_sent_ r) (processed_ r)
  (delay_ r) (stream_ r) (out_headers_ r) (out_cookies_ r) (session_ r) (subject_ r).
Definition set_body (r : t S) v := MkRequest (in_ r) v (status_ r) (headers_sent_ r) (processed_ r)
  (delay_ r) (stream_ r) (out_headers_ r) (out_cookies_ r) (session_ r) (subject_ r).
Definition set_status (r : t S) v := MkRequest (in_ r) (body_ r) v (headers_sent_ r) (processed_ r)
  (delay_ r) (stream_ r) (out_headers_ r) (out_cookies_ r) (session_ r) (subject_ r).
Definition set_sent (r : t S) v := MkRequest (in_ r) (body_ r) (status_ r) v (processed_ r)
  (delay_ r) (stream_ r) (out_headers_ r) (out_cookies_ r) (session_ r) (subject_ r).
Definition set_processed (r : t S) v := MkRequest (in_ r) (body_ r) (status_ r) (headers_sent_ r) v
  (delay_ r) (stream_ r) (out_headers_ r) (out_cookies_ r) (session_ r) (subject_ r).
Definition set_delay (r : t S) v := MkRequest (in_ r) (body_ r) (status_ r) (headers_sent_ r)
  (processed_ r) v (stream_ r) (out_headers_ r) (out_cookies_ r) (session_ r) (subject_ r).
Definition set_stream (r : t S) (v : option S) := MkRequest (in_ r) (body_ r) (status_ r) (headers_sent_ r)
  (processed_ r) (delay_ r) v (out_headers_ r) (out_cookies_ r) (session_ r) (subject_ r).
Definition set_out_headers (r : t S) v := MkRequest (in_ r) (body_ r) (status_ r) (headers_sent_ r)
  (processed_ r) (delay_ r) (stream_ r) v (out_cookies_ r) (session_ r) (subject_ r).
Definition set_out_cookies (r : t S) v := MkRequest (in_ r) (body_ r) (status_ r) (headers_sent_ r)
  (processed_ r) (delay_ r) (stream_ r) (out_headers_ r) v (session_ r) (subject_ r).
Definition set_session (r : t S) v := MkRequest (in_ r) (body_ r) (status_ r) (headers_sent_ r)
  (processed_ r) (delay_ r) (stream_ r) (out_headers_ r) (out_cookies_ r) v (subject_ r).
Definition set_subject (r : t S) v := MkRequest (in_ r) (body_ r) (status_ r) (headers_sent_ r)
  (processed_ r) (delay_ r) (stream_ r) (out_headers_ r) (out_cookies_ r) (session_ r) v.

(** *** Variables and headers of the request *)

Definition var (r : t S) (name : bytes) : bytes := Parser.get str_ltb (vars_ (in_ r)) name.
Definition header (r : t S) (name : bytes) : bytes := Parser.get StringCILess (headers_ (in_ r)) name.

Definition getEnvVariable (r : t S) (name : bytes) : bytes := var r name.
Definition getRole (r : t S) : bytes := var r (lit "FCGI_ROLE").

(** The conversion to [unsigned short] of an [int]; [std::stoi] may throw. *)
Definition getServerPort (r : t S) : result Z :=
  match var r (lit "SERVER_PORT") with
  | [] => Ok 80
  | res => v ← stoi res; Ok (u16 v)
  end.

Definition getHost (r : t S) : bytes := header r (lit "host").
Definition getServerAddr (r : t S) : bytes := var r (lit "SERVER_ADDR").
Definition getPathInfo (r : t S) : bytes := var r (lit "PATH_INFO").
Definition getPathTranslated (r : t S) : bytes := var r (lit "PATH_TRANSLATED").
Definition getScriptName (r : t S) : bytes := var r (lit "SCRIPT_NAME").
Definition getScriptFilename (r : t S) : bytes := var r (lit "SCRIPT_FILENAME").
Definition getDocumentRoot (r : t S) : bytes := var r (lit "DOCUMENT_ROOT").
Definition getRemoteUser (r : t S) : bytes := var r (lit "REMOTE_USER").
Definition getRemotePassword (r : t S) : bytes := var r (lit "REMOTE_PASSWD").
Definition getRemoteAddr (r : t S) : bytes := var r (lit "REMOTE_ADDR").
Definition getQueryString (r : t S) : bytes := var r (lit "QUERY_STRING").
Definition getRequestMethod (r : t S) : bytes := var r (lit "REQUEST_METHOD").
Definition getRequestId (r : t S) : bytes := var r (lit "REQUEST_ID").

(** Only [invalid_argument] is caught. *)
Definition getContentLength (r : t S) : result Z :=
  match header r (lit "content-length") with
  | [] => Ok 0
  | h =>
      match stoi h with
      | Throw (InvalidArgument _) => Ok 0
      | res => res
      end
  end.

Definition getContentType (r : t S) : bytes := header r (lit "content-type").

Definition getURI (r : t S) : bytes :=
  let res := getScriptName r ++ getPathInfo r in
  match getQueryString r with
  | [] => res
  | query_string => res ++ "?"%byte :: query_string
  end.

Definition isSecure (r : t S) : bool :=
  let val := var r (lit "HTTPS") in
  negb (Range.empty val) && str_eqb (lit "on") val.

Definition getUrl (r : t S) : bytes :=
  (if isSecure r then lit "https://" else lit "http://") ++ getHost r ++ getURI r.

(** *** Arguments, headers, cookies and files *)

Definition countArgs (r : t S) : Z := u32 (len (args_ (in_ r))).

Fixpoint hasArg_in (args : list (bytes * bytes)) (name : bytes) : bool :=
  match args with
  | [] => false
  | i :: args' => if str_eqb i.1 name then true else hasArg_in args' name
  end.
Definition hasArg (r : t S) (name : bytes) : bool := hasArg_in (args_ (in_ r)) name.

Fixpoint getArg_in (args : list (bytes * bytes)) (name : bytes) : bytes :=
  match args with
  | [] => []
  | i :: args' => if str_eqb i.1 name then i.2 else getArg_in args' name
  end.
Definition getArg (r : t S) (name : bytes) : bytes := getArg_in (args_ (in_ r)) name.

Fixpoint getArgs_in (args : list (bytes * bytes)) (name : bytes) : list bytes :=
  match args with
  | [] => []
  | i :: args' => if str_eqb i.1 name then i.2 :: getArgs_in args' name else getArgs_in args' name
  end.
Definition getArgs (r : t S) (name : bytes) : list bytes := getArgs_in (args_ (in_ r)) name.

(** The names through a [std::set]: sorted and without duplicates. *)
Definition argNames (r : t S) : list bytes :=
  map fst (foldl (fun names i => (om_insert str_ltb names i.1 tt).1) [] (args_ (in_ r))).

Definition countHeaders (r : t S) : Z := u32 (len (headers_ (in_ r))).
Definition hasHeader (r : t S) (name : bytes) : bool :=
  Parser.has StringCILess (headers_ (in_ r)) name.
Definition getHeader (r : t S) (name : bytes) : bytes := header r name.
Definition headerNames (r : t S) : list bytes := Parser.keys (headers_ (in_ r)).

Definition countCookie (r : t S) : Z := u32 (len (cookies_ (in_ r))).
Definition hasCookie (r : t S) (name : bytes) : bool := Parser.has str_ltb (cookies_ (in_ r)) name.
Definition getCookie (r : t S) (name : bytes) : bytes := Parser.get str_ltb (cookies_ (in_ r)) name.
Definition cookieNames (r : t S) : list bytes := Parser.keys (cookies_ (in_ r)).

Definition countRemoteFiles (r : t S) : Z := u32 (len (files_ (in_ r))).
Definition hasRemoteFile (r : t S) (name : bytes) : bool := Parser.has str_ltb (files_ (in_ r)) name.
Definition hasFile (r : t S) (name : bytes) : bool := hasRemoteFile r name.
Definition remoteFiles (r : t S) : list bytes := Parser.keys (files_ (in_ r)).

Definition remoteFileName (r : t S) (name : bytes) : bytes :=
  match om_find str_ltb (files_ (in_ r)) name with Some f => File.name_ f | None => [] end.
Definition remoteFileType (r : t S) (name : bytes) : bytes :=
  match om_find str_ltb (files_ (in_ r)) name with Some f => File.type_ f | None => [] end.
Definition remoteFile {I} `{DataBufferImpl I} (h : gmap nat I) (r : t S) (name : bytes)
    : result DataBuffer :=
  match om_find str_ltb (files_ (in_ r)) name with
  | Some f => Ok (File.data_ f)
  | None => Buf.view h (body_ r) 0 0
  end.

Definition requestBody (r : t S) : DataBuffer := body_ r.

(** *** The response *)

Definition sent_error (what : bytes) : exn := RuntimeError what.

(** [insert], and assignment through the [const_cast] when the name is there. *)
Definition setCookie (r : t S) (cookie : Cookie.t) : result (t S) :=
  if headers_sent_ r then
    Throw (sent_error (lit "Error in Request::setCookie: headers already sent: cookie - '" ++
      Cookie.name_ cookie ++ lit "=" ++ Cookie.value_ cookie ++ lit "'"))
  else
    let p := om_insert str_ltb (out_cookies_ r) (Cookie.name_ cookie) cookie in
    Ok (set_out_cookies r
      (if p.2 then p.1 else om_put str_ltb (out_cookies_ r) (Cookie.name_ cookie) cookie)).

Definition deleteCookie (r : t S) (name : bytes) : result (t S) :=
  setCookie r (Cookie.expires (Cookie.create name []) 0).

Definition headersSent (r : t S) : bool := headers_sent_ r.

Definition setStatus (r : t S) (status : Z) : result (t S) :=
  if headers_sent_ r then
    Throw (sent_error (lit "Error in Request::setStatus headers already sent: status - '" ++
      to_string status ++ lit "'"))
  else Ok (set_status r status).

Definition setHeader (r : t S) (name value : bytes) : result (t S) :=
  if headers_sent_ r then
    Throw (sent_error (lit "Error in Request::setHeader: headers already sent: header - '" ++
      name ++ lit ": " ++ value ++ lit "'"))
  else Ok (set_out_headers r
         (om_put StringCILess (out_headers_ r) (Parser.normalizeOutputHeaderName name) value)).

(** One call of [stream_->write]: the size is narrowed to [int]. *)
Definition write_stream (r : t S) (d : bytes) : t S * result unit :=
  match stream_ r with
  | Some s =>
      let '(s, res) := io_write s d (s32 (len d)) in
      (set_stream r (Some s), n ← res; Ok tt)
  | None => (r, Ok tt)
  end.

(** Calls one after the other; the first that throws ends the sequence. *)
Fixpoint write_all (r : t S) (ds : list bytes) : t S * result unit :=
  match ds with
  | [] => (r, Ok tt)
  | d :: ds' =>
      match write_stream r d with
      | (r, Ok _) => write_all r ds'
      | (r, e) => (r, e)
      end
  end.

Definition crlf : bytes := [Byte.x0d; Byte.x0a].

Definition header_pieces (i : bytes * bytes) : list bytes := [i.1; lit ": "; i.2; crlf].

(** The loop over the cookies; [toString] throws on a date it cannot format. *)
Fixpoint write_cookies (r : t S) (cookies : list (bytes * Cookie.t)) : t S * result unit :=
  match cookies with
  | [] => (r, Ok tt)
  | (_, c) :: cookies' =>
      match write_stream r (lit "Set-Cookie: ") with
      | (r, Ok _) =>
          match Cookie.toString c with
          | Ok cookie =>
              match write_all r [cookie; crlf] with
              | (r, Ok _) => write_cookies r cookies'
              | (r, e) => (r, e)
              end
          | Throw e => (r, Throw e)
          | Undef => (r, Undef)
          end
      | (r, e) => (r, e)
      end
  end.

(** A call that throws leaves [headers_sent_] false. *)
Definition sendHeadersInternal (r : t S) : t S * result unit :=
  if headers_sent_ r then (r, Ok tt)
  else
    let status := to_string (status_ r) ++ lit " " ++ Parser.statusToString (status_ r) in
    let r := set_out_headers r (om_put StringCILess (out_headers_ r) (lit "Status") status) in
    match stream_ r with
    | Some _ =>
        match write_all r (flat_map header_pieces (out_headers_ r)) with
        | (r, Ok _) =>
            match write_cookies r (out_cookies_ r) with
            | (r, Ok _) =>
                match write_stream r crlf with
                | (r, Ok _) => (set_sent r true, Ok tt)
                | (r, e) => (r, e)
                end
            | (r, e) => (r, e)
            end
        | (r, e) => (r, e)
        end
    | None => (set_sent r true, Ok tt)
    end.

Definition sendHeaders (r : t S) : t S * result unit := sendHeadersInternal r.

Definition error_page (status : Z) : list bytes :=
  [lit "<html><body><h1>"; to_string status; lit " "; Parser.statusToString status;
   lit "</h1></body></html>"].

Definition sendError (r : t S) (status : Z) : t S * result unit :=
  if headers_sent_ r then
    (r, Throw (sent_error (lit "Error in Request::setError headers already sent: status - '" ++
      to_string status ++ lit "'")))
  else
    let r := set_status (set_out_headers (set_out_cookies r []) []) status in
    let r := set_out_headers r
      (om_insert StringCILess (out_headers_ r) (lit "Content-type") (lit "text/html")).1 in
    match sendHeadersInternal r with
    | (r, Ok _) => write_all r (error_page status)
    | (r, e) => (r, e)
    end.

Definition head_method (r : t S) : bool := str_eqb (lit "HEAD") (getRequestMethod r).

(** The contents of a [streambuf]. *)
Definition write_buf (r : t S) (d : bytes) : t S * result unit :=
  match sendHeaders r with
  | (r, Ok _) =>
      match stream_ r with
      | Some s => (if head_method r then r else set_stream r (Some (io_write_buf s d)), Ok tt)
      | None => (r, Ok tt)
      end
  | (r, e) => (r, e)
  end.

(** A block of memory; the size comes back whatever the stream accepted. *)
Definition write (r : t S) (d : bytes) : t S * result Z :=
  match sendHeaders r with
  | (r, Ok _) =>
      if head_method r then (r, Ok (len d))
      else let '(r, res) := write_stream r d in (r, _ ← res; Ok (len d))
  | (r, Throw e) => (r, Throw e)
  | (r, Undef) => (r, Undef)
  end.

Definition outputHeader (r : t S) (name : bytes) : bytes :=
  Parser.get StringCILess (out_headers_ r) name.

Definition redirectToPath (r : t S) (path : bytes) : result (t S) :=
  r ← setStatus r 302; setHeader r (lit "Location") path.

Definition redirectBack (r : t S) : result (t S) := redirectToPath r (getHeader r (lit "Referer")).

Definition forwardToPath (r : t S) (path : bytes) : result (t S) :=
  Throw (DispatchException FORWARD path None 0 0).

Definition setContentType (r : t S) (type : bytes) : result (t S) := setHeader r (lit "Content-type") type.
Definition setContentEncoding (r : t S) (encoding : bytes) : result (t S) :=
  setHeader r (lit "Content-encoding") encoding.

(** [reset] leaves the body, the delay and the processed flag. *)
Definition reset (r : t S) : t S :=
  MkRequest no_input (body_ r) 200 false (processed_ r) (delay_ r) None [] [] None None.

(** The constructor. *)
Definition create : t S :=
  reset (MkRequest no_input Buf.nil 0 false false 0 None [] [] None None).

Definition isProcessed (r : t S) : bool := processed_ r.
Definition markAsProcessed (r : t S) : t S := set_processed r true.
Definition tryAgain (r : t S) (delay : Z) : t S := set_delay r delay.
Definition status (r : t S) : Z := status_ r.

(** [strcasecmp] on the [c_str()] of the variable. *)
Definition disablePostParams (r : t S) : bool :=
  let disable_params := var r (lit "DISABLE_POST_PARAMS") in
  if Range.empty disable_params then false
  else strcaseeq (lit "yes") (c_str disable_params) || strcaseeq (lit "true") (c_str disable_params) ||
       strcaseeq (lit "1") (c_str disable_params).

End Ops.
End Request.

(** ** Attaching a stream *)

(** What a request uses of the [RequestCache]: a new buffer for a body, and the size from
    which bodies go there. *)
Record RequestCache (I : Type) := MkCache {
  minPostSize : Z;
  cache_create : gmap nat I -> result (gmap nat I * DataBuffer)
}.
Arguments minPostSize {I} _.
Arguments cache_create {I} _ _.

(** A new in-memory implementation object. *)
Class StringImpl (I : Type) := impl_string : bytes -> I.
#[export] Instance string_impl_string : StringImpl StringBuffer.t := StringBuffer.create.

Module Attach.
Section Ops.
Context {I : Type} `{DataBufferImpl I, StringImpl I} {S : Type} {IO : IOStream S}.
Implicit Types h : gmap nat I.
Import Request.

(** The loop [for (it : body_) rsz += stream_->read(it.first, it.second)]: bytes are read
    into the memory of the body; the size is narrowed to [int], the sum is unsigned. *)
Fixpoint read_chunks h (l : nat) (s : S) (chunks : list (Z * bytes)) (rsz : Z)
    : result (gmap nat I * S * Z) :=
  match chunks with
  | [] => Ok (h, s, rsz)
  | (pos, c) :: chunks' =>
      let '(s, d, n) := io_read s (s32 (len c)) in
      match h !! l with
      | Some i => i' ← impl_write i pos d; read_chunks (<[l := i']> h) l s chunks' (u64 (rsz + n))
      | None => Undef
      end
  end.

Definition read_body h (body : DataBuffer) (s : S) : result (gmap nat I * S * Z) :=
  chunks ← Buf.chunks h body;
  match data_ body with
  | Some l => read_chunks h l s chunks 0
  | None => Ok (h, s, 0)
  end.

(** The buffer for the body: in the cache behind the serialized environment, or in
    memory. The second buffer is [post_buffer]. *)
Definition body_buffer h (cache : option (RequestCache I)) (p : Parsed) (size : Z)
    : result (gmap nat I * DataBuffer * DataBuffer) :=
  let in_memory :=
    let '(h, body) := Buf.create h (impl_string []) in
    '(h, body) ← Buf.resize h body size; Ok (h, body, Buf.nil) in
  match cache with
  | Some c =>
      if minPostSize c <=? size then
        '(h, post_buffer) ← cache_create c h;
        '(h, post_buffer, shift) ← Codec.serializeEnv h p post_buffer (u64 (size + 8));
        '(h, shift) ← Codec.serializeInt h post_buffer shift size;
        body ← Buf.view h post_buffer (u64 (begin_ post_buffer + shift)) (end_ post_buffer);
        Ok (h, body, post_buffer)
      else in_memory
  | None => in_memory
  end.

(** The parameters of a body by its content type. *)
Definition body_params h (r : t S) : result Parsed :=
  let type := getContentType r in
  if starts_with_ci (lit "multipart/form-data") type then
    boundary ← Parser.getBoundary type;
    if negb (Range.empty boundary)
    then Parser.parseMultipart h (in_ r) (body_ r) boundary else Ok (in_ r)
  else if negb (starts_with_ci (lit "text/plain") type) &&
          negb (starts_with_ci (lit "application/octet-stream") type) &&
          negb (disablePostParams r)
  then args ← Form.parse h (body_ r) (args_ (in_ r)); Ok (set_args (in_ r) args)
  else Ok (in_ r).

(** [env] is [None] for a null pointer. *)
Definition attach h (cache : option (RequestCache I)) (r : t S) (stream : option S)
    (env : option (list bytes)) : result (gmap nat I * t S) :=
  match stream, env with
  | None, _ => Throw (RuntimeError (lit "Stream is nullptr"))
  | _, None => Throw (RuntimeError (lit "ENV is nullptr"))
  | Some s, Some env =>
      let r := set_in (set_stream r (Some s)) (Parser.parse (in_ r) env) in
      let query := getQueryString r in
      let method := getRequestMethod r in
      if negb (str_eqb (lit "POST") method) && negb (str_eqb (lit "PUT") method) then
        Ok (h, set_in r (set_args (in_ r) (StringUtils.parse query (args_ (in_ r)))))
      else
        length ← getContentLength r;
        let size := u64 length in
        '(h, body, post_buffer) ← body_buffer h cache (in_ r) size;
        let r := set_body r body in
        '(h, s, rsz) ← read_body h body s;
        let r := set_stream r (Some s) in
        if negb (rsz =? size) then Throw (RuntimeError (lit "failed to read request entity"))
        else
          let r := if Range.empty query then r
                   else set_in r (set_args (in_ r) (StringUtils.parse query (args_ (in_ r)))) in
          p ← body_params h r;
          let r := set_in r p in
          if Buf.isNil post_buffer then Ok (h, r)
          else
            let pos := Buf.size post_buffer in
            '(h, post_buffer) ← Buf.resize h post_buffer
              (u64 (pos + 2 * 8 + Codec.filesSerializedSize (in_ r) + Codec.argsSerializedSize (in_ r)));
            '(h, pos) ← Codec.serializeFiles h (in_ r) (body_ r) post_buffer pos;
            '(h, _) ← Codec.serializeArgs h (in_ r) post_buffer pos;
            Ok (h, r)
  end.

(** [restore] clears the input and the output headers, not the output cookies. *)
Definition restore h (r : t S) (buffer : DataBuffer) : result (t S) :=
  '(p, body) ← Codec.parse h buffer no_input;
  Ok (set_body (set_in (set_out_headers r []) p) body).
End Ops.
End Attach.

(** ** The response as a state machine

    What the output side promises, without the object: while it is [Open] it collects a
    status, headers and cookies; the first call that needs them on the wire closes it with
    the [head], and from then on only body bytes follow. *)
Module Response.

(** The calls a handler makes on the response. *)
Inductive call :=
| SetStatus (status : Z)
| SetHeader (name value : bytes)
| SetCookie (c : Cookie.t)
| DeleteCookie (name : bytes)
| SendHeaders
| SendError (status : Z)
| Write (d : bytes)
| WriteBuf (d : bytes)
| Redirect (path : bytes).

Inductive phase :=
| Open (status : Z) (headers : list (bytes * bytes)) (cookies : list (bytes * Cookie.t))
| Closed (head body : bytes).

Definition status_line (status : Z) : bytes :=
  to_string status ++ lit " " ++ Parser.statusToString status.

Definition header_text (i : bytes * bytes) : bytes := i.1 ++ lit ": " ++ i.2 ++ Request.crlf.

Definition cookie_text (i : bytes * Cookie.t) : bytes :=
  match Cookie.toString i.2 with
  | Ok c => lit "Set-Cookie: " ++ c ++ Request.crlf
  | _ => []
  end.

Definition head_text (status : Z) headers cookies : bytes :=
  flat_map header_text (om_put StringCILess headers (lit "Status") (status_line status)) ++
  flat_map cookie_text cookies ++ Request.crlf.

Definition error_headers : list (bytes * bytes) := [(lit "Content-type", lit "text/html")].

(** One call; the flag says that it returns normally. *)
Definition spec_step (head_only : bool) (p : phase) (c : call) : phase * bool :=
  let sent d := if head_only then [] else d in
  match p, c with
  | Open _ hs cs, SetStatus st => (Open st hs cs, true)
  | Open st hs cs, SetHeader n v =>
      (Open st (om_put StringCILess hs (Parser.normalizeOutputHeaderName n) v) cs, true)
  | Open st hs cs, SetCookie c => (Open st hs (om_put str_ltb cs (Cookie.name_ c) c), true)
  | Open st hs cs, DeleteCookie n =>
      (Open st hs (om_put str_ltb cs n (Cookie.expires (Cookie.create n []) 0)), true)
  | Open _ hs cs, Redirect path =>
      (Open 302 (om_put StringCILess hs (lit "Location") path) cs, true)
  | Open st hs cs, SendHeaders => (Closed (head_text st hs cs) [], true)
  | Open _ _ _, SendError st =>
      (Closed (head_text st error_headers []) (concat (Request.error_page st)), true)
  | Open st hs cs, (Write d | WriteBuf d) => (Closed (head_text st hs cs) (sent d), true)
  | Closed _ _, SendHeaders => (p, true)
  | Closed h b, (Write d | WriteBuf d) => (Closed h (b ++ sent d), true)
  | Closed _ _, _ => (p, false)
  end.

Fixpoint spec_run (head_only : bool) (p : phase) (cs : list call) : phase * list bool :=
  match cs with
  | [] => (p, [])
  | c :: cs' =>
      let '(p, ok) := spec_step head_only p c in
      let '(p, oks) := spec_run head_only p cs' in (p, ok :: oks)
  end.

Section Run.
Context {S : Type} {IO : IOStream S}.
Import Request.

(** A setter that throws leaves the object as it is. *)
Definition setter (r : t S) (res : result (t S)) : t S * bool :=
  match res with Ok r' => (r', true) | _ => (r, false) end.

Definition action {A} (p : t S * result A) : t S * bool :=
  (p.1, match p.2 with Ok _ => true | _ => false end).

(** One call on the object, and a sequence of calls whose exceptions the caller catches. *)
Definition exec (r : t S) (c : call) : t S * bool :=
  match c with
  | SetStatus st => setter r (setStatus r st)
  | SetHeader n v => setter r (setHeader r n v)
  | SetCookie c => setter r (setCookie r c)
  | DeleteCookie n => setter r (deleteCookie r n)
  | SendHeaders => action (sendHeaders r)
  | SendError st => action (sendError r st)
  | Write d => action (write r d)
  | WriteBuf d => action (write_buf r d)
  | Redirect path => setter r (redirectToPath r path)
  end.

Fixpoint run (r : t S) (cs : list call) : t S * list bool :=
  match cs with
  | [] => (r, [])
  | c :: cs' =>
      let '(r, ok) := exec r c in
      let '(r, oks) := run r cs' in (r, ok :: oks)
  end.
End Run.

(** What a call may carry: sizes an [int] holds, a 16-bit status, a cookie whose date can
    be printed. *)
Definition fits (d : bytes) : Prop := len d < 2 ^ 31.
Definition fits_header (i : bytes * bytes) : Prop := fits i.1 /\ fits i.2.
Definition fits_cookie (c : Cookie.t) : Prop := exists s, Cookie.toString c = Ok s /\ fits s.

Definition call_ok (c : call) : Prop :=
  match c with
  | SetStatus st | SendError st => 0 <= st < 2 ^ 16
  | SetHeader n v => fits (Parser.normalizeOutputHeaderName n) /\ fits v
  | SetCookie c => fits_cookie c
  | DeleteCookie n => fits_cookie (Cookie.expires (Cookie.create n []) 0)
  | Redirect path => fits path
  | SendHeaders => True
  | Write d | WriteBuf d => fits d
  end.

Definition open_ok (status : Z) (hs : list (bytes * bytes)) (cs : list (bytes * Cookie.t)) : Prop :=
  0 <= status < 2 ^ 16 /\ Forall fits_header hs /\ Forall (fun i => fits_cookie i.2) cs.

Section Sim.
Context {S : Type} {IO : IOStream S} (pending written : S -> bytes) `{!IOStreamOk S pending written}.
Import Request.
Implicit Types (r : t S) (s : S).

Lemma s32_small z : 0 <= z < 2 ^ 31 -> s32 z = z.
Proof. intros. unfold s32. rewrite Z.mod_small; lia. Qed.

(** [wrote r r' d]: [r'] is [r] after [d] went to its stream. *)
Definition wrote r r' (d : bytes) : Prop :=
  exists s s', stream_ r = Some s /\ r' = set_stream r (Some s') /\ written s' = written s ++ d.

Lemma wrote_trans r1 r2 r3 d e : wrote r1 r2 d -> wrote r2 r3 e -> wrote r1 r3 (d ++ e).
Proof.
  intros (s1 & s2 & E1 & -> & W1) (s2' & s3 & E2 & -> & W2). simpl in E2.
  exists s1, s3. split; [done|]. split; [done|].
  injection E2 as <-. by rewrite W2, W1, <- app_assoc.
Qed.

Lemma wrote_nil r : is_Some (stream_ r) -> wrote r r [].
Proof. intros [s E]. exists s, s. rewrite app_nil_r. repeat split; [done|]. by destruct r; simpl in *; rewrite E. Qed.

Lemma wrote_stream r r' d : wrote r r' d -> is_Some (stream_ r').
Proof. intros (s & s' & _ & -> & _). by exists s'. Qed.

Lemma write_stream_ok r d :
  is_Some (stream_ r) -> fits d -> exists r', write_stream r d = (r', Ok tt) /\ wrote r r' d.
Proof.
  intros [s E] Hd. unfold write_stream. rewrite E. pose proof (len_nonneg d).
  rewrite s32_small by done. destruct (ok_io_write s d (len d)) as (s' & -> & _ & W); [lia|].
  eexists. split; [done|]. exists s, s'. repeat split; [done|].
  rewrite W. f_equal. apply take_ge. unfold len. lia.
Qed.

Lemma write_all_ok r ds :
  is_Some (stream_ r) -> Forall fits ds ->
  exists r', write_all r ds = (r', Ok tt) /\ wrote r r' (concat ds).
Proof.
  intros Hr Hf. revert r Hr. induction Hf as [|d ds Hd _ IH]; intros r Hr; simpl.
  - eexists. split; [done|]. by apply wrote_nil.
  - destruct (write_stream_ok r d Hr Hd) as (r1 & -> & W1).
    destruct (IH r1) as (r2 & -> & W2); [by eapply wrote_stream|].
    eexists. split; [done|]. by eapply wrote_trans.
Qed.

Lemma fits_small d : len d < 1024 -> fits d.
Proof. unfold fits. lia. Qed.

Lemma write_cookies_ok r cs :
  is_Some (stream_ r) -> Forall (fun i => fits_cookie i.2) cs ->
  exists r', write_cookies r cs = (r', Ok tt) /\ wrote r r' (flat_map cookie_text cs).
Proof.
  intros Hr Hf. revert r Hr. induction Hf as [|[n c] cs (cookie & Ec & Hc) _ IH]; intros r Hr.
  { eexists. split; [done|]. by apply wrote_nil. }
  cbn [write_cookies flat_map cookie_text snd]. simpl in Ec. unfold cookie_text at 1. cbn [snd]. rewrite Ec.
  destruct (write_stream_ok r (lit "Set-Cookie: ") Hr) as (r1 & -> & W1); [by apply fits_small|].
  destruct (write_all_ok r1 [cookie; crlf]) as (r2 & -> & W2).
  { by eapply wrote_stream. }
  { apply Forall_cons. split; [done|]. by apply Forall_singleton, fits_small. }
  destruct (IH r2) as (r3 & -> & W3); [by eapply wrote_stream|].
  eexists. split; [done|]. cbn [concat] in W2. rewrite app_nil_r in W2.
  pose proof (wrote_trans _ _ _ _ _ (wrote_trans _ _ _ _ _ W1 W2) W3) as W.
  by rewrite <- !app_assoc in W |- *.
Qed.

Lemma flat_map_fits hs : Forall fits_header hs -> Forall fits (flat_map header_pieces hs).
Proof.
  induction 1 as [|[n v] hs [Hn Hv] _ IH]; [constructor|].
  cbn [flat_map header_pieces]. simpl in Hn, Hv.
  repeat (apply Forall_cons; split; [first [done|by apply fits_small]|]). done.
Qed.

Lemma Forall_put hs n v :
  fits n -> fits v -> Forall fits_header hs -> Forall fits_header (om_put StringCILess hs n v).
Proof.
  intros Hn Hv. induction 1 as [|[k x] hs [Hk Hx] Hr IH]; simpl.
  { by repeat constructor. }
  simpl in Hk, Hx. destruct (StringCILess k n); [by constructor|].
  destruct (StringCILess n k); by repeat constructor.
Qed.

Lemma concat_header_pieces hs : concat (flat_map header_pieces hs) = flat_map header_text hs.
Proof.
  induction hs as [|[n v] hs IH]; [done|]. cbn [flat_map]. by rewrite concat_app, IH.
Qed.

(** Every status line is short. *)
Lemma status_text_len st : len (Parser.statusToString st) < 1024.
Proof.
  destruct st as [|p|p]; [done| |done].
  do 10 (destruct p as [p|p|]; try done).
Qed.

Lemma to_string_fits st : 0 <= st < 2 ^ 16 -> fits (to_string st).
Proof. intros. unfold fits. pose proof (to_string_len st). lia. Qed.

Lemma status_line_fits st : 0 <= st < 2 ^ 16 -> fits (status_line st).
Proof.
  intros. unfold fits, status_line. rewrite !len_app.
  pose proof (to_string_len st). pose proof (status_text_len st).
  change (len (lit " ")) with 1. lia.
Qed.

Lemma send_headers_ok r st hs cs :
  is_Some (stream_ r) -> headers_sent_ r = false ->
  status_ r = st -> out_headers_ r = hs -> out_cookies_ r = cs -> open_ok st hs cs ->
  exists r', sendHeadersInternal r = (r', Ok tt) /\
    headers_sent_ r' = true /\ in_ r' = in_ r /\
    exists s s', stream_ r = Some s /\ stream_ r' = Some s' /\
      written s' = written s ++ head_text st hs cs.
Proof.
  intros [s E] Hs <- <- <- (Hst & Hh & Hc). unfold sendHeadersInternal. rewrite Hs.
  set (r0 := set_out_headers r _). change (stream_ r0) with (stream_ r). rewrite E.
  destruct (write_all_ok r0 (flat_map header_pieces (out_headers_ r0))) as (r1 & -> & W1).
  { by exists s. }
  { apply flat_map_fits. by apply Forall_put; [apply fits_small|apply status_line_fits|]. }
  assert (E1 : out_cookies_ r1 = out_cookies_ r) by (by destruct W1 as (? & ? & _ & -> & _)).
  destruct (write_cookies_ok r1 (out_cookies_ r1)) as (r2 & -> & W2).
  { by eapply wrote_stream. }
  { by rewrite E1. }
  destruct (write_stream_ok r2 crlf) as (r3 & -> & W3); [by eapply wrote_stream|by apply fits_small|].
  destruct (wrote_trans _ _ _ _ _ (wrote_trans _ _ _ _ _ W1 W2) W3) as (t & s' & Et & -> & W).
  simpl in Et. rewrite E in Et. injection Et as <-.
  eexists. split; [done|]. split; [done|]. split; [done|]. exists s, s'.
  split; [done|]. split; [done|].
  rewrite W. unfold head_text. rewrite E1, concat_header_pieces, <- !app_assoc. done.
Qed.

(** The object [r] is in phase [p], on a stream where [w0] had been written before. *)
Definition sim (head_only : bool) (w0 : bytes) r (p : phase) : Prop :=
  head_method r = head_only /\ exists s, stream_ r = Some s /\
  match p with
  | Open st hs cs => headers_sent_ r = false /\ status_ r = st /\ out_headers_ r = hs /\
      out_cookies_ r = cs /\ open_ok st hs cs /\ written s = w0
  | Closed h b => headers_sent_ r = true /\ written s = w0 ++ h ++ b
  end.

Lemma head_method_in r r' : in_ r' = in_ r -> head_method r' = head_method r.
Proof. unfold head_method, getRequestMethod, var. by intros ->. Qed.

Lemma send_sim ho w0 r p :
  sim ho w0 r p ->
  exists r' h b, sendHeaders r = (r', Ok tt) /\ sim ho w0 r' (Closed h b) /\
    (spec_step ho p SendHeaders).1 = Closed h b /\
    forall d, (spec_step ho p (Write d)).1 = Closed h (b ++ if ho then [] else d).
Proof.
  intros (Hm & s & E & Hp). destruct p as [st hs cs|h b].
  - destruct Hp as (Hs & Est & Eh & Ec & Hok & W).
    destruct (send_headers_ok r st hs cs) as (r' & Hr & Hs' & Hi & s1 & s2 & E1 & E2 & W2);
      [by eexists|done..|].
    exists r', (head_text st hs cs), []. split; [done|]. split; [|done].
    split; [by rewrite (head_method_in _ _ Hi)|]. exists s2. repeat split; try done.
    rewrite E in E1. injection E1 as <-. by rewrite W2, W, app_nil_r.
  - destruct Hp as [Hs W]. exists r, h, b. unfold sendHeaders, sendHeadersInternal. rewrite Hs.
    split; [done|]. split; [|done]. split; [done|]. by exists s.
Qed.

(** Body bytes in the closed phase. *)
Lemma body_sim ho w0 r r' h b d :
  sim ho w0 r (Closed h b) -> wrote r r' d -> sim ho w0 r' (Closed h (b ++ d)).
Proof.
  intros (Hm & s & E & Hs & W) (s1 & s2 & E1 & -> & W1). split; [done|].
  exists s2. repeat split; [done|]. rewrite E in E1. injection E1 as <-.
  by rewrite W1, W, <- !app_assoc.
Qed.

Lemma sim_stream ho w0 r p : sim ho w0 r p -> is_Some (stream_ r).
Proof. intros (_ & s & E & _). by exists s. Qed.

Lemma write_sim ho w0 r p d :
  sim ho w0 r p -> fits d ->
  exists r', write r d = (r', Ok (len d)) /\ sim ho w0 r' (spec_step ho p (Write d)).1.
Proof.
  intros Hr Hd. destruct (send_sim _ _ _ _ Hr) as (r1 & h & b & E1 & H1 & _ & ->).
  unfold write. rewrite E1. assert (head_method r1 = ho) as -> by apply H1. destruct ho.
  { eexists. split; [done|]. by rewrite app_nil_r. }
  destruct (write_stream_ok r1 d) as (r2 & -> & W); [by eapply sim_stream|done|].
  eexists. split; [done|]. by eapply body_sim.
Qed.

Lemma write_buf_sim ho w0 r p d :
  sim ho w0 r p ->
  exists r', write_buf r d = (r', Ok tt) /\ sim ho w0 r' (spec_step ho p (Write d)).1.
Proof.
  intros Hr. destruct (send_sim _ _ _ _ Hr) as (r1 & h & b & E1 & H1 & _ & ->).
  unfold write_buf. rewrite E1. pose proof H1 as (-> & s & E & _). rewrite E. destruct ho.
  { eexists. split; [done|]. by rewrite app_nil_r. }
  eexists. split; [done|]. eapply body_sim; [done|].
  exists s, (io_write_buf s d). repeat split; [done|]. apply ok_io_write_buf.
Qed.

Lemma error_page_fits st : 0 <= st < 2 ^ 16 -> Forall fits (error_page st).
Proof.
  intros. pose proof (to_string_fits st). unfold error_page.
  repeat (apply Forall_cons; split); auto; apply fits_small; [done..|apply status_text_len|done].
Qed.

Lemma send_error_sim ho w0 r p st :
  sim ho w0 r p -> 0 <= st < 2 ^ 16 ->
  sim ho w0 (action (sendError r st)).1 (spec_step ho p (SendError st)).1 /\
  (action (sendError r st)).2 = (spec_step ho p (SendError st)).2.
Proof.
  intros (Hm & s & E & Hp) Hst. unfold sendError. destruct p as [st0 hs cs|h b].
  - destruct Hp as (Hs & _ & _ & _ & _ & W). rewrite Hs.
    set (r0 := set_out_headers (set_status _ _) _).
    assert (Hr0 : sim ho w0 r0 (Open st error_headers [])).
    { split; [done|]. exists s. split; [done|].
      do 4 (split; [done|]). split; [|done]. split; [done|]. split; [|constructor].
      apply Forall_singleton. split; by apply fits_small. }
    destruct (send_sim _ _ _ _ Hr0) as (r1 & h & b & E1 & H1 & Eh & _).
    injection Eh as <- <-. fold (sendHeaders r0). rewrite E1.
    destruct (write_all_ok r1 (error_page st)) as (r2 & -> & W2);
      [by eapply sim_stream|by apply error_page_fits|].
    split; [|done]. by apply (body_sim _ _ _ _ _ [] _ H1 W2).
  - destruct Hp as [Hs W]. rewrite Hs. split; [|done]. split; [done|]. by exists s.
Qed.

(** The setters: in the open phase they update a field, afterwards they throw. *)
Lemma closed_sim ho w0 r h b :
  sim ho w0 r (Closed h b) -> headers_sent_ r = true.
Proof. by intros (_ & s & _ & ? & _). Qed.

Lemma set_cookie_put r c :
  headers_sent_ r = false ->
  setCookie r c = Ok (set_out_cookies r (om_put str_ltb (out_cookies_ r) (Cookie.name_ c) c)).
Proof.
  intros E. unfold setCookie. rewrite E, om_insert_spec.
  by destruct (om_find str_ltb (out_cookies_ r) (Cookie.name_ c)).
Qed.

Lemma redirect_put r path :
  headers_sent_ r = false ->
  redirectToPath r path = Ok (set_out_headers (set_status r 302)
    (om_put StringCILess (out_headers_ r) (lit "Location") path)).
Proof.
  intros E. unfold redirectToPath, setStatus. rewrite E. cbn [mbind result_bind].
  unfold setHeader. cbn [headers_sent_ set_status]. by rewrite E.
Qed.

Lemma Forall_put_cookie cs n c :
  fits_cookie c -> Forall (fun i => fits_cookie i.2) cs ->
  Forall (fun i => fits_cookie i.2) (om_put str_ltb cs n c).
Proof.
  intros Hn. induction 1 as [|[k x] cs Hk Hr IH]; simpl; [by repeat constructor|].
  destruct (str_ltb k n); [by constructor|]. destruct (str_ltb n k); by repeat constructor.
Qed.

Lemma exec_sim ho w0 r p c :
  sim ho w0 r p -> call_ok c ->
  sim ho w0 (exec r c).1 (spec_step ho p c).1 /\ (exec r c).2 = (spec_step ho p c).2.
Proof.
  intros Hr Hc. destruct c as [st|n v|c|n| |st|d|d|path].
  6: by apply send_error_sim.
  6: { destruct (write_sim _ _ _ _ d Hr Hc) as (r' & E & Hr'). simpl exec. rewrite E. by destruct p. }
  6: { destruct (write_buf_sim _ _ _ _ d Hr) as (r' & E & Hr'). simpl exec. rewrite E. by destruct p. }
  5: { destruct (send_sim _ _ _ _ Hr) as (r' & h & b & E & Hr' & Eh & _). simpl exec. rewrite E, Eh.
       by destruct p. }
  all: destruct p as [st0 hs cs|h b];
    [|pose proof (closed_sim _ _ _ _ _ Hr) as Hs; unfold exec, setStatus, setHeader, deleteCookie,
        setCookie, redirectToPath, setStatus; rewrite Hs; done].
  all: destruct Hr as (Hm & s & E & Hs & <- & <- & <- & (H1 & H2 & H3) & W);
    unfold exec, setStatus, setHeader, deleteCookie;
    rewrite ?set_cookie_put, ?redirect_put by done; rewrite ?Hs; cbn [setter spec_step fst snd].
  all: split; [split; [done|]; exists s|done].
  all: do 5 (split; [done|]); split; [|done].
  all: simpl in Hc; split; [first [done|lia]|]; split;
    first [done|apply Forall_put|apply Forall_put_cookie]; first [done|apply Hc|by apply fits_small].
Qed.

Lemma run_sim ho w0 r p cs :
  sim ho w0 r p -> Forall call_ok cs ->
  sim ho w0 (run r cs).1 (spec_run ho p cs).1 /\ (run r cs).2 = (spec_run ho p cs).2.
Proof.
  intros Hr Hc. revert r p Hr. induction Hc as [|c cs Hc _ IH]; intros r p Hr; [done|].
  cbn [run spec_run]. destruct (exec_sim _ _ _ _ _ Hr Hc) as [H1 H2].
  destruct (exec r c) as [r1 ok1], (spec_step ho p c) as [p1 ok1']. cbn [fst snd] in H1, H2.
  destruct (IH _ _ H1) as [H3 H4].
  destruct (run r1 cs), (spec_run ho p1 cs). cbn [fst snd] in *. by subst.
Qed.

(** C5: the response of a request refines the two-phase specification: for every
    sequence of calls a handler makes (exceptions caught by it), each call returns or
    throws as the specification says, and the stream has received nothing while the
    response is open, and afterwards exactly one head, of the status, headers and cookies
    set before, followed by the body bytes written (none of them for HEAD, except an error
    page). In particular headers go out once and never after a body byte. *)
Theorem response_refines r s cs :
  stream_ r = Some s -> headers_sent_ r = false ->
  open_ok (status_ r) (out_headers_ r) (out_cookies_ r) -> Forall call_ok cs ->
  let spec := spec_run (head_method r) (Open (status_ r) (out_headers_ r) (out_cookies_ r)) cs in
  (run r cs).2 = spec.2 /\
  exists s', stream_ (run r cs).1 = Some s' /\
    match spec.1 with
    | Open st hs ks => headers_sent_ (run r cs).1 = false /\ written s' = written s /\
        status_ (run r cs).1 = st /\ out_headers_ (run r cs).1 = hs /\ out_cookies_ (run r cs).1 = ks
    | Closed head body => headers_sent_ (run r cs).1 = true /\ written s' = written s ++ head ++ body
    end.
Proof.
  intros E Hs Hok Hcs spec.
  destruct (run_sim (head_method r) (written s) r
    (Open (status_ r) (out_headers_ r) (out_cookies_ r)) cs) as [(_ & s' & Es & Hp) Hres]; [|done|].
  - split; [done|]. by exists s.
  - split; [done|]. exists s'. split; [done|]. subst spec. destruct (spec_run _ _ cs).1; [|done].
    by destruct Hp as (? & ? & ? & ? & _ & ?).
Qed.

End Sim.

Definition greeting_calls : list call :=
  [SetHeader (lit "x-a") (lit "1"); SetCookie (Cookie.create (lit "k") (lit "v")); Write (lit "hello");
   SetStatus 404; Write (lit "!")].

Definition fresh_request : Request.t MemStream := Request.set_stream Request.create (Some (MkStream [] [])).

Lemma response_refines_witness :
  exists s', Request.stream_ (run fresh_request greeting_calls).1 = Some s' /\
    output_ s' = flat_map (fun l => lit l ++ Request.crlf)
      ["Status: 200 OK"; "X-A: 1"; "Set-Cookie: k=v; path=/"; ""] ++ lit "hello!".
Proof.
  destruct (response_refines input_ output_ fresh_request (MkStream [] []) greeting_calls)
    as (_ & s' & Hs & Hr).
  - reflexivity.
  - reflexivity.
  - split; [simpl; lia|]. split; constructor.
  - apply Forall_cons. split; [split; by apply fits_small|].
    apply Forall_cons. split; [eexists; split; [vm_compute; reflexivity|by apply fits_small]|].
    apply Forall_cons. split; [by apply fits_small|].
    apply Forall_cons. split; [simpl; lia|]. apply Forall_singleton. by apply fits_small.
  - exists s'. split; [exact Hs|]. vm_compute in Hr. destruct Hr as [_ Hr].
    etransitivity; [exact Hr|reflexivity].
Defined.

End Response.

(** ** Reading the request entity *)

Section Entity.
Context {I : Type} `{DataBufferImplOk I wf contents, !StringImpl I}.
Context {S : Type} {IO : IOStream S} (pending written : S -> bytes) `{!IOStreamOk S pending written}.
Implicit Types (h : gmap nat I) (s : S) (r : Request.t S).

#[local] Abbreviation den := (denotes (wf := wf) (contents := contents)).

Lemma overwrite_overwrite (l : bytes) pos d1 d2 :
  0 <= pos -> pos + len d1 + len d2 <= len l ->
  overwrite (overwrite l pos d1) (pos + len d1) d2 = overwrite l pos (d1 ++ d2).
Proof.
  intros Hp Hl. pose proof (len_nonneg d1). pose proof (len_nonneg d2).
  apply list_eq. intros k. rewrite !overwrite_lookup; rewrite ?overwrite_len, ?len_app; try lia.
  rewrite length_app. unfold len in *. repeat case_decide; try lia; try done.
  - rewrite lookup_app_r by lia. f_equal. lia.
  - by rewrite lookup_app_l by lia.
Qed.

Lemma take_pending s n m :
  0 <= n -> 0 <= m ->
  take (Z.to_nat (n + m)) (pending s) =
  take (Z.to_nat n) (pending s) ++ take (Z.to_nat m) (drop (Z.to_nat n) (pending s)).
Proof. intros. by rewrite Z2Nat.inj_add, take_take_drop by lia. Qed.

(** The reads fill the memory from [b] with what the stream has, up to [e]. *)
Lemma read_chunks_spec h l s chunks b e rsz i :
  consecutive b e chunks -> Forall (fun c => len c.2 < 2 ^ 31) chunks ->
  h !! l = Some i -> wf i -> 0 <= b -> b <= e -> e <= len (contents i) ->
  0 <= rsz -> rsz + (e - b) < 2 ^ 64 ->
  let d := take (Z.to_nat (e - b)) (pending s) in
  exists h' s' i', Attach.read_chunks h l s chunks rsz = Ok (h', s', rsz + len d) /\
    h' !! l = Some i' /\ wf i' /\ contents i' = overwrite (contents i) b d /\
    (forall k, k <> l -> h' !! k = h !! k) /\
    pending s' = drop (Z.to_nat (e - b)) (pending s) /\ written s' = written s.
Proof.
  revert h s b rsz i. induction chunks as [|[p c] chunks IH]; intros h s b rsz i.
  { cbn [consecutive]. intros -> _ Hl Hw Hb _ He Hr Hr'. rewrite Z.sub_diag. cbn zeta.
    exists h, s, i. rewrite take_0, drop_0, len_nil, Z.add_0_r.
    unfold overwrite. simpl. by rewrite Nat.add_0_r, take_drop. }
  cbn [consecutive]. intros (-> & Hc & Hcons) Hf Hl Hw Hb Hbe He Hr Hr'.
  apply Forall_cons in Hf as [Hc' Hf]. cbn [snd] in Hc'.
  assert (Hce : b + len c <= e).
  { clear - Hcons. revert b c Hcons. induction chunks as [|[q x] k IH]; simpl; intros b c; [lia|].
    intros (-> & ? & H3). specialize (IH _ _ H3). lia. }
  cbn [Attach.read_chunks]. rewrite Response.s32_small by lia.
  destruct (ok_io_read s (len c)) as (s1 & -> & Hp & Hwr); [lia|].
  set (d1 := take (Z.to_nat (len c)) (pending s)) in *.
  assert (Hd1 : len d1 <= len c) by (unfold d1, len; rewrite length_take; lia).
  rewrite Hl. destruct (ok_write i b d1) as (i1 & -> & Hw1 & Hc1); [done|lia|lia|].
  cbn [mbind result_bind]. pose proof (len_nonneg d1). rewrite u64_small by lia.
  destruct (IH (<[l:=i1]> h) s1 (b + len c) (rsz + len d1) i1) as (h' & s' & i' & E & Hl' & Hw' & Hc2 & Hfr & Hp' & Hwr');
    try done; try lia; [by rewrite lookup_insert_eq|by rewrite Hc1, overwrite_len by lia|].
  exists h', s', i'. rewrite E. rewrite Hp in *.
  replace (e - b) with (len c + (e - (b + len c))) by lia.
  rewrite take_pending by lia. fold d1. set (d2 := take _ (drop _ _)) in *.
  rewrite len_app. split; [by rewrite Z.add_assoc|]. split; [done|]. split; [done|].
  split; [|split; [|split]].
  - rewrite Hc2, Hc1. destruct (decide (len d1 = len c)) as [Ed|Ed].
    + rewrite <- Ed, overwrite_overwrite; [done|lia|].
      assert (len d2 <= e - (b + len c)) by (unfold d2, len in *; rewrite length_take; lia). lia.
    + assert (d2 = []) as ->.
      { unfold d2. rewrite drop_ge; [apply take_nil|]. unfold d1, len in *. rewrite length_take in Ed. lia. }
      rewrite app_nil_r. unfold overwrite at 1. simpl. by rewrite Nat.add_0_r, take_drop.
  - intros k Hk. rewrite Hfr by done. by rewrite lookup_insert_ne.
  - rewrite Hp', drop_drop. f_equal. lia.
  - by rewrite Hwr'.
Qed.
Lemma consecutive_bound b e chunks :
  consecutive b e chunks -> b <= e /\ Forall (fun c : Z * bytes => len c.2 <= e - b) chunks.
Proof.
  revert b. induction chunks as [|[p c] chunks IH]; intros b; cbn [consecutive].
  - intros ->. split; [lia|constructor].
  - intros (-> & Hc & Hcons). destruct (IH _ Hcons) as [Hle Hf]. split; [lia|].
    constructor; [cbn; lia|]. eapply Forall_impl; [exact Hf|]. cbn. lia.
Qed.

Lemma slice_overwrite_whole (l d : bytes) b e :
  0 <= b -> b <= e -> e <= len l -> len d = e - b -> slice (overwrite l b d) b e = d.
Proof.
  intros. rewrite slice_overwrite_in by lia. rewrite Z.sub_diag. unfold overwrite.
  rewrite drop_ge; [by rewrite app_nil_r|].
  pose proof (slice_len l b e). unfold len in *. simpl. lia.
Qed.

(** Reading into a buffer of [n] bytes, *)
Lemma read_body_spec h d t s :
  den h d t -> len t < 2 ^ 31 ->
  let got := take (Z.to_nat (len t)) (pending s) in
  exists h' s', Attach.read_body h d s = Ok (h', s', len got) /\
    (len got = len t -> den h' d got) /\
    (forall d' t', den h d' t' -> data_ d' <> data_ d -> den h' d' t') /\
    pending s' = drop (Z.to_nat (len t)) (pending s) /\ written s' = written s.
Proof.
  intros Hd Hlt got. unfold Attach.read_body.
  destruct (chunks_view h d t Hd) as (chunks & Hch & _ & Hcons).
  pose proof (denotes_len _ _ _ Hd) as Hlen. pose proof (denotes_bounds _ _ _ Hd).
  pose proof Hd as (l & i & El & Hl & Hw & ? & ? & ? & _). subst got.
  destruct (decide (t = [])) as [->|Hne].
  { unfold Buf.chunks. rewrite (denotes_empty _ _ _ Hd). cbn [Range.empty mbind result_bind].
    rewrite El. exists h, s. change (Z.to_nat (len (@nil byte))) with 0%nat.
    by rewrite take_0, drop_0. }
  rewrite Hch, El. cbn [mbind result_bind]. specialize (Hcons Hne).
  destruct (consecutive_bound _ _ _ Hcons) as [_ Hf].
  destruct (read_chunks_spec h l s chunks (begin_ d) (end_ d) 0 i)
    as (h' & s' & i' & E & Hl' & Hw' & Hc & Hfr & Hp & Hwr); try done; try lia.
  { eapply Forall_impl; [exact Hf|]. cbn. lia. }
  rewrite <- Hlen in *. exists h', s'. split; [exact E|].
  assert (Hg : len (take (Z.to_nat (len t)) (pending s)) <= len t)
    by (unfold len; rewrite length_take; lia).
  split; [|split; [|done]].
  - intros Eg. exists l, i'. split; [done|]. split; [done|]. split; [done|].
    rewrite Hc, overwrite_len by lia. repeat (split; [lia|]).
    by rewrite slice_overwrite_whole by lia.
  - intros d' t' (l' & i0 & E' & Hl0 & Hr) Hne'. exists l', i0. split; [done|].
    rewrite Hfr by congruence. done.
Qed.

(** New string objects hold their string. *)
Context (Hstring : forall d, len d < 2 ^ 63 -> wf (impl_string d) /\ contents (impl_string d) = d).

Definition in_memory (cache : option (RequestCache I)) (size : Z) : Prop :=
  match cache with Some c => size < minPostSize c | None => True end.

Lemma body_buffer_memory h cache p size :
  in_memory cache size -> 0 <= size < 2 ^ 31 ->
  exists h' d t, Attach.body_buffer h cache p size = Ok (h', d, Buf.nil) /\
    den h' d t /\ len t = size /\
    (forall d' t', den h d' t' -> den h' d' t' /\ data_ d' <> data_ d).
Proof.
  intros Hm Hs. destruct (Hstring [] ltac:(done)) as [Hw Hc].
  pose proof (create_denotes h _ Hw) as Hd. rewrite Hc in Hd.
  destruct (resize_view _ _ _ size Hd) as (h' & E & (t & Ht & Hd' & _) & Hfr); [lia|cbn; lia|].
  exists h', (MkDataBuffer (data_ (Buf.create h (impl_string [])).2) 0 (0 + size)), t.
  split; [|split; [done|split; [done|]]].
  - unfold Attach.body_buffer.
    destruct cache as [c|]; [cbn in Hm; rewrite (proj2 (Z.leb_gt _ _)) by done|];
      unfold Buf.create in *; cbn [fst snd] in E |- *; rewrite E; done.
  - intros d' t' H'. pose proof (create_frame h (impl_string []) d' t' H') as Hf.
    assert (data_ d' <> data_ (Buf.create h (impl_string [])).2).
    { destruct H' as (l & j & El & Hl & _). unfold Buf.create. cbn [snd data_]. rewrite El.
      intros [= ->]. pose proof (is_fresh (dom h)) as F. apply F. by apply elem_of_dom_2 in Hl. }
    split; [by apply Hfr|done].
Qed.

(** The request after the environment has been parsed, *)
Definition with_env r s (env : list bytes) : Request.t S :=
  Request.set_in (Request.set_stream r (Some s)) (Parser.parse (Request.in_ r) env).

(** the arguments after the query string, *)
Definition with_query r : Parsed :=
  let p := Request.in_ r in
  if Range.empty (Request.getQueryString r) then p
  else set_args p (StringUtils.parse (Request.getQueryString r) (args_ p)).

(** and the methods that carry an entity. *)
Definition has_entity r : bool :=
  str_eqb (lit "POST") (Request.getRequestMethod r) || str_eqb (lit "PUT") (Request.getRequestMethod r).

Lemma set_args_same p : set_args p (args_ p) = p.
Proof. by destruct p. Qed.

(** [attach] of an entity held in memory: too short a stream is an error, otherwise the
    body is the entity and the parameters are taken from it. *)
Lemma attach_in_memory h cache r s env n :
  let r1 := with_env r s env in
  has_entity r1 = true -> Request.getContentLength r1 = Ok n -> 0 <= n < 2 ^ 31 ->
  in_memory cache n ->
  (len (pending s) < n ->
   Attach.attach h cache r (Some s) (Some env) =
     Throw (RuntimeError (lit "failed to read request entity"))) /\
  (n <= len (pending s) ->
   exists h' r2 s', Attach.attach h cache r (Some s) (Some env) =
       (p ← Attach.body_params h' r2; Ok (h', Request.set_in r2 p)) /\
     r2 = Request.set_stream (Request.set_in (Request.set_body r1 (Request.body_ r2)) (with_query r1)) (Some s') /\
     den h' (Request.body_ r2) (take (Z.to_nat n) (pending s)) /\
     pending s' = drop (Z.to_nat n) (pending s) /\ written s' = written s /\
     (forall d t, den h d t -> den h' d t)).
Proof.
  intros r1 He Hn Hr Hm. unfold Attach.attach.
  change (Request.set_in (Request.set_stream r (Some s)) _) with r1.
  unfold has_entity in He. rewrite <- negb_orb, He, Hn. cbn [negb mbind result_bind].
  rewrite u64_small by lia.
  destruct (body_buffer_memory h cache (Request.in_ r1) n Hm Hr) as (h1 & d & t & -> & Hd & Ht & Hfr).
  cbn [mbind result_bind].
  destruct (read_body_spec h1 d t s Hd) as (h2 & s' & -> & Hd2 & Hfr2 & Hp & Hw); [lia|].
  rewrite Ht in *. cbn [mbind result_bind].
  assert (Hg : len (take (Z.to_nat n) (pending s)) = Z.min n (len (pending s)))
    by (unfold len; rewrite length_take; lia).
  rewrite Hg in *. split; intros Hl.
  - rewrite (proj2 (Z.eqb_neq _ _)) by lia. done.
  - rewrite (proj2 (Z.eqb_eq _ _)) by lia. cbn [negb].
    eexists h2, _, s'. split; [reflexivity|].
    assert (Hb : forall (b : bool) x y, Request.body_ (if b then Request.set_stream (Request.set_body r1 d) x
        else Request.set_in (Request.set_stream (Request.set_body r1 d) x) y) = d) by (by intros []).
    rewrite Hb. split; [|split; [apply Hd2; lia|split; [done|split; [done|]]]].
    + unfold with_query. change (Request.getQueryString (Request.set_stream _ _)) with (Request.getQueryString r1).
      destruct (Range.empty (Request.getQueryString r1)); [|done]. by destruct r1.
    + intros d' t' H'. destruct (Hfr _ _ H'). by apply Hfr2.
Qed.
End Entity.

Section EntityArgs.
Context {S : Type} {IO : IOStream S} (pending written : S -> bytes) `{!IOStreamOk S pending written}.
Implicit Types (h : gmap nat StringBuffer.t) (s : S) (r : Request.t S).

Lemma content_length_range r n : Request.getContentLength r = Ok n -> - 2 ^ 31 <= n < 2 ^ 31.
Proof.
  unfold Request.getContentLength. destruct (Request.header r _) as [|c l]; [intros [= <-]; lia|].
  destruct (stoi (c :: l)) as [v|[]|] eqn:E; intros [= <-]; try lia. by apply stoi_range in E.
Qed.

Lemma string_one_segment :
  Form.one_segment (I := StringBuffer.t) (wf := string_wf) (contents := StringBuffer.data_).
Proof. intros i pos Hw Hp. unfold impl_segment, string_buffer_impl, StringBuffer.segment. cbn. unfold StringBuffer.size. lia. Qed.

Definition plain_body r : bool :=
  starts_with_ci (lit "text/plain") (Request.getContentType r) ||
  starts_with_ci (lit "application/octet-stream") (Request.getContentType r) ||
  Request.disablePostParams r.

(** The input of a request with the entity [body], which is no multipart form. *)
Definition with_entity r (body : bytes) : Parsed :=
  if plain_body r then with_query r
  else set_args (with_query r) (StringUtils.parse body (args_ (with_query r))).

Lemma body_params_form h r1 r2 body :
  sdenotes h (Request.body_ r2) body ->
  Request.in_ r2 = with_query r1 ->
  starts_with_ci (lit "multipart/form-data") (Request.getContentType r1) = false ->
  Attach.body_params h r2 = Ok (with_entity r1 body).
Proof.
  intros Hb Hi Hm.
  assert (Hh : headers_ (Request.in_ r2) = headers_ (Request.in_ r1) /\ vars_ (Request.in_ r2) = vars_ (Request.in_ r1)).
  { rewrite Hi. unfold with_query. by destruct (Range.empty _). }
  destruct Hh as [Hh Hv].
  assert (Ht : Request.getContentType r2 = Request.getContentType r1).
  { unfold Request.getContentType, Request.header. by rewrite Hh. }
  assert (Hdp : Request.disablePostParams r2 = Request.disablePostParams r1).
  { unfold Request.disablePostParams, Request.var. by rewrite Hv. }
  unfold Attach.body_params, with_entity, plain_body. rewrite Ht, Hdp, Hm, <- !negb_orb.
  destruct (_ || _); cbn [negb]; [by rewrite Hi|].
  rewrite (Form.parse_one string_one_segment _ _ _ _ Hb), Hi. done.
Qed.

(** A negative length asks for more than a vector can hold. *)
Lemma body_buffer_negative h cache p n :
  - 2 ^ 31 <= n < 0 -> in_memory cache (u64 n) ->
  Attach.body_buffer h cache p (u64 n) = Throw (LengthError (lit "vector::_M_default_append")).
Proof.
  intros Hn Hm. assert (Hu : u64 n = n + 2 ^ 64)
    by (unfold u64; rewrite <- (Z.mod_add n 1) by lia; apply Z.mod_small; lia).
  assert (E : forall h', Buf.resize (<[fresh (dom h) := impl_string []]> h')
    (MkDataBuffer (Some (fresh (dom h))) 0 0) (u64 n) =
    Throw (LengthError (lit "vector::_M_default_append"))).
  { intros h'. unfold Buf.resize, Buf.deref. cbn [data_ begin_].
    rewrite lookup_insert_eq. cbn [mbind result_bind]. rewrite Hu, u64_small by lia.
    unfold impl_resize, string_buffer_impl, StringBuffer.resize. by rewrite (proj2 (Z.leb_le _ _)) by lia. }
  unfold Attach.body_buffer, Buf.create. change (impl_size (impl_string [])) with 0. rewrite E.
  destruct cache as [c|]; [|done]. cbn in Hm. by rewrite (proj2 (Z.leb_gt _ _)) by done.
Qed.

(** A multipart form is what the parser makes of it, in addition to the query string; without a
    boundary it adds nothing. *)
Definition with_form h r (body : DataBuffer) : result Parsed :=
  boundary ← Parser.getBoundary (Request.getContentType r);
  if Range.empty boundary then Ok (with_query r) else Parser.parseMultipart h (with_query r) body boundary.

Lemma body_params_multipart h r1 r2 :
  Request.in_ r2 = with_query r1 ->
  starts_with_ci (lit "multipart/form-data") (Request.getContentType r1) = true ->
  Attach.body_params h r2 = with_form h r1 (Request.body_ r2).
Proof.
  intros Hi Hm.
  assert (Ht : Request.getContentType r2 = Request.getContentType r1).
  { unfold Request.getContentType, Request.header. rewrite Hi. unfold with_query. by destruct (Range.empty _). }
  unfold Attach.body_params, with_form. rewrite Ht, Hm, Hi. destruct (Parser.getBoundary _) as [boundary|e|]; [|done..].
  cbn [mbind result_bind]. by destruct (Range.empty boundary).
Qed.

(** C36: attaching a stream to a request that carries an entity kept in memory: a
    negative length and a stream that ends before [Content-Length] bytes are errors;
    otherwise the body views exactly the next [Content-Length] bytes of the stream, which
    are consumed and nothing else. Of a request that is no multipart form the arguments are
    those of the query string followed by those of the body, the body's only when its type and
    the [DISABLE_POST_PARAMS] variable say so. A multipart form is, on top of the query
    string, what its parser makes of the body, and a form that it cannot read makes [attach]
    throw. *)
Theorem attach_entity h cache r s env n :
  let r1 := with_env r s env in
  has_entity r1 = true -> Request.getContentLength r1 = Ok n -> in_memory cache (u64 n) ->
  (n < 0 -> exists e, Attach.attach h cache r (Some s) (Some env) = Throw (LengthError e)) /\
  (len (pending s) < n -> Attach.attach h cache r (Some s) (Some env) =
     Throw (RuntimeError (lit "failed to read request entity"))) /\
  (0 <= n <= len (pending s) ->
   let body := take (Z.to_nat n) (pending s) in
   exists h' d s', sdenotes h' d body /\ pending s' = drop (Z.to_nat n) (pending s) /\ written s' = written s /\
     Attach.attach h cache r (Some s) (Some env) =
       (p ← (if starts_with_ci (lit "multipart/form-data") (Request.getContentType r1)
             then with_form h' r1 d else Ok (with_entity r1 body));
        Ok (h', Request.set_stream (Request.set_in (Request.set_body r1 d) p) (Some s')))).
Proof.
  intros r1 He Hn Hm. pose proof (content_length_range _ _ Hn) as Hr.
  assert (Hs : forall d, len d < 2 ^ 63 -> string_wf (impl_string d) /\ StringBuffer.data_ (impl_string d) = d) by done.
  split; [|destruct (Z.ltb_spec n 0)].
  - intros Hneg. eexists. unfold Attach.attach.
    change (Request.set_in (Request.set_stream r (Some s)) _) with r1.
    unfold has_entity in He. rewrite <- negb_orb, He, Hn. cbn [negb mbind result_bind].
    rewrite body_buffer_negative by (done || lia). reflexivity.
  - pose proof (len_nonneg (pending s)). split; intros; lia.
  - rewrite u64_small in Hm by lia.
    destruct (attach_in_memory pending written Hs h cache r s env n He Hn ltac:(lia) Hm) as [H1 H2].
    split; [exact H1|]. intros Hl body.
    destruct (H2 ltac:(lia)) as (h' & r2 & s' & E & Er2 & Hb & Hp & Hw & _).
    exists h', (Request.body_ r2), s'. split; [exact Hb|]. split; [done|]. split; [done|]. rewrite E.
    assert (Hi : Request.in_ r2 = with_query r1) by (by rewrite Er2).
    destruct (starts_with_ci _ _) eqn:Hmp;
      [rewrite (body_params_multipart h' r1 r2 Hi Hmp)|rewrite (body_params_form h' r1 r2 body Hb Hi Hmp)].
    + destruct (with_form h' r1 (Request.body_ r2)); [|done..]. cbn [mbind result_bind]. by rewrite Er2.
    + cbn [mbind result_bind]. by rewrite Er2.
Qed.
End EntityArgs.

Definition post_env : list bytes :=
  map lit ["REQUEST_METHOD=POST"; "CONTENT_LENGTH=5"; "QUERY_STRING=q=1";
           "CONTENT_TYPE=application/x-www-form-urlencoded"].

Lemma attach_entity_witness :
  exists h' r' s',
    Attach.attach ∅ None Request.create (Some (MkStream (lit "a=%41NEXT") [])) (Some post_env) = Ok (h', r') /\
    Request.getArgs r' (lit "a") = [lit "A"] /\ Request.getArgs r' (lit "q") = [lit "1"] /\
    input_ s' = lit "NEXT" /\ Request.stream_ r' = Some s'.
Proof.
  destruct (attach_entity input_ output_ ∅ None Request.create (MkStream (lit "a=%41NEXT") []) post_env 5)
    as (_ & _ & H).
  - reflexivity.
  - reflexivity.
  - exact Logic.I.
  - destruct H as (h' & d & s' & _ & Hp & _ & E); [vm_compute; split; discriminate|].
    exists h', (Request.set_stream (Request.set_in (Request.set_body
      (with_env Request.create (MkStream (lit "a=%41NEXT") []) post_env) d)
      (with_entity (with_env Request.create (MkStream (lit "a=%41NEXT") []) post_env) (lit "a=%41"))) (Some s')), s'.
    split; [exact E|]. split; [reflexivity|]. split; [reflexivity|]. split; [exact Hp|reflexivity].
Defined.

(** ** Arguments by name *)

Section Arguments.
Context {S : Type}.
Implicit Types r : Request.t S.

(** The set the names are collected in. *)
Definition name_set (args : list (bytes * bytes)) (names : list (bytes * unit)) : list (bytes * unit) :=
  foldl (fun names i => (om_insert str_ltb names i.1 tt).1) names args.

Lemma name_set_spec args names name :
  sorted str_ltb names ->
  sorted str_ltb (name_set args names) /\
  (is_Some (om_find str_ltb (name_set args names) name) <->
   is_Some (om_find str_ltb names name) \/ name ∈ map fst args).
Proof.
  revert names. induction args as [|[n v] args IH]; intros names Hs; cbn [name_set foldl map].
  { split; [done|]. rewrite elem_of_nil. tauto. }
  destruct (IH (om_insert str_ltb names n tt).1) as [H1 H2]; [by apply sorted_insert; try typeclasses eauto|].
  unfold name_set in *. cbn [fst]. split; [exact H1|]. rewrite H2, elem_of_cons, om_insert_spec.
  destruct (om_find str_ltb names n) as [u|] eqn:E; cbn [fst].
  - assert (name = n -> is_Some (om_find str_ltb names name)) by (intros ->; by exists u). tauto.
  - rewrite om_find_put by done. destruct (keq str_ltb n name) eqn:Ek.
    + apply str_keq in Ek as ->. split; [by auto|]. intros _. left. by exists tt.
    + assert (name <> n) by (intros ->; rewrite (proj2 (str_keq n n)) in Ek; done). tauto.
Qed.

Lemma om_find_elem (m : list (bytes * unit)) name :
  sorted str_ltb m -> (is_Some (om_find str_ltb m name) <-> name ∈ map fst m).
Proof.
  induction m as [|[k v] m IH]; intros Hs; simpl.
  { rewrite elem_of_nil. split; [by intros []|done]. }
  apply sorted_inv in Hs as [Hs Hf]. rewrite elem_of_cons, <- IH by done. cbn [fst] in Hf.
  destruct (str_ltb k name) eqn:E1.
  { split; [auto|]. intros [->|?]; [|done]. by rewrite swo_irrefl in E1. }
  destruct (str_ltb name k) eqn:E2.
  - split; [by intros []|]. intros [->|Hn]; [by rewrite swo_irrefl in E2|].
    rewrite (om_find_lt str_ltb) in Hn; [by destruct Hn|]. eapply Forall_impl; [exact Hf|]. cbn. intros x Hx.
    by eapply swo_trans.
  - split; [|eauto]. left. symmetry. by apply str_keq, keq_spec.
Qed.

Lemma getArgs_filter args name :
  Request.getArgs_in args name = map snd (filter (fun i => i.1 = name) args).
Proof.
  induction args as [|[n v] args IH]; [done|]. cbn [Request.getArgs_in fst].
  rewrite filter_cons. cbn [fst]. unfold str_eqb. case_bool_decide; case_decide; try done.
  cbn [map]. by rewrite IH.
Qed.

(** The accessors of the arguments agree: all the values of a name are the values of the
    arguments with that name in their order, the single value is the first of them or
    empty, and a name is present exactly when it has a value and exactly when the list of
    names, which is sorted and has no duplicates, contains it. *)
Theorem arg_accessors r name :
  let args := args_ (Request.in_ r) in
  Request.getArgs r name = map snd (filter (fun i => i.1 = name) args) /\
  Request.getArg r name = default [] (head (Request.getArgs r name)) /\
  (Request.hasArg r name = true <-> Request.getArgs r name <> []) /\
  (Request.hasArg r name = true <-> name ∈ Request.argNames r) /\
  StronglySorted (fun a b => str_ltb a b = true) (Request.argNames r).
Proof.
  intros args. unfold Request.getArgs, Request.getArg, Request.hasArg, Request.argNames. fold args.
  assert (Hin : Request.hasArg_in args name = true <-> name ∈ map fst args).
  { induction args as [|[n v] args IH]; cbn [Request.hasArg_in map fst]; [by rewrite elem_of_nil|].
    rewrite elem_of_cons, <- IH. unfold str_eqb. case_bool_decide; [by intuition|].
    assert (name <> n) by congruence. tauto. }
  destruct (name_set_spec args [] name (sorted_nil _)) as [Hs Hf]. fold (name_set args []).
  split; [apply getArgs_filter|]. split; [|split; [|split]].
  - clear. induction args as [|[n v] args IH]; [done|]. cbn. by destruct (str_eqb n name).
  - clear. induction args as [|[n v] args IH]; [done|]. cbn. by destruct (str_eqb n name).
  - rewrite Hin, <- om_find_elem by done. rewrite Hf. split; [auto|].
    intros [[? ?]|?]; done.
  - clear -Hs. induction Hs as [|[n v] m Hs IH Hf]; [constructor|]. cbn [map fst].
    constructor; [done|]. apply Forall_map. exact Hf.
Qed.
End Arguments.
