(* ===== verification/Session.v ===== *)
(** * Session

    [library/attributes_holder.cpp] and [library/session.cpp]. Times are readings of the
    steady clock in nanoseconds, passed in as [now]; a [std::function] is given by a
    number, and calling the listeners is the list of their calls in order. *)

From S2P Require Import Prelude Cxx.

(** [core::any] comes from a library the container uses: its values, the empty one, and
    the test for it. *)
Class Any (V : Type) := {
  any_empty : V;
  any_is_empty : V -> bool
}.

(** The default-constructed value is empty. *)
Class AnyOk (V : Type) `{Any V} := {
  ok_any_empty : any_is_empty any_empty = true
}.

Module AttributesHolder.

Inductive ListenerEventType := UPDATE_ATTRIBUTE | REMOVE_ATTRIBUTE.

Section Ops.
Context {V : Type} `{Any V}.

Record t := AttributesHolder {
  attributes_ : gmap bytes V;
  listeners_ : list nat;
  invokeListeners_ : bool
}.

(** One call of a listener. Exceptions it throws are swallowed. *)
Record event := MkEvent {
  listener : nat;
  type_ : ListenerEventType;
  name_ : bytes;
  value_ : V
}.

Definition create (invokeListeners : bool) : t := AttributesHolder ∅ [] invokeListeners.

Definition set_attributes (a : t) v : t := AttributesHolder v (listeners_ a) (invokeListeners_ a).
Definition set_listeners (a : t) v : t := AttributesHolder (attributes_ a) v (invokeListeners_ a).

Definition notify (a : t) (type : ListenerEventType) (name : bytes) (attr : V) : list event :=
  if invokeListeners_ a then map (fun f => MkEvent f type name attr) (listeners_ a) else [].

Definition setAttributeInternal (a : t) (name : bytes) (attr : V) : t * list event :=
  let a := match attributes_ a !! name with
           | None => set_attributes a (<[name := attr]> (attributes_ a))
           | Some _ => set_attributes a (<[name := attr]> (attributes_ a))
           end in
  (a, notify a UPDATE_ATTRIBUTE name attr).

Definition setAttribute (a : t) (name : bytes) (attr : V) : t * list event :=
  setAttributeInternal a name attr.

Definition getAttribute (a : t) (name : bytes) : V :=
  match attributes_ a !! name with Some v => v | None => any_empty end.

(** The typed forms; [cast] is [any_cast], which throws on another type. *)
Definition getAttribute_as {T} (cast : V -> result T) (a : t) (name : bytes) : result T :=
  let attr := getAttribute a name in
  if negb (any_is_empty attr) then cast attr
  else Throw (RuntimeError (lit "Attribute not found")).

Definition getAttribute_default {T} (cast : V -> result T) (a : t) (name : bytes) (defaultValue : T)
    : result T :=
  let attr := getAttribute a name in
  if negb (any_is_empty attr) then cast attr else Ok defaultValue.

Definition hasAttribute (a : t) (name : bytes) : bool :=
  match attributes_ a !! name with Some _ => true | None => false end.

(** The listeners are called with [*it] after [erase(it)]: that reads a destroyed element,
    so a removal is only defined when nobody listens. *)
Definition removeAttribute (a : t) (name : bytes) : result t :=
  match attributes_ a !! name with
  | Some _ =>
      let a := set_attributes a (delete name (attributes_ a)) in
      if invokeListeners_ a && negb (bool_decide (listeners_ a = [])) then Undef else Ok a
  | None => Ok a
  end.

Definition removeAllAttributes (a : t) : t := set_attributes a ∅.

Definition addListener (a : t) (f : nat) : t * Z :=
  let a := set_listeners a (listeners_ a ++ [f]) in (a, len (listeners_ a) - 1).

Definition removeListener (a : t) (index : Z) : t :=
  if index <? len (listeners_ a)
  then set_listeners a (delete (Z.to_nat index) (listeners_ a)) else a.
End Ops.

Arguments t V : clear implicits.
Arguments event V : clear implicits.
End AttributesHolder.

Module Session.
Section Ops.
Context {V : Type}.

Record t := MkSession {
  attributes_ : AttributesHolder.t V;
  id_ : bytes;
  created_ : Z;
  last_accessed_ : Z;
  max_inactive_interval_ : Z;   (* minutes *)
  subject_ : option nat
}.

Definition ns_of_minutes (m : Z) : Z := m * 60 * 1000000000.

Definition create (id : bytes) (now : Z) : t :=
  MkSession (AttributesHolder.create true) id now now 30 None.

Definition set_attributes (s : t) v : t :=
  MkSession v (id_ s) (created_ s) (last_accessed_ s) (max_inactive_interval_ s) (subject_ s).
Definition changeId (s : t) (newId : bytes) : t :=
  MkSession (attributes_ s) newId (created_ s) (last_accessed_ s) (max_inactive_interval_ s) (subject_ s).
Definition set_last_accessed (s : t) v : t :=
  MkSession (attributes_ s) (id_ s) (created_ s) v (max_inactive_interval_ s) (subject_ s).
Definition setMaxInactiveInterval (s : t) (minutes : Z) : t :=
  MkSession (attributes_ s) (id_ s) (created_ s) (last_accessed_ s) minutes (subject_ s).
Definition setSubject (s : t) (subject : option nat) : t :=
  MkSession (attributes_ s) (id_ s) (created_ s) (last_accessed_ s) (max_inactive_interval_ s) subject.

Definition getId (s : t) : bytes := id_ s.
Definition getCreationTime (s : t) : Z := created_ s.
Definition getLastAccessedTime (s : t) : Z := last_accessed_ s.

Definition updateLastAccessedTime (s : t) (now : Z) : t := set_last_accessed s now.

Definition isExpired (s : t) (now : Z) : bool :=
  last_accessed_ s + ns_of_minutes (max_inactive_interval_ s) <? now.

Definition invalidate (s : t) (now : Z) : t :=
  let s := setSubject (set_attributes s (AttributesHolder.removeAllAttributes (attributes_ s))) None in
  set_last_accessed s (now - ns_of_minutes (max_inactive_interval_ s)).

(** [anonymous] is the shared anonymous subject. *)
Definition getSubject (s : t) (anonymous : nat) : nat :=
  match subject_ s with Some p => p | None => anonymous end.
End Ops.
Arguments t V : clear implicits.
End Session.

(** ** Attributes *)

Section Attributes.
Context {V : Type} `{AnyOk V}.
Implicit Types a : AttributesHolder.t V.
Import AttributesHolder.

(** An attribute holder is a map with notifications: a value that was set is read back
    until it is set again or removed, other names are not touched, every listener is told
    exactly once and in the order of registration, and a missing attribute reads as the
    empty value, the given default or an exception. *)
Theorem attribute_map a name v T (cast : V -> result T) (d : T) :
  let '(a', events) := setAttribute a name v in
  (forall n, getAttribute a' n = if decide (n = name) then v else getAttribute a n) /\
  (forall n, hasAttribute a' n = bool_decide (n = name) || hasAttribute a n) /\
  listeners_ a' = listeners_ a /\
  events = (if invokeListeners_ a
            then map (fun f => MkEvent f UPDATE_ATTRIBUTE name v) (listeners_ a) else []) /\
  (hasAttribute a name = false ->
   any_is_empty (getAttribute a name) = true /\ getAttribute_default cast a name d = Ok d /\
   getAttribute_as cast a name = Throw (RuntimeError (lit "Attribute not found")) /\
   removeAttribute a name = Ok a) /\
  (listeners_ a = [] -> exists a'', removeAttribute a' name = Ok a'' /\
     forall n, attributes_ a'' !! n = if decide (n = name) then None else attributes_ a !! n).
Proof.
  unfold setAttribute, setAttributeInternal.
  assert (E : match attributes_ a !! name with
              | Some _ => set_attributes a (<[name:=v]> (attributes_ a))
              | None => set_attributes a (<[name:=v]> (attributes_ a)) end =
              set_attributes a (<[name:=v]> (attributes_ a))) by (by destruct (_ !! _)).
  rewrite E. clear E. split; [|split; [|split; [done|split; [done|split]]]].
  - intros n. unfold getAttribute. cbn [attributes_ set_attributes]. case_decide as Hn.
    + subst. by rewrite lookup_insert_eq.
    + by rewrite lookup_insert_ne by congruence.
  - intros n. unfold hasAttribute. cbn [attributes_ set_attributes]. case_bool_decide as Hn.
    + subst. by rewrite lookup_insert_eq.
    + by rewrite lookup_insert_ne by congruence.
  - unfold hasAttribute, getAttribute_default, getAttribute_as, getAttribute, removeAttribute.
    destruct (attributes_ a !! name); [done|]. intros _. by rewrite ok_any_empty.
  - intros Hl. unfold removeAttribute. cbn [attributes_ set_attributes].
    rewrite lookup_insert_eq. cbn [listeners_ invokeListeners_ attributes_ set_attributes].
    rewrite Hl, andb_false_r. eexists. split; [done|].
    intros n. cbn [attributes_ set_attributes].
    case_decide as Hn; [subst; apply lookup_delete_eq|].
    by rewrite lookup_delete_ne, lookup_insert_ne by congruence.
Qed.
End Attributes.

(** A value type: an optional number. *)
#[export] Instance option_any : Any (option Z) := {
  any_empty := None;
  any_is_empty v := bool_decide (v = None)
}.

#[export] Instance option_any_ok : AnyOk (option Z).
Proof. by split. Qed.

Definition visits : AttributesHolder.t (option Z) * list (AttributesHolder.event (option Z)) :=
  AttributesHolder.setAttribute (AttributesHolder.create true) (lit "visits") (Some 3).

Lemma attribute_map_witness :
  AttributesHolder.getAttribute visits.1 (lit "visits") = Some 3 /\
  AttributesHolder.hasAttribute visits.1 (lit "other") = false.
Proof.
  pose proof (attribute_map (AttributesHolder.create (V := option Z) true) (lit "visits") (Some 3)
    Z (fun v => Ok (default 0 v)) 0) as H.
  fold visits in H. destruct visits as [a events] eqn:E.
  destruct H as (Hget & Hhas & _). split.
  - etransitivity; [apply (Hget (lit "visits"))|reflexivity].
  - etransitivity; [apply (Hhas (lit "other"))|reflexivity].
Defined.
