(* ===== verification/SessionManager.v ===== *)
(** * SessionManager

    [library/session_manager.cpp], [session-manager/simple_session_manager.cpp] and the
    session members of [library/request.cpp].

    Sessions are shared pointers with a deleter that calls back into the manager, so the
    ownership is part of the model: [store] holds the session objects by address,
    [sessions_] the pointers of the table ([None] after a move), and [held] one entry for
    every pointer outside the table, in requests and local variables. Dropping a pointer
    runs the deleter when it was the last one. Each public operation holds [mutex_] from
    beginning to end; the deleter, which erases from the table too, does not take it, so that a
    last pointer dropped in one thread while another is in an operation is a data race. The
    operations are modelled one after the other, and such races are outside the model.

    [crawler] is [std::regex_match] with the crawler expression; [ids] are the values that
    [UUIDUtils::getNewId] returns, in order. An operation that asks for more of them is
    still looping, which the outer [option] says. *)

From S2P Require Import Prelude Cxx OrdMap Ranges Cookie Parser Request Session.

Module SessionManager.

Definition SESSION_COOKIE_NAME : bytes := lit "JSESSIONID".
Definition crawler_agent_session_id : bytes := lit "crawler-fixed-sesson-id".
Definition crawler_session_timeout_min : Z := 5.

Section Ops.
Context {V : Type} {S : Type} {IO : IOStream S} (crawler : bytes -> bool).
Implicit Types r : Request.t S.

Record t := MkManager {
  sessions_ : gmap bytes (option nat);
  store : gmap nat (Session.t V);
  held : list nat;
  sessionCookieHttpOnly_ : bool;
  max_inactive_interval_ : Z;
  stopped_ : bool
}.
Implicit Types m : t.

Definition set_sessions m v : t :=
  MkManager v (store m) (held m) (sessionCookieHttpOnly_ m) (max_inactive_interval_ m) (stopped_ m).
Definition set_store m v : t :=
  MkManager (sessions_ m) v (held m) (sessionCookieHttpOnly_ m) (max_inactive_interval_ m) (stopped_ m).
Definition set_held m v : t :=
  MkManager (sessions_ m) (store m) v (sessionCookieHttpOnly_ m) (max_inactive_interval_ m) (stopped_ m).
Definition set_stopped m v : t :=
  MkManager (sessions_ m) (store m) (held m) (sessionCookieHttpOnly_ m) (max_inactive_interval_ m) v.

(** The constructor, with the configured timeout in minutes. *)
Definition create_manager (timeout : Z) : t := MkManager ∅ ∅ [] true timeout false.

Definition with_session m (p : nat) (f : Session.t V -> Session.t V) : t :=
  set_store m (alter f p (store m)).

(** *** Pointers *)

Definition in_table m (p : nat) : bool :=
  existsb (fun kv => bool_decide (kv.2 = Some p)) (map_to_list (sessions_ m)).

Definition referenced m (p : nat) : bool := bool_decide (p ∈ held m) || in_table m p.

Definition hold m (p : nat) : t := set_held m (p :: held m).

(** After a pointer to [p] is gone: the deleter, [SessionManager::invalidate], when it was the
    last. It erases the entry under the identifier of the session, whatever session that
    entry has, which may in turn drop a last pointer. *)
Fixpoint release_fuel (n : nat) m (p : nat) : t :=
  match n with
  | O => m
  | Datatypes.S n' =>
      if referenced m p then m
      else
        match store m !! p with
        | None => m
        | Some s =>
            let m' :=
              match sessions_ m !! Session.getId s with
              | Some q =>
                  let m1 := set_sessions m (delete (Session.getId s) (sessions_ m)) in
                  match q with Some q => release_fuel n' m1 q | None => m1 end
              | None => m
              end in
            set_store m' (delete p (store m'))
        end
  end.

(** Each nested call has erased an entry of the table. *)
Definition release m (p : nat) : t := release_fuel (Datatypes.S (size (sessions_ m))) m p.

Fixpoint remove_one (p : nat) (l : list nat) : list nat :=
  match l with
  | [] => []
  | q :: l' => if decide (q = p) then l' else q :: remove_one p l'
  end.

(** A pointer outside the table goes out of scope. *)
Definition drop m (p : nat) : t := release (set_held m (remove_one p (held m))) p.

(** *** New sessions *)

Definition isBot r : bool :=
  let userAgent := Request.getHeader r (lit "USER-AGENT") in
  negb (Range.empty userAgent) && crawler userAgent.

Definition getNewId r (ids : list bytes) : option (bytes * list bytes) :=
  if negb (isBot r) then match ids with id :: ids' => Some (id, ids') | [] => None end
  else Some (crawler_agent_session_id, ids).

(** [std::make_shared] failing is not modelled; the pointer is held by the caller. *)
Definition newSession m (id : bytes) (now : Z) : t * nat :=
  let p := fresh (dom (store m)) in
  (hold (set_store m (<[p := Session.create id now]> (store m))) p, p).

(** [while (!sessions_.insert({id, session}).second)]: a new session for every identifier
    that is taken; the assignment drops the one before. *)
Fixpoint insert_loop m (p : nat) (id : bytes) (ids : list bytes) (now : Z) : option (t * nat) :=
  match sessions_ m !! id with
  | None => Some (set_sessions m (<[id := Some p]> (sessions_ m)), p)
  | Some _ =>
      match ids with
      | [] => None
      | id' :: ids' =>
          let '(m, q) := newSession m id' now in
          insert_loop (drop m p) q id' ids' now
      end
  end.

Definition createInternal m r (ids : list bytes) (now : Z) : option (result (t * nat)) :=
  '(id, ids) ← getNewId r ids;
  if negb (str_eqb crawler_agent_session_id id) then
    let '(m, p) := newSession m id now in
    '(m, p) ← insert_loop m p id ids now;
    Some (Ok (with_session m p (fun s => Session.setMaxInactiveInterval s (max_inactive_interval_ m)), p))
  else
    let m :=
      match sessions_ m !! id with
      | None =>
          let '(m, p) := newSession m id now in
          let m := set_sessions m (<[id := Some p]> (sessions_ m)) in
          with_session m p (fun s => Session.setMaxInactiveInterval s crawler_session_timeout_min)
      | Some q => match q with Some p => hold m p | None => m end
      end in
    match sessions_ m !! id with
    | Some (Some p) =>
        Some (Ok (with_session m p (fun s => Session.updateLastAccessedTime s now), p))
    | _ => Some Undef
    end.

Definition session_cookie m r (id : bytes) : Cookie.t :=
  Cookie.secure (Cookie.httpOnly (Cookie.create SESSION_COOKIE_NAME id) (sessionCookieHttpOnly_ m))
    (Request.isSecure r).

(** The second half of [create] and [get]: a new session and its cookie. The local pointer
    becomes the returned one, or goes when [setCookie] throws. *)
Definition createWithCookie m r (ids : list bytes) (now : Z) : option (t * Request.t S * result nat) :=
  res ← createInternal m r ids now;
  match res with
  | Ok (m, p) =>
      match store m !! p with
      | Some s =>
          match Request.setCookie r (session_cookie m r (Session.getId s)) with
          | Ok r' => Some (m, r', Ok p)
          | Throw e => Some (drop m p, r, Throw e)
          | Undef => Some (m, r, Undef)
          end
      | None => Some (m, r, Undef)
      end
  | Throw e => Some (m, r, Throw e)
  | Undef => Some (m, r, Undef)
  end.

(** The session of the request's cookie. *)
Definition find_session m r : option nat :=
  if Request.hasCookie r SESSION_COOKIE_NAME then
    match sessions_ m !! Request.getCookie r SESSION_COOKIE_NAME with
    | Some (Some p) => Some p
    | _ => None
    end
  else None.

Definition create m r (ids : list bytes) (now : Z) : option (t * Request.t S * result nat) :=
  let m := match find_session m r with
           | Some p => with_session m p (fun s => Session.invalidate s now)
           | None => m
           end in
  createWithCookie m r ids now.

Definition get m r (ids : list bytes) (now : Z) : option (t * Request.t S * result nat) :=
  match find_session m r with
  | Some p => Some (hold (with_session m p (fun s => Session.updateLastAccessedTime s now)) p, r, Ok p)
  | None => createWithCookie m r ids now
  end.

(** The pointer is moved out of the entry before [insert]; when the new identifier is taken
    the moved pointer goes with the temporary. If its deleter has erased the entry [it]
    refers to, [erase(it)] is undefined. *)
Definition changeId m r (ids : list bytes) : option (t * Request.t S * result unit) :=
  match find_session m r with
  | Some p =>
      let old := Request.getCookie r SESSION_COOKIE_NAME in
      '(id, _) ← getNewId r ids;
      let m := with_session m p (fun s => Session.changeId s id) in
      let m := set_sessions m (<[old := None]> (sessions_ m)) in
      let m := match sessions_ m !! id with
               | None => set_sessions m (<[id := Some p]> (sessions_ m))
               | Some _ => release m p
               end in
      match sessions_ m !! old with
      | None => Some (m, r, Undef)
      | Some _ =>
          let m := set_sessions m (delete old (sessions_ m)) in
          match Request.setCookie r (session_cookie m r id) with
          | Ok r' => Some (m, r', Ok tt)
          | Throw e => Some (m, r, Throw e)
          | Undef => Some (m, r, Undef)
          end
      end
  | None => Some (m, r, Ok tt)
  end.

(** *** Removal *)

(** [sessions_.erase(it++)] *)
Definition erase_entry m (id : bytes) : t :=
  match sessions_ m !! id with
  | Some q =>
      let m := set_sessions m (delete id (sessions_ m)) in
      match q with Some p => release m p | None => m end
  | None => m
  end.

Definition invalidateAll m : t := foldl erase_entry m (map fst (map_to_list (sessions_ m))).

Definition expired_entry m (now : Z) (id : bytes) : bool :=
  match sessions_ m !! id with
  | Some (Some p) => match store m !! p with Some s => Session.isExpired s now | None => false end
  | _ => false
  end.

(** One round of [checkSessionTimeout], all of it at the time [now]. *)
Definition checkSessionTimeout m (now : Z) : t :=
  foldl (fun m id => if expired_entry m now id then erase_entry m id else m) m
    (map fst (map_to_list (sessions_ m))).

Definition stop m : t := invalidateAll (set_stopped m true).

(** *** The members of [Request] *)

Definition opt_drop m (p : option nat) : t := match p with Some p => drop m p | None => m end.

(** The session pointer a request returns to its caller is one more. *)
Definition return_session m r : t * Request.t S * result (option nat) :=
  match Request.session_ r with
  | Some p => (hold m p, r, Ok (Some p))
  | None => (m, r, Ok None)
  end.

(** [session_] after the [try] block: an exception resets it. *)
Definition caught (res : result nat) : result (option nat) :=
  match res with
  | Ok p => Ok (Some p)
  | Throw _ => Ok None
  | Undef => Undef
  end.

(** The outer option is [None] while the manager is still looking for an identifier. *)
Definition createSession m r (ids : list bytes) (now : Z) : option (t * Request.t S * result (option nat)) :=
  '(m, r', res) ← create m r ids now;
  match caught res with
  | Ok p => Some (return_session (opt_drop m (Request.session_ r)) (Request.set_session r' p))
  | res => Some (m, r', res)
  end.

Definition getSession m r (ids : list bytes) (now : Z) : option (t * Request.t S * result (option nat)) :=
  match Request.session_ r with
  | Some _ => Some (return_session m r)
  | None =>
      '(m, r', res) ← get m r ids now;
      match caught res with
      | Ok p => Some (return_session m (Request.set_session r' p))
      | res => Some (m, r', res)
      end
  end.

Definition changeSessionId m r (ids : list bytes) : option (t * Request.t S * result unit) :=
  changeId m r ids.

(** [Request::isBot] asks the manager and returns [false] whatever it answers. *)
Definition Request_isBot (m : option t) r : bool :=
  match m with Some _ => let _ := isBot r in false | None => false end.
End Ops.

Arguments t V : clear implicits.
End SessionManager.

(** ** The ownership invariant *)

Section Invariant.
Context {V : Type} {S : Type} {IO : IOStream S} (crawler : bytes -> bool).
Implicit Types (r : Request.t S) (m : SessionManager.t V).
Import SessionManager.

(** The table maps an identifier to a live session with that identifier, every pointer
    outside it is to a live session, every live session is reachable by one of them, and no
    two live sessions share an identifier. *)
Definition table_ok m : Prop :=
  forall id q, sessions_ m !! id = Some q ->
    exists p s, q = Some p /\ store m !! p = Some s /\ Session.getId s = id.
Definition held_ok m : Prop := forall p, p ∈ held m -> is_Some (store m !! p).
Definition no_leak m : Prop := forall p, is_Some (store m !! p) -> referenced m p = true.
Definition ids_unique m : Prop :=
  forall p q s t, store m !! p = Some s -> store m !! q = Some t ->
    Session.getId s = Session.getId t -> p = q.

Record good m : Prop := {
  good_table : table_ok m;
  good_held : held_ok m;
  good_leak : no_leak m;
  good_unique : ids_unique m
}.

(** No live session has the identifier. *)
Definition fresh_id m (id : bytes) : Prop :=
  forall p s, store m !! p = Some s -> Session.getId s <> id.

Lemma in_table_spec m p :
  in_table m p = true <-> exists id, sessions_ m !! id = Some (Some p).
Proof.
  unfold in_table. rewrite existsb_exists. split.
  - intros ([id q] & Hin & Hq). apply bool_decide_eq_true in Hq. cbn in Hq. subst q.
    exists id. by apply elem_of_map_to_list, list_elem_of_In.
  - intros [id Hid]. exists (id, Some p). split.
    + by apply list_elem_of_In, elem_of_map_to_list.
    + by apply bool_decide_eq_true.
Qed.

Lemma referenced_spec m p :
  referenced m p = true <-> p ∈ held m \/ exists id, sessions_ m !! id = Some (Some p).
Proof. unfold referenced. by rewrite orb_true_iff, bool_decide_eq_true, in_table_spec. Qed.

Lemma fresh_id_table m id : table_ok m -> fresh_id m id -> sessions_ m !! id = None.
Proof.
  intros Ht Hf. destruct (sessions_ m !! id) as [q|] eqn:E; [|done].
  destruct (Ht _ _ E) as (p & s & _ & Hs & Hid). by destruct (Hf _ _ Hs).
Qed.

(** Dropping a pointer where only this object may have become unreachable: the deleter frees
    it if so, and nothing else happens. *)
Lemma release_spec m p :
  table_ok m -> ids_unique m -> is_Some (store m !! p) ->
  release m p = if referenced m p then m else set_store m (delete p (store m)).
Proof.
  intros Ht Hu [s Hs]. unfold release. cbn [release_fuel].
  destruct (referenced m p) eqn:Hr; [done|]. rewrite Hs.
  destruct (sessions_ m !! Session.getId s) as [q|] eqn:E; [|done].
  destruct (Ht _ _ E) as (p' & s' & -> & Hs' & Hid).
  rewrite (Hu _ _ _ _ Hs' Hs Hid) in E.
  assert (referenced m p = true) by (apply referenced_spec; eauto). congruence.
Qed.

Lemma release_good m p :
  table_ok m -> held_ok m -> ids_unique m -> is_Some (store m !! p) ->
  (forall q, is_Some (store m !! q) -> q <> p -> referenced m q = true) ->
  good (release m p).
Proof.
  intros Ht Hh Hu Hp Hl. rewrite release_spec by done.
  destruct (referenced m p) eqn:Hr.
  - split; [done..| |done]. intros q Hq. destruct (decide (q = p)) as [->|]; auto.
  - assert (Hn : (p ∉ held m) /\ forall id, sessions_ m !! id <> Some (Some p)).
    { split; [intros Hin|intros id Hin]; rewrite (proj2 (referenced_spec m p)) in Hr; eauto; done. }
    destruct Hn as [Hn1 Hn2]. split; cbn [set_store].
    + intros id q Hq. destruct (Ht _ _ Hq) as (p' & s & -> & Hs & Hid). exists p', s.
      repeat split; [|done]. cbn. rewrite lookup_delete_ne; [done|]. intros <-. by apply (Hn2 id).
    + intros q Hq. cbn in *. rewrite lookup_delete_ne by congruence. auto.
    + intros q Hq. cbn in Hq. destruct (decide (q = p)) as [->|].
      { rewrite lookup_delete_eq in Hq. by destruct Hq. }
      rewrite lookup_delete_ne in Hq by done. by apply Hl.
    + intros q q' s s' Hs Hs'. cbn in *. apply lookup_delete_Some in Hs as [_ Hs].
      apply lookup_delete_Some in Hs' as [_ Hs']. eauto.
Qed.

Lemma remove_one_elem p q l : q <> p -> (q ∈ remove_one p l <-> q ∈ l).
Proof.
  intros Hne. induction l as [|x l IH]; [done|]. cbn [remove_one]. case_decide as Hx.
  - subst. rewrite elem_of_cons. tauto.
  - by rewrite !elem_of_cons, IH.
Qed.

Lemma remove_one_sub p q l : q ∈ remove_one p l -> q ∈ l.
Proof.
  induction l as [|x l IH]; [done|]. cbn [remove_one]. case_decide; rewrite !elem_of_cons; intuition.
Qed.

Lemma drop_good m p : good m -> p ∈ held m -> good (drop m p).
Proof.
  intros [Ht Hh Hl Hu] Hp. unfold drop. apply release_good; [exact Ht| |exact Hu| |].
  - intros q Hq. apply Hh. exact (remove_one_sub _ _ _ Hq).
  - by apply Hh.
  - intros q Hq Hne. apply Hl in Hq. rewrite referenced_spec in *. cbn. by rewrite remove_one_elem.
Qed.

(** The last pointer taken goes first; while another stays, nothing else happens. *)
Lemma drop_held m p hs :
  held m = p :: hs -> p ∈ hs -> drop m p = set_held m hs.
Proof.
  intros Hh Hp. unfold drop. rewrite Hh. cbn [remove_one]. case_decide; [|done].
  unfold release. cbn [release_fuel].
  assert (referenced (set_held m hs) p = true) as -> by (apply referenced_spec; by left). done.
Qed.

Lemma hold_good m p : good m -> is_Some (store m !! p) -> good (hold m p).
Proof.
  intros [Ht Hh Hl Hu] Hp. split; [exact Ht| | |exact Hu].
  - intros q [->|Hq]%elem_of_cons; [done|]. by apply Hh.
  - intros q Hq. apply Hl in Hq. rewrite referenced_spec in *. cbn. rewrite elem_of_cons. tauto.
Qed.

(** Changing the fields of a session other than the identifier. *)
Lemma with_session_good m p f :
  good m -> (forall s, Session.getId (f s) = Session.getId s) -> good (with_session m p f).
Proof.
  intros [Ht Hh Hl Hu] Hf.
  assert (Hsome : forall q, is_Some (alter f p (store m) !! q) <-> is_Some (store m !! q)).
  { intros q. destruct (decide (p = q)) as [<-|].
    - rewrite lookup_alter_eq. by rewrite fmap_is_Some.
    - by rewrite lookup_alter_ne. }
  assert (Hget : forall q s, alter f p (store m) !! q = Some s ->
    exists s0, store m !! q = Some s0 /\ Session.getId s0 = Session.getId s).
  { intros q s. rewrite lookup_alter_Some. intros [(-> & s0 & H0 & ->)|[_ H0]]; eauto. }
  split; cbn [with_session set_store].
  - intros id q Hq. destruct (Ht _ _ Hq) as (p' & s & -> & Hs & Hid). cbn.
    destruct (proj2 (Hsome p')) as [s' Hs']; [by eexists|]. exists p', s'. repeat split; [done|].
    destruct (Hget _ _ Hs') as (s0 & H0 & <-). congruence.
  - intros q Hq. apply Hsome. by apply Hh.
  - intros q Hq%Hsome. apply Hl in Hq. by rewrite referenced_spec in *.
  - intros q q' s s' Hs Hs' Hid. cbn in *. destruct (Hget _ _ Hs) as (? & ? & ?).
    destruct (Hget _ _ Hs') as (? & ? & ?). eapply Hu; eauto. congruence.
Qed.

(** *** New sessions *)

Lemma newSession_good m id now :
  good m -> fresh_id m id ->
  good (newSession m id now).1 /\ store m !! (newSession m id now).2 = None.
Proof.
  intros [Ht Hh Hl Hu] Hf. unfold newSession. cbn [fst snd].
  set (p := fresh (dom (store m))).
  assert (Hp : store m !! p = None) by (apply not_elem_of_dom, is_fresh).
  split; [|done]. split; cbn.
  - intros id' q Hq. destruct (Ht _ _ Hq) as (p' & s & -> & Hs & Hid). exists p', s. repeat split; [|done].
    cbn. rewrite lookup_insert_ne; [done|]. intros <-. congruence.
  - intros q Hq. cbn. destruct (decide (p = q)) as [<-|]; [by rewrite lookup_insert_eq|].
    rewrite lookup_insert_ne by done. apply elem_of_cons in Hq as [->|Hq]; [done|by apply Hh].
  - intros q Hq. cbn in Hq. apply referenced_spec. cbn. rewrite elem_of_cons.
    destruct (decide (p = q)) as [<-|]; [auto|]. rewrite lookup_insert_ne in Hq by done.
    apply Hl, referenced_spec in Hq as [?|?]; auto.
  - intros q q' s s' Hs Hs' Hid. cbn in *.
    apply lookup_insert_Some in Hs as [[<- <-]|[Hq Hs]], Hs' as [[<- <-]|[Hq' Hs']]; try done.
    + by destruct (Hf _ _ Hs').
    + by destruct (Hf _ _ Hs).
    + by eapply Hu.
Qed.

Lemma table_insert_good m p id s :
  good m -> sessions_ m !! id = None -> store m !! p = Some s -> Session.getId s = id ->
  good (set_sessions m (<[id := Some p]> (sessions_ m))).
Proof.
  intros [Ht Hh Hl Hu] Hn Hs Hid. split; [|exact Hh| |exact Hu].
  - intros id' q. cbn. rewrite lookup_insert_Some. intros [[<- <-]|[_ Hq]]; [by exists p, s|].
    by apply Ht.
  - intros q Hq. apply Hl in Hq. rewrite referenced_spec in *. cbn.
    destruct Hq as [?|[id' Hq]]; [auto|]. right. exists id'. rewrite lookup_insert_ne by congruence. done.
Qed.

(** A session for a user with an unused identifier. *)
Definition new_session m (id : bytes) (now : Z) : Session.t V :=
  Session.setMaxInactiveInterval (Session.create id now) (max_inactive_interval_ m).

Definition after_new m (id : bytes) (now : Z) : SessionManager.t V :=
  let p := fresh (dom (store m)) in
  hold (set_sessions (set_store m (<[p := new_session m id now]> (store m)))
    (<[id := Some p]> (sessions_ m))) p.

Definition user_id r (id : bytes) : Prop := isBot crawler r = false /\ id <> crawler_agent_session_id.

Lemma createInternal_user m r id ids now :
  good m -> user_id r id -> fresh_id m id ->
  createInternal crawler m r (id :: ids) now =
    Some (Ok (after_new m id now, fresh (dom (store m)))) /\
  good (after_new m id now).
Proof.
  intros Hg [Hb Hid] Hf. pose proof (fresh_id_table _ _ (good_table _ Hg) Hf) as Hn.
  destruct (newSession_good m id now Hg Hf) as [Hg' Hp].
  set (p := fresh (dom (store m))) in *.
  assert (E : with_session (set_sessions (newSession m id now).1 (<[id := Some p]> (sessions_ m))) p
    (fun s => Session.setMaxInactiveInterval s (max_inactive_interval_ m)) = after_new m id now).
  { unfold with_session, after_new, newSession, set_store, set_sessions, hold, set_held. cbn.
    f_equal. by rewrite alter_insert_eq. }
  split.
  - unfold createInternal, getNewId. rewrite Hb. cbn [negb mbind option_bind].
    assert (str_eqb crawler_agent_session_id id = false) as -> by (apply str_eqb_false; congruence).
    cbn [negb newSession]. destruct ids; cbn [insert_loop sessions_ hold set_held set_store];
      rewrite Hn; cbn [mbind option_bind]; rewrite <- E; done.
  - rewrite <- E. apply with_session_good; [|done].
    apply (table_insert_good (newSession m id now).1 p id (Session.create id now)); [done..| |done].
    unfold newSession. cbn. apply lookup_insert_eq.
Qed.

Definition cookie_set m r (id : bytes) : Request.t S :=
  Request.set_out_cookies r
    (om_put str_ltb (Request.out_cookies_ r) SESSION_COOKIE_NAME (session_cookie m r id)).

Lemma createWithCookie_user m r id ids now :
  good m -> user_id r id -> fresh_id m id -> Request.headers_sent_ r = false ->
  createWithCookie crawler m r (id :: ids) now =
    Some (after_new m id now, cookie_set m r id, Ok (fresh (dom (store m)))).
Proof.
  intros Hg Hid Hf Hs. destruct (createInternal_user m r id ids now Hg Hid Hf) as [E _].
  unfold createWithCookie. rewrite E. cbn [mbind option_bind after_new store hold set_held set_sessions set_store].
  rewrite lookup_insert_eq. rewrite Response.set_cookie_put by done. done.
Qed.

Lemma find_session_table m r p :
  find_session m r = Some p ->
  sessions_ m !! Request.getCookie r SESSION_COOKIE_NAME = Some (Some p).
Proof.
  unfold find_session. destruct (Request.hasCookie r _); [|done].
  destruct (sessions_ m !! _) as [[q|]|]; congruence.
Qed.

(** The request of a client that sends a session identifier back. *)
Definition presents r (id : bytes) : Prop :=
  om_find str_ltb (cookies_ (Request.in_ r)) SESSION_COOKIE_NAME = Some id.

Lemma find_session_presents m r id p :
  presents r id -> sessions_ m !! id = Some (Some p) -> find_session m r = Some p.
Proof.
  intros Hr Hp. unfold find_session, Request.hasCookie, Request.getCookie, Parser.has, Parser.get.
  unfold presents in Hr. rewrite !Hr. by rewrite Hp.
Qed.

(** C23: sessions continue across requests. A request whose cookie names a session of the table
    gets that very session, refreshed, and no cookie; any other request of a user gets a new
    session, distinct from every live one, in the table under the identifier that its cookie
    carries, so that a later request which presents that cookie finds it; no other session
    is changed, and the ownership invariant is kept. *)
Theorem session_continuity m r id ids now :
  good m ->
  match find_session m r with
  | Some p => exists s, store m !! p = Some s /\
      get crawler m r ids now = Some (hold (with_session m p (fun s => Session.updateLastAccessedTime s now)) p, r, Ok p)
  | None =>
      user_id r id -> fresh_id m id -> Request.headers_sent_ r = false ->
      let p := fresh (dom (store m)) in
      get crawler m r (id :: ids) now = Some (after_new m id now, cookie_set m r id, Ok p) /\
      store m !! p = None /\ store (after_new m id now) !! p = Some (new_session m id now) /\
      (forall q, q <> p -> store (after_new m id now) !! q = store m !! q) /\
      (forall r2, presents r2 id -> find_session (after_new m id now) r2 = Some p) /\
      good (after_new m id now)
  end.
Proof.
  intros Hg. unfold get. destruct (find_session m r) as [p|] eqn:E.
  - apply find_session_table in E. destruct (good_table _ Hg _ _ E) as (p' & s & [= <-] & Hs & _). eauto.
  - intros Hid Hf Hs. set (p := fresh _). split; [by apply createWithCookie_user|].
    split; [by destruct (newSession_good m id now Hg Hf)|].
    split; [cbn; apply lookup_insert_eq|].
    split; [intros q Hq; cbn; by rewrite lookup_insert_ne|].
    split; [|by apply (createInternal_user m r id ids now)].
    intros r2 Hr2. apply (find_session_presents _ _ id); [done|]. cbn. apply lookup_insert_eq.
Qed.

(** C24: [create] starts afresh for a request that is not a crawler's: the session the cookie named
    before is emptied, loses its subject and is expired from then on, while the new session is
    another object under the new identifier; nothing else changes. The headers have not been sent
    (otherwise [setCookie] throws), and the identifier that the generator gives is that of no
    live session. Crawlers are left out: they all share one session, so that [create] may give
    back the one it has just emptied. *)
Theorem create_session_fresh m r p s id ids now :
  good m -> find_session m r = Some p -> store m !! p = Some s ->
  user_id r id -> fresh_id m id -> Request.headers_sent_ r = false ->
  exists m' r' p', create crawler m r (id :: ids) now = Some (m', r', Ok p') /\
    p' <> p /\ good m' /\ sessions_ m' !! id = Some (Some p') /\
    store m' !! p' = Some (new_session m id now) /\
    (exists s', store m' !! p = Some s' /\ Session.getId s' = Session.getId s /\
       Session.subject_ s' = None /\ AttributesHolder.attributes_ (Session.attributes_ s') = ∅ /\
       forall later, now < later -> Session.isExpired s' later = true) /\
    (forall q, q <> p -> q <> p' -> store m' !! q = store m !! q) /\
    (forall k, k <> id -> sessions_ m' !! k = sessions_ m !! k).
Proof.
  intros Hg Hp Hs Hid Hf Hh. unfold create. rewrite Hp.
  set (m1 := with_session m p _).
  assert (Hg1 : good m1) by (by apply with_session_good).
  assert (Es : store m1 !! p = Some (Session.invalidate s now))
    by (cbn; rewrite lookup_alter_eq, Hs; done).
  assert (Hf1 : fresh_id m1 id).
  { intros q t Hq. cbn in Hq. apply lookup_alter_Some in Hq as [(-> & t0 & Ht0 & ->)|[_ Hq]];
      [by apply (Hf _ _ Ht0)|by apply (Hf _ _ Hq)]. }
  rewrite (createWithCookie_user m1 r id ids now Hg1 Hid Hf1 Hh).
  destruct (newSession_good m1 id now Hg1 Hf1) as [_ Hnew]. unfold newSession in Hnew. cbn [snd] in Hnew.
  set (p' := fresh (dom (store m1))) in *.
  assert (Hne : p' <> p) by congruence.
  eexists _, _, p'. split; [reflexivity|]. split; [done|].
  split; [by apply (createInternal_user m1 r id ids now)|]. cbn.
  split; [apply lookup_insert_eq|]. fold p'. split; [by rewrite lookup_insert_eq|].
  split; [|split].
  - exists (Session.invalidate s now). rewrite lookup_insert_ne by done. split; [exact Es|].
    repeat split. intros later Hl. unfold Session.isExpired, Session.invalidate. cbn. lia.
  - intros q Hq Hq'. rewrite lookup_insert_ne by done. by rewrite lookup_alter_ne.
  - intros k Hk. by rewrite lookup_insert_ne by done.
Qed.

(** A session under another, unused identifier. *)
Lemma rekey_good m m' p s id :
  good m -> store m !! p = Some s -> fresh_id m id ->
  held m' = held m -> store m' = <[p := Session.changeId s id]> (store m) ->
  (forall k, sessions_ m' !! k =
     if decide (k = id) then Some (Some p)
     else if decide (k = Session.getId s) then None else sessions_ m !! k) ->
  good m'.
Proof.
  intros [Htb Hh' Hl Hu] Hs Hf Eh Est Esess. split.
  - intros k q. rewrite Esess, Est. repeat case_decide; subst; try done.
    + intros [= <-]. exists p, (Session.changeId s id). by rewrite lookup_insert_eq.
    + intros Hq. destruct (Htb _ _ Hq) as (q' & t & -> & Hq' & Hid). exists q', t.
      rewrite lookup_insert_ne; [done|]. intros <-. rewrite Hs in Hq'. congruence.
  - intros q Hq. rewrite Est. rewrite Eh in Hq. destruct (decide (p = q)) as [<-|];
      [by rewrite lookup_insert_eq|by rewrite lookup_insert_ne; [apply Hh'|]].
  - intros q Hq. rewrite Est in Hq. apply referenced_spec. rewrite Eh.
    destruct (decide (p = q)) as [<-|]; [right; exists id; rewrite Esess; by case_decide|].
    rewrite lookup_insert_ne in Hq by done. apply Hl, referenced_spec in Hq as [?|[k Hk]]; [auto|].
    right. exists k. rewrite Esess. pose proof (fresh_id_table _ _ Htb Hf).
    repeat case_decide; subst; try congruence. destruct (Htb _ _ Hk) as (q' & t & [= <-] & Hq' & Hid).
    destruct n. by eapply Hu.
  - intros q q' t t'. rewrite Est.
    intros [[<- <-]|[Hq Hq1]]%lookup_insert_Some [[<- <-]|[Hq' Hq1']]%lookup_insert_Some;
      cbn; intros Hid; try done.
    + by destruct (Hf _ _ Hq1').
    + by destruct (Hf _ _ Hq1).
    + by eapply Hu.
Qed.

(** What is left after the identifier of the session [p] has changed to [id]. *)
Definition rekeyed m m' (p : nat) (s : Session.t V) (id : bytes) : Prop :=
  good m' /\ store m' = <[p := Session.changeId s id]> (store m) /\
  (forall k, sessions_ m' !! k =
     if decide (k = id) then Some (Some p)
     else if decide (k = Session.getId s) then None else sessions_ m !! k) /\
  held m' = held m.

Lemma changeId_rekeys m r p s id ids rest :
  good m -> find_session m r = Some p -> store m !! p = Some s ->
  getNewId crawler r ids = Some (id, rest) -> fresh_id m id ->
  exists m', rekeyed m m' p s id /\ changeId crawler m r ids =
    Some (match Request.setCookie r (session_cookie m r id) with
          | Ok r' => (m', r', Ok tt)
          | Throw e => (m', r, Throw e)
          | Undef => (m', r, Undef)
          end).
Proof.
  intros Hg Hp Hs Hid Hf. pose proof (fresh_id_table _ _ (good_table _ Hg) Hf) as Hn.
  pose proof (find_session_table _ _ _ Hp) as Ht.
  destruct (good_table _ Hg _ _ Ht) as (p' & s' & [= <-] & Hs' & Hold).
  rewrite Hs in Hs'. injection Hs' as <-.
  unfold changeId. rewrite Hp, Hid. cbn [mbind option_bind].
  rewrite <- Hold in *. clear Hold. set (old := Session.getId s) in *.
  assert (Hne : old <> id) by (intros ->; congruence).
  cbn [sessions_ with_session set_store set_sessions].
  rewrite (lookup_insert_ne _ old id) by done. rewrite Hn. cbn [sessions_ set_sessions].
  rewrite (lookup_insert_ne _ id old) by done. rewrite lookup_insert_eq.
  match goal with |- context [(?m1, r, Undef)] => exists m1 end.
  split; [|by destruct (Request.setCookie r _)].
  assert (Est : alter (fun s => Session.changeId s id) p (store m) = <[p := Session.changeId s id]> (store m)).
  { apply map_eq. intros q. destruct (decide (p = q)) as [<-|].
    - by rewrite lookup_alter_eq, lookup_insert_eq, Hs.
    - by rewrite lookup_alter_ne, lookup_insert_ne. }
  assert (Esess : forall k, delete old (<[id := Some p]> (<[old := None]> (sessions_ m))) !! k =
       if decide (k = id) then Some (Some p) else if decide (k = old) then None else sessions_ m !! k).
  { intros k. repeat case_decide; subst.
    - by rewrite lookup_delete_ne, lookup_insert_eq.
    - by rewrite lookup_delete_eq.
    - by rewrite lookup_delete_ne, !lookup_insert_ne by congruence. }
  split; [|split; [exact Est|split; [exact Esess|done]]].
  by apply (rekey_good m _ p s id).
Qed.

(** A crawler that changes the identifier of the session of the crawlers, to which somebody has
    another pointer, takes it out of the table. *)
Lemma changeId_shared m r p ids :
  good m -> find_session m r = Some p -> isBot crawler r = true ->
  Request.getCookie r SESSION_COOKIE_NAME = crawler_agent_session_id -> p ∈ held m ->
  exists m', good m' /\ changeId crawler m r ids =
    Some (match Request.setCookie r (session_cookie m r crawler_agent_session_id) with
          | Ok r' => (m', r', Ok tt)
          | Throw e => (m', r, Throw e)
          | Undef => (m', r, Undef)
          end).
Proof.
  intros Hg Hp Hb Hold Hh. pose proof (find_session_table _ _ _ Hp) as Ht. rewrite Hold in Ht.
  destruct (good_table _ Hg _ _ Ht) as (p' & s & [= <-] & Hs & Hid).
  unfold changeId, getNewId. rewrite Hp, Hb, Hold. cbn [negb mbind option_bind].
  cbn [sessions_ with_session set_store set_sessions]. rewrite lookup_insert_eq.
  set (m1 := set_sessions _ _). assert (Er : release m1 p = m1).
  { unfold release. cbn [release_fuel]. by rewrite (proj2 (referenced_spec m1 p)) by (by left). }
  rewrite Er. cbn [sessions_ m1 set_sessions]. rewrite lookup_insert_eq.
  match goal with |- context [(?m1, r, Undef)] => exists m1 end.
  split; [|by destruct (Request.setCookie r _)]. unfold m1, set_sessions, with_session, set_store.
  cbn [sessions_ store held sessionCookieHttpOnly_ max_inactive_interval_ stopped_]. rewrite delete_insert_eq. clear m1 Er.
  assert (Es : alter (fun s => Session.changeId s crawler_agent_session_id) p (store m) = store m).
  { apply map_eq. intros q. destruct (decide (p = q)) as [<-|]; [|by rewrite lookup_alter_ne].
    rewrite lookup_alter_eq, Hs. cbn [fmap option_fmap option_map]. f_equal.
    destruct s. unfold Session.changeId, Session.getId in *. cbn in Hid |- *. by subst. }
  rewrite Es. destruct Hg as [Htb Hh' Hl Hu]. split; [|exact Hh'| |exact Hu].
  - intros id q. cbn. intros [_ Hq]%lookup_delete_Some. by apply Htb.
  - intros q Hq. apply Hl in Hq. rewrite referenced_spec in *. cbn [held sessions_].
    destruct Hq as [?|[id Hq]]; [by left|]. destruct (decide (q = p)) as [->|Hne]; [by left|]. right. exists id. rewrite lookup_delete_ne; [done|].
    intros <-. congruence.
Qed.

Lemma changeId_user m r p s id ids :
  good m -> find_session m r = Some p -> store m !! p = Some s ->
  user_id r id -> fresh_id m id -> Request.headers_sent_ r = false ->
  exists m', changeId crawler m r (id :: ids) = Some (m', cookie_set m r id, Ok tt) /\ rekeyed m m' p s id.
Proof.
  intros Hg Hp Hs [Hb Hcr] Hf Hh.
  destruct (changeId_rekeys m r p s id (id :: ids) ids Hg Hp Hs) as (m' & H & E); [|done|].
  { unfold getNewId. by rewrite Hb. }
  exists m'. split; [|done]. rewrite E. by rewrite Response.set_cookie_put.
Qed.

(** Changing the identifier keeps the session: the same object, with its attributes and its
    subject, is found under the new identifier, which the cookie carries, the old identifier
    finds nothing any more, and no other session is concerned. *)
Theorem change_session_id m r p s id ids :
  good m -> find_session m r = Some p -> store m !! p = Some s ->
  user_id r id -> fresh_id m id -> Request.headers_sent_ r = false ->
  exists m', changeId crawler m r (id :: ids) = Some (m', cookie_set m r id, Ok tt) /\ good m' /\
    store m' = <[p := Session.changeId s id]> (store m) /\
    (forall k, sessions_ m' !! k =
       if decide (k = id) then Some (Some p)
       else if decide (k = Session.getId s) then None else sessions_ m !! k).
Proof.
  intros. destruct (changeId_user m r p s id ids) as (m' & ? & ? & ? & ? & _); try done. by exists m'.
Qed.

(** *** Erasing entries *)

Lemma erase_entry_good m id :
  good m ->
  good (erase_entry m id) /\ held (erase_entry m id) = held m /\
  sessions_ (erase_entry m id) = delete id (sessions_ m) /\
  store (erase_entry m id) ⊆ store m.
Proof.
  intros Hg. unfold erase_entry. destruct (sessions_ m !! id) as [q|] eqn:E.
  2: { split; [done|]. split; [done|]. split; [|done]. by rewrite delete_id. }
  pose proof Hg as [Ht Hh Hl Hu]. destruct (Ht _ _ E) as (p & s & -> & Hs & Hid).
  set (m1 := set_sessions m (delete id (sessions_ m))).
  assert (Ht1 : table_ok m1).
  { intros k q Hq. cbn in Hq. apply lookup_delete_Some in Hq as [_ Hq]. by apply Ht. }
  split.
  - apply release_good; [done|exact Hh|exact Hu|by exists s|].
    intros q Hq Hne. apply Hl in Hq. rewrite referenced_spec in *. cbn.
    destruct Hq as [?|[k Hk]]; [auto|]. right. exists k. rewrite lookup_delete_ne; congruence.
  - rewrite release_spec by (done || by exists s).
    destruct (referenced m1 p); [done|]. repeat split; try done. apply delete_subseteq.
Qed.

(** Erasing, of the entries listed, those that a condition selects: these leave the table, and
    of the sessions those stay that a pointer still reaches. *)
Lemma erase_all_spec (c : SessionManager.t V -> bytes -> bool) l m :
  good m -> NoDup l ->
  (forall m k id, good m -> k <> id -> c (erase_entry m k) id = c m id) ->
  let m' := foldl (fun m id => if c m id then erase_entry m id else m) m l in
  good m' /\ held m' = held m /\
  (forall id, sessions_ m' !! id = if bool_decide (id ∈ l) && c m id then None else sessions_ m !! id) /\
  store m' ⊆ store m.
Proof.
  clear crawler. intros Hg Hl Hc. revert m Hg. induction Hl as [|k l Hk Hl IH]; intros m Hg m'.
  { split; [done|]. split; [done|]. split; [|done]. intros id. by rewrite bool_decide_eq_false_2 by apply not_elem_of_nil. }
  cbn [foldl] in m'.
  assert (Hin : forall id, id <> k -> bool_decide (id ∈ k :: l) = bool_decide (id ∈ l))
    by (intros id Hid; apply bool_decide_ext; rewrite elem_of_cons; tauto).
  destruct (c m k) eqn:Ec.
  - destruct (erase_entry_good m k Hg) as (Hg1 & Hh1 & Hs1 & Hst1).
    destruct (IH _ Hg1) as (Hg' & Hh' & Hs' & Hst'). fold m' in Hg', Hh', Hs', Hst'.
    split; [done|]. split; [congruence|]. split; [|by etrans].
    intros id. rewrite Hs', Hs1. destruct (decide (id = k)) as [->|Hne].
    + rewrite Ec, lookup_delete_eq. rewrite (bool_decide_eq_true_2 (k ∈ k :: l)) by by left.
      by destruct (_ && _).
    + by rewrite Hin, Hc, lookup_delete_ne by auto.
  - destruct (IH _ Hg) as (Hg' & Hh' & Hs' & Hst'). fold m' in Hg', Hh', Hs', Hst'.
    split; [done|]. split; [done|]. split; [|done]. intros id. rewrite Hs'.
    destruct (decide (id = k)) as [->|Hne]; [by rewrite Ec, !andb_false_r|by rewrite Hin].
Qed.

Lemma store_after m m' p :
  good m' -> store m' ⊆ store m -> store m' !! p = if referenced m' p then store m !! p else None.
Proof.
  intros Hg Hsub. destruct (store m' !! p) as [s|] eqn:E.
  - rewrite (good_leak _ Hg p) by by exists s. symmetry. by eapply lookup_weaken.
  - destruct (referenced m' p) eqn:Hr; [|done]. apply referenced_spec in Hr as [Hp|[id Hid]].
    + destruct (good_held _ Hg _ Hp). congruence.
    + destruct (good_table _ Hg _ _ Hid) as (? & ? & [= <-] & ? & _). congruence.
Qed.

Lemma keys_NoDup m : NoDup (map fst (map_to_list (sessions_ m))).
Proof. apply NoDup_fst_map_to_list. Qed.

Lemma keys_elem m id : is_Some (sessions_ m !! id) -> id ∈ map fst (map_to_list (sessions_ m)).
Proof. intros [q Hq]. apply list_elem_of_fmap. exists (id, q). split; [done|]. by apply elem_of_map_to_list. Qed.

Lemma expired_stable now m k id :
  good m -> k <> id -> expired_entry (erase_entry m k) now id = expired_entry m now id.
Proof.
  intros Hg Hne. destruct (erase_entry_good m k Hg) as (Hg1 & _ & Hs1 & Hst1).
  unfold expired_entry. rewrite Hs1, lookup_delete_ne by done.
  destruct (sessions_ m !! id) as [[p|]|] eqn:E; try done.
  rewrite (store_after m _ p Hg1 Hst1).
  rewrite (proj2 (referenced_spec _ p)); [done|]. right. exists id. by rewrite Hs1, lookup_delete_ne.
Qed.

(** One round of the timeout thread removes from the table exactly the sessions whose
    inactivity limit has passed; a removed session that a request still uses stays alive,
    every other one is freed, and no session that stays in the table is touched. *)
Theorem timeout_round m now :
  good m ->
  let m' := checkSessionTimeout m now in
  good m' /\
  (forall id, sessions_ m' !! id =
     match sessions_ m !! id with
     | Some (Some p) => match store m !! p with
                        | Some s => if Session.isExpired s now then None else Some (Some p)
                        | None => Some (Some p) end
     | q => q
     end) /\
  (forall p, store m' !! p = if referenced m' p then store m !! p else None) /\
  held m' = held m.
Proof.
  intros Hg m'.
  destruct (erase_all_spec (fun m => expired_entry m now) _ m Hg (keys_NoDup m)) as (Hg' & Hh' & Hs' & Hst').
  { intros. by apply expired_stable. }
  fold (checkSessionTimeout m now) in Hg', Hh', Hs', Hst'. fold m' in Hg', Hh', Hs', Hst'.
  split; [done|]. split; [|split; [|done]].
  - intros id. rewrite Hs'. unfold expired_entry.
    destruct (sessions_ m !! id) as [[p|]|] eqn:E; rewrite ?andb_false_r; try done.
    rewrite bool_decide_eq_true_2 by (apply keys_elem; eauto). cbn [andb].
    by destruct (store m !! p).
  - intros p. by apply store_after.
Qed.

Lemma invalidateAll_spec m :
  good m -> good (invalidateAll m) /\ sessions_ (invalidateAll m) = ∅ /\ held (invalidateAll m) = held m.
Proof.
  intros Hg. destruct (erase_all_spec (fun _ _ => true) _ m Hg (keys_NoDup m)) as (Hg' & Hh' & Hs' & _); [done|].
  split; [exact Hg'|]. split; [|exact Hh']. apply map_eq. intros id. rewrite lookup_empty.
  etrans; [exact (Hs' id)|]. destruct (sessions_ m !! id) eqn:E.
  - by rewrite bool_decide_eq_true_2 by (apply keys_elem; eauto).
  - by destruct (_ && _).
Qed.

(** *** Crawlers *)

Lemma createInternal_crawler m r ids now :
  good m -> isBot crawler r = true ->
  is_Some (sessions_ m !! crawler_agent_session_id) \/ fresh_id m crawler_agent_session_id ->
  exists m' p, createInternal crawler m r ids now = Some (Ok (m', p)) /\ good m' /\
    p ∈ held m' /\ sessions_ m' !! crawler_agent_session_id = Some (Some p) /\
    match sessions_ m !! crawler_agent_session_id with
    | Some q => q = Some p /\ dom (store m') = dom (store m)
    | None => store m !! p = None
    end.
Proof.
  intros Hg Hb Hc. unfold createInternal, getNewId. rewrite Hb. cbn [negb mbind option_bind].
  rewrite str_eqb_refl. cbn [negb].
  destruct (sessions_ m !! crawler_agent_session_id) as [q|] eqn:E.
  - destruct (good_table _ Hg _ _ E) as (p & s & -> & Hs & _). cbn [sessions_ hold set_held]. rewrite E.
    eexists _, p. split; [reflexivity|]. split; [|split; [by left|split; [done|split; [done|]]]].
    + apply with_session_good; [|done]. apply hold_good; [done|by exists s].
    + cbn. by rewrite dom_alter_L.
  - destruct Hc as [[? ?]|Hf]; [done|].
    destruct (newSession_good m _ now Hg Hf) as [Hg1 Hp]. unfold newSession in Hp. cbn [snd] in Hp.
    set (p := fresh (dom (store m))) in *. cbn [newSession sessions_ with_session set_store set_sessions].
    rewrite lookup_insert_eq. eexists _, p. split; [reflexivity|].
    split; [|split; [by left|split; [cbn; apply lookup_insert_eq|done]]].
    apply with_session_good; [|done]. apply with_session_good; [|done].
    apply (table_insert_good (newSession m _ now).1 p _ (Session.create crawler_agent_session_id now));
      [done|done| |done]. cbn. apply lookup_insert_eq.
Qed.

(** All crawlers share one session: while the table has the session of the crawlers, a
    request of a crawler that presents no known session gets that one, and no session is
    created; otherwise it creates it, and the next crawler gets the same. *)
Theorem crawlers_share_session m r1 r2 ids1 ids2 now1 now2 m1 r1' p1 :
  good m -> isBot crawler r1 = true -> isBot crawler r2 = true ->
  is_Some (sessions_ m !! crawler_agent_session_id) \/ fresh_id m crawler_agent_session_id ->
  Request.headers_sent_ r2 = false ->
  find_session m r1 = None -> find_session m1 r2 = None ->
  get crawler m r1 ids1 now1 = Some (m1, r1', Ok p1) ->
  sessions_ m1 !! crawler_agent_session_id = Some (Some p1) /\
  exists m2 r2', get crawler m1 r2 ids2 now2 = Some (m2, r2', Ok p1) /\ dom (store m2) = dom (store m1).
Proof.
  intros Hg Hb1 Hb2 Hc Hh Hf1 Hf2. unfold get. rewrite Hf1. intros E.
  destruct (createInternal_crawler m r1 ids1 now1 Hg Hb1 Hc) as (m' & p & Ec & Hg' & Hp & Ht & _).
  unfold createWithCookie in E. rewrite Ec in E. cbn [mbind option_bind] in E.
  destruct (good_held _ Hg' _ Hp) as [s Hs]. rewrite Hs in E.
  destruct (Request.setCookie r1 _); [|done|done]. injection E as -> -> ->. split; [done|].
  rewrite Hf2. unfold createWithCookie.
  destruct (createInternal_crawler m1 r2 ids2 now2 Hg' Hb2) as (m2 & p2 & Ec2 & Hg2 & Hp2 & Ht2 & Hx); [by left; exists (Some p1)|].
  rewrite Ht in Hx. destruct Hx as [[= ->] Hd]. rewrite Ec2. cbn [mbind option_bind].
  destruct (good_held _ Hg2 _ Hp2) as [s2 ->]. rewrite Response.set_cookie_put by done. eauto.
Qed.

(** ** Reachable states *)

(** A new identifier is one that no live session has; all crawlers use theirs. *)
Definition usable m r (ids : list bytes) : Prop :=
  if isBot crawler r
  then is_Some (sessions_ m !! crawler_agent_session_id) \/ fresh_id m crawler_agent_session_id
  else exists id ids', ids = id :: ids' /\ id <> crawler_agent_session_id /\ fresh_id m id.

(** The same for [changeId], when the request has a session. A crawler may also present the session
    of the crawlers itself, as long as somebody has another pointer to it. *)
Definition changeable m r (ids : list bytes) : Prop :=
  match find_session m r with
  | None => True
  | Some p =>
      (exists id rest, getNewId crawler r ids = Some (id, rest) /\ fresh_id m id) \/
      isBot crawler r = true /\ Request.getCookie r SESSION_COOKIE_NAME = crawler_agent_session_id /\ p ∈ held m
  end.

(** What happens to the manager, one operation after the other, whether it returns or throws;
    [StepCopy] and [StepDrop] are what the holders of pointers do, and [StepUse] what they do to the
    attributes, the subject and the times of a session. *)
Inductive step : SessionManager.t V -> SessionManager.t V -> Prop :=
| StepGet m r ids now m' r' res :
    usable m r ids -> get crawler m r ids now = Some (m', r', res) -> step m m'
| StepCreate m r ids now m' r' res :
    usable m r ids -> create crawler m r ids now = Some (m', r', res) -> step m m'
| StepChangeId m r ids m' r' res :
    changeable m r ids -> changeId crawler m r ids = Some (m', r', res) -> step m m'
| StepTimeout m now : step m (checkSessionTimeout m now)
| StepStop m : step m (stop m)
| StepCopy m p : p ∈ held m -> step m (hold m p)
| StepDrop m p : p ∈ held m -> step m (drop m p)
| StepUse m p f : (forall s, Session.getId (f s) = Session.getId s) -> step m (with_session m p f).

Lemma setCookie_defined r c : Request.setCookie r c <> Undef.
Proof. unfold Request.setCookie. by destruct (Request.headers_sent_ r). Qed.

Lemma createWithCookie_good m r ids now m' r' res :
  good m -> usable m r ids -> createWithCookie crawler m r ids now = Some (m', r', res) ->
  good m' /\ res <> Undef.
Proof.
  intros Hg Hu.
  assert (exists m1 p, createInternal crawler m r ids now = Some (Ok (m1, p)) /\ good m1 /\ p ∈ held m1)
    as (m1 & p & E & Hg1 & Hp).
  { unfold usable in Hu. destruct (isBot crawler r) eqn:Hb.
    - destruct (createInternal_crawler m r ids now Hg Hb Hu) as (m1 & p & ? & ? & ? & _). eauto.
    - destruct Hu as (id & ids' & -> & Hid & Hf).
      destruct (createInternal_user m r id ids' now Hg) as [E Hg1]; [done..|].
      eexists _, _. split; [exact E|]. split; [done|]. by left. }
  unfold createWithCookie. rewrite E. cbn [mbind option_bind].
  destruct (good_held _ Hg1 _ Hp) as [s ->].
  destruct (Request.setCookie r _) eqn:Ec; intros [= <- _ <-]; [done| |by apply setCookie_defined in Ec].
  split; [by apply drop_good|done].
Qed.

Lemma fresh_id_touch m p f id :
  (forall s, Session.getId (f s) = Session.getId s) -> fresh_id m id -> fresh_id (with_session m p f) id.
Proof.
  intros Hf Hfr q t Hq. cbn in Hq. apply lookup_alter_Some in Hq as [(-> & t0 & Ht0 & ->)|[_ Hq]].
  - rewrite Hf. by apply (Hfr _ _ Ht0).
  - by apply (Hfr _ _ Hq).
Qed.

Lemma usable_touch m r ids p f :
  (forall s, Session.getId (f s) = Session.getId s) -> usable m r ids -> usable (with_session m p f) r ids.
Proof.
  intros Hf. unfold usable. destruct (isBot crawler r).
  - intros [?|?]; [by left|right]. by apply fresh_id_touch.
  - intros (id & ids' & -> & ? & ?). exists id, ids'. split; [done|]. split; [done|]. by apply fresh_id_touch.
Qed.

Lemma get_good m r ids now m' r' res :
  good m -> usable m r ids -> get crawler m r ids now = Some (m', r', res) -> good m' /\ res <> Undef.
Proof.
  intros Hg Hu E. unfold get in E. destruct (find_session m r) as [p|] eqn:Hf; [|by eapply createWithCookie_good].
  injection E as <- _ <-. split; [|done]. apply find_session_table in Hf.
  destruct (good_table _ Hg _ _ Hf) as (p' & s & [= <-] & Hs & _).
  apply hold_good; [by apply with_session_good|]. cbn. by rewrite lookup_alter_eq, Hs.
Qed.

Lemma create_good m r ids now m' r' res :
  good m -> usable m r ids -> create crawler m r ids now = Some (m', r', res) -> good m' /\ res <> Undef.
Proof.
  intros Hg Hu E. unfold create in E. destruct (find_session m r) as [p|] eqn:Hf; [|by eapply createWithCookie_good].
  refine (createWithCookie_good _ _ _ _ _ _ _ _ _ E); [by apply with_session_good|by apply usable_touch].
Qed.

Lemma changeId_good m r ids m' r' res :
  good m -> changeable m r ids -> changeId crawler m r ids = Some (m', r', res) -> good m' /\ res <> Undef.
Proof.
  intros Hg Hc E. unfold changeable in Hc. destruct (find_session m r) as [p|] eqn:Hf.
  2: { unfold changeId in E. rewrite Hf in E. by injection E as <- _ <-. }
  assert (H : exists m1 id, good m1 /\ changeId crawler m r ids =
    Some (match Request.setCookie r (session_cookie m r id) with
          | Ok r' => (m1, r', Ok tt) | Throw e => (m1, r, Throw e) | Undef => (m1, r, Undef) end)).
  { destruct Hc as [(id & rest & Hid & Hfr)|(Hb & Hk & Hh)].
    - pose proof (find_session_table _ _ _ Hf) as Ht. destruct (good_table _ Hg _ _ Ht) as (p' & s & [= <-] & Hs & _).
      destruct (changeId_rekeys m r p s id ids rest) as (m1 & [Hg1 _] & E1); [done..|]. by exists m1, id.
    - destruct (changeId_shared m r p ids Hg Hf Hb Hk Hh) as (m1 & Hg1 & E1). by exists m1, crawler_agent_session_id. }
  destruct H as (m1 & id & Hg1 & E1). rewrite E1 in E.
  destruct (Request.setCookie r _) eqn:Ec; injection E as <- _ <-; [done..|by apply setCookie_defined in Ec].
Qed.

Lemma step_good m m' : good m -> step m m' -> good m'.
Proof.
  intros Hg Hst.
  destruct Hst as [m r ids now m' r' res Hu E|m r ids now m' r' res Hu E|m r ids m' r' res Hc E| | |m p Hp|m p Hp|].
  - by eapply get_good.
  - by eapply create_good.
  - by eapply changeId_good.
  - by destruct (erase_all_spec (fun m => expired_entry m now) _ m Hg (keys_NoDup m)
      ltac:(intros; by apply expired_stable)).
  - apply invalidateAll_spec. by destruct Hg.
  - apply hold_good; [done|]. by apply good_held.
  - by apply drop_good.
  - by apply with_session_good.
Qed.

Lemma create_manager_good timeout : good (create_manager timeout).
Proof. split; intros ?; cbn; try done; [by intros ?%elem_of_nil|by intros []]. Qed.

End Invariant.

(** ** Concrete managers *)

Section Examples.
Import SessionManager.

Definition crawler_test : bytes -> bool := starts_with (lit "Googlebot").
Definition empty_manager_of (V : Type) : SessionManager.t V := create_manager 30.
Definition empty_manager : SessionManager.t nat := empty_manager_of nat.

Definition presenting (cookies : list (string * string)) (agent : string) : Request.t MemStream :=
  Request.set_in Request.create
    (set_headers (set_cookies no_input (map (fun c => (lit c.1, lit c.2)) cookies))
      [(lit "user-agent", lit agent)]).

Definition visitor := presenting [] "Mozilla".
Definition visitor_s1 := presenting [("JSESSIONID", "s1")] "Mozilla".
Definition googlebot := presenting [] "Googlebot/2.1".

(** A manager with the session ["s1"], which its request has let go. *)
Definition one_session_of (V : Type) : SessionManager.t V :=
  drop (after_new (empty_manager_of V) (lit "s1") 0) 0%nat.

Lemma one_session_of_good (V : Type) : good (one_session_of V).
Proof.
  apply drop_good; [|by left].
  apply (createInternal_user crawler_test (empty_manager_of V) visitor (lit "s1") [] 0); [|done|].
  - apply create_manager_good.
  - by intros p s.
Qed.

Lemma one_session_of_fresh (V : Type) id : id <> lit "s1" -> fresh_id (one_session_of V) id.
Proof.
  intros Hid p s. change (store (one_session_of V)) with ({[0%nat := new_session (empty_manager_of V) (lit "s1") 0]}
    : gmap nat (Session.t V)). rewrite lookup_singleton_Some.
  intros [_ <-] E. apply Hid. symmetry. exact E.
Qed.

Definition one_session : SessionManager.t nat := one_session_of nat.

Lemma one_session_good : good one_session.
Proof. apply one_session_of_good. Qed.

Lemma one_session_fresh id : id <> lit "s1" -> fresh_id one_session id.
Proof. apply one_session_of_fresh. Qed.

Lemma session_continuity_witness :
  good one_session /\
  exists m' r' p, get crawler_test one_session visitor [lit "s2"] 5 = Some (m', r', Ok p) /\
    find_session m' (presenting [("JSESSIONID", "s2")] "Mozilla") = Some p /\ good m'.
Proof.
  split; [exact one_session_good|].
  destruct (session_continuity crawler_test one_session visitor (lit "s2") [] 5 one_session_good)
    as (E & _ & _ & _ & Hf & Hg).
  - split; [reflexivity|discriminate].
  - apply one_session_fresh. discriminate.
  - reflexivity.
  - eexists _, _, _. split; [exact E|]. split; [|exact Hg]. apply Hf. reflexivity.
Defined.

Lemma create_session_fresh_witness :
  exists m' r' p', create crawler_test one_session visitor_s1 [lit "s2"] 5 = Some (m', r', Ok p') /\ p' <> 0%nat.
Proof.
  destruct (create_session_fresh crawler_test one_session visitor_s1 0
    (new_session empty_manager (lit "s1") 0) (lit "s2") [] 5 one_session_good)
    as (m' & r' & p' & E & Hne & _).
  - reflexivity.
  - reflexivity.
  - split; [reflexivity|discriminate].
  - apply one_session_fresh. discriminate.
  - reflexivity.
  - exists m', r', p'. split; [exact E|exact Hne].
Defined.

Lemma change_session_id_witness :
  exists m' r', changeId crawler_test one_session visitor_s1 [lit "s2"] = Some (m', r', Ok tt) /\
    sessions_ m' !! lit "s2" = Some (Some 0%nat) /\ sessions_ m' !! lit "s1" = None.
Proof.
  destruct (change_session_id crawler_test one_session visitor_s1 0
    (new_session empty_manager (lit "s1") 0) (lit "s2") [] one_session_good)
    as (m' & E & _ & _ & Hk).
  - reflexivity.
  - reflexivity.
  - split; [reflexivity|discriminate].
  - apply one_session_fresh. discriminate.
  - reflexivity.
  - eexists m', _. split; [exact E|]. rewrite !Hk. split; reflexivity.
Defined.

Lemma timeout_round_witness :
  sessions_ (checkSessionTimeout one_session 0) !! lit "s1" = Some (Some 0%nat) /\
  sessions_ (checkSessionTimeout one_session (31 * 60 * 1000000000)) !! lit "s1" = None.
Proof.
  destruct (timeout_round one_session 0 one_session_good) as (_ & H1 & _).
  destruct (timeout_round one_session (31 * 60 * 1000000000) one_session_good) as (_ & H2 & _).
  split; [rewrite (H1 (lit "s1"))|rewrite (H2 (lit "s1"))]; reflexivity.
Defined.

Lemma crawlers_share_session_witness :
  exists m1 r1 m2 r2 p, get crawler_test one_session googlebot [] 1 = Some (m1, r1, Ok p) /\
    get crawler_test m1 googlebot [] 2 = Some (m2, r2, Ok p).
Proof.
  eexists _, _.
  destruct (crawlers_share_session crawler_test one_session googlebot googlebot [] [] 1 2
    (match get crawler_test one_session googlebot [] 1 with Some (m, _, _) => m | None => one_session end)
    (match get crawler_test one_session googlebot [] 1 with Some (_, r, _) => r | None => googlebot end) 1%nat
    one_session_good) as [_ (m2 & r2 & E & _)].
  - reflexivity.
  - reflexivity.
  - right. apply one_session_fresh. discriminate.
  - reflexivity.
  - reflexivity.
  - reflexivity.
  - vm_compute. reflexivity.
  - exists m2, r2, 1%nat. split; [|exact E]. vm_compute. reflexivity.
Defined.


(** When the generator repeats an identifier, the loop of [createInternal] destroys the
    rejected session, and its deleter erases the entry of the user who has the identifier:
    that session is lost. *)
Lemma collision_destroys_session :
  sessions_ one_session !! lit "s1" = Some (Some 0%nat) /\
  exists m' r' p, get crawler_test one_session visitor [lit "s1"; lit "s2"] 5 = Some (m', r', Ok p) /\
    sessions_ m' !! lit "s1" = None /\ store m' !! 0%nat = None.
Proof.
  split; [reflexivity|]. eexists _, _, _. split; [vm_compute; reflexivity|]. split; reflexivity.
Qed.
End Examples.
