(* ===== verification/Handlers.v ===== *)
(** * Handlers

    [library/request_filter.cpp] and [library/handlerset.cpp]: which handler and which
    filters a request gets. Compiling and matching a regular expression, evaluating an XPath
    expression of the configuration, and the dynamic type of a component are what the code
    takes from elsewhere: they are arguments. *)

From S2P Require Import Prelude Cxx OrdMap Ranges Parser Request.

(** [std::regex]: construction throws on a malformed expression; [regex_match] is a match of
    the whole string. *)
Class Regex (R : Type) := {
  regex_compile : bytes -> result R;
  regex_match : R -> bytes -> bool
}.

(** [Config]: the (resolved) text of the first node an XPath expression selects, if any, and
    the number of nodes it selects. *)
Record Config := MkConfig {
  config_value : bytes -> option bytes;
  config_count : bytes -> nat
}.

Definition asString (c : Config) (key : bytes) : result bytes :=
  match config_value c key with
  | Some v => Ok v
  | None => Throw (RuntimeError (lit "nonexistent config param: " ++ key))
  end.

Definition asString_default (c : Config) (key defval : bytes) : bytes :=
  match asString c key with Ok v => v | _ => defval end.

(** [key[1]], [key[2]], ... *)
Definition config_subKeys (c : Config) (key : bytes) : list bytes :=
  map (fun i => key ++ lit "[" ++ to_string (Z.of_nat i + 1) ++ lit "]") (seq 0 (config_count c key)).

(** [ComponentSet]: components by name, given by address, with the interfaces they
    implement. *)
Record ComponentSet := MkComponents {
  components_find : bytes -> option nat;
  is_Handler : nat -> bool;
  is_Filter : nat -> bool
}.

Module RequestFilter.
Section Ops.
Context {R : Type} `{Regex R} {S : Type}.
Implicit Types r : Request.t S.

(** The classes derived from [RegexFilter]. *)
Inductive t :=
| UrlFilter (regex : R) (url_prefix : bytes)
| HostFilter (regex : R)
| PortFilter (regex : R)
| AddressFilter (regex : R)
| RefererFilter (regex : R)
| ParamFilter (name : bytes) (regex : R).

(** The constructor of [RegexFilter]: an empty expression matches everything. *)
Definition create_regex (regex : bytes) : result R :=
  regex_compile (if Range.empty regex then lit ".*" else regex).

(** [0==url.find(url_prefix_)]: the address starts with the prefix. *)
Definition checkUrl (re : R) (url_prefix url : bytes) : bool :=
  if 0 <? len url_prefix then
    if starts_with url_prefix url
    then regex_match re (drop (length url_prefix) url)
    else regex_match re url
  else regex_match re url.

Definition check (f : t) r : result bool :=
  match f with
  | UrlFilter re p => Ok (checkUrl re p (Request.getScriptName r))
  | HostFilter re => Ok (regex_match re (Request.getHost r))
  | PortFilter re => port ← Request.getServerPort r; Ok (regex_match re (to_string port))
  | AddressFilter re => Ok (regex_match re (Request.getServerAddr r))
  | RefererFilter re =>
      if negb (Request.hasHeader r (lit "Referer")) then Ok false
      else Ok (regex_match re (Request.getHeader r (lit "Referer")))
  | ParamFilter name re =>
      if negb (Request.hasArg r name) then Ok false
      else Ok (regex_match re (Request.getArg r name))
  end.
End Ops.
Arguments t R : clear implicits.
End RequestFilter.

Module HandlerSet.
Section Ops.
Context {R : Type} `{Regex R} {S : Type}.
Implicit Types r : Request.t S.

Definition SelectorArray : Type := list (bytes * RequestFilter.t R).

Record HandlerDescription := MkHandler {
  selectors : SelectorArray;
  handlers : list nat;
  poolName : bytes;
  id : bytes
}.

Record FilterDescription := MkFilter {
  filter_selectors : SelectorArray;
  filter_handlers : list nat;
  filter_id : bytes
}.

Record t := MkHandlerSet {
  filters_ : list FilterDescription;
  handlers_ : list HandlerDescription;
  defaultPoolName_ : bytes
}.

Definition create : t := MkHandlerSet [] [] [].

(** *** Configuration *)

(** One attribute: a selector when it is present and not empty. *)
Definition selector (config : Config) (k name : bytes) (make : R -> RequestFilter.t R)
    (sel : SelectorArray) : result SelectorArray :=
  match asString_default config (k ++ lit "/@" ++ name) [] with
  | [] => Ok sel
  | v => re ← RequestFilter.create_regex v; Ok (sel ++ [(name, make re)])
  end.

Fixpoint params (config : Config) (q : list bytes) (sel : SelectorArray) : result SelectorArray :=
  match q with
  | [] => Ok sel
  | it :: q' =>
      let name := asString_default config (it ++ lit "/@name") [] in
      let value := asString_default config it [] in
      if Range.empty name then params config q' sel
      else if Range.empty value then params config q' sel
      else
        re ← RequestFilter.create_regex value;
        params config q' (sel ++ [(lit "param", RequestFilter.ParamFilter name re)])
  end.

(** The selectors of a [handler] or [filter] element, in the order of the code. *)
Definition init_selectors (config : Config) (url_prefix k : bytes) : result SelectorArray :=
  sel ← selector config k (lit "url") (fun re => RequestFilter.UrlFilter re url_prefix) [];
  sel ← selector config k (lit "host") RequestFilter.HostFilter sel;
  sel ← selector config k (lit "port") RequestFilter.PortFilter sel;
  sel ← selector config k (lit "address") RequestFilter.AddressFilter sel;
  sel ← selector config k (lit "referer") RequestFilter.RefererFilter sel;
  params config (config_subKeys config (k ++ lit "/param")) sel.

(** The components of an element; [ok] is the dynamic cast to the interface. *)
Fixpoint init_components (config : Config) (cs : ComponentSet) (ok : nat -> bool) (interface : bytes)
    (keys : list bytes) : result (list nat) :=
  match keys with
  | [] => Ok []
  | c :: keys' =>
      componentName ← asString config (c ++ lit "/@name");
      match components_find cs componentName with
      | None => Throw (RuntimeError (lit "Cannot find component: " ++ componentName))
      | Some p =>
          if negb (ok p) then
            Throw (RuntimeError (lit "Component " ++ componentName ++
              lit " does not implement interface " ++ interface))
          else rest ← init_components config cs ok interface keys'; Ok (p :: rest)
      end
  end.

Definition init_handler (config : Config) (cs : ComponentSet) (default_pool url_prefix k : bytes)
    : result HandlerDescription :=
  let pool := asString_default config (k ++ lit "/@pool") default_pool in
  let hid := asString_default config (k ++ lit "/@id") [] in
  sel ← init_selectors config url_prefix k;
  hs ← init_components config cs (is_Handler cs) (lit "Handler") (config_subKeys config (k ++ lit "/component"));
  Ok (MkHandler sel hs pool hid).

Fixpoint initInternal (config : Config) (cs : ComponentSet) (url_prefix : bytes) (v : list bytes) (hs : t)
    : result t :=
  match v with
  | [] => Ok hs
  | k :: v' =>
      d ← init_handler config cs (defaultPoolName_ hs) url_prefix k;
      initInternal config cs url_prefix v'
        (MkHandlerSet (filters_ hs) (handlers_ hs ++ [d]) (defaultPoolName_ hs))
  end.

Definition init_filter (config : Config) (cs : ComponentSet) (url_prefix k : bytes)
    : result FilterDescription :=
  let fid := asString_default config (k ++ lit "/@id") [] in
  sel ← init_selectors config url_prefix k;
  fs ← init_components config cs (is_Filter cs) (lit "Filter") (config_subKeys config (k ++ lit "/component"));
  Ok (MkFilter sel fs fid).

Fixpoint init_filters (config : Config) (cs : ComponentSet) (url_prefix : bytes) (v : list bytes) (hs : t)
    : result t :=
  match v with
  | [] => Ok hs
  | k :: v' =>
      d ← init_filter config cs url_prefix k;
      init_filters config cs url_prefix v'
        (MkHandlerSet (filters_ hs ++ [d]) (handlers_ hs) (defaultPoolName_ hs))
  end.

(** Elements with an [url] come before those without one. *)
Definition init (config : Config) (cs : ComponentSet) (hs : t) : result t :=
  let url_prefix := asString_default config (lit "/fastcgi/handlers/@urlPrefix") [] in
  let hs := MkHandlerSet (filters_ hs) (handlers_ hs)
              (asString_default config (lit "/fastcgi/pools/@default") []) in
  hs ← initInternal config cs url_prefix
         (config_subKeys config (lit "/fastcgi/handlers/handler[count(@url)=1]")) hs;
  hs ← initInternal config cs url_prefix
         (config_subKeys config (lit "/fastcgi/handlers/handler[not(@url)]")) hs;
  init_filters config cs url_prefix (config_subKeys config (lit "/fastcgi/handlers/filter")) hs.

(** *** Lookup *)

Definition selector_names : list bytes :=
  [lit "url"; lit "host"; lit "address"; lit "port"; lit "referer"; lit "param"].

(** The loop over the selectors, up to the first that does not accept. *)
Fixpoint matched (sel : SelectorArray) r : result bool :=
  match sel with
  | [] => Ok true
  | f :: sel' =>
      if existsb (str_eqb f.1) selector_names then
        ok ← RequestFilter.check f.2 r;
        if negb ok then Ok false else matched sel' r
      else matched sel' r
  end.

Fixpoint find_handler (hs : list HandlerDescription) r : result (option HandlerDescription) :=
  match hs with
  | [] => Ok None
  | i :: hs' => m ← matched (selectors i) r; if (m : bool) then Ok (Some i) else find_handler hs' r
  end.

Definition findURIHandler (hs : t) r : result (option HandlerDescription) := find_handler (handlers_ hs) r.

(** By address only: the first description one of whose [url] selectors accepts. *)
Fixpoint url_selected (sel : SelectorArray) (uri : bytes) : result bool :=
  match sel with
  | [] => Ok false
  | (name, f) :: sel' =>
      if str_eqb name (lit "url") then
        match f with
        | RequestFilter.UrlFilter re p =>
            if RequestFilter.checkUrl re p uri then Ok true else url_selected sel' uri
        | _ => Undef
        end
      else url_selected sel' uri
  end.

Fixpoint find_uri (hs : list HandlerDescription) (uri : bytes) : result (option HandlerDescription) :=
  match hs with
  | [] => Ok None
  | i :: hs' => m ← url_selected (selectors i) uri; if (m : bool) then Ok (Some i) else find_uri hs' uri
  end.

Definition findURIHandler_uri (hs : t) (uri : bytes) : result (option HandlerDescription) :=
  find_uri (handlers_ hs) uri.

Fixpoint find_filters (fs : list FilterDescription) r (v : list nat) : result (list nat) :=
  match fs with
  | [] => Ok v
  | i :: fs' =>
      m ← matched (filter_selectors i) r;
      find_filters fs' r (if (m : bool) then v ++ filter_handlers i else v)
  end.

Definition findURIFilters (hs : t) r (v : list nat) : result (list nat) := find_filters (filters_ hs) r v.

Definition findPoolHandlers (hs : t) (pool : bytes) : gset nat :=
  foldl (fun acc it => if str_eqb (poolName it) pool then acc ∪ list_to_set (handlers it) else acc)
    ∅ (handlers_ hs).

Definition getPoolsNeeded (hs : t) : gset bytes :=
  let pools : gset bytes := foldl (fun (acc : gset bytes) i => {[poolName i]} ∪ acc) ∅ (handlers_ hs) in
  if bool_decide (defaultPoolName_ hs ∈ pools) then pools else {[defaultPoolName_ hs]} ∪ pools.

Definition getDefaultPool (hs : t) : bytes := defaultPoolName_ hs.
End Ops.
Arguments t R : clear implicits.
Arguments HandlerDescription R : clear implicits.
Arguments FilterDescription R : clear implicits.
End HandlerSet.

(** ** Lookup *)

Section Lookup.
Context {R : Type} `{Regex R} {S : Type}.
Implicit Types (r : Request.t S) (hs : HandlerSet.t R).
Import HandlerSet.

(** What a filter decides about a request: by its kind, a whole-string match of the part of the
    request it looks at; an address under the configured prefix is matched without it; an
    absent header or argument does not match. [port] is the port of the server. *)
Definition accepts r (port : Z) (f : RequestFilter.t R) : bool :=
  match f with
  | RequestFilter.UrlFilter re p =>
      let url := Request.getScriptName r in
      regex_match re (if starts_with p url then drop (length p) url else url)
  | RequestFilter.HostFilter re => regex_match re (Request.getHost r)
  | RequestFilter.PortFilter re => regex_match re (to_string port)
  | RequestFilter.AddressFilter re => regex_match re (Request.getServerAddr r)
  | RequestFilter.RefererFilter re =>
      Request.hasHeader r (lit "Referer") && regex_match re (Request.getHeader r (lit "Referer"))
  | RequestFilter.ParamFilter n re => Request.hasArg r n && regex_match re (Request.getArg r n)
  end.

Lemma check_accepts f r port :
  Request.getServerPort r = Ok port -> RequestFilter.check f r = Ok (accepts r port f).
Proof.
  intros Hp. destruct f as [re p|re|re|re|re|n re]; cbn [RequestFilter.check accepts].
  - unfold RequestFilter.checkUrl. destruct p as [|c p]; [done|].
    rewrite (proj2 (Z.ltb_lt _ _)) by (rewrite len_cons; pose proof (len_nonneg p); lia).
    by destruct (starts_with (c :: p) _).
  - done.
  - by rewrite Hp.
  - done.
  - by destruct (Request.hasHeader r _).
  - by destruct (Request.hasArg r n).
Qed.

(** Every selector is one of the six kinds the lookup consults: what [init] builds. *)
Definition known_selectors (sel : SelectorArray (R := R)) : Prop :=
  Forall (fun f => existsb (str_eqb f.1) selector_names = true) sel.

Definition all_accept r (port : Z) (sel : SelectorArray (R := R)) : bool :=
  forallb (fun f => accepts r port f.2) sel.

Lemma matched_accept sel r port :
  known_selectors sel -> Request.getServerPort r = Ok port ->
  matched sel r = Ok (all_accept r port sel).
Proof.
  intros Hk Hp. unfold all_accept. induction Hk as [|f sel Hf _ IH]; [done|]. cbn [matched forallb].
  rewrite Hf, (check_accepts _ _ _ Hp). cbn [mbind result_bind].
  by destruct (accepts r port f.2).
Qed.

Definition well_configured hs : Prop :=
  Forall (fun d => known_selectors (selectors d)) (handlers_ hs) /\
  Forall (fun d => known_selectors (filter_selectors d)) (filters_ hs).

Lemma table_lookup hs r port v :
  well_configured hs -> Request.getServerPort r = Ok port ->
  findURIHandler hs r = Ok (List.find (fun d => all_accept r port (selectors d)) (handlers_ hs)) /\
  findURIFilters hs r v =
    Ok (v ++ flat_map filter_handlers
              (List.filter (fun d => all_accept r port (filter_selectors d)) (filters_ hs))).
Proof.
  intros [Hh Hf] Hp. split.
  - unfold findURIHandler. induction Hh as [|d l Hd _ IH]; [done|]. cbn [find_handler List.find].
    rewrite (matched_accept _ _ _ Hd Hp). cbn [mbind result_bind].
    by destruct (all_accept r port (selectors d)).
  - unfold findURIFilters. revert v. induction Hf as [|d l Hd _ IH]; intros v.
    { cbn. by rewrite app_nil_r. }
    cbn [find_filters List.filter]. rewrite (matched_accept _ _ _ Hd Hp). cbn [mbind result_bind].
    rewrite IH. destruct (all_accept r port (filter_selectors d)); [|done].
    cbn [flat_map]. by rewrite <- app_assoc.
Qed.

Lemma pools_spec (l : list (HandlerDescription R)) (acc : gset bytes) p :
  p ∈ foldl (fun (acc : gset bytes) i => {[poolName i]} ∪ acc) acc l <->
  p ∈ acc \/ p ∈ map poolName l.
Proof.
  revert acc. induction l as [|d l IH]; intros acc; cbn [foldl map].
  - rewrite elem_of_nil. tauto.
  - rewrite IH, elem_of_union, elem_of_singleton, elem_of_cons. tauto.
Qed.

Lemma pool_handlers_spec (l : list (HandlerDescription R)) pool (acc : gset nat) x :
  x ∈ foldl (fun acc it => if str_eqb (poolName it) pool then acc ∪ list_to_set (handlers it) else acc) acc l <->
  x ∈ acc \/ exists d, d ∈ l /\ poolName d = pool /\ x ∈ handlers d.
Proof.
  revert acc. induction l as [|d l IH]; intros acc; cbn [foldl].
  - split; [auto|]. intros [?|(d & Hd & _)]; [done|]. by apply elem_of_nil in Hd.
  - rewrite IH. setoid_rewrite elem_of_cons. destruct (str_eqb (poolName d) pool) eqn:E.
    + apply str_eqb_true in E. rewrite elem_of_union, elem_of_list_to_set. split.
      * intros [[?|?]|(d' & ? & ?)]; [by left|right; exists d; auto|right; exists d'; tauto].
      * intros [?|(d' & [->|?] & ? & ?)]; [auto|auto|right; exists d'; tauto].
    + apply str_eqb_false in E. split.
      * intros [?|(d' & ? & ?)]; [by left|right; exists d'; tauto].
      * intros [?|(d' & [->|?] & ? & ?)]; [auto|done|right; exists d'; tauto].
Qed.

Lemma pools_needed_spec hs p :
  p ∈ getPoolsNeeded hs <-> p = getDefaultPool hs \/ exists d, d ∈ handlers_ hs /\ poolName d = p.
Proof.
  unfold getPoolsNeeded, getDefaultPool.
  set (pools := foldl _ _ _). assert (Hp : forall q, q ∈ pools <-> q ∈ map poolName (handlers_ hs)).
  { intros q. unfold pools. rewrite pools_spec, elem_of_empty. tauto. }
  assert (Hm : p ∈ map poolName (handlers_ hs) <-> exists d, d ∈ handlers_ hs /\ poolName d = p).
  { rewrite list_elem_of_fmap. split; intros (d & ? & ?); exists d; auto. }
  rewrite <- Hm, <- Hp. case_bool_decide as Hd.
  + split; [auto|]. intros [->|?]; done.
  + by rewrite elem_of_union, elem_of_singleton.
Qed.

(** The pools the server starts are those of the handlers and the default pool, and the
    handlers of a pool are exactly the handlers of the descriptions that name it. *)
Theorem pools_cover_handlers hs pool :
  (forall p, p ∈ getPoolsNeeded hs <-> p = getDefaultPool hs \/ exists d, d ∈ handlers_ hs /\ poolName d = p) /\
  (forall x, x ∈ findPoolHandlers hs pool <->
     exists d, d ∈ handlers_ hs /\ poolName d = pool /\ x ∈ handlers d).
Proof.
  split; [apply pools_needed_spec|].
  intros x. unfold findPoolHandlers. rewrite pool_handlers_spec, elem_of_empty. tauto.
Qed.

Lemma find_handler_in hs r d : findURIHandler hs r = Ok (Some d) -> d ∈ handlers_ hs.
Proof.
  unfold findURIHandler. induction (handlers_ hs) as [|x l IH]; [done|]. cbn [find_handler].
  destruct (matched _ _) as [[]|e|]; try done; cbn [mbind result_bind].
  - intros [= ->]. by left.
  - intros E. right. by apply IH.
Qed.

(** ** Configuration *)

Lemma selector_known config k name make sel sel' :
  existsb (str_eqb name) selector_names = true ->
  known_selectors sel -> selector config k name make sel = Ok sel' -> known_selectors sel'.
Proof.
  intros Hn Hk. unfold selector. destruct (asString_default config _ _) as [|c v]; [by intros [= <-]|].
  destruct (RequestFilter.create_regex _); intros [= <-].
  apply Forall_app. split; [done|]. by apply Forall_singleton.
Qed.

Lemma params_known config q sel sel' :
  known_selectors sel -> params config q sel = Ok sel' -> known_selectors sel'.
Proof.
  revert sel. induction q as [|k q IH]; intros sel Hk; cbn [params]; [by intros [= <-]|].
  destruct (Range.empty _); [by apply IH|]. destruct (Range.empty _); [by apply IH|].
  destruct (RequestFilter.create_regex _); [|done|done]. apply IH. apply Forall_app. split; [done|]. by apply Forall_singleton.
Qed.

Lemma init_selectors_known config p k sel : init_selectors config p k = Ok sel -> known_selectors sel.
Proof.
  unfold init_selectors. intros E.
  destruct (selector config k (lit "url") _ []) as [s1| |] eqn:E1; [|done|done]. cbn [mbind result_bind] in E.
  destruct (selector config k (lit "host") _ s1) as [s2| |] eqn:E2; [|done|done]. cbn [mbind result_bind] in E.
  destruct (selector config k (lit "port") _ s2) as [s3| |] eqn:E3; [|done|done]. cbn [mbind result_bind] in E.
  destruct (selector config k (lit "address") _ s3) as [s4| |] eqn:E4; [|done|done]. cbn [mbind result_bind] in E.
  destruct (selector config k (lit "referer") _ s4) as [s5| |] eqn:E5; [|done|done]. cbn [mbind result_bind] in E.
  eapply params_known; [|exact E].
  eapply selector_known; [| |exact E5]; [done|]. eapply selector_known; [| |exact E4]; [done|].
  eapply selector_known; [| |exact E3]; [done|]. eapply selector_known; [| |exact E2]; [done|].
  eapply selector_known; [| |exact E1]; [done|]. constructor.
Qed.

(** The descriptions of the elements [v], in order. *)
Fixpoint descriptions config cs dp p (v : list bytes) : result (list (HandlerDescription R)) :=
  match v with
  | [] => Ok []
  | k :: v' => d ← init_handler config cs dp p k; l ← descriptions config cs dp p v'; Ok (d :: l)
  end.

Lemma initInternal_spec config cs p v hs hs' :
  initInternal config cs p v hs = Ok hs' ->
  exists l, descriptions config cs (defaultPoolName_ hs) p v = Ok l /\
    hs' = MkHandlerSet (filters_ hs) (handlers_ hs ++ l) (defaultPoolName_ hs).
Proof.
  revert hs. induction v as [|k v IH]; intros hs; cbn [initInternal descriptions].
  - intros [= <-]. exists []. rewrite app_nil_r. by destruct hs.
  - destruct (init_handler config cs (defaultPoolName_ hs) p k) as [d| |]; [|done|done]. cbn [mbind result_bind].
    intros E. destruct (IH _ E) as (l & El & ->). cbn in El |- *. rewrite El. exists (d :: l).
    by rewrite <- app_assoc.
Qed.

Fixpoint filter_descriptions config cs p (v : list bytes) : result (list (FilterDescription R)) :=
  match v with
  | [] => Ok []
  | k :: v' => d ← init_filter config cs p k; l ← filter_descriptions config cs p v'; Ok (d :: l)
  end.

Lemma init_filters_spec config cs p v hs hs' :
  init_filters config cs p v hs = Ok hs' ->
  exists l, filter_descriptions config cs p v = Ok l /\
    hs' = MkHandlerSet (filters_ hs ++ l) (handlers_ hs) (defaultPoolName_ hs).
Proof.
  revert hs. induction v as [|k v IH]; intros hs; cbn [init_filters filter_descriptions].
  - intros [= <-]. exists []. rewrite app_nil_r. by destruct hs.
  - destruct (init_filter config cs p k) as [d| |]; [|done|done]. cbn [mbind result_bind].
    intros E. destruct (IH _ E) as (l & El & ->). cbn in El |- *. rewrite El. exists (d :: l).
    by rewrite <- app_assoc.
Qed.

Lemma init_components_ok config cs ok i keys l :
  init_components config cs ok i keys = Ok l -> Forall (fun p => ok p = true) l.
Proof.
  revert l. induction keys as [|k keys IH]; intros l; cbn [init_components]; [intros [= <-]; constructor|].
  destruct (asString config _) as [n| |]; [|done|done]. cbn [mbind result_bind].
  destruct (components_find cs n) as [p|]; [|done]. destruct (ok p) eqn:Ep; [|done]. cbn [negb].
  destruct (init_components config cs ok i keys) as [rest| |]; [|done|done]. intros [= <-].
  constructor; [done|by apply IH].
Qed.

Definition handler_ok cs (d : HandlerDescription R) : Prop :=
  known_selectors (selectors d) /\ Forall (fun p => is_Handler cs p = true) (handlers d).
Definition filter_ok cs (d : FilterDescription R) : Prop :=
  known_selectors (filter_selectors d) /\ Forall (fun p => is_Filter cs p = true) (filter_handlers d).

Lemma descriptions_ok config cs dp p v l : descriptions config cs dp p v = Ok l -> Forall (handler_ok cs) l.
Proof.
  revert l. induction v as [|k v IH]; intros l; cbn [descriptions]; [intros [= <-]; constructor|].
  destruct (init_handler config cs dp p k) as [d| |] eqn:Ed; [|done|done]. cbn [mbind result_bind].
  destruct (descriptions config cs dp p v); [|done|done]. intros [= <-]. constructor; [|by apply IH].
  unfold init_handler in Ed. destruct (init_selectors config p k) as [sel| |] eqn:Es; [|done|done].
  cbn [mbind result_bind] in Ed.
  destruct (init_components config cs _ _ _) as [hs| |] eqn:Ec; [|done|done]. injection Ed as <-.
  split; [by eapply init_selectors_known|by eapply init_components_ok].
Qed.

Lemma filter_descriptions_ok config cs p v l :
  filter_descriptions config cs p v = Ok l -> Forall (filter_ok cs) l.
Proof.
  revert l. induction v as [|k v IH]; intros l; cbn [filter_descriptions]; [intros [= <-]; constructor|].
  destruct (init_filter config cs p k) as [d| |] eqn:Ed; [|done|done]. cbn [mbind result_bind].
  destruct (filter_descriptions config cs p v); [|done|done]. intros [= <-]. constructor; [|by apply IH].
  unfold init_filter in Ed. destruct (init_selectors config p k) as [sel| |] eqn:Es; [|done|done].
  cbn [mbind result_bind] in Ed.
  destruct (init_components config cs _ _ _) as [hs| |] eqn:Ec; [|done|done]. injection Ed as <-.
  split; [by eapply init_selectors_known|by eapply init_components_ok].
Qed.

Definition prefix_key : bytes := lit "/fastcgi/handlers/@urlPrefix".
Definition url_key : bytes := lit "/fastcgi/handlers/handler[count(@url)=1]".
Definition other_key : bytes := lit "/fastcgi/handlers/handler[not(@url)]".
Definition filter_key : bytes := lit "/fastcgi/handlers/filter".

Lemma init_spec config cs hs :
  init config cs create = Ok hs ->
  let p := asString_default config prefix_key [] in
  (exists l1 l2, descriptions config cs (getDefaultPool hs) p (config_subKeys config url_key) = Ok l1 /\
     descriptions config cs (getDefaultPool hs) p (config_subKeys config other_key) = Ok l2 /\
     handlers_ hs = l1 ++ l2) /\
  filter_descriptions config cs p (config_subKeys config filter_key) = Ok (filters_ hs) /\
  Forall (handler_ok cs) (handlers_ hs) /\ Forall (filter_ok cs) (filters_ hs) /\ well_configured hs.
Proof.
  intros E p. unfold init in E. fold prefix_key url_key other_key filter_key p in E.
  set (hs0 := MkHandlerSet _ _ _) in E.
  destruct (initInternal config cs p (config_subKeys config url_key) hs0) as [hs1| |] eqn:E1; [|done|done].
  cbn [mbind result_bind] in E.
  destruct (initInternal config cs p (config_subKeys config other_key) hs1) as [hs2| |] eqn:E2; [|done|done].
  cbn [mbind result_bind] in E.
  apply initInternal_spec in E1 as (l1 & D1 & ->). apply initInternal_spec in E2 as (l2 & D2 & ->).
  apply init_filters_spec in E as (l3 & D3 & ->). cbn in D1, D2 |- *.
  pose proof (descriptions_ok _ _ _ _ _ _ D1) as H1. pose proof (descriptions_ok _ _ _ _ _ _ D2) as H2.
  pose proof (filter_descriptions_ok _ _ _ _ _ D3) as H3.
  assert (Hh : Forall (handler_ok cs) (l1 ++ l2)) by (by apply Forall_app).
  split; [by exists l1, l2|]. split; [done|]. split; [done|]. split; [done|].
  split; cbn; eapply Forall_impl; [exact Hh|by intros d []|exact H3|by intros d []].
Qed.

Lemma init_well_configured config cs hs : init config cs create = Ok hs -> well_configured hs.
Proof. intros E. by destruct (init_spec _ _ _ E) as (_ & _ & _ & _ & ?). Qed.

(** When the configuration is accepted, the handlers with an address come first and then
    those without one, each group in the order of the file, so that a handler for an address
    takes precedence over a general one wherever it stands in the file; every handler and
    filter in the tables is a component with the right interface, and all selectors are of
    the kinds the lookup consults. *)
Theorem init_order config cs hs :
  init config cs create = Ok hs ->
  let p := asString_default config prefix_key [] in
  (exists l1 l2, descriptions config cs (getDefaultPool hs) p (config_subKeys config url_key) = Ok l1 /\
     descriptions config cs (getDefaultPool hs) p (config_subKeys config other_key) = Ok l2 /\
     handlers_ hs = l1 ++ l2) /\
  filter_descriptions config cs p (config_subKeys config filter_key) = Ok (filters_ hs) /\
  Forall (handler_ok cs) (handlers_ hs) /\ Forall (filter_ok cs) (filters_ hs) /\ well_configured hs.
Proof. apply init_spec. Qed.

(** C29: with an accepted configuration, a request whose server port can be read is handled by
    the first handler all of whose selectors accept it, and by none when there is no such
    handler. First is meant in the order of the table, where the handlers of the
    configuration with an address come before those without one, and each of the two groups
    is in the order of the configuration: among the handlers without an address the first
    that accepts the request is taken only when none with an address accepts it, even if it
    stands before them in the file. The request goes through the filters of every filter
    description all of whose selectors accept it, in the order of the configuration. *)
Theorem handler_lookup config cs hs r port v :
  init config cs create = Ok hs -> Request.getServerPort r = Ok port ->
  let p := asString_default config prefix_key [] in
  exists with_url without_url filters,
    descriptions config cs (getDefaultPool hs) p (config_subKeys config url_key) = Ok with_url /\
    descriptions config cs (getDefaultPool hs) p (config_subKeys config other_key) = Ok without_url /\
    filter_descriptions config cs p (config_subKeys config filter_key) = Ok filters /\
    findURIHandler hs r =
      Ok (match List.find (fun d => all_accept r port (selectors d)) with_url with
          | Some d => Some d
          | None => List.find (fun d => all_accept r port (selectors d)) without_url
          end) /\
    findURIFilters hs r v =
      Ok (v ++ flat_map filter_handlers
                (List.filter (fun d => all_accept r port (filter_selectors d)) filters)).
Proof.
  intros E Hp p. destruct (init_spec _ _ _ E) as ((l1 & l2 & D1 & D2 & Hh) & D3 & _ & _ & Hw).
  destruct (table_lookup hs r port v Hw Hp) as [E1 E2].
  exists l1, l2, (filters_ hs). split; [done|]. split; [done|]. split; [done|]. split; [|done].
  rewrite E1, Hh. f_equal. clear. induction l1 as [|d l1 IH]; [done|]. cbn.
  by destruct (all_accept r port (selectors d)).
Qed.
End Lookup.

(** ** A small configuration *)

Section Examples.
Import HandlerSet.

(** Expressions that are either literal or match everything. *)
Definition literal_regex : Regex bytes := {|
  regex_compile re := Ok re;
  regex_match re s := str_eqb re (lit ".*") || str_eqb re s
|}.

Definition small_config : Config := MkConfig
  (fun key =>
    om_find str_ltb (om_insert_all str_ltb [] (map (fun kv => (lit kv.1, lit kv.2))
      [("/fastcgi/handlers/@urlPrefix", "/app"); ("/fastcgi/pools/@default", "main");
       ("/fastcgi/handlers/handler[count(@url)=1][1]/@url", "/login");
       ("/fastcgi/handlers/handler[count(@url)=1][1]/@pool", "auth");
       ("/fastcgi/handlers/handler[count(@url)=1][1]/component[1]/@name", "login");
       ("/fastcgi/handlers/handler[not(@url)][1]/component[1]/@name", "pages");
       ("/fastcgi/handlers/filter[1]/component[1]/@name", "gate")])) key)
  (fun key =>
    if existsb (str_eqb key) [url_key; other_key; filter_key; url_key ++ lit "[1]/component";
        other_key ++ lit "[1]/component"; filter_key ++ lit "[1]/component"] then 1%nat else 0%nat).

Definition small_components : ComponentSet := MkComponents
  (fun n => if str_eqb n (lit "login") then Some 1%nat else if str_eqb n (lit "pages") then Some 2%nat
            else if str_eqb n (lit "gate") then Some 3%nat else None)
  (fun p => bool_decide (p <> 3%nat)) (fun p => bool_decide (p = 3%nat)).

Definition small_set : HandlerSet.t bytes :=
  match init (H := literal_regex) small_config small_components create with Ok hs => hs | _ => create end.

Definition script (name : string) : Request.t unit :=
  Request.set_in Request.create (set_vars no_input [(lit "SCRIPT_NAME", lit name)]).

Lemma init_order_witness :
  map (fun d => handlers d) (handlers_ small_set) = [[1%nat]; [2%nat]] /\ well_configured small_set.
Proof.
  destruct (init_order (H := literal_regex) small_config small_components small_set)
    as (_ & _ & _ & _ & Hw).
  - vm_compute. reflexivity.
  - split; [vm_compute; reflexivity|exact Hw].
Defined.

Definition handled_by (d : result (option (HandlerDescription bytes))) : list nat :=
  match d with Ok (Some d) => handlers d | _ => [] end.

Lemma handler_lookup_witness :
  handled_by (findURIHandler (H := literal_regex) small_set (script "/app/login")) = [1%nat] /\
  handled_by (findURIHandler (H := literal_regex) small_set (script "/app/other")) = [2%nat].
Proof.
  assert (E : init (H := literal_regex) small_config small_components create = Ok small_set)
    by (vm_compute; reflexivity).
  split.
  - destruct (handler_lookup (H := literal_regex) small_config small_components small_set (script "/app/login") 80 []
      E eq_refl) as (l1 & l2 & l3 & D1 & D2 & _ & -> & _).
    vm_compute in D1, D2. injection D1 as <-. injection D2 as <-. vm_compute. reflexivity.
  - destruct (handler_lookup (H := literal_regex) small_config small_components small_set (script "/app/other") 80 []
      E eq_refl) as (l1 & l2 & l3 & D1 & D2 & _ & -> & _).
    vm_compute in D1, D2. injection D1 as <-. injection D2 as <-. vm_compute. reflexivity.
Defined.
End Examples.
