(* ===== verification/Program.v ===== *)
(** * Program

    The monad of the components that change state, throw and call each other: a computation
    on a state [W] gives the state it leaves, also when it throws, and its outcome; [None]
    is a computation that is still running (a loop that waits for input the model has no
    more of). *)

From S2P Require Import Prelude.

Definition prog (W A : Type) : Type := W -> option (W * result A).

#[export] Instance prog_ret {W} : MRet (prog W) := fun A a w => Some (w, Ok a).
#[export] Instance prog_bind {W} : MBind (prog W) := fun A B f p w =>
  match p w with
  | Some (w', Ok a) => f a w'
  | Some (w', Throw e) => Some (w', Throw e)
  | Some (w', Undef) => Some (w', Undef)
  | None => None
  end.

Section Ops.
Context {W : Type}.

Definition throw {A} (e : exn) : prog W A := fun w => Some (w, Throw e).
Definition lift {A} (r : result A) : prog W A := fun w => Some (w, r).
Definition gets {A} (f : W -> A) : prog W A := fun w => Some (w, Ok (f w)).
Definition modify (f : W -> W) : prog W unit := fun w => Some (f w, Ok tt).
Definition ret {A} (a : A) : prog W A := mret a.

(** [try { p } catch (e) { h }]; undefined behaviour is not caught. *)
Definition try_catch {A} (p : prog W A) (h : exn -> prog W A) : prog W A := fun w =>
  match p w with
  | Some (w', Throw e) => h e w'
  | res => res
  end.

(** A destructor: [f] runs on the state when [p] is left, whatever its outcome. *)
Definition finally {A} (p : prog W A) (f : W -> W) : prog W A := fun w =>
  match p w with
  | Some (w', res) => Some (f w', res)
  | None => None
  end.

(** Calls in a loop. *)
Fixpoint for_each {X} (l : list X) (f : X -> prog W unit) : prog W unit :=
  match l with
  | [] => ret tt
  | x :: l' => f x ;; for_each l' f
  end.
End Ops.

(** A computation on a part of the state. *)
Definition zoom {W V A} (get : W -> V) (put : W -> V -> W) (p : prog V A) : prog W A := fun w =>
  match p (get w) with
  | Some (v, res) => Some (put w v, res)
  | None => None
  end.

(** [runs p w Q]: from [w] the computation finishes, and [Q] holds of what it leaves. *)
Definition runs {W A} (p : prog W A) (w : W) (Q : W -> result A -> Prop) : Prop :=
  exists w' res, p w = Some (w', res) /\ Q w' res.

Section Laws.
Context {W : Type}.
Implicit Types w : W.

Lemma bind_ok {A B} (p : prog W A) (f : A -> prog W B) w w' a :
  p w = Some (w', Ok a) -> (p ≫= f) w = f a w'.
Proof. unfold mbind, prog_bind. by intros ->. Qed.

Lemma bind_throw {A B} (p : prog W A) (f : A -> prog W B) w w' e :
  p w = Some (w', Throw e) -> (p ≫= f) w = Some (w', Throw e).
Proof. unfold mbind, prog_bind. by intros ->. Qed.

Lemma bind_assoc {A B C} (p : prog W A) (f : A -> prog W B) (g : B -> prog W C) w :
  ((p ≫= f) ≫= g) w = (p ≫= (fun a => f a ≫= g)) w.
Proof. unfold mbind, prog_bind. by destruct (p w) as [[w' [a|e|]]|]. Qed.

Lemma bind_inv {A B} (p : prog W A) (f : A -> prog W B) w w' b :
  (p ≫= f) w = Some (w', Ok b) -> exists w1 a, p w = Some (w1, Ok a) /\ f a w1 = Some (w', Ok b).
Proof. unfold mbind, prog_bind. destruct (p w) as [[w1 [a|e|]]|]; try done. intros H. by exists w1, a. Qed.

Lemma bind_gets {A B} (f : W -> A) (g : A -> prog W B) w : (gets f ≫= g) w = g (f w) w.
Proof. done. Qed.

Lemma bind_modify {B} (f : W -> W) (g : unit -> prog W B) w : (modify f ≫= g) w = g tt (f w).
Proof. done. Qed.

Lemma bind_ret {A B} (a : A) (g : A -> prog W B) w : (ret a ≫= g) w = g a w.
Proof. done. Qed.

Lemma try_catch_ok {A} (p : prog W A) h w w' a : p w = Some (w', Ok a) -> try_catch p h w = Some (w', Ok a).
Proof. unfold try_catch. by intros ->. Qed.

Lemma try_catch_throw {A} (p : prog W A) h w w' e : p w = Some (w', Throw e) -> try_catch p h w = h e w'.
Proof. unfold try_catch. by intros ->. Qed.

Lemma runs_bind {A B} (p : prog W A) (f : A -> prog W B) w Q :
  runs p w (fun w' res => match res with
    | Ok a => runs (f a) w' Q | Throw e => Q w' (Throw e) | Undef => Q w' Undef end) ->
  runs (p ≫= f) w Q.
Proof.
  intros (w' & res & E & H). unfold runs, mbind, prog_bind. rewrite E.
  destruct res as [a|e|]; [exact H|eauto..].
Qed.

Lemma runs_mono {A} (p : prog W A) w (Q Q' : W -> result A -> Prop) :
  runs p w Q -> (forall w' res, Q w' res -> Q' w' res) -> runs p w Q'.
Proof. intros (w' & res & E & H) HQ. exists w', res. auto. Qed.
End Laws.


(** *** Relations between the states before and after

    [preserves R p]: whatever the outcome of [p], its states are related by [R]. *)
Section Preserves.
Context {W : Type} (R : relation W) `{!PreOrder R}.

Definition preserves {A} (p : prog W A) : Prop := forall w w' res, p w = Some (w', res) -> R w w'.

Lemma preserves_bind {A B} (p : prog W A) (f : A -> prog W B) :
  preserves p -> (forall a, preserves (f a)) -> preserves (p ≫= f).
Proof.
  intros Hp Hf w w' res. unfold mbind, prog_bind. destruct (p w) as [[w1 [a|e|]]|] eqn:E; try done.
  - intros H. etrans; [eapply Hp, E|eapply Hf, H].
  - intros [= <- <-]. eapply Hp, E.
  - intros [= <- <-]. eapply Hp, E.
Qed.

Lemma preserves_pure {A} (f : W -> result A) : preserves (fun w => Some (w, f w)).
Proof. by intros w w' res [= <- <-]. Qed.

Lemma preserves_modify f : (forall w, R w (f w)) -> preserves (modify f).
Proof. intros Hf w w' res [= <- <-]. apply Hf. Qed.

Lemma preserves_catch {A} (p : prog W A) h :
  preserves p -> (forall e, preserves (h e)) -> preserves (try_catch p h).
Proof.
  intros Hp Hh w w' res. unfold try_catch. destruct (p w) as [[w1 [a|e|]]|] eqn:E; try done.
  1, 3: intros [= <- <-]; eapply Hp, E.
  intros H. etrans; [eapply Hp, E|eapply Hh, H].
Qed.
End Preserves.

(** How a sequence ends: in its first part or in its second. *)
Lemma bind_cases {W A B} (p : prog W A) (f : A -> prog W B) w w' res :
  (p ≫= f) w = Some (w', res) ->
  (exists w1 a, p w = Some (w1, Ok a) /\ f a w1 = Some (w', res)) \/
  (exists r, p w = Some (w', r) /\ (forall b, res <> Ok b)).
Proof.
  unfold mbind, prog_bind. destruct (p w) as [[w1 [a|e|]]|]; try done; intros H.
  - left. by exists w1, a.
  - right. injection H as <- <-. by eexists.
  - right. injection H as <- <-. by eexists.
Qed.

(** A computation that finishes, from every state. *)
Definition ends {W A} (p : prog W A) : Prop := forall w, is_Some (p w).

Lemma ends_bind {W A B} (p : prog W A) (f : A -> prog W B) : ends p -> (forall a, ends (f a)) -> ends (p ≫= f).
Proof.
  intros Hp Hf w. unfold mbind, prog_bind. destruct (Hp w) as [[w' [a|e|]] ->]; [apply Hf|by eexists..].
Qed.

Lemma ends_pure {W A} (f : W -> W) (g : W -> result A) : ends (fun w => Some (f w, g w)).
Proof. intros w. by eexists. Qed.

Lemma runs_ends {W A} (p : prog W A) w (Q : W -> result A -> Prop) :
  is_Some (p w) -> (forall w' res, p w = Some (w', res) -> Q w' res) -> runs p w Q.
Proof. intros [[w' res] E] H. exists w', res. auto. Qed.

(** A computation of binds, calls and case distinctions. *)
Ltac prog_ends :=
  repeat (intros; first [exact (ends_pure _ _)
    | progress (unfold gets, modify, lift, throw, ret, mret, prog_ret)
    | apply ends_bind | case_match | assumption]).
