(* ===== verification/Loader.v ===== *)
(** * Loader

    [library/loader.cpp]: the libraries of the configuration are opened, and the factories that
    each of them offers go into a table under the name of the module and their own. What
    [dlopen], [dlsym] and the libraries do is not part of the program: opening a path gives a
    handle or the text of [dlerror], and a handle the outcome of its [getFactoryMap], if it has
    one. *)

From S2P Require Import Prelude Cxx OrdMap Handlers Program.

Module Loader.

(** The map of a library may be null, and the call may throw. *)
Record System := MkSystem {
  dlopen : bytes -> nat + bytes;
  dlsym : nat -> result (option (list (bytes * nat))) + bytes
}.

(** [factories_], [handles_], and the handles that are open, each as often as it was opened and not
    closed, the last one first. *)
Record t := MkLoader {
  factories_ : list (bytes * nat);
  handles_ : list nat;
  opened : list nat
}.

Definition create : t := MkLoader [] [] [].

Definition set_factories (l : t) v : t := MkLoader v (handles_ l) (opened l).
Definition push_handle (l : t) (handle : nat) : t := MkLoader (factories_ l) (handles_ l ++ [handle]) (opened l).
Definition set_opened (l : t) v : t := MkLoader (factories_ l) (handles_ l) v.

Fixpoint remove_one (handle : nat) (l : list nat) : list nat :=
  match l with
  | [] => []
  | x :: l' => if decide (x = handle) then l' else x :: remove_one handle l'
  end.

Definition dlclose (l : t) (handle : nat) : t := set_opened l (remove_one handle (opened l)).

(** A name that is there is kept. *)
Definition insert_factories (name : bytes) (factories : list (bytes * nat)) (factoryMap : list (bytes * nat))
    : list (bytes * nat) :=
  foldl (fun fs i => (om_insert str_ltb fs (name ++ lit ":" ++ i.1) i.2).1) factories factoryMap.

Section Ops.
Context (sys : System).
#[local] Abbreviation P := (prog t).

(** The body of the [try], from the opened library on. *)
Definition register (name : bytes) (handle : nat) : P unit :=
  match dlsym sys handle with
  | inr err => throw (RuntimeError err)
  | inl outcome =>
      factoryMap ← lift outcome;
      match factoryMap with
      | Some factoryMap => modify (fun l => set_factories l (insert_factories name (factories_ l) factoryMap))
      | None => ret tt
      end ;;
      modify (fun l => push_handle l handle)
  end.

(** An exception that is no [std::exception] passes the [catch]. *)
Definition load (name path : bytes) : P unit :=
  match dlopen sys path with
  | inr err => throw (RuntimeError err)
  | inl handle =>
      modify (fun l => set_opened l (handle :: opened l)) ;;
      try_catch (register name handle)
        (fun e => (if is_std e then modify (fun l => dlclose l handle) else ret tt) ;; throw e)
  end.

Definition init (config : Config) : P unit :=
  for_each (config_subKeys config (lit "/fastcgi/modules/module")) (fun i =>
    name ← lift (asString config (i ++ lit "/@name"));
    path ← lift (asString config (i ++ lit "/@path"));
    load (c_str name) (c_str path)).
End Ops.

(** The destructor closes the libraries from the last to the first. *)
Definition destroy (l : t) : t := foldl dlclose l (rev (handles_ l)).

Definition findComponentFactory (l : t) (type : bytes) : option nat := om_find str_ltb (factories_ l) type.
End Loader.

(** ** Libraries and factories *)

Section Facts.
Import Loader.
Context (sys : System).
Implicit Types l : Loader.t.

(** What a library offers under the name of its module, and all that the modules do, in order. *)
Definition offered (name path : bytes) : list (bytes * nat) :=
  match dlopen sys path with
  | inl handle =>
      match dlsym sys handle with
      | inl (Ok (Some factoryMap)) => map (fun i => (name ++ lit ":" ++ i.1, i.2)) factoryMap
      | _ => []
      end
  | inr _ => []
  end.

Definition offered_by (config : Config) (i : bytes) : list (bytes * nat) :=
  match asString config (i ++ lit "/@name"), asString config (i ++ lit "/@path") with
  | Ok name, Ok path => offered (c_str name) (c_str path)
  | _, _ => []
  end.

Definition first_for (k : bytes) (fs : list (bytes * nat)) : option nat := snd <$> List.find (fun i => str_eqb k i.1) fs.

Lemma find_inserted fs (m : list (bytes * nat)) k : sorted str_ltb m ->
  sorted str_ltb (om_insert_all str_ltb m fs) /\
  om_find str_ltb (om_insert_all str_ltb m fs) k =
    match om_find str_ltb m k with Some v => Some v | None => first_for k fs end.
Proof.
  unfold om_insert_all, first_for. revert m. induction fs as [|[a x] fs IH]; intros m Hm; cbn [foldl fst snd List.find].
  - split; [done|]. by destruct (om_find str_ltb m k).
  - destruct (IH (om_insert str_ltb m a x).1 (sorted_insert str_ltb m a x Hm)) as [H1 H2]. split; [done|]. rewrite H2.
    rewrite om_insert_spec. destruct (om_find str_ltb m a) eqn:Ea; cbn [fst].
    + destruct (om_find str_ltb m k) eqn:Ek; [done|]. destruct (str_eqb k a) eqn:E; [|done].
      apply str_eqb_true in E as ->. congruence.
    + rewrite om_find_put by done. destruct (str_eqb k a) eqn:E.
      * apply str_eqb_true in E as ->. by rewrite (proj2 (str_keq a a) eq_refl), Ea.
      * apply str_eqb_false in E. by rewrite str_keq_ne by done.
Qed.

Lemma insert_factories_all name fs m :
  insert_factories name fs m = om_insert_all str_ltb fs (map (fun i => (name ++ lit ":" ++ i.1, i.2)) m).
Proof. unfold insert_factories, om_insert_all. revert fs. induction m as [|i m IH]; intros fs; cbn; [done|]. by rewrite IH. Qed.

(** Every open library has its handle kept, and the other way round. *)
Definition balanced l : Prop := opened l ≡ₚ handles_ l.

(** What loading one library or all of them does. *)
Definition loads (fs : list (bytes * nat)) l l' (res : result unit) : Prop :=
  balanced l' /\ sorted str_ltb (factories_ l') /\
  (res = Ok tt -> forall k, findComponentFactory l' k =
     match findComponentFactory l k with Some v => Some v | None => first_for k fs end).

Definition throws_std : Prop := forall handle e, dlsym sys handle = inl (Throw e) -> is_std e = true.

Lemma load_loads_library name path l l' res :
  throws_std -> balanced l -> sorted str_ltb (factories_ l) -> load sys name path l = Some (l', res) -> res <> Undef ->
  loads (offered name path) l l' res.
Proof.
  intros Hstd Hb Hs. unfold load, offered. destruct (dlopen sys path) as [handle|err]; [|by intros [= <- <-]].
  rewrite bind_modify. unfold try_catch, register. destruct (dlsym sys handle) as [[fm|e|]|err] eqn:Ed.
  - assert (E : (lift (Ok fm) ≫= (fun factoryMap =>
        (match factoryMap with Some m => modify (fun l => set_factories l (insert_factories name (factories_ l) m)) | None => ret tt end) ;;
        modify (fun l => push_handle l handle))) (set_opened l (handle :: opened l)) =
      Some (MkLoader (match fm with Some m => insert_factories name (factories_ l) m | None => factories_ l end)
        (handles_ l ++ [handle]) (handle :: opened l), Ok tt)) by (by destruct fm).
    rewrite E. intros [= <- <-] _.
    assert (Hb' : handle :: opened l ≡ₚ handles_ l ++ [handle]) by (unfold balanced in Hb; rewrite Hb; apply Permutation_cons_append).
    destruct fm as [m|].
    + destruct (find_inserted (map (fun i => (name ++ lit ":" ++ i.1, i.2)) m) (factories_ l) [] Hs) as [Hs' _].
      rewrite insert_factories_all. split; [done|]. split; [done|]. intros _ k. unfold findComponentFactory. cbn [factories_].
      by apply find_inserted.
    + split; [done|]. split; [done|]. intros _ k. unfold findComponentFactory. cbn. by destruct (om_find _ _ _).
  - pose proof (Hstd handle e Ed) as He. destruct e; try discriminate He; cbn; intros [= <- <-] _;
      (split; [|done]); unfold balanced; cbn; by rewrite decide_True.
  - by intros [= <- <-].
  - cbn. intros [= <- <-] _. split; [|done]. unfold balanced. cbn. by rewrite decide_True.
Qed.

Lemma first_app k fs fs' : first_for k (fs ++ fs') = match first_for k fs with Some v => Some v | None => first_for k fs' end.
Proof. unfold first_for. induction fs as [|[a x] fs IH]; cbn; [done|]. by destruct (str_eqb k a). Qed.

(** The loop of [init] over any keys. *)
Lemma init_loads config keys l l' res :
  throws_std -> balanced l -> sorted str_ltb (factories_ l) ->
  for_each keys (fun i =>
    name ← lift (asString config (i ++ lit "/@name")); path ← lift (asString config (i ++ lit "/@path"));
    load sys (c_str name) (c_str path)) l = Some (l', res) -> res <> Undef ->
  loads (flat_map (offered_by config) keys) l l' res.
Proof.
  intros Hstd. revert l. induction keys as [|i keys IH]; intros l Hb Hs; cbn [for_each flat_map].
  { intros [= <- <-] _. split; [done|]. split; [done|]. intros _ k. by destruct (findComponentFactory l k). }
  set (one := _ ← lift (asString config (i ++ lit "/@name")); _).
  assert (Hone : forall l1 r, one l = Some (l1, r) -> r <> Undef -> loads (offered_by config i) l l1 r).
  { intros l1 r. unfold one, offered_by, lift, mbind, prog_bind.
    destruct (asString config (i ++ lit "/@name")) as [name|e|]; [|by intros [= <- <-]..].
    destruct (asString config (i ++ lit "/@path")) as [path|e|]; [|by intros [= <- <-]..].
    by apply load_loads_library. }
  unfold mbind, prog_bind. destruct (one l) as [[l1 [[]|e|]]|]; [| | |done].
  - destruct (Hone l1 _ eq_refl ltac:(done)) as (Hb1 & Hs1 & Hf1). intros E Hu.
    destruct (IH l1 Hb1 Hs1 E Hu) as (Hb2 & Hs2 & Hf2). split; [done|]. split; [done|]. intros Hr k.
    rewrite (Hf2 Hr), (Hf1 eq_refl), first_app. by destruct (findComponentFactory l k), (first_for k (offered_by config i)).
  - intros [= <- <-] _. by destruct (Hone l1 _ eq_refl ltac:(done)) as (? & ? & _).
  - by intros [= <- <-].
Qed.

Lemma remove_one_perm handle (h : list nat) : handle ∈ h -> handle :: remove_one handle h ≡ₚ h.
Proof.
  induction h as [|x h IH]; intros Hin; [by apply elem_of_nil in Hin|]. cbn. destruct (decide (x = handle)) as [->|Hne]; [done|].
  apply elem_of_cons in Hin as [->|Hin]; [done|]. rewrite Permutation_swap. by rewrite (IH Hin).
Qed.

Lemma close_all (hs : list nat) l : opened l ≡ₚ hs -> opened (foldl dlclose l hs) = [].
Proof.
  revert l. induction hs as [|h hs IH]; intros l Hp; cbn [foldl].
  - by apply Permutation_nil_r in Hp.
  - apply IH. cbn. apply (Permutation_cons_inv (a := h)). rewrite remove_one_perm; [done|]. rewrite Hp. by left.
Qed.

Lemma load_ends name path l : is_Some (load sys name path l).
Proof.
  unfold load. destruct (dlopen sys path) as [handle|err]; [|by eexists]. rewrite bind_modify. unfold try_catch, register.
  destruct (dlsym sys handle) as [[[m|]|e|]|err]; try by eexists. destruct e; by eexists.
Qed.

Lemma init_ends config keys l : is_Some (for_each keys (fun i =>
  name ← lift (asString config (i ++ lit "/@name")); path ← lift (asString config (i ++ lit "/@path"));
  load sys (c_str name) (c_str path)) l).
Proof.
  revert l. induction keys as [|i keys IH]; intros l; cbn [for_each]; [by eexists|]. unfold lift, mbind, prog_bind.
  destruct (asString config (i ++ lit "/@name")) as [name|e|]; [|by eexists..].
  destruct (asString config (i ++ lit "/@path")) as [path|e|]; [|by eexists..].
  destruct (load_ends (c_str name) (c_str path) l) as [[l1 [[]|e|]] ->]; [apply IH|by eexists..].
Qed.

(** The loader keeps its libraries in order. Whatever modules the configuration names, loading
    them leaves open exactly the libraries whose handles are kept, also when one of them
    cannot be opened, has no entry point or throws: its handle is closed again; the destructor
    closes all of them. When all are loaded, the factory found for a type is the one that the
    first module to offer that type has, and none is found when no module offers it. *)
Theorem libraries_loaded config :
  throws_std -> runs (init sys config) create (fun l res => res <> Undef ->
    opened l ≡ₚ handles_ l /\ opened (destroy l) = [] /\
    (res = Ok tt -> forall type, findComponentFactory l type =
       first_for type (flat_map (offered_by config) (config_subKeys config (lit "/fastcgi/modules/module"))))).
Proof.
  intros Hstd. destruct (init_ends config (config_subKeys config (lit "/fastcgi/modules/module")) create) as [[l res] E].
  exists l, res. split; [exact E|]. intros Hu.
  destruct (init_loads config (config_subKeys config (lit "/fastcgi/modules/module")) create l res Hstd) as (Hb & _ & Hf);
    [unfold balanced; reflexivity|constructor|exact E|done|].
  split; [exact Hb|]. split; [|intros Hr type; by rewrite (Hf Hr)]. apply close_all. unfold balanced in Hb. rewrite Hb. apply Permutation_rev.
Qed.
End Facts.

(** Two modules with one type each, the second of which cannot be called. *)
Section Examples.
Import Loader.

Definition two_modules : Config := MkConfig
  (fun key => if str_eqb key (lit "/fastcgi/modules/module[1]/@name") then Some (lit "site")
              else if str_eqb key (lit "/fastcgi/modules/module[1]/@path") then Some (lit "site.so")
              else if str_eqb key (lit "/fastcgi/modules/module[2]/@name") then Some (lit "extra")
              else if str_eqb key (lit "/fastcgi/modules/module[2]/@path") then Some (lit "extra.so") else None)
  (fun key => if str_eqb key (lit "/fastcgi/modules/module") then 2%nat else 0%nat).

Definition two_libraries : System := MkSystem
  (fun path => if str_eqb path (lit "site.so") then inl 1%nat else inl 2%nat)
  (fun handle => if decide (handle = 1%nat) then inl (Ok (Some [(lit "pages", 7%nat)])) else inr (lit "undefined symbol")).

Lemma libraries_loaded_witness :
  exists l, init two_libraries two_modules create = Some (l, Throw (RuntimeError (lit "undefined symbol"))) /\
    opened l ≡ₚ [1%nat] /\ opened (destroy l) = [].
Proof.
  destruct (libraries_loaded two_libraries two_modules) as (l & res & E & H).
  - intros handle e. cbn. destruct (decide (handle = 1%nat)); discriminate.
  - exists l. assert (Hr : res = Throw (RuntimeError (lit "undefined symbol")) /\ handles_ l = [1%nat]).
    { vm_compute in E. injection E as <- <-. split; reflexivity. }
    destruct Hr as [-> Hh]. destruct (H ltac:(discriminate)) as (H1 & H2 & _). rewrite Hh in H1.
    split; [exact E|]. split; [exact H1|exact H2].
Defined.
End Examples.
