(* ===== verification/Components.v ===== *)
(** * Components

    [library/componentset.cpp]: the components of the configuration are created by the
    factories of their types, which [Loader] finds, and then told to load; a component that
    looks up another one while it loads makes that one load first.

    What the factories and components do is not part of the program: a factory gives a
    component or throws, and a component, when it is told to load, looks up others and then
    succeeds or throws. *)

From Stdlib Require Import Sorting.Sorted.
From S2P Require Import Prelude Cxx OrdMap Handlers Program.

Module ComponentSet.

Record ComponentContainer := MkContainer { component : nat; isLoadingStarted : bool }.

Record t := MkSet {
  components_ : list (bytes * ComponentContainer);
  loadingStack_ : list bytes
}.

Definition create : t := MkSet [] [].

Definition set_components (s : t) v := MkSet v (loadingStack_ s).
Definition push (s : t) (name : bytes) := MkSet (components_ s) (loadingStack_ s ++ [name]).

Definition container (s : t) (name : bytes) : option ComponentContainer := om_find str_ltb (components_ s) name.

Definition start_loading (s : t) (name : bytes) : t :=
  match container s name with
  | Some c => set_components s (om_put str_ltb (components_ s) name (MkContainer (component c) true))
  | None => s
  end.

Definition isComponentLoaded (s : t) (name : bytes) : bool := existsb (str_eqb name) (loadingStack_ s).

Section Ops.
(** The names a component looks up when it loads, in order, and how it ends, given which of them
    exist. *)
Context (lookups : bytes -> list bytes) (onLoad : bytes -> list bool -> option exn).

(** [e.what()] of an [std::exception]. *)
Context (what : exn -> bytes).

(** [throw std::runtime_error(e.what())] *)
Definition rethrow (e : exn) : exn :=
  match e with
  | StringThrown _ => RuntimeError (lit "Unknown exception caught")
  | e => RuntimeError (what e)
  end.

(** [add]; [createComponent] is the factory's. *)
Definition add (find_factory : bytes -> option nat) (createComponent : nat -> bytes -> result nat)
    (name type xpath : bytes) : prog t unit := fun s =>
  match find_factory type with
  | None => Some (s, Throw (RuntimeError (lit "Cannot find component factory for type: " ++ type)))
  | Some f =>
      match createComponent f xpath with
      | Ok c => Some (set_components s (om_insert str_ltb (components_ s) name (MkContainer c false)).1, Ok tt)
      | Throw e => Some (s, Throw (rethrow e))
      | Undef => Some (s, Undef)
      end
  end.

(** The lookups of a component, each of which loads what it finds; a component that is not there
    is not an error. *)
Fixpoint find_all (load : t -> bytes -> option (t * result unit)) (s : t) (names : list bytes)
    : option (t * result (list bool)) :=
  match names with
  | [] => Some (s, Ok [])
  | i :: names' =>
      match container s i with
      | None =>
          match find_all load s names' with
          | Some (s, Ok found) => Some (s, Ok (false :: found))
          | res => res
          end
      | Some _ =>
          match load s i with
          | None => None
          | Some (s, Ok _) =>
              match find_all load s names' with
              | Some (s, Ok found) => Some (s, Ok (true :: found))
              | res => res
              end
          | Some (s, Throw e) => Some (s, Throw e)
          | Some (s, Undef) => Some (s, Undef)
          end
      end
  end.

(** [sendOnLoad]; [fuel] bounds how deep the lookups nest. *)
Fixpoint sendOnLoad (fuel : nat) (s : t) (name : bytes) : option (t * result unit) :=
  if isComponentLoaded s name then Some (s, Ok tt)
  else
    match container s name with
    | None => Some (s, Undef)
    | Some c =>
        if isLoadingStarted c then Some (s, Throw (RuntimeError (lit "Cyclic component dependence found")))
        else
          match fuel with
          | O => None
          | S n =>
              match find_all (sendOnLoad n) (start_loading s name) (lookups name) with
              | None => None
              | Some (s, Ok found) =>
                  match onLoad name found with
                  | None => Some (push s name, Ok tt)
                  | Some e => Some (s, Throw (rethrow e))
                  end
              | Some (s, Throw e) => Some (s, Throw (rethrow e))
              | Some (s, Undef) => Some (s, Undef)
              end
          end
    end.

(** [find], which loads what it finds. *)
Definition find (fuel : nat) (s : t) (name : bytes) : option (t * result (option nat)) :=
  match container s name with
  | Some c =>
      if negb (isComponentLoaded s name) then
        match sendOnLoad fuel s name with
        | Some (s, Ok _) => Some (s, Ok (Some (component c)))
        | Some (s, Throw e) => Some (s, Throw e)
        | Some (s, Undef) => Some (s, Undef)
        | None => None
        end
      else Some (s, Ok (Some (component c)))
  | None => Some (s, Ok None)
  end.

Fixpoint send_all (fuel : nat) (s : t) (names : list bytes) : option (t * result unit) :=
  match names with
  | [] => Some (s, Ok tt)
  | i :: names' =>
      match sendOnLoad fuel s i with
      | Some (s, Ok _) => send_all fuel s names'
      | res => res
      end
  end.

Definition names (s : t) : list bytes := map fst (components_ s).

Definition sendOnLoadToComponents (fuel : nat) (s : t) : option (t * result unit) := send_all fuel s (names s).

Definition add_all (config : Config) (find_factory : bytes -> option nat)
    (createComponent : nat -> bytes -> result nat) (keys : list bytes) : prog t unit :=
  for_each keys (fun i =>
    name ← lift (asString config (i ++ lit "/@name"));
    type ← lift (asString config (i ++ lit "/@type"));
    add find_factory createComponent name type i).

(** Lookups nest no deeper than there are components. *)
Definition load_all : prog t unit := fun s => sendOnLoadToComponents (length (components_ s)) s.

(** [init]; the set keeps what it has when one of the components throws. *)
Definition init (config : Config) (find_factory : bytes -> option nat)
    (createComponent : nat -> bytes -> result nat) : prog t unit :=
  add_all config find_factory createComponent (config_subKeys config (lit "/fastcgi/components/component")) ;; load_all.

(** [sendOnUnloadToComponents], in the order in which the components were loaded: the components
    that are told, and what it writes to the standard error stream. [onUnload] is how each of them
    ends. *)
Fixpoint unload_all (onUnload : bytes -> option exn) (s : t) (names : list bytes) : result (list bytes * list bytes) :=
  match names with
  | [] => Ok ([], [])
  | i :: names' =>
      match container s i with
      | None => Undef
      | Some _ =>
          rest ← unload_all onUnload s names';
          Ok (i :: rest.1,
              match onUnload i with
              | None => []
              | Some (StringThrown _) => [lit "Unknown exception caught" ++ [Byte.x0a]]
              | Some e => [what e ++ [Byte.x0a]]
              end ++ rest.2)
      end
  end.

Definition sendOnUnloadToComponents (onUnload : bytes -> option exn) (s : t) : result (list bytes * list bytes) :=
  unload_all onUnload s (loadingStack_ s).
End Ops.
End ComponentSet.

(** ** Loading *)

Section Loading.
Context (lookups : bytes -> list bytes) (onLoad : bytes -> list bool -> option exn) (what : exn -> bytes).
Import ComponentSet.
Implicit Types s : ComponentSet.t.

#[local] Abbreviation load := (sendOnLoad lookups onLoad what).

Definition is_started s (name : bytes) : bool :=
  match container s name with Some c => isLoadingStarted c | None => false end.

(** The components a component depends on. *)
Definition deps s (name : bytes) : list bytes := List.filter (fun i => bool_decide (is_Some (container s i))) (lookups name).

(** What is loaded was started, is loaded once, and comes after what it depends on. *)
Record set_ok s : Prop := {
  ok_sorted : sorted str_ltb (components_ s);
  ok_started : forall x, x ∈ loadingStack_ s -> is_started s x = true;
  ok_once : NoDup (loadingStack_ s);
  ok_before : forall l1 x l2, loadingStack_ s = l1 ++ x :: l2 -> forall d, d ∈ deps s x -> d ∈ l1
}.

(** Components whose loading has not begun. *)
Definition fresh s : nat := length (List.filter (fun x => negb (isLoadingStarted x.2)) (components_ s)).

(** [s'] is later than [s]: the same components, more of them started and loaded, those loaded
    since being started since. *)
Definition later s s' : Prop :=
  (forall x, is_Some (container s' x) <-> is_Some (container s x)) /\
  (forall x, is_started s x = true -> is_started s' x = true) /\
  (fresh s' <= fresh s)%nat /\
  exists l, loadingStack_ s' = loadingStack_ s ++ l /\ forall x, x ∈ l -> is_started s x = false.

Lemma later_refl s : later s s.
Proof.
  split; [done|]. split; [done|]. split; [done|]. exists []. split; [by rewrite app_nil_r|].
  by intros x ?%elem_of_nil.
Qed.

Lemma later_trans s1 s2 s3 : later s1 s2 -> later s2 s3 -> later s1 s3.
Proof.
  intros (H1 & H2 & H3 & l & H4 & H5) (K1 & K2 & K3 & k & K4 & K5).
  split; [intros x; by rewrite K1|]. split; [auto|]. split; [lia|]. exists (l ++ k).
  split; [by rewrite K4, H4, app_assoc|]. intros x [Hx|Hx]%elem_of_app; [auto|].
  destruct (is_started s1 x) eqn:E; [|done]. apply H2 in E. rewrite (K5 x Hx) in E. done.
Qed.

Lemma later_deps s s' x : later s s' -> deps s' x = deps s x.
Proof.
  intros (H & _). unfold deps. apply filter_ext. intros i. by apply bool_decide_ext.
Qed.

Lemma container_start s name c x :
  sorted str_ltb (components_ s) -> container s name = Some c ->
  container (start_loading s name) x = if decide (x = name) then Some (MkContainer (component c) true) else container s x.
Proof.
  intros Hs Hc. unfold start_loading. rewrite Hc. unfold container. cbn.
  rewrite om_find_put by done. case_decide as Hx.
  - subst. by rewrite (proj2 (str_keq name name) eq_refl).
  - by rewrite str_keq_ne by congruence.
Qed.

Lemma fresh_put (m : list (bytes * ComponentContainer)) name c c' :
  om_find str_ltb m name = Some c -> isLoadingStarted c = false -> isLoadingStarted c' = true ->
  S (length (List.filter (fun x => negb (isLoadingStarted x.2)) (om_put str_ltb m name c'))) =
  length (List.filter (fun x => negb (isLoadingStarted x.2)) m).
Proof.
  intros Hf Hc Hc'. induction m as [|[k v] m IH]; cbn in *; [done|].
  destruct (str_ltb k name); cbn.
  - destruct (negb (isLoadingStarted v)); cbn; rewrite IH by done; done.
  - destruct (str_ltb name k); [done|]. injection Hf as ->. cbn. by rewrite Hc, Hc'.
Qed.

Lemma start_ok s name c :
  set_ok s -> container s name = Some c -> isLoadingStarted c = false ->
  set_ok (start_loading s name) /\ is_started (start_loading s name) name = true /\
  S (fresh (start_loading s name)) = fresh s /\ loadingStack_ (start_loading s name) = loadingStack_ s /\
  (forall x, is_Some (container (start_loading s name) x) <-> is_Some (container s x)) /\
  (forall x, is_started s x = true -> is_started (start_loading s name) x = true).
Proof.
  intros [H1 H2 H3 H4] Hc Hn.
  assert (Hcont := fun x => container_start s name c x H1 Hc).
  assert (Hl : loadingStack_ (start_loading s name) = loadingStack_ s) by (unfold start_loading; by rewrite Hc).
  assert (Hst : forall x, is_started s x = true -> is_started (start_loading s name) x = true).
  { intros x Hx. unfold is_started in *. rewrite Hcont. by case_decide. }
  assert (Hsome : forall x, is_Some (container (start_loading s name) x) <-> is_Some (container s x)).
  { intros x. rewrite Hcont. case_decide; [subst|done]. rewrite Hc. split; by eexists. }
  split; [split|split; [|split; [|done]]].
  - unfold start_loading. rewrite Hc. by apply sorted_put.
  - intros x. rewrite Hl. intros Hx. by apply Hst, H2.
  - by rewrite Hl.
  - intros l1 x l2. rewrite Hl. intros E d Hd. apply (H4 l1 x l2 E).
    unfold deps in *. erewrite filter_ext; [exact Hd|]. intros i. apply bool_decide_ext. by rewrite Hsome.
  - unfold is_started. rewrite Hcont. by rewrite decide_True.
  - unfold start_loading, fresh. rewrite Hc. cbn. by apply (fresh_put _ _ c).
Qed.

(** What a call that loads promises, when at most [n] components are still to be started. *)
Definition loads (n : nat) (f : ComponentSet.t -> bytes -> option (ComponentSet.t * result unit)) : Prop :=
  forall s name, set_ok s -> is_Some (container s name) -> (fresh s <= n)%nat ->
  exists s' res, f s name = Some (s', res) /\ set_ok s' /\ later s s' /\ res <> Undef /\
    (res = Ok tt -> name ∈ loadingStack_ s').

Lemma find_all_loads n f names s :
  loads n f -> set_ok s -> (fresh s <= n)%nat ->
  exists s' res, find_all f s names = Some (s', res) /\ set_ok s' /\ later s s' /\ res <> Undef /\
    (forall found, res = Ok found -> forall d, d ∈ names -> is_Some (container s d) -> d ∈ loadingStack_ s').
Proof.
  intros Hf. revert s. induction names as [|i names IH]; intros s Hok Hn; cbn [find_all].
  { eexists _, _. split; [done|]. split; [done|]. split; [apply later_refl|]. split; [done|].
    by intros found _ d ?%elem_of_nil. }
  destruct (container s i) as [c|] eqn:Hc.
  - destruct (Hf s i Hok ltac:(by rewrite Hc) Hn) as (s1 & res1 & -> & Hok1 & Hl1 & Hu1 & Hin1).
    destruct res1 as [[]|e|]; [| |done].
    + assert (Hn1 : (fresh s1 <= n)%nat) by (destruct Hl1 as (_ & _ & ? & _); lia).
      destruct (IH s1 Hok1 Hn1) as (s2 & res2 & -> & Hok2 & Hl2 & Hu2 & Hin2).
      assert (Hl : later s s2) by (by eapply later_trans).
      destruct res2 as [found|e|]; [| |done]; eexists _, _; (split; [done|]); (split; [done|]); (split; [done|]);
        (split; [done|]); [|done].
      intros found' [= <-] d [->|Hd]%elem_of_cons Hs.
      * destruct Hl2 as (_ & _ & _ & l & -> & _). apply elem_of_app. left. by apply Hin1.
      * apply (Hin2 found eq_refl d Hd). destruct Hl1 as (H & _). by apply H.
    + eexists _, _. split; [done|]. split; [done|]. split; [done|]. split; done.
  - destruct (IH s Hok Hn) as (s2 & res2 & -> & Hok2 & Hl2 & Hu2 & Hin2).
    destruct res2 as [found|e|]; [| |done]; eexists _, _; (split; [done|]); (split; [done|]); (split; [done|]);
      (split; [done|]); [|done].
    intros found' [= <-] d [->|Hd]%elem_of_cons Hs; [rewrite Hc in Hs; by destruct Hs|]. by apply (Hin2 found).
Qed.

Lemma snoc_split {A} (l l1 l2 : list A) x y :
  l ++ [y] = l1 ++ x :: l2 -> (l1 = l /\ x = y) \/ exists l2', l = l1 ++ x :: l2'.
Proof.
  destruct l2 as [|z l2] using rev_ind.
  - intros [-> [= ->]]%app_inj_tail. by left.
  - rewrite app_comm_cons, app_assoc. intros [-> _]%app_inj_tail. right. by exists l2.
Qed.

Lemma loaded_spec s name : isComponentLoaded s name = true <-> name ∈ loadingStack_ s.
Proof.
  unfold isComponentLoaded. rewrite existsb_exists. split.
  - intros (x & Hx & E). apply str_eqb_true in E as ->. by apply list_elem_of_In.
  - intros H. exists name. split; [by apply list_elem_of_In|by apply str_eqb_true].
Qed.

(** The end of a successful load. *)
Lemma push_ok s s1 s2 name c :
  container s name = Some c -> isLoadingStarted c = false -> isComponentLoaded s name = false ->
  s1 = start_loading s name -> set_ok s -> set_ok s2 -> later s1 s2 ->
  (forall d, d ∈ lookups name -> is_Some (container s1 d) -> d ∈ loadingStack_ s2) ->
  set_ok (push s2 name) /\ later s (push s2 name).
Proof.
  intros Hc Hn Hnl -> Hok [K1 K2 K3 K4] Hl Hd.
  destruct (start_ok s name c Hok Hc Hn) as (_ & Hs1 & Hf1 & Hst1 & Hc1 & Hm1).
  destruct Hl as (L1 & L2 & L3 & l & L4 & L5). rewrite Hst1 in L4.
  assert (Hnot : name ∉ loadingStack_ s2).
  { rewrite L4. intros [Hin|Hin]%elem_of_app.
    - apply loaded_spec in Hin. congruence.
    - apply L5 in Hin. congruence. }
  assert (Hstarted : is_started s name = false) by (unfold is_started; by rewrite Hc).
  split; [split|].
  - done.
  - intros x. cbn. rewrite elem_of_app, list_elem_of_singleton. intros [Hx| ->]; [by apply K2|by apply L2].
  - cbn. apply NoDup_app. split; [done|]. split; [|apply NoDup_singleton].
    intros x Hx ->%list_elem_of_singleton. done.
  - cbn. intros l1 x l2 E d Hdd. apply snoc_split in E as [[-> ->]|(l2' & E)].
    + unfold deps in Hdd. apply list_elem_of_In, filter_In in Hdd as [Hin Hsome].
      apply bool_decide_eq_true in Hsome. apply Hd; [by apply list_elem_of_In|]. by apply L1.
    + by apply (K4 l1 x l2').
  - split; [|split; [|split]].
    + intros x. rewrite <- Hc1. apply L1.
    + intros x Hx. by apply L2, Hm1.
    + unfold fresh in *. cbn. lia.
    + exists (l ++ [name]). split; [cbn; by rewrite L4, app_assoc|].
      intros x. rewrite elem_of_app, list_elem_of_singleton. intros [Hx| ->]; [|done].
      destruct (is_started s x) eqn:E; [|done]. apply Hm1 in E. rewrite (L5 x Hx) in E. done.
Qed.

Lemma load_loads n : loads n (load n).
Proof.
  induction n as [|n IH]; intros s name Hok [c Hc] Hn; cbn [sendOnLoad];
    (destruct (isComponentLoaded s name) eqn:Hl;
     [eexists _, _; split; [done|]; split; [done|]; split; [apply later_refl|]; split; [done|];
      intros _; by apply loaded_spec|]); rewrite Hc;
    (destruct (isLoadingStarted c) eqn:Hst;
     [eexists _, _; split; [done|]; split; [done|]; split; [apply later_refl|]; done|]).
  - destruct (start_ok s name c Hok Hc Hst) as (_ & _ & Hf & _). lia.
  - destruct (start_ok s name c Hok Hc Hst) as (Hok1 & Hs1 & Hf1 & Hst1 & Hc1 & Hm1).
    destruct (find_all_loads n (load n) (lookups name) (start_loading s name) IH Hok1 ltac:(lia))
      as (s2 & res2 & -> & Hok2 & Hl2 & Hu2 & Hin2).
    assert (Hl02 : later s s2).
    { eapply later_trans; [|exact Hl2]. split; [done|]. split; [done|]. split; [lia|].
      exists []. split; [by rewrite Hst1, app_nil_r|]. by intros x ?%elem_of_nil. }
    destruct res2 as [found|e|]; [| |done].
    + destruct (onLoad name found) as [e|].
      * eexists _, _. split; [done|]. split; [done|]. split; [done|]. done.
      * destruct (push_ok s _ s2 name c Hc Hst Hl eq_refl Hok Hok2 Hl2 (Hin2 found eq_refl)) as [Hokp Hlp].
        eexists _, _. split; [done|]. split; [done|]. split; [done|]. split; [done|].
        intros _. cbn. apply elem_of_app. right. by apply list_elem_of_singleton.
    + eexists _, _. split; [done|]. split; [done|]. split; [done|]. done.
Qed.

Lemma send_all_loads n l s :
  set_ok s -> (fresh s <= n)%nat -> (forall x, x ∈ l -> is_Some (container s x)) ->
  exists s' res, send_all lookups onLoad what n s l = Some (s', res) /\ set_ok s' /\ later s s' /\ res <> Undef /\
    (res = Ok tt -> forall x, x ∈ l -> x ∈ loadingStack_ s').
Proof.
  revert s. induction l as [|i l IH]; intros s Hok Hn Hl; cbn [send_all].
  { eexists _, _. split; [done|]. split; [done|]. split; [apply later_refl|]. split; [done|].
    by intros _ x ?%elem_of_nil. }
  destruct (load_loads n s i Hok ltac:(apply Hl; by left) Hn) as (s1 & res1 & -> & Hok1 & Hl1 & Hu1 & Hin1).
  destruct res1 as [[]|e|]; [| |done].
  - pose proof Hl1 as (L1 & _ & L3 & _).
    destruct (IH s1 Hok1 ltac:(lia)) as (s2 & res2 & -> & Hok2 & Hl2 & Hu2 & Hin2).
    { intros x Hx. apply L1, Hl. by right. }
    eexists _, _. split; [done|]. split; [done|]. split; [by eapply later_trans|]. split; [done|].
    intros Hr x [->|Hx]%elem_of_cons; [|by apply Hin2].
    destruct Hl2 as (_ & _ & _ & k & -> & _). apply elem_of_app. left. by apply Hin1.
  - eexists _, _. split; [done|]. split; [done|]. split; [done|]. done.
Qed.

(** Components that have just been added. *)
Definition unloaded s : Prop :=
  sorted str_ltb (components_ s) /\ loadingStack_ s = [] /\ Forall (fun x => isLoadingStarted x.2 = false) (components_ s).

Lemma unloaded_ok s : unloaded s -> set_ok s /\ (fresh s <= length (components_ s))%nat.
Proof.
  intros (H1 & H2 & H3). split.
  - split; [done|..]; rewrite H2; [by intros x ?%elem_of_nil|constructor|by intros [] ? ?].
  - unfold fresh. clear. induction (components_ s) as [|x m IH]; cbn; [lia|]. destruct (negb _); cbn; lia.
Qed.

(** The names of a set are those that are found in it. *)
Lemma names_found s x : sorted str_ltb (components_ s) -> x ∈ names s -> is_Some (container s x).
Proof.
  unfold names, container. rewrite list_elem_of_fmap. intros Hs ([k v] & -> & Hkv). cbn.
  apply list_elem_of_In in Hkv. revert Hs Hkv. clear.
  induction (components_ s) as [|[a b] m IH]; cbn; [done|]. intros [Hs Hlt]%sorted_inv [[= -> ->]|Hin].
  - assert (E : str_ltb k k = false) by apply swo_irrefl. by rewrite E.
  - rewrite Forall_forall in Hlt. assert (E : str_ltb a k = true).
    { apply (Hlt (k, v)). by apply list_elem_of_In. }
    rewrite E. by apply IH.
Qed.

Lemma found_name s x : is_Some (container s x) -> x ∈ names s.
Proof.
  unfold names, container. intros [c Hc]. revert Hc. induction (components_ s) as [|[a b] m IH]; cbn; [done|].
  destruct (str_ltb a x) eqn:E1; [intros H; right; by apply IH|]. destruct (str_ltb x a) eqn:E2; [done|]. intros _.
  assert (Ea : a = x) by (apply str_keq; unfold keq; by rewrite E1, E2). rewrite Ea. by left.
Qed.

(** C30: loading the components ends, whatever they look up: with no more nested lookups than
    there are components, it either fails or has told every component exactly once to load,
    after all the components it looks up; so there is no order in which a cycle of lookups
    loads, and a cycle makes it fail. *)
Theorem components_load s :
  unloaded s ->
  exists s' res, sendOnLoadToComponents lookups onLoad what (length (components_ s)) s = Some (s', res) /\
    (res = Ok tt ->
       NoDup (loadingStack_ s') /\ (forall x, x ∈ names s -> x ∈ loadingStack_ s') /\
       (forall l1 x l2, loadingStack_ s' = l1 ++ x :: l2 -> forall d, d ∈ deps s x -> d ∈ l1) /\
       (forall x, x ∈ names s -> ~ tc (fun a b => b ∈ deps s a) x x)).
Proof.
  intros Hu. destruct (unloaded_ok s Hu) as [Hok Hn]. unfold sendOnLoadToComponents.
  destruct (send_all_loads (length (components_ s)) (names s) s Hok Hn) as (s' & res & E & Hok' & Hl & _ & Hin).
  { intros x Hx. by apply names_found; [apply Hu|]. }
  exists s', res. split; [done|]. intros Hr. destruct Hok' as [_ _ H3 H4].
  assert (Hd : forall x, deps s' x = deps s x) by (intros; by apply later_deps).
  assert (H4' : forall l1 x l2, loadingStack_ s' = l1 ++ x :: l2 -> forall d, d ∈ deps s x -> d ∈ l1).
  { intros l1 x l2 El d. rewrite <- Hd. by apply (H4 l1 x l2). }
  split; [done|]. split; [by apply Hin|]. split; [done|].
  intros x Hx Hcyc. specialize (Hin Hr x Hx).
  assert (Hpos : forall a b, tc (fun a b => b ∈ deps s a) a b -> forall l1 l2, loadingStack_ s' = l1 ++ a :: l2 -> b ∈ l1).
  { intros a b Ht. induction Ht as [a b Hab|a b c Hab _ IH]; intros l1 l2 El; [by apply (H4' l1 a l2)|].
    pose proof (H4' l1 a l2 El b Hab) as Hb. apply list_elem_of_split in Hb as (k1 & k2 & ->).
    apply elem_of_app. left. apply (IH k1 (k2 ++ a :: l2)). by rewrite El, <- app_assoc. }
  apply list_elem_of_split in Hin as (l1 & l2 & El). pose proof (Hpos x x Hcyc l1 l2 El) as Hx1.
  rewrite El in H3. apply NoDup_app in H3 as (_ & H3 & _). apply (H3 x Hx1). by left.
Qed.

(** Components that are created are not loaded yet, *)
Lemma add_all_unloaded config find_factory createComponent keys s :
  unloaded s -> runs (add_all what config find_factory createComponent keys) s (fun s' _ => unloaded s').
Proof.
  unfold add_all. revert s. induction keys as [|i keys IH]; intros s Hu; cbn [for_each]; [by eexists _, _|].
  apply runs_bind. apply runs_bind. exists s, (asString config (i ++ lit "/@name")). split; [done|].
  destruct (asString config (i ++ lit "/@name")) as [name| |]; [|done..].
  apply runs_bind. exists s, (asString config (i ++ lit "/@type")). split; [done|].
  destruct (asString config (i ++ lit "/@type")) as [type| |]; [|done..]. unfold runs at 1, add.
  destruct (find_factory type) as [f|]; [|by eexists _, _].
  destruct (createComponent f i) as [c| |]; [|by eexists _, _..]. eexists _, _. split; [done|].
  apply IH. destruct Hu as (H1 & H2 & H3). split; [by apply sorted_insert|]. split; [done|].
  cbn. apply Forall_forall. intros x Hx. rewrite om_insert_spec in Hx.
  destruct (om_find str_ltb (components_ s) name); cbn [fst] in Hx; [by rewrite Forall_forall in H3; apply H3|].
  apply om_put_values in Hx as [->|Hx]; [done|]. rewrite Forall_forall in H3. by apply H3.
Qed.

(** and once [init] has ended without an exception all of them are. *)
Lemma init_all_loaded config find_factory createComponent :
  runs (init lookups onLoad what config find_factory createComponent) create (fun s res =>
    set_ok s /\ (forall x, x ∈ loadingStack_ s -> is_Some (container s x)) /\
    (res = Ok tt -> forall x, is_Some (container s x) -> x ∈ loadingStack_ s)).
Proof.
  unfold init. apply runs_bind. eapply runs_mono; [apply add_all_unloaded; repeat constructor|]. cbn beta.
  intros s res Hu. destruct (unloaded_ok s Hu) as [Hok Hn].
  assert (Hempty : forall x, x ∈ loadingStack_ s -> is_Some (container s x)).
  { destruct Hu as (_ & -> & _). by intros x ?%elem_of_nil. }
  destruct res as [[]|e|]; [|by split_and!..]. unfold load_all, sendOnLoadToComponents.
  destruct (send_all_loads (length (components_ s)) (names s) s Hok Hn) as (s' & res & E & Hok' & Hl & _ & Hin).
  { intros x Hx. by apply names_found; [apply Hu|]. }
  exists s', res. split; [exact E|]. split; [done|]. split.
  - intros x Hx. pose proof (ok_started _ Hok' x Hx) as Hst. unfold is_started in Hst.
    by destruct (container s' x).
  - intros Hr x Hx. apply Hin; [done|]. apply (proj1 Hl) in Hx. by apply found_name.
Qed.

(** Unloading reaches every component that was loaded. *)
Lemma unload_all_ok onUnload s l :
  (forall x, x ∈ l -> is_Some (container s x)) -> exists lines, unload_all what onUnload s l = Ok (l, lines).
Proof.
  induction l as [|i l IH]; intros H; cbn [unload_all]; [by eexists|].
  destruct (H i ltac:(by left)) as [c ->]. destruct IH as [lines ->]; [intros x Hx; apply H; by right|].
  by eexists.
Qed.
End Loading.

(** A session manager that looks up the logger, and a component that looks up itself. *)
Section Example_components.
Import ComponentSet.

Definition demo_set : ComponentSet.t :=
  MkSet [(lit "auth", MkContainer 1 false); (lit "logger", MkContainer 2 false); (lit "manager", MkContainer 3 false)] [].

Definition demo_lookups (name : bytes) : list bytes :=
  if str_eqb name (lit "auth") then [lit "manager"; lit "logger"]
  else if str_eqb name (lit "manager") then [lit "logger"] else [].

Lemma components_load_witness :
  exists s', sendOnLoadToComponents demo_lookups (fun _ _ => None) (fun _ => []) 3 demo_set = Some (s', Ok tt) /\
    loadingStack_ s' = [lit "logger"; lit "manager"; lit "auth"] /\ NoDup (loadingStack_ s').
Proof.
  assert (Hu : unloaded demo_set).
  { split; [|split; [reflexivity|repeat constructor]]. repeat constructor. }
  destruct (components_load demo_lookups (fun _ _ => None) (fun _ => []) demo_set Hu) as (s' & res & E & H).
  exists s'. vm_compute in E. injection E as <- <-.
  split; [vm_compute; reflexivity|]. split; [vm_compute; reflexivity|]. apply H. reflexivity.
Defined.

Lemma cycle_fails :
  sendOnLoadToComponents (fun n => [n]) (fun _ _ => None) (fun e => match e with RuntimeError w => w | _ => [] end)
    3 demo_set =
  Some (MkSet [(lit "auth", MkContainer 1 true); (lit "logger", MkContainer 2 false); (lit "manager", MkContainer 3 false)] [],
        Throw (RuntimeError (lit "Cyclic component dependence found"))).
Proof. vm_compute. reflexivity. Qed.
End Example_components.
