(* ===== verification/Config.v ===== *)
(** * Config

    [library/config.cpp]: the variables of the configuration, which are replaced in every value,
    the integers, and the argument of the program that names the file. Reading the file and
    selecting values is in [Xml]. *)

From S2P Require Import Prelude Cxx Ranges Handlers.

Module XmlConfig.

Definition is_alpha (b : byte) : bool := isupper b || islower b.
Definition is_name (b : byte) : bool := is_alpha b || isdigit b || beqb b "-"%byte.

(** A match of the expression of a reference, a name in [${] and [}], at the front: the name and
    what follows. A name is a letter and then letters, digits and hyphens. *)
Definition ref_at (s : bytes) : option (bytes * bytes) :=
  match s with
  | d :: o :: c :: s' =>
      if beqb d "$"%byte && beqb o "{"%byte && is_alpha c then
        match drop_while is_name s' with
        | e :: rest => if beqb e "}"%byte then Some (c :: take_while is_name s', rest) else None
        | [] => None
        end
      else None
  | _ => None
  end.

(** [std::regex_search]: the first match, with what precedes and follows it. *)
Fixpoint search_ref (s : bytes) : option (bytes * bytes * bytes) :=
  match ref_at s with
  | Some (key, rest) => Some ([], key, rest)
  | None =>
      match s with
      | [] => None
      | c :: s' => match search_ref s' with Some (a, key, rest) => Some (c :: a, key, rest) | None => None end
      end
  end.

(** [vars_]: the first definition of a name counts. *)
Definition findVariable (vars : gmap bytes bytes) (key : bytes) : result bytes :=
  match vars !! key with
  | Some v => Ok v
  | None => Throw (RuntimeError (lit "nonexistent variable " ++ key))
  end.

(** A definition: the [name] and the text of a [variable] node. *)
Definition add_variable (vars : gmap bytes bytes) (d : option bytes * option bytes) : result (gmap bytes bytes) :=
  match d with
  | (Some name, Some val) =>
      Ok (match vars !! name with Some _ => vars | None => <[name := val]> vars end)
  | _ => Throw (LogicError (lit "bad variable definition"))
  end.

(** [while (std::regex_search(val, res, regex_))]: [None] when it is still running. *)
Fixpoint resolveVariables (fuel : nat) (vars : gmap bytes bytes) (val : bytes) : option (result bytes) :=
  match search_ref val with
  | None => Some (Ok val)
  | Some (before, key, after) =>
      match fuel with
      | O => None
      | S n =>
          match findVariable vars key with
          | Ok v => resolveVariables n vars (before ++ v ++ after)
          | Throw e => Some (Throw e)
          | Undef => Some Undef
          end
      end
  end.

(** [atoi]: white space, a sign and digits, 0 when there are none; undefined when the value
    does not fit an [int]. *)
Definition atoi (s : bytes) : result Z :=
  match stoi (c_str s) with
  | Ok v => Ok v
  | Throw (InvalidArgument _) => Ok 0
  | _ => Undef
  end.

Definition asInt (c : Config) (key : bytes) : result Z := s ← Handlers.asString c key; atoi s.

Definition asInt_default (c : Config) (key : bytes) (defval : Z) : result Z :=
  match asInt c key with
  | Ok v => Ok v
  | Throw _ => Ok defval
  | Undef => Undef
  end.

(** [Config::create(argc, argv)]: the first argument that starts with [--config] and has an [=]
    names the file; it is exchanged with the last one, which is then left out. *)
Fixpoint after_eq (s : bytes) : option bytes :=
  match s with
  | [] => None
  | c :: s' => if beqb c "="%byte then Some s' else after_eq s'
  end.

Fixpoint find_config (i : nat) (args : list bytes) : option (nat * bytes) :=
  match args with
  | [] => None
  | a :: args' =>
      if starts_with (lit "--config") a then
        match after_eq a with Some f => Some (i, f) | None => find_config (S i) args' end
      else find_config (S i) args'
  end.

Definition create_args (argv : list bytes) : result (bytes * list bytes) :=
  match find_config 1 (tl argv) with
  | Some (i, file) =>
      match last argv, argv !! i with
      | Some z, Some a => let k := pred (length argv) in Ok (file, take k (<[i := z]> (<[k := a]> argv)))
      | _, _ => Undef
      end
  | None => Throw (LogicError (lit "usage: fastcgi3-daemon --config=<config file>"))
  end.
End XmlConfig.

(** ** Variables *)

Section Variables.
Import XmlConfig.

Lemma ref_at_spec s key rest :
  ref_at s = Some (key, rest) ->
  s = lit "${" ++ key ++ "}"%byte :: rest /\ Forall (fun b => is_name b = true) key.
Proof.
  unfold ref_at. destruct s as [|d [|o [|c s']]]; try done.
  destruct (beqb d "$"%byte) eqn:Hd; [|done]. destruct (beqb o "{"%byte) eqn:Ho; [|done].
  destruct (is_alpha c) eqn:Hc; [|done]. cbn [andb].
  pose proof (take_drop_while is_name s') as Hs.
  assert (Hn : Forall (fun b => is_name b = true) (take_while is_name s')).
  { clear. induction s' as [|b s' IH]; cbn; [constructor|]. destruct (is_name b) eqn:E; by constructor. }
  destruct (drop_while is_name s') as [|e r]; [done|]. destruct (beqb e "}"%byte) eqn:He; [|done].
  intros [= <- <-]. apply beqb_true in Hd, Ho, He. subst. split.
  - rewrite <- Hs at 1. done.
  - constructor; [|done]. unfold is_name. by rewrite Hc.
Qed.

Lemma search_ref_spec s a key rest :
  search_ref s = Some (a, key, rest) ->
  s = a ++ lit "${" ++ key ++ "}"%byte :: rest /\ Forall (fun b => is_name b = true) key.
Proof.
  revert a. induction s as [|c s IH]; intros a; cbn [search_ref].
  - done.
  - destruct (ref_at (c :: s)) as [[k r]|] eqn:E.
    + intros [= <- <- <-]. by apply ref_at_spec.
    + destruct (search_ref s) as [[[a' k] r]|]; [|done]. intros [= <- <- <-].
      destruct (IH a' eq_refl) as [-> H]. done.
Qed.

Definition dollars (s : bytes) : nat := count_occ (fun x y : byte => decide (x = y)) s "$"%byte.

Lemma dollars_app a b : dollars (a ++ b) = (dollars a + dollars b)%nat.
Proof. apply count_occ_app. Qed.

Lemma dollars_name k : Forall (fun b => is_name b = true) k -> dollars k = 0%nat.
Proof.
  induction 1 as [|b k Hb _ IH]; [done|]. unfold dollars in *. cbn. destruct (decide (b = "$"%byte)) as [->|]; [done|exact IH].
Qed.

(** No text of a variable has a dollar sign, so that replacing a reference makes no new one, not even
    together with what is next to it. *)
Definition plain (vars : gmap bytes bytes) : Prop := forall key v, vars !! key = Some v -> dollars v = 0%nat.

Lemma resolve_step n vars a key rest s :
  search_ref s = Some (a, key, rest) ->
  resolveVariables (S n) vars s =
    match vars !! key with
    | Some v => resolveVariables n vars (a ++ v ++ rest)
    | None => Some (Throw (RuntimeError (lit "nonexistent variable " ++ key)))
    end.
Proof. intros H. cbn [resolveVariables]. rewrite H. unfold findVariable. by destruct (vars !! key). Qed.

(** The loop that replaces variables ends when the variables' own texts have no dollar signs: after
    at most as many rounds as the value has dollar signs there is a result in which no
    reference is left, or a reference to a variable that is not defined is reported. *)
Lemma resolve_terminates vars s n :
  plain vars -> (dollars s <= n)%nat ->
  (exists r, resolveVariables n vars s = Some (Ok r) /\ search_ref r = None) \/
  (exists key, vars !! key = None /\
     resolveVariables n vars s = Some (Throw (RuntimeError (lit "nonexistent variable " ++ key)))).
Proof.
  intros Hv. revert s. induction n as [|n IH]; intros s Hn; destruct (search_ref s) as [[[a key] rest]|] eqn:E.
  2, 4: left; exists s; by cbn [resolveVariables]; rewrite E.
  - destruct (search_ref_spec _ _ _ _ E) as [-> Hk]. rewrite !dollars_app in Hn.
    assert (E1 : dollars (lit "${") = 1%nat) by reflexivity. lia.
  - rewrite (resolve_step _ _ _ _ _ _ E). destruct (vars !! key) as [v|] eqn:Ek; [|right; by exists key].
    apply IH. destruct (search_ref_spec _ _ _ _ E) as [-> Hk].
    assert (Hd : dollars (lit "${" ++ key ++ "}"%byte :: rest) = S (dollars rest)).
    { rewrite (dollars_app (lit "${")), (dollars_app key), (dollars_name _ Hk). done. }
    rewrite (dollars_app a), Hd in Hn. rewrite !dollars_app, (Hv _ _ Ek). lia.
Qed.

(** More rounds change nothing. *)
Lemma resolve_more n vars s m r : resolveVariables n vars s = Some r -> (n <= m)%nat -> resolveVariables m vars s = Some r.
Proof.
  revert s m r. induction n as [|n IH]; intros s m r; cbn [resolveVariables].
  - destruct (search_ref s) as [[[a key] rest]|] eqn:E; [done|]. intros <- _. destruct m; cbn; by rewrite E.
  - destruct (search_ref s) as [[[a key] rest]|] eqn:E; intros H Hm; destruct m as [|m]; try lia; cbn; rewrite E; [|done].
    destruct (findVariable vars key); try done. apply (IH _ m); [done|lia].
Qed.

(** A variable that refers to itself keeps the loop running for ever. *)
Lemma self_reference_diverges n :
  resolveVariables n (<[lit "a" := lit "${a}"]> ∅) (lit "${a}") = None.
Proof. induction n as [|n IH]; [reflexivity|]. exact IH. Qed.
End Variables.
