(* ===== verification/Xml.v ===== *)
(** * Xml

    [library/xml.cpp] and the part of [library/config.cpp] that is over libxml2: reading a file
    of the configuration, its variables, and the values and keys of a document. What libxml2
    does with files, documents and expressions is the class [Libxml]. [config_of] is the [Config]
    that the other components are given; the theorem says that it has what a document says. *)

From S2P Require Import Prelude Cxx Handlers Program Config.

(** libxml2, as the code calls it. A document is what parsing gives; an expression either cannot be
    evaluated ([None]) or selects nodes, none of them when there is no set of nodes, and a
    pointer in the set may be null. The calls that fail leave an error: [error] is the message
    of the last one after the call, if it has a message, from the one before the call. *)
Inductive xml_call {Doc : Type} :=
| ParseFile (file : bytes)
| ParseMemory (contents : bytes)
| Include (doc : Doc)
| NewContext (doc : Doc)
| Evaluate (doc : Doc) (key : bytes).
Arguments xml_call : clear implicits.

Class Libxml (Doc Node Attr : Type) := MkLibxml {
  xmlParseFile : bytes -> option Doc;
  xmlParseMemory : bytes -> option Doc;
  xmlDocGetRootElement : Doc -> option Node;
  xmlXIncludeProcess : Doc -> Z * Doc;
  xmlXPathNewContext : Doc -> bool;
  xmlXPathEvalExpression : Doc -> bytes -> option (list (option Node));
  children : Node -> option Node;
  xmlNodeIsText : Node -> bool;
  content : Node -> option bytes;
  xmlHasProp : Node -> bytes -> option Attr;
  attr_children : Attr -> option Node;
  error : xml_call Doc -> option bytes -> option bytes
}.

Module XmlUtils.
Section Ops.
Context {Doc Node Attr : Type} {LX : Libxml Doc Node Attr}.

(** The state is the message of the last error. *)
#[local] Abbreviation P := (prog (option bytes)).

(** A call of the library. *)
Definition call {A} (c : xml_call Doc) (value : A) : P A := modify (error c) ;; ret value.

Definition throwUnless (value : bool) : P unit :=
  if negb value then
    message ← gets (default (lit "unknown xml error"));
    modify (fun _ => None) ;;
    throw (RuntimeError message)
  else ret tt.

(** [throwUnless] on a pointer, which is then used. *)
Definition nonnull {A} (p : option A) : P A :=
  throwUnless (bool_decide (is_Some p)) ;;
  match p with Some a => ret a | None => lift Undef end.

Definition text_of_child (child : option Node) : option bytes :=
  match child with
  | Some child => if xmlNodeIsText child then content child else None
  | None => None
  end.

Definition value (node : Node) : option bytes := text_of_child (children node).
Definition value_attr (attr : Attr) : option bytes := text_of_child (attr_children attr).

Definition attrValue (node : Node) (name : bytes) : option bytes :=
  match xmlHasProp node name with Some attr => value_attr attr | None => None end.
End Ops.
End XmlUtils.

Module XmlDocument.
Section Ops.
Context {Doc Node Attr : Type} {LX : Libxml Doc Node Attr}.
Import XmlUtils.

#[local] Abbreviation P := (prog (option bytes)).

(** [XmlConfig] *)
Record t := MkXmlConfig {
  filename_ : bytes;
  doc_ : Doc;
  vars_ : gmap bytes bytes
}.

(** The nodes an expression selects; the expression ends at its first NUL. *)
Definition select (doc : Doc) (key : bytes) : P (list (option Node)) :=
  xctx ← call (NewContext doc) (xmlXPathNewContext doc);
  throwUnless xctx ;;
  object ← call (Evaluate doc (c_str key)) (xmlXPathEvalExpression doc (c_str key));
  nonnull object.

(** The loop of [findVariables]; *)
Fixpoint read_variables (vars : gmap bytes bytes) (nodes : list (option Node)) : P (gmap bytes bytes) :=
  match nodes with
  | [] => ret vars
  | n :: nodes' =>
      node ← nonnull n;
      vars ← lift (XmlConfig.add_variable vars (attrValue node (lit "name"), value node));
      read_variables vars nodes'
  end.

Definition findVariables (doc : Doc) : P (gmap bytes bytes) :=
  nodes ← select doc (lit "/fastcgi/variables/variable"); read_variables ∅ nodes.

(** and what the two constructors do with the document, which includes others in place. Nothing
    makes a stream throw [std::ios::failure]. *)
Definition load (filename : bytes) (doc : option Doc) : P t :=
  doc ← nonnull doc;
  match xmlDocGetRootElement doc with
  | None => throw (LogicError (lit "got empty config"))
  | Some _ =>
      included ← call (Include doc) (xmlXIncludeProcess doc);
      throwUnless (0 <=? included.1) ;;
      vars ← findVariables included.2;
      ret (MkXmlConfig filename included.2 vars)
  end.

(** [XmlConfig(file)]; [opens] tells which files can be read. *)
Definition create (opens : bytes -> bool) (file : bytes) : P t :=
  if negb (opens file) then throw (RuntimeError (lit "can not open " ++ file))
  else doc ← call (ParseFile file) (xmlParseFile file); load file doc.

(** [XmlConfig(contents, length)] *)
Definition create_contents (contents : bytes) : P t :=
  doc ← call (ParseMemory contents) (xmlParseMemory contents); load [] doc.

(** [None] while variables are being replaced. *)
Definition resolveVariables (fuel : nat) (x : t) (val : bytes) : P bytes := fun last =>
  match XmlConfig.resolveVariables fuel (vars_ x) val with
  | Some r => Some (last, r)
  | None => None
  end.

Definition asString (fuel : nat) (x : t) (key : bytes) : P bytes :=
  select (doc_ x) key ≫= fun nodes : list (option Node) =>
  match nodes with
  | [] => throw (RuntimeError (lit "nonexistent config param: " ++ key))
  | n :: _ => node ← nonnull n; resolveVariables fuel x (default [] (value node))
  end.

Definition asString_default (fuel : nat) (x : t) (key defval : bytes) : P bytes :=
  try_catch (asString fuel x key) (fun _ => ret defval).

Definition asInt (fuel : nat) (x : t) (key : bytes) : P Z :=
  s ← asString fuel x key; lift (XmlConfig.atoi s).

Definition asInt_default (fuel : nat) (x : t) (key : bytes) (defval : Z) : P Z :=
  try_catch (asInt fuel x key) (fun _ => ret defval).

(** The loop of [subKeys] *)
Fixpoint number_keys (key : bytes) (i : Z) (nodes : list (option Node)) : P (list bytes) :=
  match nodes with
  | [] => ret []
  | n :: nodes' =>
      nonnull n ;;
      rest ← number_keys key (i + 1) nodes';
      ret ((key ++ lit "[" ++ to_string (i + 1) ++ lit "]") :: rest)
  end.

Definition subKeys (x : t) (key : bytes) : P (list bytes) :=
  nodes ← select (doc_ x) key; number_keys key 0 nodes.

(** ** The configuration as the components see it *)

Definition selected (doc : Doc) (key : bytes) : option (list (option Node)) :=
  if xmlXPathNewContext doc then xmlXPathEvalExpression doc (c_str key) else None.

(** The text of the first node of a key. *)
Definition first_text (x : t) (key : bytes) : option bytes :=
  match selected (doc_ x) key with
  | Some (Some node :: _) => Some (default [] (value node))
  | _ => None
  end.

Definition config_of (x : t) : Config := MkConfig
  (fun key =>
    match first_text x key with
    | Some text =>
        match XmlConfig.resolveVariables (dollars text) (vars_ x) text with Some (Ok v) => Some v | _ => None end
    | None => None
    end)
  (fun key => match selected (doc_ x) key with Some nodes => length nodes | None => O end).

(** The configuration of a file, or the exception of reading it. *)
Definition read (opens : bytes -> bool) (file : bytes) : result Config :=
  match create opens file None with
  | Some (_, Ok x) => Ok (config_of x)
  | Some (_, Throw e) => Throw e
  | _ => Undef
  end.
End Ops.
End XmlDocument.

(** ** A document *)

Section Documents.
Context {Doc Node Attr : Type} {LX : Libxml Doc Node Attr}.
Import XmlUtils XmlDocument.
Implicit Types (x : XmlDocument.t (Doc := Doc)) (last : option bytes).

(** The name and the text of the definition of a variable. *)
Definition variable_of (n : option Node) : option (bytes * bytes) :=
  node ← n; name ← attrValue node (lit "name"); val ← value node; Some (name, val).

(** What a component finds is what the document gives; the text of an exception may differ. *)
Definition agrees {A} (r r' : result A) : Prop :=
  match r, r' with
  | Ok a, Ok a' => a = a'
  | Throw (RuntimeError _), Throw (RuntimeError _) => True
  | Undef, Undef => True
  | _, _ => False
  end.

(** Failures of the library are [std::runtime_error]s. *)
Definition fails_std {A} (r : result A) : Prop := match r with Throw e => exists w, e = RuntimeError w | Undef => False | Ok _ => True end.

(** Reading a file may also fail with an [std::logic_error]: for a document [d] that is empty, and
    for a definition of a variable without a name or a text in the document [d'] with its includes. *)
Definition read_fails {A} (d : option Doc) (d' : Doc -> Doc) (r : result A) : Prop :=
  match r with
  | Throw (LogicError w) => exists doc, d = Some doc /\
      (xmlDocGetRootElement doc = None /\ w = lit "got empty config" \/
       exists nodes node, selected (d' doc) (lit "/fastcgi/variables/variable") = Some nodes /\ Some node ∈ nodes /\
         variable_of (Some node) = None /\ w = lit "bad variable definition")
  | r => fails_std r
  end.

Lemma fails_runtime {A} w : fails_std (A := A) (Throw (RuntimeError w)).
Proof. by eexists. Qed.

Lemma bind_call {A B} c (v : A) (f : A -> prog (option bytes) B) last : (call c v ≫= f) last = f v (error c last).
Proof. done. Qed.

Lemma nonnull_some {A} (a : A) last : nonnull (Some a) last = Some (last, Ok a).
Proof. done. Qed.

Lemma nonnull_none {A} last : exists w, nonnull (A := A) None last = Some (None, Throw (RuntimeError w)).
Proof. by eexists. Qed.

Lemma select_spec doc key last :
  runs (select doc key) last (fun _ res => fails_std res /\
    match res with Ok nodes => selected doc key = Some nodes | _ => selected doc key = None end).
Proof.
  unfold runs, select, selected. rewrite bind_call. destruct (xmlXPathNewContext doc); [|by eexists _, _; split; [done|]; split; [apply fails_runtime|]].
  unfold throwUnless. cbn [negb]. rewrite bind_ret, bind_call.
  destruct (xmlXPathEvalExpression doc (c_str key)) as [nodes|]; [by eexists _, _|].
  destruct (nonnull_none (A := list (option Node)) (error (Evaluate doc (c_str key)) (error (NewContext doc) last))) as [w ->].
  eexists _, _. split; [done|]. by split; [apply fails_runtime|].
Qed.

(** The nodes up to the first one that is not a definition are read; one that is null fails as any
    pointer does, and the others with an exception of their own. *)
Definition variables_fail {A} (nodes : list (option Node)) (r : result A) : Prop :=
  match r with
  | Throw (LogicError w) => exists node, Some node ∈ nodes /\ variable_of (Some node) = None /\ w = lit "bad variable definition"
  | r => fails_std r
  end.

Lemma variables_fail_cons {A} n nodes (r : result A) : variables_fail nodes r -> variables_fail (n :: nodes) r.
Proof. destruct r as [|[]|]; try done. intros (node & H & ?). exists node. split; [by right|done]. Qed.

Lemma add_variable_spec vars node :
  match XmlConfig.add_variable vars (attrValue node (lit "name"), value node) with
  | Ok vars' => exists name val, variable_of (Some node) = Some (name, val) /\
      vars' = match vars !! name with Some _ => vars | None => <[name := val]> vars end
  | r => variable_of (Some node) = None /\ r = Throw (LogicError (lit "bad variable definition"))
  end.
Proof.
  unfold XmlConfig.add_variable, variable_of. cbn [mbind option_bind].
  destruct (attrValue node (lit "name")) as [name|]; [|done]. destruct (value node) as [val|]; [|done]. by exists name, val.
Qed.

Lemma read_variables_spec nodes vars last :
  runs (read_variables vars nodes) last (fun _ res => variables_fail nodes res /\
    forall vars', res = Ok vars' -> exists defs, map variable_of nodes = map Some defs /\ vars' = vars ∪ list_to_map defs).
Proof.
  revert vars last. induction nodes as [|n nodes IH]; intros vars last; cbn [read_variables].
  { eexists _, _. split; [done|]. split; [done|]. intros vars' [= <-]. exists []. split; [done|]. cbn. by rewrite (right_id_L ∅ (∪)). }
  apply runs_bind. destruct n as [node|].
  2: { destruct (nonnull_none (A := Node) last) as [w E]. eexists _, _. split; [exact E|]. split; [apply fails_runtime|done]. }
  exists last, (Ok node). split; [done|]. apply runs_bind. eexists last, _. split; [done|].
  pose proof (add_variable_spec vars node) as Ha. destruct (XmlConfig.add_variable _ _) as [vars1|e|]; [|..].
  2: { destruct Ha as [Hn [= ->]]. split; [|done]. exists node. split; [by left|done]. }
  2: { by destruct Ha. }
  destruct Ha as (name & val & Hd & ->). eapply runs_mono; [apply IH|]. cbn beta.
  intros _ res [Hf H]. split; [by apply variables_fail_cons|]. intros vars' ->.
  destruct (H _ eq_refl) as (defs & Hds & ->). exists ((name, val) :: defs). cbn [map]. split; [by rewrite Hds, Hd|].
  cbn. destruct (vars !! name) as [v|] eqn:E.
  - apply map_eq. intros k. rewrite !lookup_union. destruct (decide (name = k)) as [<-|Hk].
    + rewrite lookup_insert_eq, E. by destruct ((list_to_map defs : gmap bytes bytes) !! name).
    + by rewrite lookup_insert_ne.
  - by rewrite <- insert_union_l, insert_union_r.
Qed.

Definition find_fails {A} (doc : Doc) (r : result A) : Prop :=
  fails_std r \/ exists nodes, selected doc (lit "/fastcgi/variables/variable") = Some nodes /\ variables_fail nodes r.

Lemma findVariables_spec doc last :
  runs (findVariables doc) last (fun _ res => find_fails doc res /\
    forall vars, res = Ok vars -> exists nodes defs, selected doc (lit "/fastcgi/variables/variable") = Some nodes /\
      map variable_of nodes = map Some defs /\ vars = list_to_map defs).
Proof.
  unfold findVariables. apply runs_bind. eapply runs_mono; [apply select_spec|]. cbn beta.
  intros last1 [nodes|e|] [Hf Hs]; [|by split; [left|]..]. eapply runs_mono; [apply read_variables_spec|]. cbn beta.
  intros _ res [Hf2 H]. split; [right; by exists nodes|]. intros vars ->. destruct (H _ eq_refl) as (defs & Hd & ->).
  exists nodes, defs. by rewrite (left_id_L ∅ (∪)).
Qed.

#[local] Abbreviation with_includes := (fun d => (xmlXIncludeProcess d).2).

Lemma find_read_fails {A B} d e :
  find_fails (A := A) (with_includes d) (Throw e) -> read_fails (A := B) (Some d) with_includes (Throw e).
Proof.
  intros [H|(nodes & Hn & H)]; destruct e; try done; [by destruct H|].
  destruct H as (node & Hin & Hv & ->). exists d. split; [done|]. right. by exists nodes, node.
Qed.

Lemma load_spec filename doc last :
  runs (load filename doc) last (fun _ res => read_fails doc with_includes res /\
    forall x, res = Ok x -> exists d nodes defs, doc = Some d /\ is_Some (xmlDocGetRootElement d) /\
      0 <= (xmlXIncludeProcess d).1 /\ filename_ x = filename /\ doc_ x = (xmlXIncludeProcess d).2 /\
      selected (doc_ x) (lit "/fastcgi/variables/variable") = Some nodes /\
      map variable_of nodes = map Some defs /\ vars_ x = list_to_map defs).
Proof.
  unfold load. apply runs_bind. destruct doc as [d|];
    [|destruct (nonnull_none (A := Doc) last) as [w E]; exists None, (Throw (RuntimeError w)); split; [exact E|]; split; [apply fails_runtime|done]].
  eexists last, _. split; [done|]. cbn beta match. destruct (xmlDocGetRootElement d) as [root|] eqn:Hr;
    [|eexists _, _; split; [done|]; split; [exists d; split; [done|]; by left|done]].
  unfold runs at 1. rewrite bind_call. apply runs_bind. unfold throwUnless.
  destruct (0 <=? (xmlXIncludeProcess d).1) eqn:Hi; [|eexists _, _; split; [done|]; split; [apply fails_runtime|done]].
  apply Z.leb_le in Hi. eexists _, (Ok tt). split; [done|]. apply runs_bind.
  eapply runs_mono; [apply findVariables_spec|]. cbn beta. intros last1 [vars|e|] [Hf H];
    [|split; [by eapply find_read_fails|done]|by destruct Hf as [|(? & ? & ?)]].
  eexists _, _. split; [done|]. split; [done|]. intros x [= <-].
  destruct (H _ eq_refl) as (nodes & defs & H1 & H2 & H3). exists d, nodes, defs. by rewrite Hr.
Qed.

Lemma create_fails opens file last :
  runs (create opens file) last (fun _ res => read_fails (xmlParseFile file) with_includes res /\ forall x, res = Ok x ->
    opens file = true /\ exists d nodes defs, xmlParseFile file = Some d /\ is_Some (xmlDocGetRootElement d) /\
      0 <= (xmlXIncludeProcess d).1 /\ filename_ x = file /\ doc_ x = (xmlXIncludeProcess d).2 /\
      selected (doc_ x) (lit "/fastcgi/variables/variable") = Some nodes /\
      map variable_of nodes = map Some defs /\ vars_ x = list_to_map defs).
Proof.
  unfold create. destruct (opens file); [|eexists _, _; split; [done|]; split; [apply fails_runtime|done]].
  cbn [negb]. unfold runs. rewrite bind_call. eapply runs_mono; [apply load_spec|]. cbn beta.
  intros _ res [Hf H]. split; [done|]. intros x ->. split; [done|]. by apply H.
Qed.

(** *** Values *)

Lemma asString_agrees fuel x key last :
  plain (vars_ x) -> (dollars (default [] (first_text x key)) <= fuel)%nat ->
  runs (asString fuel x key) last (fun _ res => agrees res (Handlers.asString (config_of x) key)).
Proof.
  intros Hp Hn. unfold asString. apply runs_bind. eapply runs_mono; [apply select_spec|]. cbn beta.
  unfold Handlers.asString, config_of, first_text in *. cbn [config_value].
  intros last1 res [Hf Hs].
  destruct res as [nodes|e|]; [|rewrite Hs; by destruct Hf as [w ->]|done]. rewrite Hs in *.
  destruct nodes as [|[node|] nodes]; [by eexists _, _| |].
  - apply runs_bind. eexists last1, _. split; [done|]. cbn [default] in Hn. unfold runs, resolveVariables.
    set (text := default [] (value node)) in *.
    destruct (resolve_terminates (vars_ x) text (dollars text) Hp (le_n _)) as [(r & E & _)|(k & _ & E)];
      rewrite E, (resolve_more (dollars text) _ _ fuel _ E Hn); by eexists _, _.
  - apply runs_bind. destruct (nonnull_none (A := Node) last1) as [w E]. eexists _, _. split; [exact E|]. done.
Qed.
Lemma agrees_throw {A} e (r : result A) : agrees (Throw e) r -> exists e', r = Throw e'.
Proof. destruct e, r; try done. intros _. by eexists. Qed.

Lemma agrees_undef {A} (r : result A) : agrees Undef r -> r = Undef.
Proof. by destruct r. Qed.

Lemma agrees_refl_int s : agrees (XmlConfig.atoi s) (XmlConfig.atoi s).
Proof. unfold XmlConfig.atoi. by destruct (stoi (c_str s)) as [v|[]|]. Qed.

Lemma asString_default_agrees fuel x key defval last :
  plain (vars_ x) -> (dollars (default [] (first_text x key)) <= fuel)%nat ->
  runs (asString_default fuel x key defval) last (fun _ res => res = Ok (Handlers.asString_default (config_of x) key defval)).
Proof.
  intros Hp Hn. destruct (asString_agrees fuel x key last Hp Hn) as (last1 & res & E & H).
  unfold asString_default, runs, try_catch, Handlers.asString_default. rewrite E.
  destruct res as [v|e|]; [|destruct (agrees_throw _ _ H) as [e' ->]; by eexists _, _|].
  - destruct (Handlers.asString _ _); [|done..]. rewrite H. by eexists _, _.
  - exfalso. apply agrees_undef in H. revert H. unfold Handlers.asString. by destruct (config_value _ _).
Qed.

Lemma asInt_agrees fuel x key last :
  plain (vars_ x) -> (dollars (default [] (first_text x key)) <= fuel)%nat ->
  runs (asInt fuel x key) last (fun _ res => agrees res (XmlConfig.asInt (config_of x) key)).
Proof.
  intros Hp Hn. unfold asInt, XmlConfig.asInt. apply runs_bind. eapply runs_mono; [by apply asString_agrees|]. cbn beta.
  intros last1 [v|e|] H.
  - destruct (Handlers.asString _ _) as [v'| |]; [|done..]. cbn in H. subst v'. eexists _, _. split; [done|]. apply agrees_refl_int.
  - destruct e; try done. destruct (Handlers.asString _ _) as [|[]|]; try done.
  - apply agrees_undef in H. by rewrite H.
Qed.

Lemma asInt_default_agrees fuel x key defval last :
  plain (vars_ x) -> (dollars (default [] (first_text x key)) <= fuel)%nat ->
  runs (asInt_default fuel x key defval) last (fun _ res => res = XmlConfig.asInt_default (config_of x) key defval).
Proof.
  intros Hp Hn. destruct (asInt_agrees fuel x key last Hp Hn) as (last1 & res & E & H).
  unfold asInt_default, runs, try_catch, XmlConfig.asInt_default. rewrite E.
  destruct res as [v|e|]; [|destruct (agrees_throw _ _ H) as [e' ->]; by eexists _, _|rewrite (agrees_undef _ H); by eexists _, _].
  destruct (XmlConfig.asInt _ _); [|done..]. rewrite H. by eexists _, _.
Qed.

Lemma number_keys_spec key i nodes last :
  runs (number_keys key (Z.of_nat i) nodes) last (fun _ res => fails_std res /\
    match res with
    | Ok l => l = map (fun i => key ++ lit "[" ++ to_string (Z.of_nat i + 1) ++ lit "]") (seq i (length nodes))
    | _ => (None : option Node) ∈ nodes
    end).
Proof.
  revert i last. induction nodes as [|n nodes IH]; intros i last; cbn [number_keys length seq map]; [by eexists _, _|].
  apply runs_bind. destruct n as [node|].
  - eexists last, _. split; [done|]. cbn beta match. apply runs_bind. replace (Z.of_nat i + 1) with (Z.of_nat (S i)) by lia.
    eapply runs_mono; [apply IH|]. cbn beta. intros last1 [rest|e|] [Hf H]; [by rewrite H; eexists _, _| |done].
    split; [done|]. by right.
  - destruct (nonnull_none (A := Node) last) as [w E]. eexists _, _. split; [exact E|].
    split; [apply fails_runtime|]. by left.
Qed.

Lemma subKeys_agrees x key last :
  runs (subKeys x key) last (fun _ res => fails_std res /\
    match res with
    | Ok l => l = config_subKeys (config_of x) key
    | _ => selected (doc_ x) key = None \/ exists nodes, selected (doc_ x) key = Some nodes /\ (None : option Node) ∈ nodes
    end).
Proof.
  unfold subKeys, config_subKeys, config_of. cbn [config_count]. apply runs_bind. eapply runs_mono; [apply select_spec|]. cbn beta.
  intros last1 [nodes|e|] [Hf H]; [|by split; [|left]|done]. rewrite H.
  eapply runs_mono; [apply (number_keys_spec key 0)|]. cbn beta. intros _ [l|e|] [Hf2 H2]; [done| |done].
  split; [done|]. right. by exists nodes.
Qed.
(** C38: what a file of the configuration means. Reading it ends, with a document or with an
    exception: an [std::logic_error] for an empty document or for a definition of a variable without
    a name or a text, an [std::runtime_error] for everything else. The document is the one with
    its includes, and a variable has the text of its first definition. When no text of a variable
    has a dollar sign (which could make a reference with what is around it), the loop that
    replaces variables ends after at most as many rounds as a value has dollar signs; and then a
    string, an integer, a default and the keys of repeated elements are those of [config_of], on
    which the rest of the program is built, and what fails, or is undefined as the conversion of
    a number too large for an [int], does so in both. *)
Theorem configuration_values opens file last :
  runs (create opens file) last (fun _ res => read_fails (xmlParseFile file) with_includes res /\ forall x, res = Ok x ->
    (opens file = true /\ exists d nodes defs, xmlParseFile file = Some d /\ is_Some (xmlDocGetRootElement d) /\
       0 <= (xmlXIncludeProcess d).1 /\ filename_ x = file /\ doc_ x = (xmlXIncludeProcess d).2 /\
       selected (doc_ x) (lit "/fastcgi/variables/variable") = Some nodes /\
       map variable_of nodes = map Some defs /\ vars_ x = list_to_map defs) /\
    forall key last,
      runs (subKeys x key) last (fun _ res => fails_std res /\
        match res with
        | Ok l => l = config_subKeys (config_of x) key
        | _ => selected (doc_ x) key = None \/ exists nodes, selected (doc_ x) key = Some nodes /\ (None : option Node) ∈ nodes
        end) /\
      (plain (vars_ x) -> forall fuel, (dollars (default [] (first_text x key)) <= fuel)%nat ->
         runs (asString fuel x key) last (fun _ res => agrees res (Handlers.asString (config_of x) key)) /\
         (forall defval, runs (asString_default fuel x key defval) last (fun _ res =>
            res = Ok (Handlers.asString_default (config_of x) key defval))) /\
         runs (asInt fuel x key) last (fun _ res => agrees res (XmlConfig.asInt (config_of x) key)) /\
         (forall defval, runs (asInt_default fuel x key defval) last (fun _ res =>
            res = XmlConfig.asInt_default (config_of x) key defval)))).
Proof.
  eapply runs_mono; [apply create_fails|]. cbn beta. intros _ res [Hf H]. split; [done|]. intros x Hx.
  split; [by apply H|]. intros key last'. split; [apply subKeys_agrees|]. intros Hp fuel Hn.
  split; [by apply asString_agrees|]. split; [intros; by apply asString_default_agrees|].
  split; [by apply asInt_agrees|]. intros. by apply asInt_default_agrees.
Qed.
End Documents.

(** A document with a variable, which is defined twice, and a value that uses it. *)
Section Example_document.
Import XmlUtils XmlDocument.

Inductive demo_node := DemoText (s : bytes) | DemoElement (text : option bytes) (name : option bytes).

Definition demo_document (key : bytes) : list (option demo_node) :=
  if str_eqb key (lit "/fastcgi/variables/variable") then
    [Some (DemoElement (Some (lit "/var/www")) (Some (lit "root"))); Some (DemoElement (Some (lit "/tmp")) (Some (lit "root")))]
  else if str_eqb key (lit "/fastcgi/daemon/pidfile") then [Some (DemoElement (Some (lit "${root}/pid")) None)]
  else if str_eqb key (lit "/fastcgi/daemon/endpoint") then [Some (DemoElement None None); Some (DemoElement None None)]
  else [].

Definition demo_libxml_of (documents : bytes -> option (bytes -> list (option demo_node))) : Libxml (bytes -> list (option demo_node)) demo_node bytes := {|
  xmlParseFile := documents;
  xmlParseMemory := fun _ => None;
  xmlDocGetRootElement := fun _ => Some (DemoElement None None);
  xmlXIncludeProcess := fun doc => (0, doc);
  xmlXPathNewContext := fun _ => true;
  xmlXPathEvalExpression := fun doc key => Some (doc key);
  children := fun n => match n with DemoElement (Some t) _ => Some (DemoText t) | _ => None end;
  xmlNodeIsText := fun n => match n with DemoText _ => true | _ => false end;
  content := fun n => match n with DemoText t => Some t | _ => None end;
  xmlHasProp := fun n k => match n with DemoElement _ name => if str_eqb k (lit "name") then name else None | _ => None end;
  attr_children := fun a => Some (DemoText a);
  error := fun c last => match c with ParseFile f => if documents f is Some _ then last else Some (lit "failed to load") | _ => last end
|}.

Definition demo_libxml := demo_libxml_of (fun file => if str_eqb file (lit "site.conf") then Some demo_document else None).

Definition demo_config : t := MkXmlConfig (lit "site.conf") demo_document {[lit "root" := lit "/var/www"]}.

Lemma demo_read : create (LX := demo_libxml) (fun _ => true) (lit "site.conf") None = Some (None, Ok demo_config).
Proof. vm_compute. reflexivity. Qed.

Lemma demo_no_file :
  create (LX := demo_libxml) (fun _ => true) (lit "other.conf") None = Some (None, Throw (RuntimeError (lit "failed to load"))) /\
  create (LX := demo_libxml) (fun _ => false) (lit "site.conf") None = Some (None, Throw (RuntimeError (lit "can not open site.conf"))).
Proof. by split. Qed.

Lemma demo_plain : plain (vars_ demo_config).
Proof. intros k v. unfold demo_config. cbn [vars_]. rewrite lookup_singleton_Some. by intros [_ <-]. Qed.

Lemma configuration_values_witness :
  exists x last res, create (LX := demo_libxml) (fun _ => true) (lit "site.conf") None = Some (None, Ok x) /\
    asString (LX := demo_libxml) 1 x (lit "/fastcgi/daemon/pidfile") None = Some (last, res) /\
    res = Ok (lit "/var/www/pid") /\
    config_value (config_of (LX := demo_libxml) x) (lit "/fastcgi/daemon/pidfile") = Some (lit "/var/www/pid") /\
    config_subKeys (config_of (LX := demo_libxml) x) (lit "/fastcgi/daemon/endpoint") =
      [lit "/fastcgi/daemon/endpoint[1]"; lit "/fastcgi/daemon/endpoint[2]"].
Proof.
  destruct (configuration_values (LX := demo_libxml) (fun _ => true) (lit "site.conf") None) as (last & res & E & _ & H).
  rewrite demo_read in E. injection E as <- <-. destruct (H demo_config eq_refl) as [_ Hv].
  destruct (Hv (lit "/fastcgi/daemon/pidfile") None) as [_ Ha].
  destruct (Ha demo_plain 1%nat ltac:(vm_compute; repeat constructor)) as [(last1 & res1 & E1 & Hag) _].
  assert (Ec : config_value (config_of (LX := demo_libxml) demo_config) (lit "/fastcgi/daemon/pidfile") = Some (lit "/var/www/pid")) by (vm_compute; reflexivity).
  exists demo_config, last1, res1. split; [apply demo_read|]. split; [exact E1|].
  split; [|split; [exact Ec|vm_compute; reflexivity]]. unfold Handlers.asString in Hag. rewrite Ec in Hag.
  destruct res1; [cbn in Hag; subst; reflexivity|destruct e; contradiction|contradiction].
Defined.
End Example_document.
