(* ===== verification/Security.v ===== *)
(** * Security

    [library/security_subject.cpp], [security_principal.cpp], [security_realm.cpp],
    [security_authenticator.cpp] and [authenticator/]: who a request is from, what it may see,
    and how it proves it.

    The state of a request being processed is the record [World]: the request, the session
    manager (the pointer may be null), the subjects by address with the shared anonymous one,
    the buffers, the contents of the response stream, and what the outside supplies: for every
    call of the manager the identifiers generated during it, and the clock, which stands still
    while one request passes a filter. What the server keeps of a request is here too
    ([Server]): the handlers of its task and the description in its [FastcgiRequest]; and the
    [HandlerContext] of this run. Subjects
    are never changed once a realm has made them, so their addresses are kept and not counted. *)

From S2P Require Import Prelude Cxx OrdMap Ranges StringUtils HashUtils Buffer Cookie Parser Except Codec Request Session.
From S2P Require Import SessionManager Handlers Program.

(** ** Subjects *)

Module Subject.

Definition anonymous : bytes := lit "Anonymous".

(** [std::hash<std::string>], some function of the name. *)
Class Hash := hash : bytes -> Z.

(** A principal is given by its name: [Principal] has nothing else. *)
Definition getHashCode `{Hash} (p : bytes) : Z := hash p.

(** Principals are compared by their hash codes, with another one, a hash code or a name. *)
Definition principal_is_hash `{Hash} (p : bytes) (hashCode : Z) : bool := getHashCode p =? hashCode.
Definition principal_eq `{Hash} (p q : bytes) : bool := principal_is_hash p (getHashCode q).
Definition principal_is `{Hash} (p name : bytes) : bool := principal_is_hash p (hash name).

Record t := MkSubject { principals_ : list bytes; readOnly_ : bool }.

Definition create : t := MkSubject [] false.

Definition hasPrincipal_hash `{Hash} (s : t) (hashCode : Z) : bool :=
  existsb (fun p => hashCode =? getHashCode p) (principals_ s).

Definition hasPrincipal `{Hash} (s : t) (name : bytes) : bool := hasPrincipal_hash s (hash name).

Definition isAnonymous (s : t) : bool := existsb (fun p => str_eqb p anonymous) (principals_ s).

Definition isReadOnly (s : t) : bool := readOnly_ s.
Definition setReadOnly (s : t) : t := MkSubject (principals_ s) true.

Definition setPrincipal `{Hash} (s : t) (principal : bytes) : result t :=
  if negb (readOnly_ s) then
    if negb (hasPrincipal_hash s (getHashCode principal))
    then Ok (MkSubject (principals_ s ++ [principal]) (readOnly_ s))
    else Throw (RuntimeError (lit "Duplicate principal"))
  else Throw (RuntimeError (lit "Attempt to modify read-only subject")).

(** The principals before a duplicate stay. *)
Fixpoint add_principals `{Hash} (s : t) (principals : list bytes) : t * result unit :=
  match principals with
  | [] => (s, Ok tt)
  | p :: principals' =>
      if negb (hasPrincipal_hash s (getHashCode p))
      then add_principals (MkSubject (principals_ s ++ [p]) (readOnly_ s)) principals'
      else (s, Throw (RuntimeError (lit "Duplicate principal")))
  end.

Definition setPrincipals `{Hash} (s : t) (principals : list bytes) : t * result unit :=
  if negb (readOnly_ s) then add_principals s principals
  else (s, Throw (RuntimeError (lit "Attempt to modify read-only subject"))).

Definition getPrincipals (s : t) (principals : list bytes) : list bytes := principals ++ principals_ s.

(** The shared anonymous subject. *)
Definition anonymous_subject : t := setReadOnly (MkSubject [anonymous] false).

End Subject.

(** A realm: what a name and credentials, or a name alone, give. The base class knows nobody. *)
Record Realm := MkRealm {
  realm_name : bytes;
  realm_authenticate : bytes -> bytes -> result (option Subject.t);
  realm_getSubject : bytes -> result (option Subject.t)
}.

Definition base_realm (name : bytes) : Realm := MkRealm name (fun _ _ => Ok None) (fun _ => Ok None).

(** The constructor of [Realm], and [onLoad], which finds the logger. *)
Definition realm_create (config : Config) (componentXPath : bytes) : Realm :=
  base_realm (asString_default config (componentXPath ++ lit "/name") (lit "ExampleRealm")).

Definition realm_onLoad (config : Config) (componentXPath : bytes) (cs : ComponentSet) (is_Logger : nat -> bool) : result nat :=
  loggerComponentName ← asString config (componentXPath ++ lit "/logger");
  if Range.empty loggerComponentName then Throw (RuntimeError (lit "logger is not configured"))
  else
    match components_find cs loggerComponentName with
    | Some logger =>
        if is_Logger logger then Ok logger else Throw (RuntimeError (lit "cannot get component " ++ loggerComponentName))
    | None => Throw (RuntimeError (lit "cannot get component " ++ loggerComponentName))
    end.

(** ** The state *)

Section State.
Context {V S I : Type} {IO : IOStream S}.

Record World := MkWorld {
  req : Request.t S;
  mgr : option (SessionManager.t V);
  subjects : gmap nat Subject.t;
  anonymous_ : option nat;
  heap : gmap nat I;
  response : bytes;
  new_ids : list (list bytes);
  clock : Z;
  task_handlers : list nat;
  handler_id : option bytes;
  context_ : AttributesHolder.t V
}.

Definition set_req (w : World) v : World :=
  MkWorld v (mgr w) (subjects w) (anonymous_ w) (heap w) (response w) (new_ids w) (clock w) (task_handlers w) (handler_id w)
    (context_ w).
Definition set_mgr (w : World) v : World :=
  MkWorld (req w) v (subjects w) (anonymous_ w) (heap w) (response w) (new_ids w) (clock w) (task_handlers w) (handler_id w)
    (context_ w).
Definition set_subjects (w : World) v : World :=
  MkWorld (req w) (mgr w) v (anonymous_ w) (heap w) (response w) (new_ids w) (clock w) (task_handlers w) (handler_id w)
    (context_ w).
Definition set_anonymous (w : World) v : World :=
  MkWorld (req w) (mgr w) (subjects w) v (heap w) (response w) (new_ids w) (clock w) (task_handlers w) (handler_id w)
    (context_ w).
Definition set_heap (w : World) v : World :=
  MkWorld (req w) (mgr w) (subjects w) (anonymous_ w) v (response w) (new_ids w) (clock w) (task_handlers w) (handler_id w)
    (context_ w).
Definition set_response (w : World) v : World :=
  MkWorld (req w) (mgr w) (subjects w) (anonymous_ w) (heap w) v (new_ids w) (clock w) (task_handlers w) (handler_id w)
    (context_ w).
Definition set_ids (w : World) v : World :=
  MkWorld (req w) (mgr w) (subjects w) (anonymous_ w) (heap w) (response w) v (clock w) (task_handlers w) (handler_id w)
    (context_ w).
Definition set_task_handlers (w : World) v : World :=
  MkWorld (req w) (mgr w) (subjects w) (anonymous_ w) (heap w) (response w) (new_ids w) (clock w) v (handler_id w)
    (context_ w).
Definition set_handler_id (w : World) v : World :=
  MkWorld (req w) (mgr w) (subjects w) (anonymous_ w) (heap w) (response w) (new_ids w) (clock w) (task_handlers w) v
    (context_ w).
Definition set_context (w : World) v : World :=
  MkWorld (req w) (mgr w) (subjects w) (anonymous_ w) (heap w) (response w) (new_ids w) (clock w) (task_handlers w) (handler_id w)
    v.
End State.
Arguments World : clear implicits.

(** *** The members of [Request] and [Session] on this state *)

Module Req.
Section Ops.
Context {V S I : Type} {IO : IOStream S} `{Subject.Hash} (crawler : bytes -> bool).
#[local] Abbreviation M := (prog (World V S I)).

(** A new object for a subject. *)
Definition new_subject (s : Subject.t) : M nat := fun w =>
  let p := fresh (dom (subjects w)) in
  Some (set_subjects w (<[p := s]> (subjects w)), Ok p).

Definition getAnonymousSubject : M nat := fun w =>
  match anonymous_ w with
  | Some p => Some (w, Ok p)
  | None =>
      match new_subject Subject.anonymous_subject w with
      | Some (w, Ok p) => Some (set_anonymous w (Some p), Ok p)
      | res => res
      end
  end.

Definition subject (p : nat) : M Subject.t := fun w =>
  match subjects w !! p with Some s => Some (w, Ok s) | None => Some (w, Undef) end.

Definition isAnonymous (p : nat) : M bool := s ← subject p; ret (Subject.isAnonymous s).

Definition request_field {A} (f : Request.t S -> A) : M A := gets (fun w => f (req w)).

(** A setter of [Request]. *)
Definition request_set (f : Request.t S -> result (Request.t S)) : M unit := fun w =>
  match f (req w) with
  | Ok r => Some (set_req w r, Ok tt)
  | Throw e => Some (w, Throw e)
  | Undef => Some (w, Undef)
  end.

Definition getSubject : M nat :=
  s ← request_field Request.subject_;
  match s with Some p => ret p | None => getAnonymousSubject end.

Definition setSubject (p : nat) : M unit :=
  anon ← isAnonymous p;
  if negb anon then
    s ← request_field Request.subject_;
    match s with
    | Some _ => throw (RuntimeError (lit "Subject already assigned"))
    | None => request_set (fun r => Ok (Request.set_subject r (Some p)))
    end
  else request_set (fun r => Ok (Request.set_subject r None)).

Definition isUserInRole (roleName : bytes) : M bool :=
  p ← getSubject; s ← subject p; ret (Subject.hasPrincipal s roleName).

(** Exceptions of the manager are swallowed by [Request]; the model loops only when the
    supply of identifiers ends. *)
Definition getSession : M (option nat) := fun w =>
  match mgr w with
  | None => Some (w, Ok (Request.session_ (req w)))
  | Some m =>
      match SessionManager.getSession crawler m (req w) (default [] (head (new_ids w))) (clock w) with
      | Some (m, r, res) => Some (set_ids (set_mgr (set_req w r) (Some m)) (tail (new_ids w)), res)
      | None => None
      end
  end.

Definition createSession : M (option nat) := fun w =>
  match mgr w with
  | None => Some (w, Ok (Request.session_ (req w)))
  | Some m =>
      match SessionManager.createSession crawler m (req w) (default [] (head (new_ids w))) (clock w) with
      | Some (m, r, res) => Some (set_ids (set_mgr (set_req w r) (Some m)) (tail (new_ids w)), res)
      | None => None
      end
  end.

Definition changeSessionId : M unit := fun w =>
  match mgr w with
  | None => Some (w, Ok tt)
  | Some m =>
      match SessionManager.changeSessionId crawler m (req w) (default [] (head (new_ids w))) with
      | Some (m, r, res) => Some (set_ids (set_mgr (set_req w r) (Some m)) (tail (new_ids w)), res)
      | None => None
      end
  end.

(** The local [std::shared_ptr<Session>] of a function, dropped when it is left. *)
Definition drop_session (p : option nat) (w : World V S I) : World V S I :=
  match mgr w with Some m => set_mgr w (Some (SessionManager.opt_drop m p)) | None => w end.

Definition using_session {A} (k : option nat -> M A) : M A :=
  p ← getSession; finally (k p) (drop_session p).

(** The session object behind a pointer. *)
Definition session (p : nat) : M (Session.t V) := fun w =>
  match mgr w with
  | Some m => match SessionManager.store m !! p with Some s => Some (w, Ok s) | None => Some (w, Undef) end
  | None => Some (w, Undef)
  end.

Definition update_session (p : nat) (f : Session.t V -> Session.t V) : M unit :=
  modify (fun w => match mgr w with
                   | Some m => set_mgr w (Some (SessionManager.with_session m p f))
                   | None => w
                   end).

(** [Session::getSubject] and [setSubject]. *)
Definition session_subject (p : nat) : M nat :=
  s ← session p;
  match Session.subject_ s with Some q => ret q | None => getAnonymousSubject end.

Definition session_setSubject (p q : nat) : M unit := update_session p (fun s => Session.setSubject s (Some q)).
End Ops.
End Req.

(** ** Authenticators *)

Module Authenticator.
Section Ops.
Context {V S I R : Type} {IO : IOStream S} {HH : Subject.Hash} {RE : Regex R} (crawler : bytes -> bool).
#[local] Abbreviation M := (prog (World V S I)).

(** [SecurityConstraint]: an [UrlFilter] and a role. *)
Record SecurityConstraint := MkConstraint { filter_ : RequestFilter.t R; roleName_ : bytes }.

Record t := MkAuthenticator {
  changeSessionIdOnAuthentication_ : bool;
  realm_ : option Realm;
  constraints_ : list SecurityConstraint
}.


(** [AbstractAuthenticator::initConstraints]: elements without an address have ["/"], those
    without a role are left out. *)
Fixpoint initConstraints (config : Config) (url_prefix : bytes) (keys : list bytes)
    : result (list SecurityConstraint) :=
  match keys with
  | [] => Ok []
  | k :: keys' =>
      let url_filter := asString_default config (k ++ lit "/@url") (lit "/") in
      let role_name := asString_default config (k ++ lit "/@role") [] in
      if negb (Range.empty url_filter) && negb (Range.empty role_name) then
        re ← RequestFilter.create_regex url_filter;
        rest ← initConstraints config url_prefix keys';
        Ok (MkConstraint (RequestFilter.UrlFilter re url_prefix) role_name :: rest)
      else initConstraints config url_prefix keys'
  end.

Definition create (config : Config) (componentXPath : bytes) (realm : option Realm) : result t :=
  let change := str_eqb (lit "true")
    (asString_default config (componentXPath ++ lit "/changeSessionIdOnAuthentication") (lit "true")) in
  let url_prefix := asString_default config (lit "/fastcgi/handlers/@urlPrefix") [] in
  cs ← initConstraints config url_prefix
         (config_subKeys config (lit "/fastcgi/security-constraints/constraint"));
  Ok (MkAuthenticator change realm cs).

(** [onLoad] finds the logger and the realm among the components, which are what their dynamic
    types say; [onUnload] drops the realm. *)
Definition set_realm (a : t) (realm : option Realm) : t :=
  MkAuthenticator (changeSessionIdOnAuthentication_ a) realm (constraints_ a).

Definition found {A} (cs : ComponentSet) (as_ : nat -> option A) (name : bytes) : result A :=
  match c ← components_find cs name; as_ c with
  | Some x => Ok x
  | None => Throw (RuntimeError (lit "cannot get component " ++ name))
  end.

Definition onLoad (cs : ComponentSet) (as_Logger : nat -> option nat) (as_Realm : nat -> option Realm)
    (config : Config) (componentXPath : bytes) (a : t) : result t :=
  loggerComponentName ← asString config (componentXPath ++ lit "/logger");
  _ ← found cs as_Logger loggerComponentName;
  realmComponentName ← asString config (componentXPath ++ lit "/realm");
  realm ← found cs as_Realm realmComponentName;
  Ok (set_realm a (Some realm)).

Definition onUnload (a : t) : t := set_realm a None.

Definition check (c : SecurityConstraint) : M bool :=
  r ← gets req; lift (RequestFilter.check (filter_ c) r).

Fixpoint any_check (cs : list SecurityConstraint) : M bool :=
  match cs with
  | [] => ret false
  | c :: cs' => b ← check c; if (b : bool) then ret true else any_check cs'
  end.

Definition isAuthenticationRequired (a : t) : M bool := any_check (constraints_ a).

Definition isAuthenticated : M bool :=
  p ← Req.getSubject; anon ← Req.isAnonymous p;
  if (anon : bool) then
    Req.using_session crawler (fun session =>
      found ← (match session with
               | Some s =>
                   q ← Req.session_subject s; qanon ← Req.isAnonymous q;
                   if negb qanon then Req.setSubject q ;; ret (Some true) else ret None
               | None => ret None
               end);
      match found with
      | Some b => ret b
      | None => p ← Req.getSubject; anon ← Req.isAnonymous p; ret (negb anon)
      end)
  else ret true.

Fixpoint all_roles (cs : list SecurityConstraint) (subject : Subject.t) : M bool :=
  match cs with
  | [] => ret true
  | c :: cs' =>
      b ← check c;
      if b && negb (Subject.hasPrincipal subject (roleName_ c)) then ret false else all_roles cs' subject
  end.

Definition isAuthorized (a : t) : M bool :=
  p ← Req.getSubject; s ← Req.subject p; all_roles (constraints_ a) s.

(** The information is cached in the session, if any, and in the request. *)
Definition setSubject (a : t) (p : nat) : M unit :=
  Req.using_session crawler (fun session =>
    match session with
    | Some s =>
        Req.session_setSubject s p ;;
        anon ← Req.isAnonymous p;
        if negb anon && changeSessionIdOnAuthentication_ a
        then Req.changeSessionId crawler else ret tt
    | None => ret tt
    end ;;
    Req.setSubject p).

(** [realm_->authenticate], its result an object at an address. *)
Definition realm_subject (r : result (option Subject.t)) : M (option nat) :=
  s ← lift r;
  match s with Some s => p ← Req.new_subject s; ret (Some p) | None => ret None end.

Definition doLogin (a : t) (username credentials : bytes) : M bool :=
  match realm_ a with
  | Some realm =>
      s ← realm_subject (realm_authenticate realm username credentials);
      match s with
      | Some p => setSubject a p ;; anon ← Req.isAnonymous p; ret (negb anon)
      | None => ret false
      end
  | None => ret false
  end.

(** [authenticate] and [isAuthenticationRequired] are virtual. *)
Definition doFilter (a : t) (required authenticate : M bool) (next : M unit) : M unit :=
  req_auth ← required;
  if negb req_auth then next
  else
    authenticated ← isAuthenticated;
    ok ← (if (authenticated : bool) then ret true else authenticate);
    if (ok : bool) then
      authorized ← isAuthorized a;
      (if (authorized : bool) then next
       else p ← Req.getAnonymousSubject; Req.setSubject p ;; throw Exceptions.Unauthorized) ;;
      p ← Req.getAnonymousSubject; Req.setSubject p
    else
      processed ← Req.request_field Request.isProcessed;
      if negb processed then throw Exceptions.Forbidden else ret tt.
End Ops.
Arguments t : clear implicits.
End Authenticator.

(** ** The three authenticators *)

Module BasicAuthenticator.
Section Ops.
Context {V S I R : Type} {IO : IOStream S} {HH : Subject.Hash} {RE : Regex R} (crawler : bytes -> bool).
#[local] Abbreviation M := (prog (World V S I)).

(** The credentials of the header, when it has two words and the second decodes to two
    parts. *)
Definition credentials (auth_header : bytes) : result (option (bytes * bytes)) :=
  match StringUtils.split auth_header " "%byte [] with
  | [_; code] =>
      text ← HashUtils.base64_decode code;
      match StringUtils.split text ":"%byte [] with
      | [user; password] => Ok (Some (user, password))
      | _ => Ok None
      end
  | _ => Ok None
  end.

(** [realm_] is dereferenced for the challenge. *)
Definition challenge (a : Authenticator.t R) : M bool :=
  match Authenticator.realm_ a with
  | Some realm =>
      Req.request_set (fun r => Request.setHeader r (lit "WWW-Authenticate")
        (lit "Basic realm=" ++ [Byte.x22] ++ realm_name realm ++ [Byte.x22])) ;;
      Req.request_set (fun r => Request.setStatus r 401) ;;
      Req.request_set (fun r => Ok (Request.markAsProcessed r)) ;;
      ret false
  | None => fun w => Some (w, Undef)
  end.

Definition authenticate (a : Authenticator.t R) : M bool :=
  has ← Req.request_field (fun r => Request.hasHeader r (lit "Authorization"));
  creds ← (if (has : bool) then
             h ← Req.request_field (fun r => Request.getHeader r (lit "Authorization"));
             lift (credentials h)
           else ret None);
  match creds with
  | Some (user, password) => Authenticator.doLogin crawler a user password
  | None => challenge a
  end.
End Ops.
End BasicAuthenticator.

Module DelegatedAuthenticator.
Section Ops.
Context {V S I R : Type} {IO : IOStream S} {HH : Subject.Hash} {RE : Regex R} (crawler : bytes -> bool).
#[local] Abbreviation M := (prog (World V S I)).

Definition authenticate (a : Authenticator.t R) : M bool :=
  username ← Req.request_field Request.getRemoteUser;
  match Authenticator.realm_ a with
  | Some realm =>
      if negb (Range.empty username) then
        password ← Req.request_field Request.getRemotePassword;
        if Range.empty password then
          s ← Authenticator.realm_subject (realm_getSubject realm username);
          match s with
          | Some p => Authenticator.setSubject crawler a p ;; anon ← Req.isAnonymous p; ret (negb anon)
          | None => ret false
          end
        else Authenticator.doLogin crawler a username password
      else ret false
  | None => ret false
  end.
End Ops.
End DelegatedAuthenticator.

(** The values a form login keeps in a session: strings and buffers, boxed in [core::any]. *)
Class SessionValue (V : Type) `{Any V} := {
  of_string : bytes -> V;
  to_string_value : V -> result bytes;
  of_buffer : DataBuffer -> V;
  to_buffer : V -> result DataBuffer
}.

Module FormAuthenticator.

Definition SECURITY_CHECK_URL : bytes := lit "/j_security_check".
Definition FORM_ACTION : bytes := lit "/login".
Definition FORM_USERNAME : bytes := lit "j_username".
Definition FORM_PASSWORD : bytes := lit "j_password".
Definition PARAM_NAME_STORED_REQUEST : bytes := lit "auth-stored-request".
Definition PARAM_NAME_STORED_REQUEST_URI : bytes := lit "auth-stored-request-uri".
Definition DEFAULT_CACHE_DIR : bytes := lit "/tmp/fastcgi3-container/cache/form-auth-cache/".

Section Ops.
Context {V S I R : Type} `{SessionValue V} {IO : IOStream S} {DB : DataBufferImpl I}
  {HH : Subject.Hash} {RE : Regex R} (crawler : bytes -> bool).
#[local] Abbreviation M := (prog (World V S I)).

Record t := MkForm {
  base : Authenticator.t R;
  urlPrefix_ : bytes;
  securityCheckUrl_ : bytes;
  formAction_ : bytes;
  cache_dir_ : bytes;
  storeRequest_ : bool
}.

(** A leading slash is added; the first character of an empty string is read out of range. *)
Definition with_slash (url : bytes) : result bytes :=
  match url with
  | [] => Undef
  | c :: _ => Ok (if beqb c "/"%byte then url else "/"%byte :: url)
  end.

Definition with_end_slash (dir : bytes) : bytes :=
  match rev dir with c :: _ => if beqb c "/"%byte then dir else dir ++ lit "/" | [] => dir end.

(** The constructor, without the creation of the cache directory. *)
Definition create (config : Config) (componentXPath : bytes) (realm : option Realm) : result t :=
  a ← Authenticator.create config componentXPath realm;
  let url_prefix := asString_default config (lit "/fastcgi/handlers/@urlPrefix") [] in
  check_url ← with_slash (asString_default config (componentXPath ++ lit "/security-check-url") SECURITY_CHECK_URL);
  form ← with_slash (asString_default config (componentXPath ++ lit "/form-page") FORM_ACTION);
  let dir := asString_default config (componentXPath ++ lit "/cache-dir") [] in
  let dir := with_end_slash (if Range.empty dir then DEFAULT_CACHE_DIR else dir) in
  let store := str_eqb (lit "true") (asString_default config (componentXPath ++ lit "/store-request") (lit "false")) in
  Ok (MkForm a url_prefix check_url form dir store).

(** [createFileBuffer]: making the directory and opening the file is the system's part. *)
Context (open_file : bytes -> gmap nat I -> result (gmap nat I * DataBuffer)).

Definition createFileBuffer (f : t) (key : bytes) : M DataBuffer := fun w =>
  match open_file (cache_dir_ f ++ key) (heap w) with
  | Ok (h, d) => Some (set_heap w h, Ok d)
  | Throw e => Some (w, Throw e)
  | Undef => Some (w, Undef)
  end.

(** [request->serialize(buffer)], which grows the buffer. *)
Definition serialize_request (buffer : DataBuffer) : M DataBuffer := fun w =>
  match Codec.serialize (heap w) (Request.in_ (req w)) (Request.body_ (req w)) buffer with
  | Ok (h, d) => Some (set_heap w h, Ok d)
  | Throw e => Some (w, Throw e)
  | Undef => Some (w, Undef)
  end.

(** Attributes of the session at [p]. *)
Definition attributes (p : nat) : M (AttributesHolder.t V) := s ← Req.session p; ret (Session.attributes_ s).
Definition hasAttribute (p : nat) (name : bytes) : M bool :=
  a ← attributes p; ret (AttributesHolder.hasAttribute a name).
Definition getAttribute {T} (cast : V -> result T) (p : nat) (name : bytes) : M T :=
  a ← attributes p; lift (AttributesHolder.getAttribute_as cast a name).
Definition setAttribute (p : nat) (name : bytes) (v : V) : M unit :=
  Req.update_session p (fun s => Session.set_attributes s
    (AttributesHolder.setAttribute (Session.attributes_ s) name v).1).
Definition removeAttribute (p : nat) (name : bytes) : M unit :=
  a ← attributes p; a ← lift (AttributesHolder.removeAttribute a name);
  Req.update_session p (fun s => Session.set_attributes s a).

Definition has_credentials : M bool :=
  Req.request_field (fun r => Request.hasArg r FORM_USERNAME && Request.hasArg r FORM_PASSWORD).

Definition isAuthenticationRequired (f : t) : M bool :=
  script ← Req.request_field Request.getScriptName;
  if negb (Range.empty (formAction_ f)) && StringUtils.endsWith script (formAction_ f) then ret false
  else
    creds ← has_credentials;
    if (creds : bool) then
      p ← Req.getAnonymousSubject; Authenticator.setSubject crawler (base f) p ;; ret true
    else Authenticator.isAuthenticationRequired (base f).

Definition redirect_to_login (f : t) : M unit :=
  Req.request_set (fun r => Request.redirectToPath r (urlPrefix_ f ++ formAction_ f)).
Definition mark_processed : M unit := Req.request_set (fun r => Ok (Request.markAsProcessed r)).

(** A login that succeeded: the stored request is dispatched again, or the client is sent to
    the stored address. *)
Definition resume (session : option nat) : M bool :=
  match session with
  | Some p =>
      stored ← hasAttribute p PARAM_NAME_STORED_REQUEST;
      if (stored : bool) then
        buffer ← getAttribute to_buffer p PARAM_NAME_STORED_REQUEST;
        removeAttribute p PARAM_NAME_STORED_REQUEST ;;
        throw (DispatchException FORWARD [] (data_ buffer) (begin_ buffer) (end_ buffer))
      else
        uri ← hasAttribute p PARAM_NAME_STORED_REQUEST_URI;
        if (uri : bool) then
          url ← getAttribute to_string_value p PARAM_NAME_STORED_REQUEST_URI;
          removeAttribute p PARAM_NAME_STORED_REQUEST_URI ;;
          Req.request_set (fun r => Request.redirectToPath r url) ;;
          mark_processed ;; ret false
        else ret false
  | None => ret false
  end.

(** A login that failed: back to the form when a request is stored. *)
Definition login_again (f : t) (session : option nat) : M bool :=
  match session with
  | Some p =>
      stored ← hasAttribute p PARAM_NAME_STORED_REQUEST;
      uri ← hasAttribute p PARAM_NAME_STORED_REQUEST_URI;
      if stored || uri then mark_processed ;; redirect_to_login f ;; ret false else ret false
  | None => ret false
  end.

(** The first request: its address, or all of it, is stored and the client sent to the form. *)
Definition store_request (f : t) (session : option nat) : M bool :=
  match session with
  | Some p =>
      r ← gets req;
      (if negb (storeRequest_ f) && negb (str_eqb (lit "POST") (Request.getRequestMethod r)) &&
          (Request.countRemoteFiles r =? 0)
       then setAttribute p PARAM_NAME_STORED_REQUEST_URI (of_string (Request.getURI r))
       else
         s ← Req.session p;
         buffer ← createFileBuffer f (Session.getId s);
         if negb (Buf.isNil buffer) then
           buffer ← serialize_request buffer;
           setAttribute p PARAM_NAME_STORED_REQUEST (of_buffer buffer) ;;
           setAttribute p PARAM_NAME_STORED_REQUEST_URI (of_string (Request.getURI r))
         else ret tt) ;;
      mark_processed ;; redirect_to_login f ;; ret false
  | None => ret false
  end.

Definition authenticate (f : t) : M bool :=
  creds ← has_credentials;
  if (creds : bool) then
    username ← Req.request_field (fun r => Request.getArg r FORM_USERNAME);
    password ← Req.request_field (fun r => Request.getArg r FORM_PASSWORD);
    ok ← Authenticator.doLogin crawler (base f) username password;
    Req.using_session crawler (fun session =>
      if (ok : bool) then resume session else login_again f session)
  else Req.using_session crawler (store_request f).

(** The form of the login page gets the stored address as its action; [rewrite] is
    [regex_replace] with the expression of the security check address. *)
Definition fill_login_form (rewrite : bytes -> bytes -> bytes) (f : t) : M unit :=
  script ← Req.request_field Request.getScriptName;
  if StringUtils.endsWith script (formAction_ f) then
    Req.using_session crawler (fun session =>
      match session with
      | Some p =>
          stored ← hasAttribute p PARAM_NAME_STORED_REQUEST;
          uri ← hasAttribute p PARAM_NAME_STORED_REQUEST_URI;
          if stored && uri then
            loginForm ← gets response;
            modify (fun w => set_response w []) ;;
            url ← getAttribute to_string_value p PARAM_NAME_STORED_REQUEST_URI;
            modify (fun w => set_response w (response w ++ rewrite loginForm url))
          else ret tt
      | None => ret tt
      end)
  else ret tt.

Definition doFilter (rewrite : bytes -> bytes -> bytes) (f : t) (next : M unit) : M unit :=
  Authenticator.doFilter crawler (base f) (isAuthenticationRequired f) (authenticate f) next ;;
  fill_login_form rewrite f.

Definition getSecurityCheckUrl (f : t) : M bytes :=
  Req.using_session crawler (fun session =>
    match session with
    | Some p =>
        stored ← hasAttribute p PARAM_NAME_STORED_REQUEST;
        uri ← hasAttribute p PARAM_NAME_STORED_REQUEST_URI;
        if stored && uri then getAttribute to_string_value p PARAM_NAME_STORED_REQUEST_URI
        else ret (securityCheckUrl_ f)
    | None => ret (securityCheckUrl_ f)
    end).
End Ops.
Arguments t : clear implicits.
End FormAuthenticator.

(** ** Subjects *)

Section Subjects.
Context {HH : Subject.Hash}.
Import Subject.

(** Comparing principals is an equivalence, which is coarser than having the same name where two
    names have the same hash; a subject does not tell equal names apart. *)
Definition same_principal (p q : bytes) : Prop := principal_eq p q = true.

Lemma same_principal_hash p q : same_principal p q <-> hash p = hash q.
Proof. apply Z.eqb_eq. Qed.

#[export] Instance same_principal_equivalence : Equivalence same_principal.
Proof. split; [intros p|intros p q|intros p q r]; rewrite !same_principal_hash; congruence. Qed.

Lemma hasPrincipal_compares s name : hasPrincipal s name = existsb (fun p => principal_is p name) (principals_ s).
Proof.
  unfold hasPrincipal, hasPrincipal_hash, principal_is, principal_is_hash.
  induction (principals_ s) as [|p l IH]; [done|]. cbn. by rewrite IH, Z.eqb_sym.
Qed.

#[export] Instance hasPrincipal_proper s : Proper (same_principal ==> eq) (hasPrincipal s).
Proof. intros p q E. apply same_principal_hash in E. unfold hasPrincipal. by rewrite E. Qed.

Lemma hasPrincipal_hash_spec s z : hasPrincipal_hash s z = true <-> exists p, p ∈ principals_ s /\ hash p = z.
Proof.
  unfold hasPrincipal_hash. rewrite existsb_exists. split.
  - intros (p & Hp & E). apply Z.eqb_eq in E. exists p. split; [by apply list_elem_of_In|done].
  - intros (p & Hp & <-). exists p. split; [by apply list_elem_of_In|apply Z.eqb_refl].
Qed.

Definition distinct (l : list bytes) : Prop := NoDup (map hash l).

Lemma distinct_snoc l p : distinct l -> (~ exists q, q ∈ l /\ hash q = hash p) -> distinct (l ++ [p]).
Proof.
  intros Hd Hn. unfold distinct. rewrite map_app. apply NoDup_app. split; [done|]. split.
  - intros z Hz%list_elem_of_fmap. destruct Hz as (q & -> & Hq). cbn. rewrite list_elem_of_singleton.
    intros E. apply Hn. by exists q.
  - apply NoDup_singleton.
Qed.

Lemma add_principals_spec s l s' res :
  distinct (principals_ s) -> add_principals s l = (s', res) ->
  distinct (principals_ s') /\ readOnly_ s' = readOnly_ s /\
  exists l1 l2, l = l1 ++ l2 /\ principals_ s' = principals_ s ++ l1 /\
    match l2 with
    | [] => res = Ok tt
    | p :: _ => res = Throw (RuntimeError (lit "Duplicate principal")) /\
        exists q, q ∈ principals_ s' /\ hash q = hash p
    end.
Proof.
  revert s. induction l as [|p l IH]; intros s Hd; cbn [add_principals].
  { intros [= <- <-]. split; [done|]. split; [done|].
    exists [], []. split; [done|]. split; [by rewrite app_nil_r|done]. }
  destruct (hasPrincipal_hash s (getHashCode p)) eqn:E; cbn [negb].
  - intros [= <- <-]. split; [done|]. split; [done|]. exists [], (p :: l). rewrite app_nil_r.
    split; [done|]. split; [done|]. split; [done|]. by apply hasPrincipal_hash_spec in E.
  - intros H. apply IH in H as (Hd' & Hr & l1 & l2 & -> & Hp & Hm).
    + split; [done|]. split; [done|]. exists (p :: l1), l2. split; [done|]. split; [|done].
      rewrite Hp. cbn. by rewrite <- app_assoc.
    + cbn. apply distinct_snoc; [done|]. intros Hq. apply hasPrincipal_hash_spec in Hq.
      unfold getHashCode in E. congruence.
Qed.

(** C39: the principals of a subject stay distinct: [setPrincipals] adds the principals before
    the first one whose hash is already there, and reports that one as a duplicate, or adds
    all of them; a subject has a role exactly when a principal of its has the hash of the
    role's name; a read-only subject, such as the shared anonymous one, is never changed. *)
Theorem set_principals s l :
  distinct (principals_ s) ->
  let '(s', res) := setPrincipals s l in
  distinct (principals_ s') /\
  (forall name, hasPrincipal s' name = true <-> exists p, p ∈ principals_ s' /\ hash p = hash name) /\
  (isReadOnly s = true -> s' = s /\ res = Throw (RuntimeError (lit "Attempt to modify read-only subject"))) /\
  (isReadOnly s = false -> exists l1 l2, l = l1 ++ l2 /\ principals_ s' = principals_ s ++ l1 /\
     match l2 with
     | [] => res = Ok tt
     | p :: _ => res = Throw (RuntimeError (lit "Duplicate principal")) /\ hasPrincipal s' p = true
     end).
Proof.
  intros Hd. unfold setPrincipals. destruct (readOnly_ s) eqn:Hr; cbn [negb].
  - split; [done|]. split; [intros; apply hasPrincipal_hash_spec|].
    split; [done|]. unfold isReadOnly. congruence.
  - destruct (add_principals s l) as [s' res] eqn:E.
    destruct (add_principals_spec _ _ _ _ Hd E) as (Hd' & _ & l1 & l2 & H1 & H2 & H3).
    split; [done|]. split; [intros; apply hasPrincipal_hash_spec|].
    split; [unfold isReadOnly; congruence|]. intros _. exists l1, l2. split; [done|]. split; [done|].
    destruct l2; [done|]. destruct H3 as [-> Hq]. split; [done|]. by apply hasPrincipal_hash_spec.
Qed.

End Subjects.

(** A realm that is loaded has a logger, the one its configuration names. *)
Lemma realm_loaded config componentXPath cs is_Logger logger :
  realm_onLoad config componentXPath cs is_Logger = Ok logger ->
  exists name, asString config (componentXPath ++ lit "/logger") = Ok name /\ Range.empty name = false /\
    components_find cs name = Some logger /\ is_Logger logger = true.
Proof.
  unfold realm_onLoad. destruct (asString _ _) as [name| |]; [|done..]. cbn [mbind result_bind].
  destruct (Range.empty name) eqn:En; [done|]. intros H. exists name.
  destruct (components_find cs name) as [l|]; [|done]. destruct (is_Logger l) eqn:E; [|done]. by injection H as <-.
Qed.

(** ** The gate *)

Section Gate.
Context {V S I R : Type} {AV : Any V} {SV : SessionValue V} {IO : IOStream S} {DB : DataBufferImpl I}
  {HH : Subject.Hash} {RE : Regex R} (crawler : bytes -> bool).
#[local] Abbreviation M := (prog (World V S I)).
#[local] Abbreviation world := (World V S I).
Implicit Types (a : Authenticator.t R) (w : world).
Import Authenticator.

(** Whether a constraint applies to the request. *)
Definition applies (c : SecurityConstraint) w : Prop :=
  RequestFilter.check (filter_ c) (req w) = Ok true.

(** No constraint applies. *)
Definition unrestricted a w : Prop :=
  forall c, c ∈ constraints_ a -> RequestFilter.check (filter_ c) (req w) = Ok false.

(** The subject of the request, the anonymous one included, has the role of every constraint
    that applies. *)
Definition admitted a w : Prop :=
  exists p s, (Request.subject_ (req w) = Some p \/ (Request.subject_ (req w) = None /\ anonymous_ w = Some p)) /\
    subjects w !! p = Some s /\
    forall c, c ∈ constraints_ a -> applies c w -> Subject.hasPrincipal s (roleName_ c) = true.

Lemma any_check_false (cs : list (SecurityConstraint (R := R))) w w' :
  any_check cs w = Some (w', Ok false) ->
  w' = w /\ forall c, c ∈ cs -> RequestFilter.check (filter_ c) (req w) = Ok false.
Proof.
  induction cs as [|c cs IH]; cbn [any_check].
  - intros [= <-]. split; [done|]. by intros c ?%elem_of_nil.
  - unfold check, gets, lift, mbind, prog_bind.
    destruct (RequestFilter.check (filter_ c) (req w)) as [[]|e|] eqn:E; try done.
    intros H. destruct (IH H) as [-> Hc]. split; [done|]. by intros c' [->|?]%elem_of_cons; auto.
Qed.

Lemma all_roles_true cs s w w' :
  all_roles cs s w = Some (w', Ok true) ->
  w' = w /\ forall c, c ∈ cs -> applies c w -> Subject.hasPrincipal s (roleName_ c) = true.
Proof.
  induction cs as [|c cs IH]; cbn [all_roles].
  - intros [= <-]. split; [done|]. by intros c ?%elem_of_nil.
  - unfold check, gets, lift. unfold mbind at 1, prog_bind at 1. unfold mbind at 1, prog_bind at 1.
    destruct (RequestFilter.check (filter_ c) (req w)) as [b|e|] eqn:E; try done.
    destruct (b && negb (Subject.hasPrincipal s (roleName_ c))) eqn:Eb; [done|].
    intros H. destruct (IH H) as [-> Hc]. split; [done|].
    intros c' [->|?]%elem_of_cons; [|auto]. unfold applies. rewrite E. intros [= ->].
    cbn in Eb. by destruct (Subject.hasPrincipal s (roleName_ c)).
Qed.

Lemma getSubject_spec w w' p :
  Req.getSubject w = Some (w', Ok p) ->
  req w' = req w /\
  (Request.subject_ (req w') = Some p \/ (Request.subject_ (req w') = None /\ anonymous_ w' = Some p)).
Proof.
  unfold Req.getSubject, Req.request_field. rewrite bind_gets.
  destruct (Request.subject_ (req w)) as [q|] eqn:E; [intros [= <- <-]; auto|].
  unfold Req.getAnonymousSubject. destruct (anonymous_ w) as [q|] eqn:Ea; [intros [= <- <-]; auto|].
  cbn. intros [= <- <-]. cbn. auto.
Qed.

Lemma isAuthorized_true a w w' :
  isAuthorized a w = Some (w', Ok true) -> req w' = req w /\ admitted a w'.
Proof.
  unfold isAuthorized. unfold mbind at 1, prog_bind at 1.
  destruct (Req.getSubject w) as [[w1 [p|e|]]|] eqn:E1; try done.
  destruct (getSubject_spec _ _ _ E1) as [Hr Hp].
  unfold mbind, prog_bind, Req.subject. destruct (subjects w1 !! p) as [s|] eqn:Es; [|done].
  intros [-> H]%all_roles_true. split; [done|]. by exists p, s.
Qed.

(** What happens after an authorized request has been processed. *)
Definition logout : M unit := p ← Req.getAnonymousSubject; Req.setSubject p.

(** The gate decides before it lets anything pass: with the state [w1] it has reached, it
    runs [next], or it never does. *)
Inductive decision a (required : M bool) w : (M unit -> option (world * result unit)) -> Prop :=
| Free w1 : required w = Some (w1, Ok false) -> decision a required w (fun next => next w1)
| Granted w1 : admitted a w1 -> decision a required w (fun next => (next ;; logout) w1)
| Answered w1 : Request.isProcessed (req w1) = true ->
    decision a required w (fun _ => Some (w1, Ok tt))
| Refused w1 e : decision a required w (fun _ => Some (w1, Throw e))
| Failed o : o = None \/ (exists w1, o = Some (w1, Undef)) -> decision a required w (fun _ => o).

Lemma decision_bind {A} a required w (p : M A) (f : M unit -> A -> M unit) w0 :
  (forall w1 x, p w0 = Some (w1, Ok x) ->
     exists d, decision a required w d /\ forall next, f next x w1 = d next) ->
  exists d, decision a required w d /\ forall next, (p ≫= f next) w0 = d next.
Proof.
  intros H. unfold mbind, prog_bind. destruct (p w0) as [[w1 [x|e|]]|] eqn:E.
  - by apply H.
  - exists (fun _ => Some (w1, Throw e)). split; [by constructor|done].
  - exists (fun _ => Some (w1, Undef)). split; [constructor; eauto|done].
  - exists (fun _ => None). split; [constructor; eauto|done].
Qed.

Lemma doFilter_decision a required authenticate w :
  exists d, decision a required w d /\ forall next, doFilter crawler a required authenticate next w = d next.
Proof.
  unfold doFilter. apply (decision_bind _ _ _ _ (fun next b => _)). intros w1 b E1.
  destruct b; cbn [negb].
  2: { exists (fun next => next w1). split; [by constructor|done]. }
  apply (decision_bind _ _ _ _ (fun next b => _)). intros w2 b E2.
  apply (decision_bind _ _ _ _ (fun next b => _)). intros w3 ok E3. destruct ok.
  - apply (decision_bind _ _ _ _ (fun next b => _)). intros w4 authorized E4. destruct authorized.
    + exists (fun next => (next ;; logout) w4). split; [|done]. constructor. by eapply isAuthorized_true.
    + unfold mbind at 1, prog_bind at 1. cbn beta.
      destruct ((p ← Req.getAnonymousSubject; Req.setSubject p ;; throw Exceptions.Unauthorized) w4) as [[w5 [[]|e|]]|] eqn:E5.
      * exfalso. revert E5. unfold mbind, prog_bind. destruct (Req.getAnonymousSubject w4) as [[w6 [p|e|]]|]; try done.
        destruct (Req.setSubject p w6) as [[w7 [[]|e|]]|]; done.
      * exists (fun _ => Some (w5, Throw e)). split; [by constructor|done].
      * exists (fun _ => Some (w5, Undef)). split; [constructor; eauto|done].
      * exists (fun _ => None). split; [constructor; eauto|done].
  - apply (decision_bind _ _ _ _ (fun next b => _)). intros w4 processed E4.
    unfold Req.request_field, gets in E4. injection E4 as <- <-.
    destruct (Request.isProcessed (req w3)) eqn:Ep; cbn [negb].
    + exists (fun _ => Some (w3, Ok tt)). split; [by constructor|done].
    + exists (fun _ => Some (w3, Throw Exceptions.Forbidden)). split; [by constructor|done].
Qed.

(** The request is for the page of the login form. *)
Definition login_page (f : FormAuthenticator.t R) w : Prop :=
  FormAuthenticator.formAction_ f <> [] /\
  StringUtils.endsWith (Request.getScriptName (req w)) (FormAuthenticator.formAction_ f) = true.

Lemma form_free (f : FormAuthenticator.t R) w w' :
  FormAuthenticator.isAuthenticationRequired crawler f w = Some (w', Ok false) ->
  w' = w /\ (login_page f w \/ unrestricted (FormAuthenticator.base f) w).
Proof.
  unfold FormAuthenticator.isAuthenticationRequired, Req.request_field. rewrite bind_gets.
  destruct (negb (Range.empty _) && _) eqn:E.
  - intros [= <-]. apply andb_true_iff in E as [E1 E2]. split; [done|]. left. split; [|done].
    by destruct (FormAuthenticator.formAction_ f).
  - unfold FormAuthenticator.has_credentials, Req.request_field. rewrite bind_gets.
    destruct (Request.hasArg _ _ && _); [|by intros [-> H]%any_check_false; auto].
    unfold mbind, prog_bind. destruct (Req.getAnonymousSubject w) as [[w1 [p|e|]]|]; [|done..].
    by destruct (setSubject crawler (FormAuthenticator.base f) p w1) as [[w2 [[]|e|]]|].
Qed.

(** [filter] is a gate in front of the rest of the chain, which is the argument of it. Where
    the request is free the rest runs on it as it came; else it runs in a state in which the
    subject is admitted, with the request logged out again when it returns; else the outcome
    [o] does not depend on it, and is no normal return unless the request has been answered.
    What the filter does last, [after], follows in each case. *)
Definition gated a (free : Prop) (filter : M unit -> M unit) (after : M unit) w : Prop :=
  (free /\ forall next, filter next w = (next ;; after) w) \/
  (exists w1, admitted a w1 /\ forall next, filter next w = ((next ;; logout) ;; after) w1) \/
  (exists o, (forall next, filter next w = ((fun _ => o) ;; after) w) /\
     forall w', o = Some (w', Ok tt) -> Request.isProcessed (req w') = true).

Lemma bind_done (p : M unit) w : (p ;; ret tt) w = p w.
Proof. unfold mbind, prog_bind. by destruct (p w) as [[? [[]|?|]]|]. Qed.

Lemma doFilter_gated a (free : Prop) required authenticate after w :
  (forall w1, required w = Some (w1, Ok false) -> w1 = w /\ free) ->
  gated a free (fun next => doFilter crawler a required authenticate next ;; after) after w.
Proof.
  intros Hfree. destruct (doFilter_decision a required authenticate w) as (d & Hd & E).
  assert (E' : forall next (o : M unit) w1, d next = o w1 -> (doFilter crawler a required authenticate next ;; after) w = (o ;; after) w1).
  { intros next o w1 Eo. unfold mbind, prog_bind. by rewrite E, Eo. }
  destruct Hd as [w1 Hr|w1 Ha|w1 Hp|w1 e|o Ho].
  - destruct (Hfree _ Hr) as [-> Hf]. left. split; [done|]. intros next. by apply (E' next).
  - right. left. exists w1. split; [done|]. intros next. by apply (E' next).
  - right. right. exists (Some (w1, Ok tt)). split; [intros next; by apply (E' next (fun _ => Some (w1, Ok tt)))|]. by intros w' [= <-].
  - right. right. exists (Some (w1, Throw e)). split; [intros next; by apply (E' next (fun _ => Some (w1, Throw e)))|done].
  - right. right. exists o. split; [intros next; by apply (E' next (fun _ => o))|]. intros w' ->. destruct Ho as [?|[? ?]]; done.
Qed.

(** C8: the filter of an authenticator is a gate, for the authenticators that decide with the
    constraints alone whether a request needs authentication (whatever their way of
    authentication does) and for the form authenticator, which overrides that decision. The
    rest of the chain runs ungated only where no constraint applies to the request, which is
    then as it came - or, for the form authenticator, where a form page is configured and the
    script name of the request ends in it, even when a constraint applies to that page. Else
    the rest runs only in a state in which the subject of the request has the role of every
    constraint that applies, and the request is logged out again when it returns. In every
    other case the outcome does not depend on the rest of the chain, which has not run: the
    authenticator has answered the request itself, or an exception leaves the filter, or
    authentication ran into undefined behaviour or never ended. The form authenticator ends by
    filling in the login form, whatever the case. *)
Theorem gatekeeper a authenticate (f : FormAuthenticator.t R) open_file rewrite w :
  gated a (unrestricted a w) (doFilter crawler a (isAuthenticationRequired a) authenticate) (ret tt) w /\
  gated (FormAuthenticator.base f) (login_page f w \/ unrestricted (FormAuthenticator.base f) w)
    (FormAuthenticator.doFilter crawler open_file rewrite f)
    (FormAuthenticator.fill_login_form crawler rewrite f) w.
Proof.
  split.
  - destruct (doFilter_gated a (unrestricted a w) (isAuthenticationRequired a) authenticate (ret tt) w)
      as [[Hf H]|[(w1 & Ha & H)|(o & H & Ho)]]; [by intros w1 H%any_check_false|..].
    + left. split; [done|]. intros next. etrans; [symmetry; apply bind_done|apply H].
    + right. left. exists w1. split; [done|]. intros next. etrans; [symmetry; apply bind_done|apply H].
    + right. right. exists o. split; [|done]. intros next. etrans; [symmetry; apply bind_done|apply H].
  - apply doFilter_gated. apply form_free.
Qed.
End Gate.

(** ** Logging in *)

Section Login.
Context {V S I R : Type} {IO : IOStream S} {HH : Subject.Hash} {RE : Regex R} (crawler : bytes -> bool).
#[local] Abbreviation M := (prog (World V S I)).
#[local] Abbreviation world := (World V S I).
Implicit Types (a : Authenticator.t R) (w : world) (m : SessionManager.t V) (r : Request.t S).
Import Authenticator SessionManager.

(** The shared anonymous subject exists, and nobody has logged in to the request. *)
Definition logged_out w : Prop :=
  Request.subject_ (req w) = None /\
  exists p s, anonymous_ w = Some p /\ subjects w !! p = Some s /\ Subject.isAnonymous s = true.

Lemma logged_out_subject w :
  logged_out w -> exists p, Req.getSubject w = Some (w, Ok p) /\ Req.isAnonymous p w = Some (w, Ok true).
Proof.
  intros (Hs & p & s & Ha & Hp & Hanon). exists p. unfold Req.getSubject, Req.request_field.
  rewrite bind_gets, Hs. unfold Req.getAnonymousSubject. rewrite Ha. split; [done|].
  unfold Req.isAnonymous, Req.subject, mbind, prog_bind. rewrite Hp. cbn. by rewrite Hanon.
Qed.

Lemma isAnonymous_known w q subj :
  subjects w !! q = Some subj -> Req.isAnonymous q w = Some (w, Ok (Subject.isAnonymous subj)).
Proof. intros Hq. unfold Req.isAnonymous, Req.subject, mbind, prog_bind. by rewrite Hq. Qed.

Lemma setSubject_known w q subj :
  subjects w !! q = Some subj -> Subject.isAnonymous subj = false -> Request.subject_ (req w) = None ->
  Req.setSubject q w = Some (set_req w (Request.set_subject (req w) (Some q)), Ok tt).
Proof.
  intros Hq Ha Hn. unfold Req.setSubject.
  rewrite (bind_ok _ _ _ _ _ (isAnonymous_known _ _ _ Hq)), Ha. cbn [negb].
  unfold Req.request_field. rewrite bind_gets, Hn. done.
Qed.

(** [getSession] for a client that presents the cookie of a live session. *)
Lemma getSession_known w m p s :
  mgr w = Some m -> good m -> Request.session_ (req w) = None ->
  find_session m (req w) = Some p -> store m !! p = Some s ->
  exists m', held m' = p :: p :: held m /\ good m' /\ sessions_ m' = sessions_ m /\
    sessionCookieHttpOnly_ m' = sessionCookieHttpOnly_ m /\
    store m' = <[p := Session.updateLastAccessedTime s (clock w)]> (store m) /\
    Req.getSession crawler w =
      Some (set_ids (set_mgr (set_req w (Request.set_session (req w) (Some p))) (Some m')) (tail (new_ids w)), Ok (Some p)).
Proof.
  intros Hm Hg Hs Hf Hp. unfold Req.getSession. rewrite Hm. unfold SessionManager.getSession. rewrite Hs.
  unfold SessionManager.get. rewrite Hf. cbn [mbind option_bind caught return_session Request.session_ Request.set_session].
  set (m' := hold (hold (with_session m p _) p) p). exists m'. split; [done|]. split.
  - apply hold_good; [apply hold_good; [by apply with_session_good|]|]; cbn; by rewrite lookup_alter_eq, Hp.
  - split; [done|]. split; [done|]. split; [|done]. cbn. apply map_eq. intros k. destruct (decide (p = k)) as [<-|].
    + by rewrite lookup_alter_eq, lookup_insert_eq, Hp.
    + by rewrite lookup_alter_ne, lookup_insert_ne.
Qed.

Lemma drop_session_held w m p hs :
  mgr w = Some m -> held m = p :: hs -> p ∈ hs ->
  Req.drop_session (Some p) w = set_mgr w (Some (set_held m hs)).
Proof. intros Hm Hh Hp. unfold Req.drop_session. rewrite Hm. unfold opt_drop. by rewrite (drop_held _ _ hs). Qed.

(** The user [q] is remembered: the session at [p] is in the table under [id] and carries the
    user, and the shared anonymous subject exists. *)
Definition remembered w (id : bytes) (p q : nat) (subj : Subject.t) : Prop :=
  (exists m s, mgr w = Some m /\ good m /\ sessions_ m !! id = Some (Some p) /\
     store m !! p = Some s /\ Session.subject_ s = Some q) /\
  subjects w !! q = Some subj /\ Subject.isAnonymous subj = false /\
  exists p0 s0, anonymous_ w = Some p0 /\ subjects w !! p0 = Some s0 /\ Subject.isAnonymous s0 = true.

(** The state in which the request [r] comes next. *)
Definition next_request w r : world := set_req w r.

(** A client whose session has a subject is authenticated by it. *)
Lemma session_authenticates w id p q subj :
  remembered w id p q subj -> presents (req w) id -> Request.session_ (req w) = None ->
  Request.subject_ (req w) = None ->
  exists w', isAuthenticated crawler w = Some (w', Ok true) /\ Request.subject_ (req w') = Some q /\
    remembered w' id p q subj.
Proof.
  intros ((m & s & Hm & Hg & Hid & Hp & Hq) & Hsub & Ha & Hanon) Hr Hs Hn.
  destruct (logged_out_subject w) as (p0 & E0 & A0); [by split|].
  pose proof (find_session_presents m (req w) id p Hr Hid) as Hf.
  unfold isAuthenticated. rewrite (bind_ok _ _ _ _ _ E0), (bind_ok _ _ _ _ _ A0).
  destruct (getSession_known w m p s Hm Hg Hs Hf Hp) as (m' & Hh & Hg' & Hse & _ & Hst & E).
  unfold Req.using_session. rewrite (bind_ok _ _ _ _ _ E). clear E.
  set (w1 := set_ids _ _). assert (Hn1 : Request.subject_ (req w1) = None) by done.
  assert (E1 : Req.session_subject p w1 = Some (w1, Ok q)).
  { unfold Req.session_subject, Req.session, mbind, prog_bind. cbn [mgr set_ids set_mgr w1].
    rewrite Hst, lookup_insert_eq. cbn. by rewrite Hq. }
  unfold finally. rewrite bind_assoc, (bind_ok _ _ _ _ _ E1).
  rewrite bind_assoc. rewrite (bind_ok _ _ _ _ _ (isAnonymous_known w1 q subj Hsub)), Ha. cbn [negb].
  rewrite bind_assoc. rewrite (bind_ok _ _ _ _ _ (setSubject_known w1 q subj Hsub Ha Hn1)).
  eexists. split; [reflexivity|].
  rewrite (drop_session_held _ m' p (p :: held m)); [|done..|by left]. split; [done|].
  split; [|done]. exists (set_held m' (p :: held m)), (Session.updateLastAccessedTime s (clock w)).
  split; [done|]. split.
  - pose proof (drop_good m' p Hg') as Hd. rewrite (drop_held m' p (p :: held m) Hh) in Hd by by left.
    apply Hd. rewrite Hh. by left.
  - split; [by rewrite <- Hid, <- Hse|]. cbn [store set_held]. by rewrite Hst, lookup_insert_eq.
Qed.

Lemma fresh_id_insert m m' p s s' id :
  store m !! p = Some s -> Session.getId s' = Session.getId s -> store m' = <[p := s']> (store m) ->
  fresh_id m id -> fresh_id m' id.
Proof.
  intros Hp Hid Hst Hf q t. rewrite Hst, lookup_insert_Some. intros [[<- <-]|[_ Hq]].
  - rewrite Hid. by apply (Hf p).
  - by apply (Hf q).
Qed.

(** The identifier [id] of the session [s] after a login in the state [w]: a new one, the next
    that the random source gives, for an authenticator that changes it, and else its own. The
    user agent of the request must then be no crawler, the new identifier that of no live
    session, and the headers still unsent. *)
Definition login_id a w m (s : Session.t V) (id : bytes) : Prop :=
  if changeSessionIdOnAuthentication_ a then
    (exists ids1 ids rest, new_ids w = ids1 :: (id :: ids) :: rest) /\
    user_id crawler (req w) id /\ fresh_id m id /\ Request.headers_sent_ (req w) = false
  else id = Session.getId s.

(** The request after it, whose response carries the new identifier. *)
Definition login_cookie a m r (id : bytes) : Request.t S :=
  if changeSessionIdOnAuthentication_ a then cookie_set m r id else r.

(** The state after a login of the user [q] in the session [p] of [s], which has now the
    identifier [id]. *)
Definition logged_in a w w' m (p : nat) (s : Session.t V) (id : bytes) (q : nat) : Prop :=
  Request.subject_ (req w') = Some q /\
  subjects w' = subjects w /\ anonymous_ w' = anonymous_ w /\ heap w' = heap w /\
  Request.out_cookies_ (req w') = Request.out_cookies_ (login_cookie a m (req w) id) /\
  Request.out_headers_ (req w') = Request.out_headers_ (req w) /\
  Request.in_ (req w') = Request.in_ (req w) /\ Request.session_ (req w') = Some p /\
  Request.headers_sent_ (req w') = Request.headers_sent_ (req w) /\
  exists m' s', mgr w' = Some m' /\ good m' /\ held m' = p :: held m /\
    sessions_ m' !! id = Some (Some p) /\
    (changeSessionIdOnAuthentication_ a = true -> sessions_ m' !! Session.getId s = None) /\
    store m' !! p = Some s' /\ Session.subject_ s' = Some q /\ Session.getId s' = id /\
    Session.attributes_ s' = Session.attributes_ s.

(** The identifier of the session changes with the manager's. *)
Lemma changeSessionId_known w m m' ids rest r :
  mgr w = Some m -> new_ids w = ids :: rest -> changeId crawler m (req w) ids = Some (m', r, Ok tt) ->
  Req.changeSessionId crawler w = Some (set_ids (set_mgr (set_req w r) (Some m')) rest, Ok tt).
Proof.
  intros Hm Hi E. unfold Req.changeSessionId, SessionManager.changeSessionId. rewrite Hm, Hi. cbn [head default tail].
  match goal with |- match ?x with _ => _ end = _ => change x with (changeId crawler m (req w) ids) end. by rewrite E.
Qed.

(** The session of the request once the subject is stored in it, and what the manager does to
    its identifier. *)
Lemma login_rekeys a w m m1 p s s2 id r (rest : world) :
  good m1 -> sessions_ m1 = sessions_ m -> store m1 = <[p := s2]> (store m) ->
  sessionCookieHttpOnly_ m1 = sessionCookieHttpOnly_ m ->
  Session.getId s2 = Session.getId s -> find_session m (req w) = Some p -> store m !! p = Some s ->
  login_id a w m s id -> mgr rest = Some m1 -> new_ids rest = tail (new_ids w) -> req rest = r ->
  Request.in_ r = Request.in_ (req w) -> Request.headers_sent_ r = Request.headers_sent_ (req w) ->
  Request.out_cookies_ r = Request.out_cookies_ (req w) ->
  exists m3 r3 ids3, (if changeSessionIdOnAuthentication_ a then Req.changeSessionId crawler else ret tt) rest =
      Some (set_ids (set_mgr (set_req rest r3) (Some m3)) ids3, Ok tt) /\
    r3 = Request.set_out_cookies r (Request.out_cookies_ (login_cookie a m (req w) id)) /\
    good m3 /\ held m3 = held m1 /\ sessions_ m3 !! id = Some (Some p) /\
    (changeSessionIdOnAuthentication_ a = true -> sessions_ m3 !! Session.getId s = None) /\
    exists s3, store m3 !! p = Some s3 /\ Session.subject_ s3 = Session.subject_ s2 /\ Session.getId s3 = id /\
      Session.attributes_ s3 = Session.attributes_ s2.
Proof.
  intros Hg Hse Hst Hco Hid2 Hf Hp Hlog Hm Hids Hr Hin Hh Hck. unfold login_id, login_cookie in *.
  assert (Hp2 : store m1 !! p = Some s2) by (by rewrite Hst, lookup_insert_eq).
  destruct (changeSessionIdOnAuthentication_ a).
  - destruct Hlog as ((ids1 & ids & tl & Hnew) & Hu & Hfr & Hhd).
    assert (Hf1 : find_session m1 r = Some p).
    { unfold find_session in *. unfold Request.hasCookie, Request.getCookie in *. by rewrite Hin, Hse. }
    assert (Hu1 : user_id crawler r id) by (unfold user_id, isBot, Request.getHeader, Request.header in *; by rewrite Hin).
    assert (Hfr1 : fresh_id m1 id) by (by apply (fresh_id_insert m m1 p s s2)).
    rewrite <- Hh in Hhd.
    destruct (changeId_user crawler m1 r p s2 id ids Hg Hf1 Hp2 Hu1 Hfr1 Hhd) as (m3 & E & Hg3 & Hst3 & Hse3 & Hh3).
    rewrite Hnew in Hids. rewrite <- Hr in E.
    exists m3, (cookie_set m1 r id), tl.
    split; [by rewrite (changeSessionId_known rest m1 m3 (id :: ids) tl _ Hm Hids E), Hr|].
    split. { unfold cookie_set, session_cookie, Request.isSecure, Request.var. cbn. by rewrite Hco, Hck, Hin. }
    split; [done|]. split; [done|]. rewrite !Hse3, Hid2. assert (Session.getId s <> id) by (by apply (Hfr p)).
    split; [by rewrite decide_True|]. split; [by rewrite decide_False, decide_True by done|].
    rewrite Hst3, lookup_insert_eq. by eexists.
  - exists m1, r, (new_ids rest). split; [subst r; destruct rest; cbn in *; by subst|].
    split; [rewrite <- Hck; by destruct r|]. split; [done|]. split; [done|].
    split.
    + pose proof (find_session_table _ _ _ Hf) as Ht. rewrite <- Hse in Ht.
      destruct (good_table _ Hg _ _ Ht) as (p' & s' & [= <-] & Hs' & E). rewrite Hp2 in Hs'. injection Hs' as <-.
      by rewrite Hlog, <- Hid2, E.
    + split; [done|]. exists s2. by rewrite Hlog.
Qed.

Lemma setSubject_user a w m p s q subj id :
  Request.subject_ (req w) = None -> subjects w !! q = Some subj -> Subject.isAnonymous subj = false ->
  mgr w = Some m -> good m -> Request.session_ (req w) = None ->
  find_session m (req w) = Some p -> store m !! p = Some s -> login_id a w m s id ->
  exists w', setSubject crawler a q w = Some (w', Ok tt) /\ logged_in a w w' m p s id q.
Proof.
  intros Hn Hq Ha Hm Hg Hs Hf Hp Hlog. unfold setSubject, Req.using_session.
  destruct (getSession_known w m p s Hm Hg Hs Hf Hp) as (m1 & Hheld & Hg1 & Hse1 & Hco1 & Hst1 & E).
  rewrite (bind_ok _ _ _ _ _ E). clear E.
  set (w1 := set_ids _ _). set (s2 := Session.setSubject (Session.updateLastAccessedTime s (clock w)) (Some q)).
  set (m2 := with_session m1 p (fun s => Session.setSubject s (Some q))). set (w2 := set_mgr w1 (Some m2)).
  assert (Hg2 : good m2) by (by apply with_session_good).
  assert (Hst2 : store m2 = <[p := s2]> (store m)).
  { unfold m2. cbn. by rewrite Hst1, alter_insert_eq. }
  destruct (login_rekeys a w m m2 p s s2 id (req w2) w2) as (m3 & r3 & ids3 & E3 & -> & Hg3 & Hh3 & Hse3 & Hold & s3 & Hs3 & Hsub3 & Hid3 & Hatt3); try done.
  assert (Hheld3 : held m3 = p :: p :: held m) by (by rewrite Hh3).
  assert (Es : Req.session_setSubject p q w1 = Some (w2, Ok tt)) by done.
  unfold finally. rewrite bind_assoc, (bind_ok _ _ _ _ _ Es).
  rewrite bind_assoc, (bind_ok _ _ _ _ _ (isAnonymous_known w2 q subj Hq)), Ha. cbn [negb andb].
  rewrite (bind_ok _ _ _ _ _ E3). set (w3 := set_ids _ ids3).
  rewrite (setSubject_known w3 q subj Hq Ha Hn).
  eexists. split; [reflexivity|].
  unfold logged_in. rewrite (drop_session_held _ m3 p (p :: held m)); [|done..|by left].
  repeat (split; [done|]).
  eexists _, s3. split; [done|]. split; [|done].
  pose proof (drop_good m3 p Hg3) as Hd. rewrite (drop_held m3 p (p :: held m)) in Hd; [|done|by left].
  apply Hd. rewrite Hheld3. by left.
Qed.

End Login.

(** ** Basic authentication *)

Section Basic.
Import BasicAuthenticator.

Lemma mem_sep z c a b : z <> c -> mem z (a ++ c :: b) = mem z a || mem z b.
Proof. intros H. rewrite mem_app. unfold mem at 2. cbn [existsb]. by rewrite (proj2 (beqb_false z c) H). Qed.

Lemma split_two c a b :
  c <> Byte.x00 -> a <> [] -> mem c a = false -> mem c b = false ->
  mem Byte.x00 a = false -> mem Byte.x00 b = false ->
  StringUtils.split (a ++ c :: b) c [] = [a; b].
Proof.
  intros Hc Ha Hca Hcb Hna Hnb. rewrite split_pieces by done.
  rewrite c_str_id by (rewrite mem_sep by done; by rewrite Hna, Hnb).
  rewrite split_on_app, split_on_none by done. destruct a; done.
Qed.

Lemma keep_pieces_user a l : a <> [] -> l <> [] -> keep_pieces (a :: l) = a :: keep_pieces l.
Proof. intros Ha Hl. rewrite keep_pieces_cons by done. by destruct a. Qed.

(** C27: the realm is asked about the credentials the client sends: a header made of a scheme, a
    space and the encoding of a name, a colon and a password is decoded to that name and that
    password when the password has no colon; a password with colons loses the ones it begins
    with, and is refused when a colon is left. *)
Theorem basic_credentials scheme user password code :
  scheme <> [] -> mem " "%byte scheme = false -> mem Byte.x00 scheme = false ->
  user <> [] -> mem ":"%byte user = false -> mem Byte.x00 user = false -> mem Byte.x00 password = false ->
  HashUtils.base64_encode (user ++ ":"%byte :: password) = Ok code ->
  credentials (scheme ++ " "%byte :: code) =
    Ok (match keep_pieces (split_on ":"%byte password) with [p] => Some (user, p) | _ => None end) /\
  (mem ":"%byte password = false ->
   credentials (scheme ++ " "%byte :: code) = Ok (Some (user, password))).
Proof.
  intros Hs Hs1 Hs2 Hu Hu1 Hu2 Hp E.
  assert (H : credentials (scheme ++ " "%byte :: code) =
    Ok (match keep_pieces (split_on ":"%byte password) with [p] => Some (user, p) | _ => None end)).
  { unfold credentials. destruct (base64_encode_chars _ _ E) as (Hc & D).
    rewrite split_two by (done || by apply printable_mem).
    rewrite D. cbn [mbind result_bind]. rewrite split_pieces by done.
    rewrite c_str_id by (rewrite mem_sep by done; by rewrite Hu2, Hp).
    rewrite split_on_app, keep_pieces_user by (done || apply split_on_not_nil).
    replace (Range.empty (user ++ _)) with false by (by destruct user). cbn [app].
    by destruct (keep_pieces _) as [|? []]. }
  split; [exact H|]. intros Hm. rewrite H. by rewrite split_on_none.
Qed.

Lemma basic_credentials_witness :
  credentials (lit "Basic dXNlcjpzZWNyZXQ=") = Ok (Some (lit "user", lit "secret")).
Proof.
  apply (basic_credentials (lit "Basic") (lit "user") (lit "secret") (lit "dXNlcjpzZWNyZXQ="));
    (reflexivity || discriminate).
Defined.
End Basic.

(** ** Logging in with a form *)

(** A string put in a session comes back. *)
Class SessionValueOk (V : Type) `{SessionValue V} := {
  ok_to_string s : to_string_value (of_string s) = Ok s;
  ok_string_full s : any_is_empty (of_string s) = false;
  ok_to_buffer b : to_buffer (of_buffer b) = Ok b;
  ok_buffer_full b : any_is_empty (of_buffer b) = false
}.

Section FormLogin.
Context {V S I R : Type} {AV : Any V} {SV : SessionValue V} {SVok : SessionValueOk V}
  {IO : IOStream S} {DB : DataBufferImpl I} {HH : Subject.Hash} {RE : Regex R} (crawler : bytes -> bool)
  (open_file : bytes -> gmap nat I -> result (gmap nat I * DataBuffer)).
#[local] Abbreviation M := (prog (World V S I)).
#[local] Abbreviation world := (World V S I).
Implicit Types (f : FormAuthenticator.t R) (w : world) (m : SessionManager.t V) (r : Request.t S).
Import SessionManager FormAuthenticator.

Definition redirected r (path : bytes) : Request.t S :=
  Request.set_out_headers (Request.set_status r 302)
    (om_put StringCILess (Request.out_headers_ r) (Parser.normalizeOutputHeaderName (lit "Location")) path).

Lemma redirect_ok r path :
  Request.headers_sent_ r = false -> Request.redirectToPath r path = Ok (redirected r path).
Proof. intros H. unfold Request.redirectToPath, Request.setStatus, Request.setHeader. rewrite H. cbn [mbind result_bind Request.headers_sent_ Request.set_status]. by rewrite H. Qed.

Definition with_attributes m (p : nat) (g : AttributesHolder.t V -> AttributesHolder.t V) : SessionManager.t V :=
  with_session m p (fun s => Session.set_attributes s (g (Session.attributes_ s))).

Lemma with_attributes_store m p g s :
  store m !! p = Some s ->
  store (with_attributes m p g) = <[p := Session.set_attributes s (g (Session.attributes_ s))]> (store m).
Proof. intros H. cbn. by rewrite <- (insert_id (store m) p s H) at 1; rewrite alter_insert_eq. Qed.

(** What is kept of a request that needs a login: its address, or all of it, which its address
    goes with. *)
Inductive kept := Address | Whole (b : DataBuffer).

Definition remember_uri (uri : bytes) (a : AttributesHolder.t V) : AttributesHolder.t V :=
  (AttributesHolder.setAttribute a PARAM_NAME_STORED_REQUEST_URI (of_string uri)).1.

Definition keep (uri : bytes) (k : kept) (a : AttributesHolder.t V) : AttributesHolder.t V :=
  match k with
  | Address => remember_uri uri a
  | Whole b => remember_uri uri (AttributesHolder.setAttribute a PARAM_NAME_STORED_REQUEST (of_buffer b)).1
  end.

(** The attribute that a resumed login removes; the address of a whole request stays. *)
Definition kept_name (k : kept) : bytes :=
  match k with Address => PARAM_NAME_STORED_REQUEST_URI | Whole _ => PARAM_NAME_STORED_REQUEST end.

Definition forget (k : kept) (a : AttributesHolder.t V) : AttributesHolder.t V :=
  AttributesHolder.set_attributes a (delete (kept_name k) (AttributesHolder.attributes_ a)).

Lemma attributes_known w m p s :
  mgr w = Some m -> store m !! p = Some s ->
  attributes (I := I) p w = Some (w, Ok (Session.attributes_ s)).
Proof. intros Hm Hs. unfold attributes, Req.session, mbind, prog_bind. by rewrite Hm, Hs. Qed.

Lemma hasAttribute_known w m p s name :
  mgr w = Some m -> store m !! p = Some s ->
  hasAttribute p name w = Some (w, Ok (AttributesHolder.hasAttribute (Session.attributes_ s) name)).
Proof. intros Hm Hs. unfold hasAttribute. by rewrite (bind_ok _ _ _ _ _ (attributes_known w m p s Hm Hs)). Qed.

(** Only the address of the request is kept: the authenticator does not store requests, and
    this one is no POST and has no files. *)
Definition plain_request f r : bool :=
  negb (storeRequest_ f) && negb (str_eqb (lit "POST") (Request.getRequestMethod r)) &&
  (Request.countRemoteFiles r =? 0).

(** What the authenticator keeps of the request, with the heap [h] it leaves: a whole request is
    serialized to a buffer that could be made for it, in a file named after its session. *)
Definition keeps f w (key : bytes) (k : kept) (h : gmap nat I) : Prop :=
  if plain_request f (req w) then k = Address /\ h = heap w
  else exists h0 d b, open_file (cache_dir_ f ++ key) (heap w) = Ok (h0, d) /\ Buf.isNil d = false /\
         Codec.serialize h0 (Request.in_ (req w)) (Request.body_ (req w)) d = Ok (h, b) /\ k = Whole b.

Lemma setAttribute_known w m p name v :
  mgr w = Some m ->
  setAttribute p name v w =
    Some (set_mgr w (Some (with_attributes m p (fun a => (AttributesHolder.setAttribute a name v).1))), Ok tt).
Proof. intros Hm. unfold setAttribute, Req.update_session, modify. by rewrite Hm. Qed.

Lemma mark_and_redirect f w :
  Request.headers_sent_ (req w) = false ->
  (mark_processed ;; redirect_to_login f ;; ret false) w =
    Some (set_req w (redirected (Request.markAsProcessed (req w)) (urlPrefix_ f ++ formAction_ f)), Ok false).
Proof.
  intros Hh. unfold mark_processed, redirect_to_login, Req.request_set, mbind, prog_bind. cbn [req set_req].
  by rewrite redirect_ok.
Qed.

Lemma store_request_kept f w m p s k h :
  mgr w = Some m -> store m !! p = Some s -> keeps f w (Session.getId s) k h ->
  Request.headers_sent_ (req w) = false ->
  exists m', store_request open_file f (Some p) w =
    Some (set_req (set_mgr (set_heap w h) (Some m'))
            (redirected (Request.markAsProcessed (req w)) (urlPrefix_ f ++ formAction_ f)), Ok false) /\
    sessions_ m' = sessions_ m /\ held m' = held m /\ (good m -> good m') /\
    store m' = <[p := Session.set_attributes s (keep (Request.getURI (req w)) k (Session.attributes_ s))]> (store m).
Proof.
  intros Hm Hp Hk Hh. unfold store_request. rewrite bind_gets.
  unfold keeps in Hk. unfold plain_request in Hk.
  destruct (negb _ && negb _ && _).
  - destruct Hk as [-> ->]. rewrite (bind_ok _ _ _ _ _ (setAttribute_known w m p _ _ Hm)).
    rewrite mark_and_redirect by done. eexists. split; [by destruct w|].
    split; [done|]. split; [done|]. split; [intros; by apply with_session_good|]. by rewrite (with_attributes_store m p _ s Hp).
  - destruct Hk as (h0 & d & b & Eo & Hd & Es & ->).
    assert (E1 : Req.session p w = Some (w, Ok s)) by (unfold Req.session; by rewrite Hm, Hp).
    rewrite bind_assoc, (bind_ok _ _ _ _ _ E1).
    assert (E2 : createFileBuffer open_file f (Session.getId s) w = Some (set_heap w h0, Ok d))
      by (unfold createFileBuffer; by rewrite Eo).
    rewrite bind_assoc, (bind_ok _ _ _ _ _ E2), Hd. cbn [negb].
    assert (E3 : serialize_request d (set_heap w h0) = Some (set_heap w h, Ok b))
      by (unfold serialize_request; cbn; by rewrite Es).
    rewrite bind_assoc, (bind_ok _ _ _ _ _ E3).
    rewrite bind_assoc, (bind_ok _ _ _ _ _ (setAttribute_known (set_heap w h) m p _ _ Hm)).
    set (m1 := with_attributes m p _).
    rewrite (bind_ok _ _ _ _ _ (setAttribute_known (set_mgr (set_heap w h) (Some m1)) m1 p _ _ eq_refl)).
    rewrite mark_and_redirect by done. eexists. split; [done|].
    split; [done|]. split; [done|]. split; [intros; apply with_session_good; [by apply with_session_good|done]|].
    assert (Hp1 : store m1 !! p = Some (Session.set_attributes s
      (AttributesHolder.setAttribute (Session.attributes_ s) PARAM_NAME_STORED_REQUEST (of_buffer b)).1))
      by (unfold m1; by rewrite (with_attributes_store m p _ s Hp), lookup_insert_eq).
    rewrite (with_attributes_store m1 p _ _ Hp1). unfold m1. by rewrite (with_attributes_store m p _ s Hp), insert_insert_eq.
Qed.

(** The attributes of a session in which [k] is kept of the request for [uri]; nobody listens to
    them. *)
Definition kept_in (a : AttributesHolder.t V) (uri : bytes) (k : kept) : Prop :=
  AttributesHolder.listeners_ a = [] /\
  AttributesHolder.attributes_ a !! PARAM_NAME_STORED_REQUEST_URI = Some (of_string uri) /\
  match k with
  | Address => AttributesHolder.hasAttribute a PARAM_NAME_STORED_REQUEST = false
  | Whole b => AttributesHolder.attributes_ a !! PARAM_NAME_STORED_REQUEST = Some (of_buffer b)
  end.

Lemma setAttribute_attributes (a : AttributesHolder.t V) name v :
  (AttributesHolder.setAttribute a name v).1 =
    AttributesHolder.set_attributes a (<[name := v]> (AttributesHolder.attributes_ a)).
Proof.
  unfold AttributesHolder.setAttribute, AttributesHolder.setAttributeInternal.
  by destruct (AttributesHolder.attributes_ a !! name).
Qed.

Lemma keep_kept (a : AttributesHolder.t V) uri k :
  (k = Address -> AttributesHolder.hasAttribute a PARAM_NAME_STORED_REQUEST = false) ->
  AttributesHolder.listeners_ a = [] -> kept_in (keep uri k a) uri k.
Proof.
  intros Ha Hl. assert (Hne : PARAM_NAME_STORED_REQUEST_URI <> PARAM_NAME_STORED_REQUEST) by (intros E; discriminate E).
  unfold kept_in, keep, remember_uri, AttributesHolder.hasAttribute in *.
  destruct k; rewrite !setAttribute_attributes;
    cbn [AttributesHolder.attributes_ AttributesHolder.set_attributes AttributesHolder.listeners_];
    rewrite lookup_insert_eq, lookup_insert_ne by done; [by rewrite Ha|by rewrite lookup_insert_eq].
Qed.

Lemma getAttribute_known {T} (cast : V -> result T) w m p s name v x :
  mgr w = Some m -> store m !! p = Some s ->
  AttributesHolder.attributes_ (Session.attributes_ s) !! name = Some v -> any_is_empty v = false ->
  cast v = Ok x -> getAttribute cast p name w = Some (w, Ok x).
Proof.
  intros Hm Hs Hv He Hx. unfold getAttribute. rewrite (bind_ok _ _ _ _ _ (attributes_known w m p s Hm Hs)).
  unfold lift, AttributesHolder.getAttribute_as, AttributesHolder.getAttribute. by rewrite Hv, He, Hx.
Qed.

Lemma removeAttribute_known w m p s name v :
  mgr w = Some m -> store m !! p = Some s -> AttributesHolder.listeners_ (Session.attributes_ s) = [] ->
  AttributesHolder.attributes_ (Session.attributes_ s) !! name = Some v ->
  removeAttribute p name w = Some (set_mgr w (Some (with_attributes m p (fun _ =>
    AttributesHolder.set_attributes (Session.attributes_ s) (delete name (AttributesHolder.attributes_ (Session.attributes_ s)))))), Ok tt).
Proof.
  intros Hm Hs Hl Hv. unfold removeAttribute. rewrite (bind_ok _ _ _ _ _ (attributes_known w m p s Hm Hs)).
  unfold AttributesHolder.removeAttribute. rewrite Hv.
  cbn [AttributesHolder.listeners_ AttributesHolder.set_attributes]. rewrite Hl, andb_false_r.
  unfold lift, mbind, prog_bind, Req.update_session, modify. by rewrite Hm.
Qed.

(** How a login that succeeded ends: the client is sent to the address, or the kept request is
    dispatched in the place of this one. *)
Definition resumed (uri : bytes) (k : kept) r : Request.t S * result bool :=
  match k with
  | Address => (Request.markAsProcessed (redirected r uri), Ok false)
  | Whole b => (r, Throw (DispatchException FORWARD [] (data_ b) (begin_ b) (end_ b)))
  end.

Lemma resume_kept w m p s uri k :
  mgr w = Some m -> store m !! p = Some s -> kept_in (Session.attributes_ s) uri k ->
  Request.headers_sent_ (req w) = false ->
  resume (Some p) w =
    Some (set_req (set_mgr w (Some (with_attributes m p (fun _ => forget k (Session.attributes_ s)))))
            (resumed uri k (req w)).1, (resumed uri k (req w)).2).
Proof.
  intros Hm Hs (Hl & Hu & Hk) Hh. unfold resume, forget.
  rewrite (bind_ok _ _ _ _ _ (hasAttribute_known w m p s _ Hm Hs)).
  destruct k as [|b]; cbn [kept_name resumed fst snd].
  - rewrite Hk, (bind_ok _ _ _ _ _ (hasAttribute_known w m p s _ Hm Hs)).
    unfold AttributesHolder.hasAttribute at 1. rewrite Hu.
    rewrite (bind_ok _ _ _ _ _ (getAttribute_known to_string_value w m p s _ _ uri Hm Hs Hu (ok_string_full _) (ok_to_string _))).
    rewrite (bind_ok _ _ _ _ _ (removeAttribute_known w m p s _ _ Hm Hs Hl Hu)). set (m' := with_attributes m p _).
    assert (E3 : Req.request_set (fun r => Request.redirectToPath r uri) (set_mgr w (Some m')) =
      Some (set_req (set_mgr w (Some m')) (redirected (req w) uri), Ok tt)).
    { unfold Req.request_set. by rewrite redirect_ok. }
    by rewrite (bind_ok _ _ _ _ _ E3).
  - unfold AttributesHolder.hasAttribute at 1. rewrite Hk.
    rewrite (bind_ok _ _ _ _ _ (getAttribute_known to_buffer w m p s _ _ b Hm Hs Hk (ok_buffer_full _) (ok_to_buffer _))).
    rewrite (bind_ok _ _ _ _ _ (removeAttribute_known w m p s _ _ Hm Hs Hl Hk)). by destruct w.
Qed.

(** A request whose session is known gets it again. *)
Lemma getSession_cached w m p :
  mgr w = Some m -> Request.session_ (req w) = Some p ->
  Req.getSession crawler w = Some (set_ids (set_mgr w (Some (hold m p))) (tail (new_ids w)), Ok (Some p)).
Proof.
  intros Hm Hp. unfold Req.getSession. rewrite Hm. unfold SessionManager.getSession, return_session. rewrite Hp.
  by destruct w.
Qed.

(** The client is sent to [path]: the request has been answered with a redirection. *)
Definition sent_to r r' (path : bytes) : Prop :=
  Request.isProcessed r' = true /\ Request.status_ r' = 302 /\
  Request.out_headers_ r' = Request.out_headers_ (redirected r path).

Lemma first_visit f w m p s k h :
  has_credentials w = Some (w, Ok false) ->
  mgr w = Some m -> good m -> Request.session_ (req w) = None ->
  find_session m (req w) = Some p -> store m !! p = Some s ->
  keeps f w (Session.getId s) k h -> Request.headers_sent_ (req w) = false ->
  exists w' m' s', authenticate crawler open_file f w = Some (w', Ok false) /\
    sent_to (req w) (req w') (urlPrefix_ f ++ formAction_ f) /\ heap w' = h /\
    mgr w' = Some m' /\ good m' /\ sessions_ m' = sessions_ m /\
    store m' = <[p := s']> (store m) /\ Session.getId s' = Session.getId s /\
    Session.attributes_ s' = keep (Request.getURI (req w)) k (Session.attributes_ s).
Proof.
  intros Hc Hm Hg Hs Hf Hp Hk Hh. unfold authenticate. rewrite (bind_ok _ _ _ _ _ Hc).
  destruct (getSession_known crawler w m p s Hm Hg Hs Hf Hp) as (m1 & Hheld & Hg1 & Hse1 & _ & Hst1 & E).
  unfold Req.using_session. rewrite (bind_ok _ _ _ _ _ E). unfold finally. set (w1 := set_ids _ _).
  set (s1 := Session.updateLastAccessedTime s (clock w)) in *.
  assert (Hp1 : store m1 !! p = Some s1) by (by rewrite Hst1, lookup_insert_eq).
  destruct (store_request_kept f w1 m1 p s1 k h eq_refl Hp1 Hk Hh) as (m2 & -> & Hse2 & Hh2 & Hg2 & Hst2).
  rewrite Hheld in Hh2. rewrite (drop_session_held _ m2 p (p :: held m)) by (done || by left).
  eexists _, (set_held m2 (p :: held m)), _. split; [reflexivity|]. split; [done|]. split; [done|]. split; [done|]. split.
  { pose proof (drop_good m2 p (Hg2 Hg1)) as Hd. rewrite (drop_held m2 p (p :: held m) Hh2) in Hd by by left.
    apply Hd. rewrite Hh2. by left. }
  split; [by rewrite <- Hse1|].
  split; [cbn [store set_held]; rewrite Hst2, Hst1; apply insert_insert_eq|done].
Qed.

Lemma login_recognised f w m p s realm subj id :
  Authenticator.realm_ (base f) = Some realm ->
  realm_authenticate realm (Request.getArg (req w) FORM_USERNAME) (Request.getArg (req w) FORM_PASSWORD) = Ok (Some subj) ->
  Subject.isAnonymous subj = false -> Request.subject_ (req w) = None ->
  mgr w = Some m -> good m -> Request.session_ (req w) = None ->
  find_session m (req w) = Some p -> store m !! p = Some s -> login_id crawler (base f) w m s id ->
  exists w' w0 q, Authenticator.doLogin crawler (base f) (Request.getArg (req w) FORM_USERNAME)
      (Request.getArg (req w) FORM_PASSWORD) w = Some (w', Ok true) /\
    req w0 = req w /\ heap w0 = heap w /\ subjects w' !! q = Some subj /\ logged_in (base f) w0 w' m p s id q.
Proof.
  intros Hrealm Hauth Hanon Hsub Hm Hg Hs Hf Hp Hlog.
  set (q := fresh (dom (subjects w))). set (w0 := set_subjects w (<[q := subj]> (subjects w))).
  assert (Hq : subjects w0 !! q = Some subj) by apply lookup_insert_eq.
  destruct (setSubject_user crawler (base f) w0 m p s q subj id Hsub Hq Hanon Hm Hg Hs Hf Hp Hlog) as (w' & E & Hin).
  assert (Hq' : subjects w' !! q = Some subj) by (destruct Hin as (_ & -> & _); done).
  exists w', w0, q. split; [|done]. unfold Authenticator.doLogin. rewrite Hrealm.
  assert (E0 : Authenticator.realm_subject (realm_authenticate realm (Request.getArg (req w) FORM_USERNAME)
    (Request.getArg (req w) FORM_PASSWORD)) w = Some (w0, Ok (Some q))) by (by rewrite Hauth).
  rewrite (bind_ok _ _ _ _ _ E0), (bind_ok _ _ _ _ _ E).
  by rewrite (bind_ok _ _ _ _ _ (isAnonymous_known w' q subj Hq')), Hanon.
Qed.

End FormLogin.

(** ** A client that logs in *)

Section Examples.
Import SessionManager.

#[local] Instance length_hash : Subject.Hash := fun s => len s.
#[local] Existing Instance literal_regex.

(** With hashes that collide: [guest] is not added next to [admin]. *)
Lemma set_principals_witness :
  let '(s', res) := Subject.setPrincipals (Subject.MkSubject [lit "user"] false) [lit "admin"; lit "guest"; lit "x"] in
  distinct (Subject.principals_ s') /\ Subject.principals_ s' = [lit "user"; lit "admin"] /\
  res = Throw (RuntimeError (lit "Duplicate principal")).
Proof.
  assert (Hd : distinct (Subject.principals_ (Subject.MkSubject [lit "user"] false))) by (apply NoDup_singleton).
  pose proof (set_principals (Subject.MkSubject [lit "user"] false) [lit "admin"; lit "guest"; lit "x"] Hd) as H.
  split; [exact (proj1 H)|]. split; reflexivity.
Defined.

(** The values of a form login. *)
Inductive form_value := VEmpty | VString (s : bytes) | VBuffer (b : DataBuffer).

#[local] Instance form_any : Any form_value := {
  any_empty := VEmpty;
  any_is_empty v := match v with VEmpty => true | _ => false end
}.

#[local] Instance form_session_value : SessionValue form_value := {
  of_string := VString;
  to_string_value v := match v with VString s => Ok s | _ => Throw (RuntimeError (lit "bad any_cast")) end;
  of_buffer := VBuffer;
  to_buffer v := match v with VBuffer b => Ok b | _ => Throw (RuntimeError (lit "bad any_cast")) end
}.

#[local] Instance form_session_value_ok : SessionValueOk form_value.
Proof. by split. Qed.

Definition alice : Subject.t := Subject.MkSubject [lit "alice"] true.
Definition one_user_realm : Realm := MkRealm (lit "staff")
  (fun u p => Ok (if str_eqb u (lit "alice") && str_eqb p (lit "secret") then Some alice else None)) (fun _ => Ok None).
Definition guard : Authenticator.t bytes := Authenticator.MkAuthenticator true (Some one_user_realm) [].

Definition demo_world : World form_value MemStream StringBuffer.t :=
  MkWorld visitor_s1 (Some (one_session_of form_value)) {[0%nat := Subject.anonymous_subject]} (Some 0%nat) ∅ []
    [[]; [lit "s2"]] 5 [] None (AttributesHolder.create false).

Definition no_attributes : AttributesHolder.t form_value := AttributesHolder.create false.

Lemma alice_id : login_id crawler_test guard demo_world (one_session_of form_value)
  (new_session (empty_manager_of form_value) (lit "s1") 0) (lit "s2").
Proof.
  split; [by exists [], [], []|]. split; [by split|]. split; [|done]. by apply one_session_of_fresh.
Qed.


Definition demo_form : FormAuthenticator.t bytes :=
  FormAuthenticator.MkForm guard (lit "/app") (lit "/j_security_check") (lit "/login") (lit "/tmp/") false.

Definition no_file (path : bytes) (h : gmap nat StringBuffer.t) : result (gmap nat StringBuffer.t * DataBuffer) :=
  Throw (RuntimeError (lit "open file error: " ++ path)).

(** The form that comes back, in a server whose sessions are those of [m]. *)
Definition login_request : Request.t MemStream :=
  Request.set_in visitor_s1 (set_args (Request.in_ visitor_s1)
    [(FormAuthenticator.FORM_USERNAME, lit "alice"); (FormAuthenticator.FORM_PASSWORD, lit "secret")]).
Definition login_world (m : SessionManager.t form_value) : World form_value MemStream StringBuffer.t :=
  MkWorld login_request (Some m) {[0%nat := Subject.anonymous_subject]} (Some 0%nat) ∅ []
    [[]; [lit "s2"]] 6 [] None no_attributes.

Lemma login_world_id m s s' :
  store m = <[0%nat := s']> (store (one_session_of form_value)) ->
  store (one_session_of form_value) !! 0%nat = Some s -> Session.getId s' = Session.getId s ->
  login_id crawler_test guard (login_world m) m s' (lit "s2").
Proof.
  intros Hst Hs Hid. split; [by exists [], [], []|]. split; [by split|]. split; [|done].
  apply (fresh_id_insert (one_session_of form_value) m 0 s s'); [done..|]. by apply one_session_of_fresh.
Qed.

End Examples.
