(* ===== verification/ThreadPool.v ===== *)
(** * ThreadPool

    [include/details/thread_pool.h]: the queue of tasks, the threads that take them, and the
    counters of a pool. All state is behind one mutex, so an execution is a sequence of the
    critical sections of [start], [stop], [addTask] and [workMethod], the calls of
    [notify_one] that [addTask] makes after it has left its section, the wake-ups of the
    condition variable, and the ends of the tasks' handlers, in any order. *)

From S2P Require Import Prelude Cxx.

Module ThreadPool.
Section Pool.
Context {T : Type}.

(** [ThreadPoolInfo]; [currentQueue] is filled in by [getInfo]. *)
Record ThreadPoolInfo := MkInfo {
  started : bool;
  threadsNumber : Z;
  queueLength : Z;
  busyThreadsCounter : Z;
  currentQueue : Z;
  goodTasksCounter : Z;
  badTasksCounter : Z
}.

Definition set_started (i : ThreadPoolInfo) (v : bool) := MkInfo v (threadsNumber i) (queueLength i)
  (busyThreadsCounter i) (currentQueue i) (goodTasksCounter i) (badTasksCounter i).
Definition set_busy (i : ThreadPoolInfo) (v : Z) := MkInfo (started i) (threadsNumber i) (queueLength i)
  v (currentQueue i) (goodTasksCounter i) (badTasksCounter i).
Definition set_current (i : ThreadPoolInfo) (v : Z) := MkInfo (started i) (threadsNumber i) (queueLength i)
  (busyThreadsCounter i) v (goodTasksCounter i) (badTasksCounter i).
Definition set_good (i : ThreadPoolInfo) (v : Z) := MkInfo (started i) (threadsNumber i) (queueLength i)
  (busyThreadsCounter i) (currentQueue i) v (badTasksCounter i).
Definition set_bad (i : ThreadPoolInfo) (v : Z) := MkInfo (started i) (threadsNumber i) (queueLength i)
  (busyThreadsCounter i) (currentQueue i) (goodTasksCounter i) v.

(** Where a thread is in [workMethod]: in [func]; before the lock, with the [state] of its
    last task ([none], [good] or [bad]); in [condition_.wait], or woken and about to lock
    again; in [handleTask]; returned. *)
Inductive worker :=
| Starting
| Ready (state : option bool)
| Waiting
| Woken
| Running (task : T)
| Exited.

(** [pending]: the calls of [notify_one] that are still to come. *)
Record t := MkPool {
  info_ : ThreadPoolInfo;
  tasksQueue_ : list T;
  threads_ : list worker;
  pending : nat
}.

Definition create (threadsNumber queueLength : Z) : t :=
  MkPool (MkInfo false threadsNumber queueLength 0 0 0 0) [] [] 0.

Definition set_info (p : t) v := MkPool v (tasksQueue_ p) (threads_ p) (pending p).
Definition set_queue (p : t) v := MkPool (info_ p) v (threads_ p) (pending p).
Definition set_threads (p : t) v := MkPool (info_ p) (tasksQueue_ p) v (pending p).
Definition set_pending (p : t) v := MkPool (info_ p) (tasksQueue_ p) (threads_ p) v.

(** [std::thread] failing to start is not modelled. *)
Definition start (p : t) : t :=
  if started (info_ p) then p
  else set_info (set_threads p (threads_ p ++ repeat Starting (Z.to_nat (threadsNumber (info_ p)))))
         (set_started (info_ p) true).

Definition wake (w : worker) : worker := match w with Waiting => Woken | _ => w end.

Definition stop (p : t) : t :=
  set_threads (set_info p (set_started (info_ p) false)) (map wake (threads_ p)).

Definition queue_full (p : t) : exn :=
  RuntimeError (lit "Pool::handle: the queue has already reached its maximum size of " ++
    to_string (queueLength (info_ p)) ++ lit " elements").

(** The notification is still to come, also when the task is refused. *)
Definition addTask (p : t) (task : T) : t * result unit :=
  let '(p, res) :=
    if negb (started (info_ p)) then (p, Throw (RuntimeError (lit "Thread pool is not started yet")))
    else if queueLength (info_ p) <=? Z.of_nat (length (tasksQueue_ p)) then (p, Throw (queue_full p))
    else (set_queue p (tasksQueue_ p ++ [task]), Ok tt) in
  (set_pending p (S (pending p)), res).

Definition getInfo (p : t) : ThreadPoolInfo := set_current (info_ p) (Z.of_nat (length (tasksQueue_ p))).

(** [switch (state)] *)
Definition account (i : ThreadPoolInfo) (state : option bool) : ThreadPoolInfo :=
  match state with
  | None => i
  | Some true => set_busy (set_good i (u64 (goodTasksCounter i + 1))) (u64 (busyThreadsCounter i - 1))
  | Some false => set_busy (set_bad i (u64 (badTasksCounter i + 1))) (u64 (busyThreadsCounter i - 1))
  end.

(** The inner loop of [workMethod], from the check of [started] to the next wait, to the next
    task or to the return. *)
Definition next_task (p : t) : t * worker :=
  if negb (started (info_ p)) then (p, Exited)
  else match tasksQueue_ p with
       | [] => (p, Waiting)
       | task :: queue =>
           (set_info (set_queue p queue)
              (set_busy (info_ p) (u64 (busyThreadsCounter (info_ p) + 1))), Running task)
       end.

(** ** Executions *)

Inductive event :=
| EStart
| EStop
| EAdd (task : T)
| ENotify (i : nat)              (* [notify_one] wakes the thread [i] *)
| ENotifyNone                    (* [notify_one] when no thread waits *)
| ESpurious (i : nat)            (* the wait ends by itself *)
| EInit (i : nat)                (* [func] returns, or throws *)
| ELock (i : nat)                (* a critical section of [workMethod] *)
| EFinish (i : nat) (ok : bool). (* [handleTask] returns, or throws *)

(** What can be seen of an execution. *)
Inductive obs :=
| Accepted (task : T)
| Rejected (task : T)
| Taken (task : T)
| Finished (ok : bool).

Definition put (p : t) (i : nat) (w : worker) : t := set_threads p (<[i := w]> (threads_ p)).

Definition is_waiting (w : worker) : bool := match w with Waiting => true | _ => false end.

Definition taken (w : worker) : list obs := match w with Running task => [Taken task] | _ => [] end.

Definition lock (p : t) (i : nat) (state : option bool) : option (t * list obs) :=
  let '(p, w) := next_task (set_info p (account (info_ p) state)) in
  Some (put p i w, taken w).

Definition step (p : t) (e : event) : option (t * list obs) :=
  match e with
  | EStart => Some (start p, [])
  | EStop => Some (stop p, [])
  | EAdd task =>
      let '(p, res) := addTask p task in
      Some (p, match res with Ok _ => [Accepted task] | _ => [Rejected task] end)
  | ENotify i =>
      match pending p, threads_ p !! i with
      | S n, Some Waiting => Some (set_pending (put p i Woken) n, [])
      | _, _ => None
      end
  | ENotifyNone =>
      match pending p with
      | S n => if existsb is_waiting (threads_ p) then None else Some (set_pending p n, [])
      | O => None
      end
  | ESpurious i =>
      match threads_ p !! i with Some Waiting => Some (put p i Woken, []) | _ => None end
  | EInit i =>
      match threads_ p !! i with Some Starting => Some (put p i (Ready None), []) | _ => None end
  | ELock i =>
      match threads_ p !! i with
      | Some (Ready state) => lock p i state
      | Some Woken => lock p i None
      | _ => None
      end
  | EFinish i ok =>
      match threads_ p !! i with
      | Some (Running _) => Some (put p i (Ready (Some ok)), [Finished ok])
      | _ => None
      end
  end.

Fixpoint run (p : t) (es : list event) : option (t * list obs) :=
  match es with
  | [] => Some (p, [])
  | e :: es' =>
      '(p, o1) ← step p e;
      '(p, o2) ← run p es';
      Some (p, o1 ++ o2)
  end.
End Pool.
Arguments t : clear implicits.
Arguments worker : clear implicits.
Arguments event : clear implicits.
Arguments obs : clear implicits.
End ThreadPool.

(** ** The invariant *)

Section Invariant.
Context {T : Type}.
Import ThreadPool.
Implicit Types (p : t T) (os : list (obs T)) (w : worker T).

(** A thread that will look at the queue before it waits. *)
Definition w_ready w : nat := match w with Starting | Ready _ | Woken => 1 | _ => 0 end.
Definition w_waiting w : nat := match w with Waiting => 1 | _ => 0 end.
Definition w_alive w : nat := match w with Exited => 0 | _ => 1 end.
Definition w_running w : nat := match w with Running _ => 1 | _ => 0 end.
(** A task that has ended and is not yet counted. *)
Definition w_ended (ok : bool) w : nat :=
  match w with Ready (Some b) => if Bool.eqb b ok then 1 else 0 | _ => 0 end.

(** The threads with a property. *)
Definition count (f : worker T -> nat) p : nat := sum_list_with f (threads_ p).
#[local] Arguments count : simpl never.

Definition accepted os : list T := omap (fun o => match o with Accepted x => Some x | _ => None end) os.
Definition taken_tasks os : list T := omap (fun o => match o with Taken x => Some x | _ => None end) os.
Definition finished (ok : bool) os : nat :=
  sum_list_with (fun o => match o with Finished b => if Bool.eqb b ok then 1%nat else 0%nat | _ => 0%nat end) os.

Record pool_ok (n q : Z) p os : Prop := {
  ok_threads : threadsNumber (info_ p) = n;
  ok_length : queueLength (info_ p) = q;
  ok_queue : Z.of_nat (length (tasksQueue_ p)) <= Z.max 0 q;
  ok_fifo : accepted os = taken_tasks os ++ tasksQueue_ p;
  ok_taken : length (taken_tasks os) = (finished true os + finished false os + count w_running p)%nat;
  ok_busy : busyThreadsCounter (info_ p) =
    u64 (Z.of_nat (count w_running p + count (w_ended true) p + count (w_ended false) p));
  ok_good : u64 (goodTasksCounter (info_ p) + Z.of_nat (count (w_ended true) p)) = u64 (Z.of_nat (finished true os));
  ok_bad : u64 (badTasksCounter (info_ p) + Z.of_nat (count (w_ended false) p)) = u64 (Z.of_nat (finished false os));
  ok_wake : started (info_ p) = true ->
    (length (tasksQueue_ p) <= count w_ready p + pending p)%nat \/ count w_waiting p = 0%nat;
  ok_stopped : started (info_ p) = false -> count w_waiting p = 0%nat;
  ok_alive : started (info_ p) = true -> 0 < n -> (0 < count w_alive p)%nat
}.

Lemma count_put f p i w w' :
  threads_ p !! i = Some w -> (count f (put p i w') + f w = count f p + f w')%nat.
Proof. intros H. unfold count, put. cbn [threads_ set_threads]. by apply sum_list_insert. Qed.

Lemma count_start f p :
  count f (start p) = (count f p + if started (info_ p) then 0 else Z.to_nat (threadsNumber (info_ p)) * f Starting)%nat.
Proof.
  unfold start, count. destruct (started _); [lia|]. cbn. rewrite sum_list_with_app. f_equal.
  induction (Z.to_nat _) as [|k IH]; cbn; lia.
Qed.

Lemma count_stop f p :
  f Woken = f Waiting -> count f (stop p) = count f p.
Proof. intros Hf. unfold count. cbn. induction (threads_ p) as [|[] l IH]; cbn; lia. Qed.

Lemma ready_stop p : count w_waiting (stop p) = 0%nat.
Proof. unfold count. cbn. induction (threads_ p) as [|[] l IH]; cbn; lia. Qed.

Lemma u64_add a b : u64 (u64 a + b) = u64 (a + b).
Proof. unfold u64. by rewrite Zplus_mod_idemp_l. Qed.

Lemma u64_congr a b c : u64 a = u64 b -> u64 (a + c) = u64 (b + c).
Proof. intros H. by rewrite <- (u64_add a), H, u64_add. Qed.

Lemma obs_app os os' :
  accepted (os ++ os') = accepted os ++ accepted os' /\
  taken_tasks (os ++ os') = taken_tasks os ++ taken_tasks os' /\
  forall b, finished b (os ++ os') = (finished b os + finished b os')%nat.
Proof.
  unfold accepted, taken_tasks, finished. rewrite !omap_app. split; [done|]. split; [done|].
  intros b. by rewrite sum_list_with_app.
Qed.
Lemma create_ok n q : 0 <= q -> pool_ok n q (create n q) [].
Proof. intros Hq. split; cbn; (done || lia). Qed.

(** The counts of a pool in which the thread [i] has gone from [w] to [w']. *)
Ltac count_moved H w' :=
  pose proof (count_put w_ready _ _ _ w' H); pose proof (count_put w_waiting _ _ _ w' H);
  pose proof (count_put w_alive _ _ _ w' H); pose proof (count_put w_running _ _ _ w' H);
  pose proof (count_put (w_ended true) _ _ _ w' H); pose proof (count_put (w_ended false) _ _ _ w' H).

(** A thread moves and nothing else changes. *)
Lemma moved_ok n q p os i w w' :
  pool_ok n q p os -> threads_ p !! i = Some w -> w_running w' = w_running w ->
  (forall b, w_ended b w' = w_ended b w) -> (w_ready w <= w_ready w')%nat -> (w_alive w <= w_alive w')%nat ->
  w_waiting w' = 0%nat -> pool_ok n q (put p i w') os.
Proof.
  intros [H1 H2 H3 H4 H5 H6 H7 H8 H9 H10 H11] Hi Hr He Hy Ha Hw.
  pose proof (He true). pose proof (He false). count_moved Hi w'.
  split; cbn [info_ tasksQueue_ pending set_threads put]; try done.
  - lia.
  - rewrite H6. f_equal. lia.
  - rewrite <- H7. f_equal. lia.
  - rewrite <- H8. f_equal. lia.
  - intros Hs. destruct (H9 Hs); [left|right]; lia.
  - intros Hs. specialize (H10 Hs). lia.
  - intros Hs Hn. specialize (H11 Hs Hn). lia.
Qed.

Lemma finish_ok n q p os i task b :
  pool_ok n q p os -> threads_ p !! i = Some (Running task) ->
  pool_ok n q (put p i (Ready (Some b))) (os ++ [Finished b]).
Proof.
  intros [H1 H2 H3 H4 H5 H6 H7 H8 H9 H10 H11] Hi. destruct (obs_app os [Finished b]) as (E1 & E2 & E3).
  count_moved Hi (Ready (T := T) (Some b)).
  split; rewrite ?E1, ?E2, ?E3; cbn [accepted taken_tasks finished omap list_omap sum_list_with Bool.eqb];
    rewrite ?app_nil_r; cbn [info_ tasksQueue_ pending set_threads put]; try done.
  - destruct b; cbn in *; lia.
  - rewrite H6. f_equal. destruct b; cbn in *; lia.
  - destruct b; cbn in *.
    + replace (Z.of_nat (finished true os + 1)) with (Z.of_nat (finished true os) + 1) by lia.
      rewrite <- (u64_congr _ _ 1 H7). f_equal. lia.
    + rewrite Nat.add_0_r, <- H7. f_equal. lia.
  - destruct b; cbn in *.
    + rewrite Nat.add_0_r, <- H8. f_equal. lia.
    + replace (Z.of_nat (finished false os + 1)) with (Z.of_nat (finished false os) + 1) by lia.
      rewrite <- (u64_congr _ _ 1 H8). f_equal. lia.
  - intros Hs. destruct (H9 Hs); [left|right]; cbn in *; lia.
  - intros Hs. specialize (H10 Hs). cbn in *; lia.
  - intros Hs Hn. specialize (H11 Hs Hn). cbn in *; lia.
Qed.

Lemma account_same state i :
  started (account i state) = started i /\ threadsNumber (account i state) = threadsNumber i /\
  queueLength (account i state) = queueLength i.
Proof. by destruct state as [[]|]. Qed.

(** The ended task of a thread is counted. *)
Lemma account_ok n q p os i state :
  pool_ok n q p os -> threads_ p !! i = Some (Ready state) ->
  pool_ok n q (put (set_info p (account (info_ p) state)) i (Ready None)) os.
Proof.
  intros [H1 H2 H3 H4 H5 H6 H7 H8 H9 H10 H11] Hi.
  destruct (account_same state (info_ p)) as (E1 & E2 & E3).
  pose proof (count_put w_ready (set_info p (account (info_ p) state)) _ _ (Ready None) Hi) as C1.
  pose proof (count_put w_waiting (set_info p (account (info_ p) state)) _ _ (Ready None) Hi) as C2.
  pose proof (count_put w_alive (set_info p (account (info_ p) state)) _ _ (Ready None) Hi) as C3.
  pose proof (count_put w_running (set_info p (account (info_ p) state)) _ _ (Ready None) Hi) as C4.
  pose proof (count_put (w_ended true) (set_info p (account (info_ p) state)) _ _ (Ready None) Hi) as C5.
  pose proof (count_put (w_ended false) (set_info p (account (info_ p) state)) _ _ (Ready None) Hi) as C6.
  assert (C : forall f, count f (set_info p (account (info_ p) state)) = count f p) by done.
  rewrite !C in *. clear C. set (p' := put _ i _) in *.
  assert (Q1 : info_ p' = account (info_ p) state) by done.
  assert (Q2 : tasksQueue_ p' = tasksQueue_ p) by done. assert (Q3 : pending p' = pending p) by done.
  clearbody p'. cbn in C1, C2, C3, C4, C5, C6.
  split; rewrite ?Q1, ?Q2, ?Q3, ?E1, ?E2, ?E3; try done.
  - lia.
  - destruct state as [[]|]; cbn in *; [rewrite H6; unfold Z.sub; rewrite u64_add..|rewrite H6]; f_equal; lia.
  - rewrite <- H7. destruct state as [[]|]; cbn in *; rewrite ?u64_add; f_equal; lia.
  - rewrite <- H8. destruct state as [[]|]; cbn in *; rewrite ?u64_add; f_equal; lia.
  - intros Hs. destruct (H9 Hs); [left|right]; lia.
  - intros Hs. specialize (H10 Hs). lia.
  - intros Hs Hn. specialize (H11 Hs Hn). lia.
Qed.

(** A thread that looks at the queue. *)
Lemma next_task_ok n q p os i w :
  pool_ok n q p os -> threads_ p !! i = Some w -> w_ready w = 1%nat -> w_ended true w = 0%nat ->
  w_ended false w = 0%nat ->
  let '(p', w') := next_task p in pool_ok n q (put p' i w') (os ++ taken w').
Proof.
  intros H Hi Hw He1 He2. assert (Hrun : w_running w = 0%nat /\ w_waiting w = 0%nat) by (by destruct w).
  destruct Hrun as [Hr Hwt]. assert (Ha : w_alive w = 1%nat) by (by destruct w).
  destruct H as [H1 H2 H3 H4 H5 H6 H7 H8 H9 H10 H11]. unfold next_task.
  destruct (started (info_ p)) eqn:Hs; cbn [negb].
  - destruct (tasksQueue_ p) as [|task queue] eqn:Hq.
    + count_moved Hi (Waiting (T := T)). cbn [taken]. rewrite app_nil_r. cbn in *.
      split; cbn [info_ tasksQueue_ pending set_threads put]; rewrite ?Hq, ?Hs; try done; try (cbn; lia).
      * rewrite H6. f_equal. lia.
      * rewrite <- H7. f_equal. lia.
      * rewrite <- H8. f_equal. lia.
    + set (p1 := set_info (set_queue p queue) _).
      destruct (obs_app os [Taken task]) as (E1 & E2 & E3).
      assert (Hi' : threads_ p1 !! i = Some w) by done.
      assert (C : forall f, count f p1 = count f p) by done.
      count_moved Hi' (Running task). rewrite !C in *. clear C. set (p' := put p1 i (Running task)) in *.
      assert (Q1 : info_ p' = set_busy (info_ p) (u64 (busyThreadsCounter (info_ p) + 1))) by done.
      assert (Q2 : tasksQueue_ p' = queue) by done. assert (Q3 : pending p' = pending p) by done.
      clearbody p' p1. cbn in *.
      split; rewrite ?Q1, ?Q2, ?Q3, ?E1, ?E2, ?E3; cbn; rewrite ?app_nil_r, ?Nat.add_0_r, ?Hs; try done; try lia.
      * rewrite H4. by rewrite <- app_assoc.
      * rewrite length_app. cbn. lia.
      * rewrite H6, u64_add. f_equal. lia.
      * rewrite <- H7. f_equal. lia.
      * rewrite <- H8. f_equal. lia.
  - count_moved Hi (Exited (T := T)). cbn [taken]. rewrite app_nil_r. cbn in *.
    split; cbn [info_ tasksQueue_ pending set_threads put]; rewrite ?Hs; try done; try lia.
    + rewrite H6. f_equal. lia.
    + rewrite <- H7. f_equal. lia.
    + rewrite <- H8. f_equal. lia.
Qed.

Lemma next_task_put p i w : next_task (put p i w) = (put (next_task p).1 i w, (next_task p).2).
Proof. unfold next_task. cbn. destruct (started _); [|done]. by destruct (tasksQueue_ p). Qed.

Lemma put_put p i w w' : put (put p i w) i w' = put p i w'.
Proof. unfold put. cbn. by rewrite list_insert_insert_eq. Qed.

Lemma lock_ok n q p os i w state p' o :
  pool_ok n q p os -> threads_ p !! i = Some w -> (w = Ready state \/ (w = Woken /\ state = None)) ->
  lock p i state = Some (p', o) -> pool_ok n q p' (os ++ o).
Proof.
  intros H Hi Hw. unfold lock.
  assert (H1 : pool_ok n q (put (set_info p (account (info_ p) state)) i (Ready None)) os).
  { destruct Hw as [->|[-> ->]]; [by apply account_ok|].
    assert (E : set_info p (account (info_ p) None) = p) by (by destruct p). rewrite E.
    by apply (moved_ok n q p os i Woken). }
  set (p1 := set_info p _) in *.
  assert (Hi1 : threads_ (put p1 i (Ready None)) !! i = Some (Ready None)).
  { cbn. apply list_lookup_insert_eq. by eapply lookup_lt_Some. }
  pose proof (next_task_ok n q _ os i (Ready None) H1 Hi1 eq_refl eq_refl eq_refl) as H2.
  rewrite next_task_put in H2. destruct (next_task p1) as [p2 w2]. cbn [fst snd] in H2.
  rewrite put_put in H2. by intros [= <- <-].
Qed.

Lemma waiting_none p : existsb is_waiting (threads_ p) = false -> count w_waiting p = 0%nat.
Proof. unfold count. induction (threads_ p) as [|[] l IH]; cbn; (done || auto). Qed.

Lemma pool_start_ok n q p os : pool_ok n q p os -> pool_ok n q (start p) os.
Proof.
  intros [H1 H2 H3 H4 H5 H6 H7 H8 H9 H10 H11].
  assert (E : info_ (start p) = set_started (info_ p) true /\ tasksQueue_ (start p) = tasksQueue_ p /\ pending (start p) = pending p).
  { unfold start. destruct (started (info_ p)) eqn:Hs; [|done]. split; [|done].
    destruct p as [[]]. cbn in *. by rewrite Hs. }
  destruct E as (E1 & E2 & E3).
  split; rewrite ?count_start, ?E1, ?E2, ?E3; cbn [threadsNumber queueLength set_started busyThreadsCounter
    goodTasksCounter badTasksCounter started w_running w_ended w_waiting w_ready w_alive]; rewrite ?H1, ?H2;
    destruct (started (info_ p)) eqn:Hs; rewrite ?Nat.mul_0_r, ?Nat.add_0_r; try done; try lia.
Qed.

Lemma addTask_ok n q p os task p' o :
  pool_ok n q p os -> step p (EAdd task) = Some (p', o) -> pool_ok n q p' (os ++ o).
Proof.
  intros [H1 H2 H3 H4 H5 H6 H7 H8 H9 H10 H11]. cbn [step].
  unfold addTask. destruct (started (info_ p)) eqn:Hs; cbn [negb].
  2: { intros [= <- <-]. destruct (obs_app os [Rejected task]) as (E1 & E2 & E3).
    split; rewrite ?E1, ?E2, ?E3; cbn; rewrite ?app_nil_r, ?Nat.add_0_r; rewrite ?Hs; done. }
  destruct (_ <=? _) eqn:Hq.
  { intros [= <- <-]. destruct (obs_app os [Rejected task]) as (E1 & E2 & E3).
    split; rewrite ?E1, ?E2, ?E3; cbn; rewrite ?app_nil_r, ?Nat.add_0_r; rewrite ?Hs; try done.
    intros _. change (count w_ready _) with (count w_ready p). destruct (H9 eq_refl); [left; lia|by right]. }
  intros [= <- <-]. apply Z.leb_gt in Hq. destruct (obs_app os [Accepted task]) as (E1 & E2 & E3).
  split; rewrite ?E1, ?E2, ?E3; cbn; rewrite ?app_nil_r, ?Nat.add_0_r; rewrite ?Hs; try done.
  + rewrite length_app. cbn. lia.
  + by rewrite H4, app_assoc.
  + intros _. rewrite length_app. cbn. change (count w_ready _) with (count w_ready p).
    destruct (H9 eq_refl); [left; lia|by right].
Qed.

Lemma step_ok n q p os e p' o :
  pool_ok n q p os -> step p e = Some (p', o) -> pool_ok n q p' (os ++ o).
Proof.
  intros H. pose proof H as [H1 H2 H3 H4 H5 H6 H7 H8 H9 H10 H11].
  destruct e as [| |task|i| |i|i|i|i ok]; cbn [step].
  - intros [= <- <-]. rewrite app_nil_r. by apply pool_start_ok.
  - intros [= <- <-]. rewrite app_nil_r.
    split; rewrite ?count_stop by done; rewrite ?ready_stop; try done.
  - intros E. by eapply addTask_ok.
  - destruct (pending p) as [|k] eqn:Hp; [done|]. destruct (threads_ p !! i) as [[]|] eqn:Hi; try done.
    intros [= <- <-]. rewrite app_nil_r.
    count_moved Hi (Woken (T := T)).
    assert (Hm : pool_ok n q (put p i Woken) os) by (by apply (moved_ok n q p os i Waiting); try done; cbn; lia).
    destruct Hm as [M1 M2 M3 M4 M5 M6 M7 M8 M9 M10 M11].
    split; try done. cbn [set_pending pending tasksQueue_ info_ put set_threads] in *.
    intros Hs. change (count w_ready (set_pending ?p ?k)) with (count w_ready p).
    destruct (H9 Hs); [left|right]; cbn in *; lia.
  - destruct (pending p) as [|k] eqn:Hp; [done|]. destruct (existsb _ _) eqn:Hw; [done|].
    intros [= <- <-]. rewrite app_nil_r. apply waiting_none in Hw. split; try done. by right.
  - destruct (threads_ p !! i) as [[]|] eqn:Hi; try done. intros [= <- <-]. rewrite app_nil_r.
    apply (moved_ok n q p os i Waiting); try done; cbn; lia.
  - destruct (threads_ p !! i) as [[]|] eqn:Hi; try done. intros [= <- <-]. rewrite app_nil_r.
    by apply (moved_ok n q p os i Starting).
  - destruct (threads_ p !! i) as [[]|] eqn:Hi; try done; intros E.
    + eapply lock_ok; [done|exact Hi| |exact E]. by left.
    + eapply lock_ok; [done|exact Hi| |exact E]. by right.
  - destruct (threads_ p !! i) as [[]|] eqn:Hi; try done. intros [= <- <-]. by eapply finish_ok.
Qed.

Lemma run_ok n q es p os p' o :
  pool_ok n q p os -> run p es = Some (p', o) -> pool_ok n q p' (os ++ o).
Proof.
  revert p os o. induction es as [|e es IH]; intros p os o H; cbn [run].
  - intros [= <- <-]. by rewrite app_nil_r.
  - destruct (step p e) as [[p1 o1]|] eqn:E1; [|done]. cbn [mbind option_bind].
    destruct (run p1 es) as [[p2 o2]|] eqn:E2; [|done]. intros [= <- <-]. rewrite app_assoc.
    eapply IH; [|exact E2]. by eapply step_ok.
Qed.

(** C7: whatever the order in which a pool is started, stopped and given tasks, and its threads
    run: the queue never outgrows its limit; the tasks that were accepted are, in their
    order, those that threads have taken followed by those in the queue, so that none is lost,
    duplicated or overtaken; the counters that [getInfo] reports are those of the tasks that
    were taken, and every task that ended is counted, or about to be, as good or as bad
    according to how its handler ended. *)
Theorem pool_invariant n q es p os :
  0 <= q -> run (create n q) es = Some (p, os) ->
  currentQueue (getInfo p) <= q /\
  accepted os = taken_tasks os ++ tasksQueue_ p /\
  u64 (goodTasksCounter (getInfo p) + badTasksCounter (getInfo p) + busyThreadsCounter (getInfo p)) =
    u64 (Z.of_nat (length (taken_tasks os))) /\
  length (taken_tasks os) = (finished true os + finished false os + count w_running p)%nat /\
  u64 (goodTasksCounter (getInfo p) + Z.of_nat (count (w_ended true) p)) = u64 (Z.of_nat (finished true os)) /\
  u64 (badTasksCounter (getInfo p) + Z.of_nat (count (w_ended false) p)) = u64 (Z.of_nat (finished false os)).
Proof.
  intros Hq Hr. destruct (run_ok n q es _ [] p os (create_ok n q Hq) Hr) as [H1 H2 H3 H4 H5 H6 H7 H8 _ _ _].
  cbn [app] in *. unfold getInfo, set_current.
  cbn [currentQueue goodTasksCounter badTasksCounter busyThreadsCounter].
  split; [lia|]. split; [done|]. split; [|done]. rewrite H6, H5.
  set (g := goodTasksCounter _) in *. set (b := badTasksCounter _) in *.
  set (eg := count (w_ended true) p) in *. set (eb := count (w_ended false) p) in *. set (k := count w_running p) in *.
  rewrite (Z.add_comm (g + b)), u64_add.
  replace (Z.of_nat (k + eg + eb) + (g + b)) with ((g + Z.of_nat eg) + (Z.of_nat k + (b + Z.of_nat eb))) by lia.
  rewrite (u64_congr _ _ _ H7), Z.add_comm, <- Z.add_assoc, Z.add_comm, <- Z.add_assoc, (u64_congr _ _ _ H8).
  f_equal. lia.
Qed.

(** ** Progress *)

(** What happens by itself: the notifications that are due and the steps of the threads,
    with handlers that end. *)
Definition worker_event (e : event T) : bool :=
  match e with ENotify _ | ENotifyNone | EInit _ | ELock _ | EFinish _ _ => true | _ => false end.

(** However the threads are scheduled and the handlers end, [P] comes to hold. *)
Inductive inevitable (P : t T -> list (obs T) -> Prop) p os : Prop :=
| inevitable_now : P p os -> inevitable P p os
| inevitable_later :
    (exists e p' o, worker_event e = true /\ step p e = Some (p', o)) ->
    (forall e p' o, worker_event e = true -> step p e = Some (p', o) -> inevitable P p' (os ++ o)) ->
    inevitable P p os.

(** Every step of these uses up some of the work. *)
Definition w_work w : nat :=
  match w with Starting | Running _ => 2 | Ready _ | Woken => 1 | Waiting | Exited => 0 end.
Definition work p : nat := (2 * length (tasksQueue_ p) + 2 * pending p + count w_work p)%nat.

Lemma next_task_work p i w :
  threads_ p !! i = Some w -> w_work w = 1%nat ->
  let '(p', w') := next_task p in (work (put p' i w') < work p)%nat.
Proof.
  intros Hi Hw. unfold next_task. destruct (started (info_ p)); cbn [negb].
  - destruct (tasksQueue_ p) as [|task queue] eqn:Hq.
    + pose proof (count_put w_work p i w Waiting Hi). unfold work. cbn in *. lia.
    + set (p1 := set_info _ _). pose proof (count_put w_work p1 i w (Running task) Hi).
      unfold work. change (tasksQueue_ (put p1 i _)) with queue. rewrite Hq.
      change (count w_work p1) with (count w_work p) in *. cbn in *. lia.
  - pose proof (count_put w_work p i w Exited Hi). unfold work. cbn in *. lia.
Qed.

Lemma lock_work p i w state p' o :
  threads_ p !! i = Some w -> w_work w = 1%nat -> lock p i state = Some (p', o) -> (work p' < work p)%nat.
Proof.
  intros Hi Hw. unfold lock. set (p1 := set_info p _). pose proof (next_task_work p1 i w Hi Hw) as H.
  destruct (next_task p1). by intros [= <- _].
Qed.

Lemma worker_step_work p e p' o :
  worker_event e = true -> step p e = Some (p', o) -> (work p' < work p)%nat.
Proof.
  intros He. destruct e as [| |task|i| |i|i|i|i ok]; try done; cbn [step].
  - destruct (pending p) as [|k] eqn:Hp; [done|]. destruct (threads_ p !! i) as [[]|] eqn:Hi; try done.
    intros [= <- _]. pose proof (count_put w_work p i _ Woken Hi). unfold work. rewrite Hp.
    change (count w_work (set_pending ?x k)) with (count w_work x). cbn in *. lia.
  - destruct (pending p) as [|k] eqn:Hp; [done|]. destruct (existsb _ _); [done|]. intros [= <- _].
    unfold work. rewrite Hp. change (count w_work (set_pending p k)) with (count w_work p). cbn. lia.
  - destruct (threads_ p !! i) as [[]|] eqn:Hi; try done. intros [= <- _].
    pose proof (count_put w_work p i _ (Ready None) Hi). unfold work. cbn in *. lia.
  - destruct (threads_ p !! i) as [[]|] eqn:Hi; try done; intros E; by eapply lock_work.
  - destruct (threads_ p !! i) as [[]|] eqn:Hi; try done. intros [= <- _].
    pose proof (count_put w_work p i _ (Ready (Some ok)) Hi). unfold work. cbn in *. lia.
Qed.

(** A pool in which nothing happens by itself any more. *)
Definition settled p : Prop := pending p = 0%nat /\ count w_work p = 0%nat.

Lemma work_to_do p :
  ~ settled p -> exists e p' o, worker_event e = true /\ step p e = Some (p', o).
Proof.
  intros Hs. destruct (pending p) as [|k] eqn:Hp.
  - assert (exists i w, threads_ p !! i = Some w /\ w_work w <> 0%nat) as (i & w & Hi & Hw).
    { assert (H : count w_work p <> 0%nat) by (unfold settled in Hs; tauto). revert H. unfold count.
      clear. induction (threads_ p) as [|w l IH]; [done|]. cbn. intros H.
      destruct (decide (w_work w = 0%nat)) as [E|E]; [|by exists 0%nat, w].
      destruct IH as (i & w' & Hi & Hw); [lia|]. by exists (S i), w'. }
    destruct w as [|state| | |task|]; try done.
    + eexists (EInit i), _, _. cbn. rewrite Hi. done.
    + eexists (ELock i). cbn. rewrite Hi. unfold lock. destruct (next_task _) as [p1 w1]. by eexists _, _.
    + eexists (ELock i). cbn. rewrite Hi. unfold lock. destruct (next_task _) as [p1 w1]. by eexists _, _.
    + eexists (EFinish i true), _, _. cbn. rewrite Hi. done.
  - destruct (existsb is_waiting (threads_ p)) eqn:Hw.
    + apply existsb_exists in Hw as (w & Hin & Hw). destruct w; try done.
      apply list_elem_of_In, list_elem_of_lookup in Hin as [i Hi].
      eexists (ENotify i), _, _. cbn. by rewrite Hp, Hi.
    + eexists ENotifyNone, _, _. cbn. by rewrite Hp, Hw.
Qed.

Lemma lock_same p i state p' o :
  lock p i state = Some (p', o) -> started (info_ p') = started (info_ p) /\ accepted o = [].
Proof.
  unfold lock, next_task. destruct (account_same state (info_ p)) as (E & _).
  destruct (negb _); [|cbn [tasksQueue_ set_info]; destruct (tasksQueue_ p)]; intros [= <- <-]; cbn; by rewrite E.
Qed.

Lemma worker_step_same p e p' o os :
  worker_event e = true -> step p e = Some (p', o) ->
  started (info_ p') = started (info_ p) /\ accepted (os ++ o) = accepted os.
Proof.
  intros He E. destruct (obs_app os o) as (-> & _).
  enough (H : started (info_ p') = started (info_ p) /\ accepted o = []).
  { destruct H as [-> ->]. by rewrite app_nil_r. }
  revert E. destruct e as [| |task|i| |i|i|i|i ok]; try done; cbn [step].
  - destruct (pending p); [done|]. by destruct (threads_ p !! i) as [[]|]; try done; intros [= <- <-].
  - destruct (pending p); [done|]. by destruct (existsb _ _); [done|]; intros [= <- <-].
  - by destruct (threads_ p !! i) as [[]|]; try done; intros [= <- <-].
  - by destruct (threads_ p !! i) as [[]|]; try done; apply lock_same.
  - by destruct (threads_ p !! i) as [[]|]; try done; intros [= <- <-].
Qed.

Lemma settles n q p os :
  pool_ok n q p os ->
  inevitable (fun p' os' => settled p' /\ pool_ok n q p' os' /\ started (info_ p') = started (info_ p) /\
    accepted os' = accepted os) p os.
Proof.
  remember (work p) as k eqn:Hk. revert p os Hk.
  induction k as [k IH] using lt_wf_ind; intros p os -> H.
  assert (Hdec : settled p \/ ~ settled p) by (unfold settled; lia).
  destruct Hdec as [Hs|Hs]; [by constructor|].
  apply inevitable_later; [by apply work_to_do|]. intros e p' o He E.
  pose proof (worker_step_work _ _ _ _ He E) as Hlt.
  pose proof (step_ok _ _ _ _ _ _ _ H E) as H'.
  specialize (IH (work p') Hlt p' (os ++ o) eq_refl H').
  assert (Hst : started (info_ p') = started (info_ p) /\ accepted (os ++ o) = accepted os) by (by eapply worker_step_same).
  destruct Hst as [<- <-]. exact IH.
Qed.

Lemma inevitable_mono (P Q : t T -> list (obs T) -> Prop) p os :
  (forall p os, P p os -> Q p os) -> inevitable P p os -> inevitable Q p os.
Proof. intros HPQ. induction 1 as [p os H|p os He _ IH]; [constructor; auto|by apply inevitable_later]. Qed.

Lemma count_bound f g h p :
  (forall w, (f w <= g w + h w)%nat) -> (count f p <= count g p + count h p)%nat.
Proof.
  intros H. unfold count. induction (threads_ p) as [|w l IH]; cbn; [done|]. specialize (H w). lia.
Qed.

Lemma settled_idle n q p os :
  pool_ok n q p os -> settled p -> 0 < n ->
  count w_running p = 0%nat /\ count (w_ended true) p = 0%nat /\ count (w_ended false) p = 0%nat /\
  (started (info_ p) = true -> tasksQueue_ p = []) /\
  (started (info_ p) = false -> count w_alive p = 0%nat).
Proof.
  intros [_ _ _ _ _ _ _ _ H9 H10 H11] [Hp Hw] Hn.
  pose proof (count_bound w_running w_work (fun _ => 0%nat) p) as B1.
  pose proof (count_bound (w_ended true) w_work (fun _ => 0%nat) p) as B2.
  pose proof (count_bound (w_ended false) w_work (fun _ => 0%nat) p) as B3.
  pose proof (count_bound w_ready w_work (fun _ => 0%nat) p) as B4.
  pose proof (count_bound w_alive w_work w_waiting p) as B5.
  assert (B0 : count (fun _ => 0%nat) p = 0%nat).
  { unfold count. induction (threads_ p); cbn; lia. }
  assert (forall w, (w_running w <= w_work w + 0)%nat) as H1 by (intros []; cbn; lia).
  assert (forall b w, (w_ended b w <= w_work w + 0)%nat) as H2 by (intros [] [|[[]|]| | | |]; cbn; lia).
  assert (forall w, (w_ready w <= w_work w + 0)%nat) as H4 by (intros []; cbn; lia).
  assert (forall w, (w_alive w <= w_work w + w_waiting w)%nat) as H5 by (intros []; cbn; lia).
  specialize (B1 H1). specialize (B2 (H2 true)). specialize (B3 (H2 false)). specialize (B4 H4). specialize (B5 H5).
  split; [lia|]. split; [lia|]. split; [lia|]. split; intros Hs.
  - specialize (H11 Hs Hn). destruct (H9 Hs); [|lia]. destruct (tasksQueue_ p); [done|cbn in *; lia].
  - specialize (H10 Hs). lia.
Qed.

(** C11: a pool makes progress. While it is started, no wake-up of its threads is lost: however
    they are scheduled, and as long as handlers end and nothing new comes in, every accepted
    task is inevitably taken, handled and counted, the counters showing no busy thread and an
    empty queue. Once it is stopped, every thread inevitably returns, so that [join] does,
    and the tasks that are in the queue by then stay there. *)
Theorem pool_progress n q es p os :
  0 < n -> 0 <= q -> run (create n q) es = Some (p, os) ->
  (started (info_ p) = true ->
   inevitable (fun p' os' => tasksQueue_ p' = [] /\ taken_tasks os' = accepted os /\
     (finished true os' + finished false os')%nat = length (accepted os) /\
     busyThreadsCounter (getInfo p') = 0 /\ currentQueue (getInfo p') = 0 /\
     u64 (goodTasksCounter (getInfo p') + badTasksCounter (getInfo p')) = u64 (Z.of_nat (length (accepted os)))) p os) /\
  (started (info_ p) = false ->
   inevitable (fun p' os' => Forall (fun w => w = Exited) (threads_ p') /\
     accepted os = taken_tasks os' ++ tasksQueue_ p' /\
     (finished true os' + finished false os')%nat = length (taken_tasks os')) p os).
Proof.
  intros Hn Hq Hr. pose proof (run_ok n q es _ [] p os (create_ok n q Hq) Hr) as H. cbn [app] in H.
  split; intros Hs; (eapply inevitable_mono; [|by eapply settles]); intros p' os' (Hset & H' & Est & Eacc);
    rewrite Hs in Est; destruct (settled_idle _ _ _ _ H' Hset Hn) as (I1 & I2 & I3 & I4 & I5);
    destruct H' as [H1 H2 H3 H4 H5 H6 H7 H8 _ _ _].
  - specialize (I4 Est). rewrite I4, app_nil_r, Eacc in H4.
    unfold getInfo, set_current. cbn [currentQueue goodTasksCounter badTasksCounter busyThreadsCounter].
    rewrite I4, H6, I1, I2, I3. rewrite <- H4 in H5.
    rewrite I2, Z.add_0_r in H7. rewrite I3, Z.add_0_r in H8.
    repeat (split; [done || lia|]). rewrite (u64_congr _ _ _ H7), Z.add_comm, (u64_congr _ _ _ H8). f_equal. lia.
  - split; [|split; [congruence|lia]]. specialize (I5 Est). revert I5. unfold count.
    induction (threads_ p') as [|[] l IH]; cbn; try lia; constructor; auto.
Qed.
End Invariant.

(** Two threads and three tasks, one of which fails. *)
Section Example_pool.
Import ThreadPool.

Definition demo_events : list (event nat) :=
  [EStart; EInit 0; ELock 0; EAdd 7%nat; EAdd 8%nat; ENotify 0; ELock 0; EInit 1; EAdd 9%nat; ELock 1;
   ENotifyNone; EFinish 0 false].

Lemma pool_invariant_witness :
  exists p os, run (create 2 4) demo_events = Some (p, os) /\
    accepted os = [7; 8; 9]%nat /\ tasksQueue_ p = [9%nat] /\ currentQueue (getInfo p) <= 4.
Proof.
  destruct (run (create 2 4) demo_events) as [[p os]|] eqn:E; [|vm_compute in E; discriminate E].
  destruct (pool_invariant 2 4 demo_events p os ltac:(discriminate) E) as (H & _).
  vm_compute in E. injection E as <- <-. eexists _, _. split; [reflexivity|]. split; [reflexivity|].
  split; [reflexivity|exact H].
Defined.

Lemma pool_progress_witness :
  exists p os, run (create 2 4) demo_events = Some (p, os) /\ started (info_ p) = true /\
    inevitable (fun p' os' => tasksQueue_ p' = []) p os.
Proof.
  destruct (run (create 2 4) demo_events) as [[p os]|] eqn:E; [|vm_compute in E; discriminate E].
  destruct (pool_progress 2 4 demo_events p os ltac:(reflexivity) ltac:(discriminate) E) as (H & _).
  exists p, os. assert (Hs : started (info_ p) = true) by (vm_compute in E; injection E as <- _; reflexivity).
  split; [reflexivity|]. split; [exact Hs|]. refine (inevitable_mono _ _ _ _ _ (H Hs)). tauto.
Defined.
End Example_pool.
