(* ===== verification/Server.v ===== *)
(** * Server

    [library/request_thread_pool.cpp], [server.cpp], [stream.cpp] and the request path of
    [main/fcgi_server.cpp]: a request is dispatched to a pool with the filters and the
    handlers that its address selects; a thread of the pool runs the handlers inside the
    filters, flushes the response stream, and turns exceptions into error pages or into
    another dispatch.

    What handlers and filters do is not part of the program: they are arguments, computations
    on the state [World] of the request they get. *)

From S2P Require Import Prelude Cxx OrdMap Ranges Buffer Parser Except Codec Request Session SessionManager Handlers Program.
From S2P Require Import Security ThreadPool.

(** ** Running one request *)

Module RequestTask.
Section Chain.
Context {V S I R : Type} {IO : IOStream S} {DB : DataBufferImpl I} {RE : Regex R}.
#[local] Abbreviation M := (prog (World V S I)).

(** [Handler::handleRequest] and [Filter::doFilter] of the components, by address; a filter
    may call the next one. *)
Context (handleRequest : nat -> M unit) (doFilter : nat -> M unit -> M unit).

(** A member of [Request] that changes it also when it throws. *)
Definition request_call {A} (f : Request.t S -> Request.t S * result A) : M A := fun w =>
  let '(r, res) := f (req w) in Some (set_req w r, res).

(** [RequestStream::reset] and [flush]. The characters that are written leave the stream. *)
Definition stream_reset : M unit := modify (fun w => set_response w []).

Definition stream_flush : M unit :=
  d ← gets response;
  if negb (Range.empty d) then
    request_call (fun r => Request.write_buf r d) ;; modify (fun w => set_response w [])
  else ret tt.

(** [task.futureHandlers] of [FCGIServer::handleRequest]: the handlers of the request as it is
    now; [setHandlerDesc] notes their description. *)
Definition future_handlers (hs : HandlerSet.t R) : M (list nat) :=
  r ← gets req;
  handler ← lift (HandlerSet.findURIHandler hs r);
  match handler with
  | Some d =>
      if bool_decide (HandlerSet.handlers d = []) then throw Exceptions.NotFound
      else modify (fun w => set_handler_id w (Some (HandlerSet.id d))) ;; ret (HandlerSet.handlers d)
  | None => throw Exceptions.NotFound
  end.

Fixpoint handle_all (hs : list nat) : M unit :=
  match hs with
  | [] => ret tt
  | i :: hs' =>
      processed ← Req.request_field Request.isProcessed;
      if (processed : bool) then ret tt else handleRequest i ;; handle_all hs'
  end.

(** The function [handlers]; [future] is [task.futureHandlers], when there is one. *)
Definition run_handlers (future : option (M (list nat))) : M unit :=
  hs ← gets task_handlers;
  match hs, future with
  | [], Some f => hs ← f; modify (fun w => set_task_handlers w hs)
  | _, _ => ret tt
  end ;;
  hs ← gets task_handlers; handle_all hs.

(** [filters[i]] calls the filter [i] with [filters[i + 1]], the last one with [handlers]. *)
Fixpoint run_filters (filters : list nat) (last : M unit) : M unit :=
  match filters with
  | [] => last
  | i :: filters' => doFilter i (run_filters filters' last)
  end.

(** The body of the inner [try] of [handleTask]. *)
Definition run_request (filters handlers : list nat) (future : option (M (list nat))) : M unit :=
  modify (fun w => set_task_handlers w handlers) ;;
  stream_reset ;;
  modify (fun w => set_context w (AttributesHolder.create false)) ;;
  run_filters filters (run_handlers future) ;;
  stream_flush ;;
  stream_reset ;;
  request_call Request.sendHeaders.

(** [catch (const DispatchException &)], up to [task.dispatch]. *)
Definition prepare_dispatch (type : dispatch_type) (url : bytes) (buffer : DataBuffer) : M unit :=
  sent ← Req.request_field Request.headersSent;
  if negb sent then
    match type with FORWARD => modify (fun w => set_response w []) | APPEND => ret tt end ;;
    (if negb (Buf.isNil buffer) then
       h ← gets heap; Req.request_set (fun r => Attach.restore h r buffer)
     else ret tt) ;;
    (if negb (Range.empty url) then
       Req.request_set (fun r => Ok (Request.set_in r
         (set_vars (Request.in_ r) (om_put str_ltb (vars_ (Request.in_ r)) (lit "SCRIPT_NAME") url))))
     else ret tt)
  else
    uri ← Req.request_field Request.getURI;
    throw (RuntimeError (lit "Error while dispatching request " ++ uri ++ lit ": headers already sent")).

(** The other handlers: an error page as long as the headers can still be changed. *)
Definition answer_error (e : exn) (status : Z) : M unit := fun w =>
  match Request.setStatus (req w) 500 with
  | Ok r => request_call (fun r => Request.sendError r status) (set_req w r)
  | _ => Some (w, Throw e)
  end.

Definition error_status (e : exn) : Z := match e with HttpException status => status | _ => 500 end.
End Chain.
End RequestTask.

(** ** The server *)

Module Server.

(** [RequestTask]. The functions [futureHandlers] and [dispatch] are those of the server, when
    they are there. *)
Record Task := MkTask {
  request : nat;
  filters : list nat;
  handlers : list nat;
  futureHandlers : bool;
  dispatch_ : bool;
  start_ : Z
}.

(** [RequestsThreadPool] *)
Record RequestsThreadPool := MkRequestsPool { delay_ : Z; pool_ : ThreadPool.t Task }.

Inductive log_entry :=
| LogTimedOut
| LogException (e : exn)
| LogUnknown
| LogCannotAdd (e : exn)
| LogAttachFailed (e : exn)
| LogHandleFailed (e : exn).

Section Ops.
Context {V S I R : Type} {IO : IOStream S} {DB : DataBufferImpl I} {HS : StringImpl I} {RE : Regex R}.
#[local] Abbreviation M := (prog (World V S I)).
Context (handleRequest : nat -> M unit) (doFilter : nat -> M unit -> M unit).
Context (handler_set : HandlerSet.t R).

(** The requests that exist, each with its response stream and with the description that
    [setHandlerDesc] has left in its [FastcgiRequest]; what the requests share; the pools; the
    log. Times are in nanoseconds. *)
Record RequestState := MkRequestState {
  object : Request.t S;
  stream : bytes;
  description : option bytes
}.

Record t := MkServer {
  requests : gmap nat RequestState;
  manager : option (SessionManager.t V);
  all_subjects : gmap nat Subject.t;
  anonymous : option nat;
  buffers : gmap nat I;
  ids : list (list bytes);
  now : Z;
  pools : gmap bytes RequestsThreadPool;
  logged : list log_entry
}.

Definition set_requests (s : t) v := MkServer v (manager s) (all_subjects s) (anonymous s) (buffers s) (ids s)
  (now s) (pools s) (logged s).
Definition set_pools (s : t) v := MkServer (requests s) (manager s) (all_subjects s) (anonymous s) (buffers s)
  (ids s) (now s) v (logged s).
Definition set_logged (s : t) v := MkServer (requests s) (manager s) (all_subjects s) (anonymous s) (buffers s)
  (ids s) (now s) (pools s) v.

#[local] Abbreviation P := (prog t).

Definition log (e : log_entry) : P unit := modify (fun s => set_logged s (logged s ++ [e])).

Definition enter (s : t) (r : RequestState) : World V S I :=
  MkWorld (object r) (manager s) (all_subjects s) (anonymous s) (buffers s) (stream r) (ids s) (now s) []
    (description r) (AttributesHolder.create false).

Definition leave (s : t) (p : nat) (w : World V S I) : t :=
  MkServer (<[p := MkRequestState (req w) (response w) (handler_id w)]> (requests s)) (mgr w) (subjects w)
    (anonymous_ w) (heap w) (new_ids w) (clock w) (pools s) (logged s).

(** A computation on the request at [p]; there is only one thread for it at a time. *)
Definition on_request {A} (p : nat) (m : M A) : P A := fun s =>
  match requests s !! p with
  | Some r =>
      match m (enter s r) with
      | Some (w, res) => Some (leave s p w, res)
      | None => None
      end
  | None => Some (s, Undef)
  end.

Definition setHandlerDesc (p : nat) (handler : option (HandlerSet.HandlerDescription R)) : P unit :=
  modify (fun s => set_requests s (alter (fun r => MkRequestState (object r) (stream r)
    (match handler with Some d => Some (HandlerSet.id d) | None => None end)) p (requests s))).

Definition sendError (p : nat) (status : Z) : P unit :=
  on_request p (RequestTask.request_call (fun r => Request.sendError r status)).

(** The pool of a name; [find(...)->second] of a name that is not there is undefined. *)
Definition addTask (pool : bytes) (task : Task) : P unit := fun s =>
  match pools s !! pool with
  | None => Some (s, Undef)
  | Some rp =>
      let task := MkTask (request task) (filters task) (handlers task) (futureHandlers task) (dispatch_ task)
                    (now s + delay_ rp) in
      let '(p, res) := ThreadPool.addTask (pool_ rp) task in
      Some (set_pools s (<[pool := MkRequestsPool (delay_ rp) p]> (pools s)), res)
  end.

(** [handleRequestInternal], with a handler or without. *)
Definition enqueue (pool : bytes) (task : Task) : P unit :=
  try_catch (addTask pool task) (fun e => sendError (request task) 503 ;; log (LogCannotAdd e)).

Definition no_handlers (handler : option (HandlerSet.HandlerDescription R)) : bool :=
  match handler with Some d => bool_decide (HandlerSet.handlers d = []) | None => true end.

Definition handleRequestInternal (fs : list nat) (handler : option (HandlerSet.HandlerDescription R))
    (task : Task) : P unit :=
  match handler with
  | Some d =>
      if bool_decide (HandlerSet.handlers d = []) then sendError (request task) 404
      else enqueue (HandlerSet.poolName d)
             (MkTask (request task) fs (HandlerSet.handlers d) (futureHandlers task) (dispatch_ task) (start_ task))
  | None => sendError (request task) 404
  end.

Definition handleRequestInternal_default (fs : list nat) (task : Task) : P unit :=
  enqueue (HandlerSet.getDefaultPool handler_set)
    (MkTask (request task) fs [] (futureHandlers task) (dispatch_ task) (start_ task)).

(** [task.dispatch] of [FCGIServer::handleRequest]. *)
Definition dispatch (task : Task) : P unit :=
  fs ← on_request (request task) (r ← gets req; lift (HandlerSet.findURIFilters handler_set r []));
  handler ← on_request (request task) (r ← gets req; lift (HandlerSet.findURIHandler handler_set r));
  if no_handlers handler && negb (bool_decide (fs = [])) then handleRequestInternal_default fs task
  else setHandlerDesc (request task) handler ;; handleRequestInternal fs handler task.

Definition handle_request (task : Task) : P unit :=
  dispatch (MkTask (request task) (filters task) (handlers task) true true (start_ task)).

(** [Server::handleRequest], which [FCGIServer] overrides to note the description. *)
Definition base_dispatch (task : Task) : P unit :=
  fs ← on_request (request task) (r ← gets req; lift (HandlerSet.findURIFilters handler_set r []));
  handler ← on_request (request task) (r ← gets req; lift (HandlerSet.findURIHandler handler_set r));
  if no_handlers handler && negb (bool_decide (fs = [])) then handleRequestInternal_default fs task
  else handleRequestInternal fs handler task.

Definition base_handle_request (task : Task) : P unit :=
  base_dispatch (MkTask (request task) (filters task) (handlers task) true true (start_ task)).

(** [catch] blocks of [handleTask], from the inside out; undefined behaviour is not caught. *)
Definition handle_exception (task : Task) (e : exn) : P unit :=
  match e with
  | DispatchException type url data b e' =>
      if dispatch_ task then
        on_request (request task) (RequestTask.prepare_dispatch type url (MkDataBuffer data b e')) ;;
        dispatch task
      else
        uri ← on_request (request task) (Req.request_field Request.getURI);
        throw (RuntimeError (lit "Error while dispatching request " ++ uri ++ lit ": dispatcher is not assigned"))
  | _ => on_request (request task) (RequestTask.answer_error e (RequestTask.error_status e))
  end.

Definition log_exception (e : exn) : log_entry := if is_std e then LogException e else LogUnknown.

(** [RequestsThreadPool::handleTask] *)
Definition handleTask (delay : Z) (task : Task) : P unit :=
  try_catch
    (n ← gets now;
     if n - start_ task <? delay then log LogTimedOut ;; sendError (request task) 503
     else
       try_catch
         (on_request (request task) (RequestTask.run_request handleRequest doFilter (filters task) (handlers task)
            (if futureHandlers task then Some (RequestTask.future_handlers handler_set) else None)))
         (handle_exception task))
    (fun e => log (log_exception e) ;; throw e).

(** One turn of [FCGIServer::handle] after [accept]: the request at [p] is new, and [attached]
    is what [attach] leaves of it and how it ended. *)
Definition handle (p : nat) (attached : gmap nat I * Request.t S) (res : result unit) : P unit :=
  modify (fun s => set_requests (MkServer (requests s) (manager s) (all_subjects s) (anonymous s) attached.1 (ids s)
    (now s) (pools s) (logged s)) (<[p := MkRequestState attached.2 [] None]> (requests s))) ;;
  try_catch
    (match res with
     | Throw e => if is_std e then log (LogAttachFailed e) ;; sendError p 400 else throw e
     | Undef => fun s => Some (s, Undef)
     | Ok _ =>
         try_catch (handle_request (MkTask p [] [] false false 0))
           (fun e => if is_std e then sendError p 500 else throw e)
     end)
    (fun e => log (LogHandleFailed e)).
End Ops.
Arguments t : clear implicits.
Arguments RequestState : clear implicits.
End Server.

(** ** What a task leaves *)

Section Answers.
Context {V S I R : Type} {IO : IOStream S} (pending written : S -> bytes) {IOk : IOStreamOk S pending written}.
Context {DB : DataBufferImpl I} {HS : StringImpl I} {RE : Regex R}.
#[local] Abbreviation M := (prog (World V S I)).
Context (handleRequest : nat -> M unit) (doFilter : nat -> M unit -> M unit) (handler_set : HandlerSet.t R).
Import Server RequestTask.
Implicit Types (s : Server.t V S I) (w : World V S I) (task : Task).

(** An error page, head and body. *)
Definition error_text (status : Z) : bytes :=
  Response.head_text status Response.error_headers [] ++ concat (Request.error_page status).

(** The request has been answered: its headers are out, and its stream received [d]. *)
Definition answered (r r' : Request.t S) (d : bytes) : Prop :=
  Request.headers_sent_ r' = true /\
  exists io io', Request.stream_ r = Some io /\ Request.stream_ r' = Some io' /\ written io' = written io ++ d.

Lemma sendError_answers r status :
  Request.headers_sent_ r = false -> is_Some (Request.stream_ r) -> 0 <= status < 2 ^ 16 ->
  exists r', Request.sendError r status = (r', Ok tt) /\ answered r r' (error_text status).
Proof.
  intros Hs [io Hio] Hst.
  set (r0 := Request.set_status (Request.set_out_headers (Request.set_out_cookies r []) []) 200).
  assert (E0 : Request.sendError r status = Request.sendError r0 status).
  { unfold Request.sendError. by rewrite Hs; destruct r; cbn in Hs; subst. }
  assert (H0 : Response.sim written (Request.head_method r) (written io) r0 (Response.Open 200 [] [])).
  { split; [done|]. exists io. do 5 (split; [done|]). split; [split; [lia|split; constructor]|done]. }
  destruct (Response.send_error_sim pending written _ _ _ _ status H0 Hst) as [(_ & io' & Hio' & Hs' & W) Hok].
  cbn [Response.spec_step snd] in Hok. rewrite E0.
  destruct (Request.sendError r0 status) as [r' res]. cbn in Hok, Hio', Hs'.
  destruct res as [[]|e|]; try done. exists r'. split; [done|]. split; [done|].
  exists io, io'. split; [done|]. split; [done|]. rewrite W. unfold error_text. by rewrite <- ?app_assoc.
Qed.

Lemma sendHeaders_sent r r' : Request.sendHeaders r = (r', Ok tt) -> Request.headers_sent_ r' = true.
Proof.
  unfold Request.sendHeaders, Request.sendHeadersInternal. destruct (Request.headers_sent_ r) eqn:H.
  { by intros [= <-]. }
  destruct (Request.stream_ _); [|by intros [= <-]].
  destruct (Request.write_all _ _) as [r1 [[]|e|]]; try done.
  destruct (Request.write_cookies _ _) as [r2 [[]|e|]]; try done.
  destruct (Request.write_stream _ _) as [r3 [[]|e|]]; try done. by intros [= <-].
Qed.

Lemma run_request_sent fs hs future w w' :
  run_request handleRequest doFilter fs hs future w = Some (w', Ok tt) -> Request.headers_sent_ (req w') = true.
Proof.
  unfold run_request. intros E.
  do 6 (apply bind_inv in E as (? & ? & _ & E)).
  unfold request_call in E. destruct (Request.sendHeaders _) as [r' res] eqn:Es.
  injection E as <- ->. by eapply sendHeaders_sent.
Qed.

Lemma on_request_run {A} s p r (m : M A) :
  requests s !! p = Some r ->
  on_request p m s = match m (enter s r) with Some (w, res) => Some (leave s p w, res) | None => None end.
Proof. intros H. unfold on_request. by rewrite H. Qed.

Lemma leave_lookup s p w :
  requests (leave s p w) !! p = Some (MkRequestState (req w) (response w) (handler_id w)).
Proof. cbn. by rewrite lookup_insert_eq. Qed.

Lemma sendError_request s p r status :
  requests s !! p = Some r -> Request.headers_sent_ (object r) = false -> is_Some (Request.stream_ (object r)) ->
  0 <= status < 2 ^ 16 ->
  exists s' r', sendError p status s = Some (s', Ok tt) /\ requests s' !! p = Some r' /\
    answered (object r) (object r') (error_text status) /\ pools s' = pools s /\ logged s' = logged s.
Proof.
  intros Hr Hs Hio Hst. unfold sendError. rewrite (on_request_run s p r _ Hr). unfold request_call.
  destruct (sendError_answers (object r) status Hs Hio Hst) as (r' & E & Ha). cbn [req enter]. rewrite E.
  eexists _, _. split; [reflexivity|]. rewrite leave_lookup. by split.
Qed.

(** An exception that is not a dispatch, thrown while a task runs. *)
Lemma handle_exception_answers s task r e :
  requests s !! request task = Some r -> (forall t u d b x, e <> DispatchException t u d b x) ->
  is_Some (Request.stream_ (object r)) -> 0 <= error_status e < 2 ^ 16 ->
  if Request.headers_sent_ (object r)
  then exists s', handle_exception handler_set task e s = Some (s', Throw e) /\
         requests s' = requests s /\ pools s' = pools s /\ logged s' = logged s
  else exists s' r', handle_exception handler_set task e s = Some (s', Ok tt) /\
         requests s' !! request task = Some r' /\
         answered (object r) (object r') (error_text (error_status e)) /\ pools s' = pools s /\ logged s' = logged s.
Proof.
  intros Hr He Hio Hst.
  assert (E0 : handle_exception handler_set task e s = on_request (request task) (answer_error e (error_status e)) s).
  { destruct e; try done. by destruct (He type url data begin_ end_). }
  rewrite E0, (on_request_run s (request task) r _ Hr). unfold answer_error. cbn [req enter].
  unfold Request.setStatus. destruct (Request.headers_sent_ (object r)) eqn:Hs.
  - eexists. split; [reflexivity|]. split; [|done]. cbn. rewrite insert_id; [done|]. by destruct r.
  - unfold request_call. cbn [req set_req].
    destruct (sendError_answers (Request.set_status (object r) 500) (error_status e)) as (r' & E & Ha); try done.
    rewrite E. eexists _, _. split; [reflexivity|]. rewrite leave_lookup. split; [reflexivity|]. done.
Qed.

(** C9: every task leaves its request answered. A task that a thread picks up while the clock
    has not passed its start by the delay of the pool is refused with an error page 503, and
    none of its handlers runs; otherwise its handlers run inside its filters, and: when they
    return, the headers are out; when they throw something other than a dispatch while the
    headers can be changed, the client gets exactly one error page, with the status of the
    exception or 500, and the task counts as done; when they throw later, nothing more is
    written, and the exception is logged and makes the task a failed one. *)
Theorem task_answered s task r delay w1 res :
  requests s !! request task = Some r ->
  run_request handleRequest doFilter (filters task) (handlers task)
    (if futureHandlers task then Some (future_handlers handler_set) else None) (enter s r) = Some (w1, res) ->
  let handled := handleTask handleRequest doFilter handler_set delay task s in
  (now s - start_ task < delay ->
   Request.headers_sent_ (object r) = false -> is_Some (Request.stream_ (object r)) ->
   exists s' r', handled = Some (s', Ok tt) /\ requests s' !! request task = Some r' /\
     answered (object r) (object r') (error_text 503) /\ logged s' = logged s ++ [LogTimedOut]) /\
  (delay <= now s - start_ task ->
   match res with
   | Ok _ => handled = Some (leave s (request task) w1, Ok tt) /\ Request.headers_sent_ (req w1) = true
   | Throw (DispatchException _ _ _ _ _) | Undef => True
   | Throw e =>
       is_Some (Request.stream_ (req w1)) -> 0 <= error_status e < 2 ^ 16 ->
       if Request.headers_sent_ (req w1)
       then exists s', handled = Some (s', Throw e) /\ requests s' = requests (leave s (request task) w1) /\
              logged s' = logged s ++ [log_exception e]
       else exists s' r', handled = Some (s', Ok tt) /\ requests s' !! request task = Some r' /\
              answered (req w1) (object r') (error_text (error_status e)) /\ logged s' = logged s
   end).
Proof.
  intros Hr E handled. split.
  - intros Hd Hs Hio.
    assert (Hr' : requests (set_logged s (logged s ++ [LogTimedOut])) !! request task = Some r) by done.
    destruct (sendError_request _ _ _ 503 Hr' Hs Hio ltac:(lia)) as (s' & r' & E' & Hl & Ha & _ & Hlog).
    exists s', r'. split; [|by rewrite Hlog]. unfold handled, handleTask.
    apply try_catch_ok. rewrite bind_gets. apply Z.ltb_lt in Hd. rewrite Hd. unfold log. by rewrite bind_modify.
  - intros Hd. apply Z.ltb_ge in Hd.
    set (s1 := leave s (request task) w1).
    assert (Hl : requests s1 !! request task = Some (MkRequestState (req w1) (response w1) (handler_id w1)))
      by apply leave_lookup.
    set (body := try_catch (on_request (request task) (run_request handleRequest doFilter (filters task)
      (handlers task) (if futureHandlers task then Some (future_handlers handler_set) else None)))
      (handle_exception handler_set task)).
    assert (Hh : forall s' o, body s = Some (s', o) -> handled =
      match o with Throw e => Some (set_logged s' (logged s' ++ [log_exception e]), Throw e) | _ => Some (s', o) end).
    { intros s' o Eb. unfold handled, handleTask. unfold try_catch at 1. rewrite bind_gets, Hd. fold body.
      rewrite Eb. by destruct o. }
    assert (Eo : on_request (request task) (run_request handleRequest doFilter (filters task) (handlers task)
      (if futureHandlers task then Some (future_handlers handler_set) else None)) s = Some (s1, res)).
    { by rewrite (on_request_run s _ r _ Hr), E. }
    assert (Hthrow : forall e, res = Throw e -> (forall t u d b x, e <> DispatchException t u d b x) ->
      is_Some (Request.stream_ (req w1)) -> 0 <= error_status e < 2 ^ 16 ->
      if Request.headers_sent_ (req w1)
      then exists s', handled = Some (s', Throw e) /\ requests s' = requests s1 /\
             logged s' = logged s ++ [log_exception e]
      else exists s' r', handled = Some (s', Ok tt) /\ requests s' !! request task = Some r' /\
             answered (req w1) (object r') (error_text (error_status e)) /\ logged s' = logged s).
    { intros e -> He Hio Hst. pose proof (handle_exception_answers s1 task _ e Hl He Hio Hst) as Ha.
      cbn [object] in Ha. destruct (Request.headers_sent_ (req w1)).
      - destruct Ha as (s' & Es' & H1 & H2 & H3).
        rewrite (Hh s' (Throw e)); [|unfold body; by rewrite (try_catch_throw _ _ _ _ _ Eo)].
        eexists. split; [reflexivity|]. cbn. by rewrite H3.
      - destruct Ha as (s' & r' & Es' & H1 & H2 & _ & H3).
        rewrite (Hh s' (Ok tt)); [|unfold body; by rewrite (try_catch_throw _ _ _ _ _ Eo)].
        exists s', r'. by rewrite H3. }
    destruct res as [[]|e|]; [| |done].
    { split; [|by eapply run_request_sent]. rewrite (Hh s1 (Ok tt)); [done|]. by apply try_catch_ok. }
    destruct e; try done; by apply Hthrow.
Qed.

(** Where a request goes: its pool and its handlers; nowhere when it has neither handlers nor
    filters. *)
Definition destination (fs : list nat) (handler : option (HandlerSet.HandlerDescription R))
    : option (bytes * list nat) :=
  if no_handlers handler then
    if bool_decide (fs = []) then None else Some (HandlerSet.getDefaultPool handler_set, [])
  else match handler with
       | Some d => Some (HandlerSet.poolName d, HandlerSet.handlers d)
       | None => None
       end.

Definition accepts_tasks (p : ThreadPool.t Task) : bool :=
  ThreadPool.started (ThreadPool.info_ p) &&
  (Z.of_nat (length (ThreadPool.tasksQueue_ p)) <? ThreadPool.queueLength (ThreadPool.info_ p)).

Definition pool_queue (s : Server.t V S I) (pool : bytes) : list Task :=
  match pools s !! pool with Some rp => ThreadPool.tasksQueue_ (pool_ rp) | None => [] end.

(** Putting a task in a pool: at the end of the queue, or an error page. *)
Lemma enqueue_spec s pool task (r : RequestState S) rp :
  pools s !! pool = Some rp -> requests s !! request task = Some r ->
  Request.headers_sent_ (object r) = false -> is_Some (Request.stream_ (object r)) ->
  exists s' r', enqueue pool task s = Some (s', Ok tt) /\ requests s' !! request task = Some r' /\
    (forall q, q <> pool -> pools s' !! q = pools s !! q) /\
    if accepts_tasks (pool_ rp)
    then r' = r /\ logged s' = logged s /\ pool_queue s' pool = pool_queue s pool ++
           [MkTask (request task) (filters task) (handlers task) (futureHandlers task) (dispatch_ task)
              (now s + delay_ rp)]
    else answered (object r) (object r') (error_text 503) /\ pool_queue s' pool = pool_queue s pool.
Proof.
  intros Hp Hr Hs Hio.
  set (task' := MkTask (request task) (filters task) (handlers task) (futureHandlers task) (dispatch_ task)
              (now s + delay_ rp)).
  assert (Hadd : exists p' res, ThreadPool.addTask (pool_ rp) task' = (p', res) /\
    if accepts_tasks (pool_ rp) then res = Ok tt /\ ThreadPool.tasksQueue_ p' = ThreadPool.tasksQueue_ (pool_ rp) ++ [task']
    else (exists e, res = Throw e) /\ ThreadPool.tasksQueue_ p' = ThreadPool.tasksQueue_ (pool_ rp)).
  { unfold ThreadPool.addTask, accepts_tasks. destruct (ThreadPool.started _); cbn [negb andb].
    - rewrite Z.leb_antisym. destruct (_ <? _); cbn [negb]; eexists _, _; (split; [reflexivity|]); [done|].
      split; [by eexists|done].
    - eexists _, _. split; [reflexivity|]. split; [by eexists|done]. }
  destruct Hadd as (p' & res & Ea & Hq).
  set (s1 := set_pools s (<[pool := MkRequestsPool (delay_ rp) p']> (pools s))).
  assert (E1 : addTask pool task s = Some (s1, res)) by (unfold addTask; rewrite Hp; by fold task'; rewrite Ea).
  assert (Hother : forall q, q <> pool -> pools s1 !! q = pools s !! q) by (intros q Hne; by apply lookup_insert_ne).
  assert (Hpool : pool_queue s1 pool = ThreadPool.tasksQueue_ p') by (unfold pool_queue; cbn; by rewrite lookup_insert_eq).
  assert (Hpool0 : pool_queue s pool = ThreadPool.tasksQueue_ (pool_ rp)) by (unfold pool_queue; by rewrite Hp).
  unfold enqueue. destruct (accepts_tasks (pool_ rp)).
  - destruct Hq as [-> Hq]. exists s1, r. split; [by apply try_catch_ok|]. split; [done|]. split; [done|].
    split; [done|]. split; [done|]. by rewrite Hpool, Hpool0, Hq.
  - destruct Hq as [[e ->] Hq]. rewrite (try_catch_throw _ _ _ _ _ E1).
    assert (Hr1 : requests s1 !! request task = Some r) by done.
    destruct (sendError_request s1 _ r 503 Hr1 Hs Hio ltac:(lia)) as (s2 & r' & E2 & Hl & Ha & Hp2 & _).
    rewrite (bind_ok _ _ _ _ _ E2). eexists _, r'. split; [reflexivity|]. split; [done|].
    split; [intros q Hne; cbn; rewrite Hp2; by apply Hother|]. split; [done|].
    transitivity (pool_queue s1 pool); [unfold pool_queue; cbn; by rewrite Hp2|]. by rewrite Hpool, Hpool0, Hq.
Qed.

Lemma leave_enter s p (r : RequestState S) : requests s !! p = Some r -> leave s p (enter s r) = s.
Proof.
  intros Hr. unfold leave, enter. cbn. destruct r as [o st d]. cbn.
  rewrite insert_id by done. by destruct s.
Qed.

Lemma on_request_read {A} s p (r : RequestState S) (f : Request.t S -> result A) :
  requests s !! p = Some r -> on_request p (r ← gets req; lift (f r)) s = Some (s, f (object r)).
Proof.
  intros Hr. rewrite (on_request_run s p r _ Hr), bind_gets. unfold lift. cbn [req enter].
  by rewrite leave_enter.
Qed.

(** The server dispatches as its base class does, to a request whose description it has noted. *)
Lemma dispatch_describes s task (r : RequestState S) fs handler :
  requests s !! request task = Some r ->
  HandlerSet.findURIFilters handler_set (object r) [] = Ok fs -> HandlerSet.findURIHandler handler_set (object r) = Ok handler ->
  handle_request handler_set task s =
    base_handle_request handler_set task
      (if no_handlers handler && negb (bool_decide (fs = [])) then s
       else set_requests s (<[request task := MkRequestState (object r) (stream r)
              (match handler with Some d => Some (HandlerSet.id d) | None => None end)]> (requests s))).
Proof.
  intros Hr Hf Hh. unfold handle_request, base_handle_request, dispatch, base_dispatch. cbn [request filters handlers start_].
  set (d := match handler with Some d => _ | None => None end).
  pose proof (fun s r => on_request_read s (request task) r (fun r => HandlerSet.findURIFilters handler_set r [])) as E1.
  pose proof (fun s r => on_request_read s (request task) r (HandlerSet.findURIHandler handler_set)) as E2. cbn beta in E1.
  pose proof (E1 s r Hr) as F1. pose proof (E2 s r Hr) as F2. rewrite Hf in F1. rewrite Hh in F2.
  rewrite (bind_ok _ _ _ _ _ F1), (bind_ok _ _ _ _ _ F2).
  destruct (no_handlers handler && negb (bool_decide (fs = []))) eqn:E;
    [by rewrite (bind_ok _ _ _ _ _ F1), (bind_ok _ _ _ _ _ F2), E|].
  set (r1 := MkRequestState (object r) (stream r) d). set (s1 := set_requests s _).
  assert (Hr1 : requests s1 !! request task = Some r1) by (cbn; apply lookup_insert_eq).
  pose proof (E1 s1 r1 Hr1) as G1. pose proof (E2 s1 r1 Hr1) as G2. cbn [object r1] in G1, G2. rewrite Hf in G1. rewrite Hh in G2.
  rewrite (bind_ok _ _ _ _ _ G1), (bind_ok _ _ _ _ _ G2), E.
  assert (Es : setHandlerDesc (request task) handler s = Some (s1, Ok tt)).
  { unfold setHandlerDesc, modify. by rewrite (alter_alt_Some _ _ _ _ Hr). }
  by rewrite (bind_ok _ _ _ _ _ Es).
Qed.

(** C28: every request goes to exactly one place. A request that neither a handler nor a filter is
    configured for is answered with an error page 404; every other one is put, with its
    filters, the handlers of its description and the start that its delay gives, at the end
    of the queue of one pool, which exists: the pool of its handlers, or the default pool
    when there are only filters; and when that pool is stopped or full, it is answered with
    an error page 503. The other pools and, before it is answered, the request are left as
    they are. *)
Theorem dispatch_outcome s task (r : RequestState S) fs handler :
  requests s !! request task = Some r ->
  Request.headers_sent_ (object r) = false -> is_Some (Request.stream_ (object r)) ->
  HandlerSet.findURIFilters handler_set (object r) [] = Ok fs ->
  HandlerSet.findURIHandler handler_set (object r) = Ok handler ->
  (forall pool, pool ∈ HandlerSet.getPoolsNeeded handler_set -> is_Some (pools s !! pool)) ->
  exists s' r', handle_request handler_set task s = Some (s', Ok tt) /\ requests s' !! request task = Some r' /\
    match destination fs handler with
    | None => answered (object r) (object r') (error_text 404) /\ pools s' = pools s
    | Some (pool, hs) => exists rp, pools s !! pool = Some rp /\
        (forall q, q <> pool -> pools s' !! q = pools s !! q) /\
        if accepts_tasks (pool_ rp)
        then object r' = object r /\ pool_queue s' pool = pool_queue s pool ++
               [MkTask (request task) fs hs true true (now s + delay_ rp)]
        else answered (object r) (object r') (error_text 503) /\ pool_queue s' pool = pool_queue s pool
    end.
Proof.
  intros Hr Hs Hio Hf Hh Hpools. unfold handle_request, dispatch. cbn [request filters handlers start_].
  pose proof (on_request_read s (request task) r (fun r => HandlerSet.findURIFilters handler_set r []) Hr) as E1.
  pose proof (on_request_read s (request task) r (HandlerSet.findURIHandler handler_set) Hr) as E2.
  cbn beta in E1. rewrite Hf in E1. rewrite Hh in E2.
  rewrite (bind_ok _ _ _ _ _ E1), (bind_ok _ _ _ _ _ E2). unfold destination.
  set (r1 := MkRequestState (object r) (stream r)
    (match handler with Some d => Some (HandlerSet.id d) | None => None end)).
  set (s1 := set_requests s (alter (fun r => MkRequestState (object r) (stream r)
    (match handler with Some d => Some (HandlerSet.id d) | None => None end)) (request task) (requests s))).
  assert (Eset : setHandlerDesc (request task) handler s = Some (s1, Ok tt)) by done.
  assert (Hr1 : requests s1 !! request task = Some r1) by (cbn; by rewrite lookup_alter_eq, Hr).
  destruct (no_handlers handler) eqn:Hn; [case_bool_decide as Hfs|]; cbn [negb andb].
  - rewrite (bind_ok _ _ _ _ _ Eset).
    destruct (sendError_request s1 _ r1 404 Hr1 Hs Hio ltac:(lia)) as (s2 & r2 & E & Hl & Ha & Hp & _).
    exists s2, r2. split; [|done]. rewrite <- E. unfold handleRequestInternal, no_handlers in *.
    destruct handler as [d|]; [|done]. by rewrite Hn.
  - destruct (Hpools (HandlerSet.getDefaultPool handler_set)) as [rp Hrp]; [apply pools_needed_spec; by left|].
    set (task1 := MkTask (request task) fs [] true true (start_ task)).
    destruct (enqueue_spec s _ task1 r rp Hrp Hr Hs Hio) as (s2 & r2 & E & Hl & Ho & Hc).
    exists s2, r2. split; [exact E|]. split; [exact Hl|]. exists rp. split; [done|]. split; [done|].
    destruct (accepts_tasks _); [|done]. by destruct Hc as (-> & _ & Hq).
  - destruct handler as [d|]; [|done]. cbn in Hn. rewrite (bind_ok _ _ _ _ _ Eset).
    destruct (Hpools (HandlerSet.poolName d)) as [rp Hrp].
    { apply pools_needed_spec. right. exists d. split; [by eapply find_handler_in|done]. }
    unfold handleRequestInternal. rewrite Hn.
    set (task1 := MkTask (request task) fs (HandlerSet.handlers d) true true (start_ task)).
    destruct (enqueue_spec s1 _ task1 r1 rp Hrp Hr1 Hs Hio) as (s2 & r2 & E & Hl & Ho & Hc).
    exists s2, r2. split; [exact E|]. split; [exact Hl|]. exists rp. split; [done|]. split; [done|].
    destruct (accepts_tasks _); [|done]. by destruct Hc as (-> & _ & Hq).
Qed.
End Answers.

(** ** A server with one request *)

Section Examples.
Import Server RequestTask.
#[local] Existing Instance literal_regex.

Definition login_page : Request.t MemStream :=
  Request.set_stream (Request.set_in Request.create (set_vars no_input [(lit "SCRIPT_NAME", lit "/app/login")]))
    (Some (MkStream [] [])).

Definition started_pool : ThreadPool.t Task := ThreadPool.start (ThreadPool.create 1 2).

Definition demo_server : Server.t nat MemStream StringBuffer.t :=
  MkServer {[1%nat := MkRequestState login_page [] None]} None ∅ None ∅ [] 100
    (<[lit "main" := MkRequestsPool 0 started_pool]> {[lit "auth" := MkRequestsPool 0 started_pool]}) [].

Definition demo_task : Task := MkTask 1 [] [] false false 0.

(** The handler answers with a status it makes up. *)
Definition teapot (i : nat) : prog (World nat MemStream StringBuffer.t) unit := throw (HttpException 418).
Definition through (i : nat) (next : prog (World nat MemStream StringBuffer.t) unit) := next.

Lemma task_answered_witness :
  exists s' r', handleTask teapot through small_set 0 (MkTask 1 [] [1%nat] true true 100) demo_server =
    Some (s', Ok tt) /\ requests s' !! 1%nat = Some r' /\ answered output_ login_page (object r') (error_text 418).
Proof.
  destruct (task_answered input_ output_ teapot through small_set demo_server (MkTask 1 [] [1%nat] true true 100)
    (MkRequestState login_page [] None) 0
    (set_task_handlers (enter demo_server (MkRequestState login_page [] None)) [1%nat]) (Throw (HttpException 418))
    eq_refl eq_refl) as (_ & H).
  specialize (H ltac:(cbn; lia) ltac:(by eexists) ltac:(cbn; lia)). cbn -[handleTask] in H.
  destruct H as (s' & r' & E & Hl & Ha & _). exists s', r'. split; [exact E|]. split; [exact Hl|exact Ha].
Defined.

Definition login_handler : option (HandlerSet.HandlerDescription bytes) :=
  List.find (fun d => str_eqb (HandlerSet.poolName d) (lit "auth")) (HandlerSet.handlers_ small_set).

Lemma demo_lookup :
  HandlerSet.findURIFilters small_set login_page [] = Ok [3%nat] /\
  HandlerSet.findURIHandler small_set login_page = Ok login_handler /\
  destination small_set [3%nat] login_handler = Some (lit "auth", [1%nat]).
Proof. split; [|split]; vm_compute; reflexivity. Qed.

Lemma demo_pools pool :
  pool ∈ HandlerSet.getPoolsNeeded small_set -> pool = lit "main" \/ pool = lit "auth".
Proof.
  intros [->|(d & Hd & <-)]%pools_needed_spec; [left; vm_compute; reflexivity|].
  assert (Hall : forallb (fun d => str_eqb (HandlerSet.poolName d) (lit "main") ||
    str_eqb (HandlerSet.poolName d) (lit "auth")) (HandlerSet.handlers_ small_set) = true)
    by (vm_compute; reflexivity).
  rewrite forallb_forall in Hall. apply list_elem_of_In, Hall, orb_true_iff in Hd.
  rewrite !str_eqb_true in Hd. exact Hd.
Qed.

Lemma demo_pool : pools demo_server !! lit "main" = Some (MkRequestsPool 0 started_pool) /\
  pools demo_server !! lit "auth" = Some (MkRequestsPool 0 started_pool) /\
  accepts_tasks started_pool = true /\ pool_queue demo_server (lit "auth") = [].
Proof. split; [|split; [|split]]; vm_compute; reflexivity. Qed.

Lemma dispatch_outcome_witness :
  exists s', handle_request small_set demo_task demo_server = Some (s', Ok tt) /\
    pool_queue s' (lit "auth") = [MkTask 1 [3%nat] [1%nat] true true 100].
Proof.
  destruct demo_lookup as (Hf & Hh & Hd), demo_pool as (Hm & Ha & Hacc & Hq).
  destruct (dispatch_outcome input_ output_ small_set demo_server demo_task (MkRequestState login_page [] None)
    [3%nat] login_handler eq_refl eq_refl (ex_intro _ _ eq_refl) Hf Hh)
    as (s' & r' & E & _ & H).
  - intros pool Hp. destruct (demo_pools pool Hp) as [-> | ->]; eexists; [exact Hm|exact Ha].
  - exists s'. split; [exact E|]. rewrite Hd in H. destruct H as (rp & Hrp & _ & H).
    rewrite Ha in Hrp. injection Hrp as <-. cbn [pool_] in H. rewrite Hacc in H.
    destruct H as [_ H]. rewrite H, Hq. reflexivity.
Defined.
End Examples.
