(* ===== verification/Serving.v ===== *)
(** * Serving

    The server of [Server] with the threads of its pools ([ThreadPool]): a thread that runs a
    task runs [handleTask] on the state of the server. What is shown is the promise of the whole
    to a client: every request that a pool has accepted is answered. *)

From S2P Require Import Prelude Cxx OrdMap Ranges Buffer Parser Codec Request Session SessionManager Handlers.
From S2P Require Import Program Security ThreadPool Server.

(** ** Tasks in a pool *)

Section Tasks.
Context {T : Type}.
Import ThreadPool.
Implicit Types (p : t T) (w : worker T).

Definition w_tasks w : list T := match w with Running task => [task] | _ => [] end.
Definition running (l : list (worker T)) : list T := flat_map w_tasks l.

(** The tasks a pool still has to finish: those that threads run, and those in the queue. *)
Definition open_tasks p : list T := running (threads_ p) ++ tasksQueue_ p.

Lemma running_put l i w w' :
  l !! i = Some w -> (w_tasks w ++ running (<[i := w']> l)) ≡ₚ (w_tasks w' ++ running l).
Proof.
  revert i. induction l as [|x l IH]; intros [|i] H; [done..| |].
  - injection H as ->. change (<[0%nat:=w']> (w :: l)) with (w' :: l). unfold running. cbn [flat_map].
    by rewrite !(Permutation_app_comm (w_tasks w)), !app_assoc, !(Permutation_app_comm (w_tasks w')).
  - change (<[Datatypes.S i:=w']> (x :: l)) with (x :: <[i:=w']> l). unfold running in *. cbn [flat_map].
    rewrite !(Permutation_app_swap_app _ (w_tasks x)). by rewrite (IH i H).
Qed.

Lemma open_put p i w w' :
  threads_ p !! i = Some w -> w_tasks w ++ open_tasks (put p i w') ≡ₚ w_tasks w' ++ open_tasks p.
Proof.
  intros H. unfold open_tasks. cbn [put threads_ set_threads tasksQueue_].
  rewrite !app_assoc. by rewrite (running_put _ _ _ w' H).
Qed.

Lemma open_lock p i w state p' o :
  threads_ p !! i = Some w -> w_tasks w = [] -> lock p i state = Some (p', o) -> open_tasks p' ≡ₚ open_tasks p.
Proof.
  intros Hi Hw. unfold lock, next_task. set (p1 := set_info p _).
  assert (Hi1 : threads_ p1 !! i = Some w) by done.
  destruct (negb _); [|cbn [tasksQueue_ set_info]; destruct (tasksQueue_ p1) as [|task queue] eqn:Hq];
    intros [= <- _].
  - pose proof (open_put p1 i w Exited Hi1) as H. rewrite Hw in H. exact H.
  - pose proof (open_put p1 i w Waiting Hi1) as H. rewrite Hw in H. exact H.
  - set (p2 := set_info _ _). assert (Hi2 : threads_ p2 !! i = Some w) by done.
    pose proof (open_put p2 i w (Running task) Hi2) as H. rewrite Hw in H. cbn [app w_tasks] in H. rewrite H.
    unfold open_tasks. change (tasksQueue_ p2) with queue. change (threads_ p2) with (threads_ p).
    change (tasksQueue_ p) with (tasksQueue_ p1). rewrite Hq. apply Permutation_middle.
Qed.

(** A step of the threads keeps the tasks, but for the one that a thread ends. *)
Lemma open_step p e p' o :
  worker_event e = true -> (forall i ok, e <> EFinish i ok) -> step p e = Some (p', o) ->
  open_tasks p' ≡ₚ open_tasks p.
Proof.
  intros He Hf. destruct e as [| |task|i| |i|i|i|i ok]; try done; cbn [step].
  - destruct (pending p); [done|]. destruct (threads_ p !! i) as [[]|] eqn:Hi; try done. intros [= <- _].
    exact (open_put p i _ Woken Hi).
  - destruct (pending p); [done|]. by destruct (existsb _ _); [done|]; intros [= <- _].
  - destruct (threads_ p !! i) as [[]|] eqn:Hi; try done. intros [= <- _]. exact (open_put p i _ (Ready None) Hi).
  - by destruct (threads_ p !! i) as [[]|] eqn:Hi; try done; apply (open_lock p i _ _ _ _ Hi).
  - by destruct (Hf i ok).
Qed.

Lemma running_none p : count w_running p = 0%nat -> running (threads_ p) = [].
Proof. unfold count. induction (threads_ p) as [|[] l IH]; cbn; try done; auto; lia. Qed.

Lemma running_elem p i task : threads_ p !! i = Some (Running task) -> task ∈ open_tasks p.
Proof.
  intros Hi%list_elem_of_lookup_2. apply elem_of_app. left. unfold running.
  apply list_elem_of_In, in_flat_map. exists (Running task). split; [by apply list_elem_of_In|by left].
Qed.
End Tasks.

(** ** The threads of a server *)

Section Threads.
Context {V S I R : Type} {IO : IOStream S} (pending written : S -> bytes) {IOk : IOStreamOk S pending written}.
Context {DB : DataBufferImpl I} {HS : StringImpl I} {RE : Regex R}.
Context (handleRequest : nat -> prog (World V S I) unit).
Context (doFilter : nat -> prog (World V S I) unit -> prog (World V S I) unit) (handler_set : HandlerSet.t R).
Import Server RequestTask.
Implicit Types (s : Server.t V S I) (task : Task) (r : RequestState S) (pool : bytes) (e : ThreadPool.event Task).

Definition put_pool s pool (delay : Z) (p : ThreadPool.t Task) : Server.t V S I :=
  set_pools s (<[pool := MkRequestsPool delay p]> (pools s)).

(** A step of a thread of a pool. When it is to end its task it runs [handleTask], whose outcome
    says whether the task counts as good. *)
Definition thread_step pool e s : option (Server.t V S I) :=
  rp ← pools s !! pool;
  match e with
  | ThreadPool.EFinish i _ =>
      match ThreadPool.threads_ (pool_ rp) !! i with
      | Some (ThreadPool.Running task) =>
          '(s, res) ← handleTask handleRequest doFilter handler_set (delay_ rp) task s;
          rp ← pools s !! pool;
          ok ← (match res with Ok _ => Some true | Throw _ => Some false | Undef => None end);
          '(p, _) ← ThreadPool.step (pool_ rp) (ThreadPool.EFinish i ok);
          Some (put_pool s pool (delay_ rp) p)
      | _ => None
      end
  | _ => '(p, _) ← ThreadPool.step (pool_ rp) e; Some (put_pool s pool (delay_ rp) p)
  end.

(** However the threads of the pool are scheduled, [P] comes to hold. *)
Inductive bound_to pool (P : Server.t V S I -> Prop) s : Prop :=
| bound_now : P s -> bound_to pool P s
| bound_later :
    (exists e s', ThreadPool.worker_event e = true /\ thread_step pool e s = Some s') ->
    (forall e s', ThreadPool.worker_event e = true -> thread_step pool e s = Some s' -> bound_to pool P s') ->
    bound_to pool P s.

Lemma bound_to_mono pool (P Q : Server.t V S I -> Prop) s :
  (forall s, P s -> Q s) -> bound_to pool P s -> bound_to pool Q s.
Proof. intros HPQ. induction 1 as [s H|s He _ IH]; [constructor; auto|by apply bound_later]. Qed.

(** What the chain of filters and handlers of a task must do for its request: end, without
    undefined behaviour or a dispatch, and leave the stream of the response in place. *)
Definition ends_well (w : World V S I) (res : result unit) : Prop :=
  is_Some (Request.stream_ (req w)) /\
  match res with
  | Ok _ => True
  | Throw (DispatchException _ _ _ _ _) | Undef => False
  | Throw e => 0 <= error_status e < 2 ^ 16
  end.

Definition serves task r : Prop := forall s, exists w res,
  run_request handleRequest doFilter (filters task) (handlers task)
    (if futureHandlers task then Some (future_handlers handler_set) else None) (enter s r) = Some (w, res) /\
  ends_well w res.

(** Nothing but the request at [p] changes. *)
Definition only (p : nat) s s' : Prop :=
  pools s' = pools s /\ forall q, q <> p -> requests s' !! q = requests s !! q.

Lemma on_request_only {A} p (m : prog (World V S I) A) s s' res :
  on_request p m s = Some (s', res) -> only p s s'.
Proof.
  unfold on_request. destruct (requests s !! p); [|by intros [= <- _]].
  destruct (m _) as [[w x]|]; [|done]. intros [= <- _]. split; [done|]. intros q Hq. cbn. by rewrite lookup_insert_ne.
Qed.

Lemma only_trans p s1 s2 s3 : only p s1 s2 -> only p s2 s3 -> only p s1 s3.
Proof. intros [H1 H2] [H3 H4]. split; [congruence|]. intros q Hq. by rewrite H4, H2. Qed.

(** The request at [p] has been answered. *)
Definition served s (p : nat) : Prop := exists r, requests s !! p = Some r /\ Request.headers_sent_ (object r) = true.

(** What is promised of a computation on behalf of the request at [p]. *)
Definition answers (p : nat) s s' (res : result unit) : Prop := res <> Undef /\ served s' p /\ only p s s'.

Lemma chain_answers s task r :
  requests s !! request task = Some r -> serves task r ->
  runs (try_catch (on_request (request task) (run_request handleRequest doFilter (filters task) (handlers task)
      (if futureHandlers task then Some (future_handlers handler_set) else None)))
    (handle_exception handler_set task)) s (answers (request task) s).
Proof.
  intros Hr Hserves. destruct (Hserves s) as (w & res & E & Hio & Hres).
  set (run := run_request handleRequest doFilter _ _ _) in *. set (s1 := leave s (request task) w).
  assert (Eo : on_request (request task) run s = Some (s1, res)) by (by rewrite (on_request_run s _ r _ Hr), E).
  pose proof (on_request_only _ _ _ _ _ Eo) as Ho.
  pose proof (leave_lookup s (request task) w) as Hl. fold s1 in Hl. unfold runs.
  destruct res as [[]|e|]; [| |by destruct Hres].
  - exists s1, (Ok tt). split; [by apply try_catch_ok|]. split; [done|]. split; [|exact Ho].
    eexists. split; [exact Hl|]. by eapply run_request_sent.
  - assert (Hd : (forall t u d b x, e <> DispatchException t u d b x) /\ 0 <= error_status e < 2 ^ 16) by (by destruct e).
    destruct Hd as [Hd Hst]. rewrite (try_catch_throw _ _ _ _ _ Eo).
    pose proof (handle_exception_answers pending written handler_set s1 task _ e Hl Hd Hio Hst) as Ha. cbn [object] in Ha.
    destruct (Request.headers_sent_ (req w)) eqn:Hw.
    + destruct Ha as (s' & E' & Hq & Hp & _). exists s', (Throw e). split; [done|]. split; [done|].
      split; [eexists; split; [by rewrite Hq, Hl|done]|]. eapply only_trans; [exact Ho|]. split; [done|].
      intros q _. by rewrite Hq.
    + destruct Ha as (s' & r' & E' & Hq & (Hsent & _) & _). exists s', (Ok tt). split; [done|]. split; [done|].
      split; [by exists r'|]. eapply only_trans; [exact Ho|]. eapply on_request_only.
      destruct e; try (by destruct (Hd type url data begin_ end_)); exact E'.
Qed.

(** A task that is handled answers its request, in time or not. *)
Lemma handleTask_answers delay s task r :
  requests s !! request task = Some r -> Request.headers_sent_ (object r) = false ->
  is_Some (Request.stream_ (object r)) -> serves task r ->
  runs (handleTask handleRequest doFilter handler_set delay task) s (answers (request task) s).
Proof.
  intros Hr Hs Hio Hserves.
  set (inner := n ← gets now; if n - start_ task <? delay then log LogTimedOut ;; sendError (request task) 503
    else try_catch (on_request (request task) (run_request handleRequest doFilter (filters task) (handlers task)
      (if futureHandlers task then Some (future_handlers handler_set) else None))) (handle_exception handler_set task)).
  assert (Hi : runs inner s (answers (request task) s)).
  { unfold runs, inner. rewrite bind_gets. destruct (_ <? _); [|by eapply chain_answers].
    set (s1 := set_logged s (logged s ++ [LogTimedOut])). unfold log. rewrite bind_modify. fold s1.
    destruct (sendError_request pending written s1 _ r 503 Hr Hs Hio ltac:(lia)) as (s' & r' & E & Hl & (Hsent & _) & _).
    exists s', (Ok tt). split; [done|]. split; [done|]. split; [by exists r'|].
    apply (only_trans _ _ s1); [done|]. by eapply on_request_only. }
  destruct Hi as (s' & res & E & Hn & Hv & Ho). unfold runs, handleTask. fold inner.
  destruct res as [[]|e|]; [| |done].
  - exists s', (Ok tt). split; [by apply try_catch_ok|]. done.
  - rewrite (try_catch_throw _ _ _ _ _ E). eexists _, _. split; [reflexivity|]. by split.
Qed.

(** ** Every request is answered *)

Section Pool.
Context (n q : Z) (pool : bytes) (tasks : list Task) (s0 : Server.t V S I).

Definition waits s task : Prop := exists r, requests s !! request task = Some r /\
  Request.headers_sent_ (object r) = false /\ is_Some (Request.stream_ (object r)) /\ serves task r.

(** While the threads of the pool run: the tasks that were there are unfinished or answered, and
    no other request has changed. *)
Record serving s delay (p : ThreadPool.t Task) (os : list (ThreadPool.obs Task)) : Prop := {
  sv_pool : pools s !! pool = Some (MkRequestsPool delay p);
  sv_ok : pool_ok n q p os;
  sv_started : ThreadPool.started (ThreadPool.info_ p) = true;
  sv_distinct : NoDup (map request (open_tasks p));
  sv_open : forall task, task ∈ open_tasks p -> waits s task;
  sv_tasks : forall task, task ∈ tasks -> task ∈ open_tasks p \/ served s (request task);
  sv_other : forall id, id ∉ map request tasks -> requests s !! id = requests s0 !! id;
  sv_in : forall task, task ∈ open_tasks p -> request task ∈ map request tasks
}.

Lemma open_moved s p delay os p' o e :
  serving s delay p os -> ThreadPool.worker_event e = true -> ThreadPool.step p e = Some (p', o) ->
  open_tasks p' ≡ₚ open_tasks p -> serving (put_pool s pool delay p') delay p' (os ++ o).
Proof.
  intros [H1 H2 H3 H4 H5 H6 H7 H8] He E Ho. split; try done.
  - cbn. by rewrite lookup_insert_eq.
  - by eapply step_ok.
  - by rewrite (proj1 (worker_step_same _ _ _ _ os He E)).
  - by rewrite Ho.
  - intros task. rewrite Ho. apply H5.
  - intros task Ht. rewrite Ho. by apply H6.
  - intros task. rewrite Ho. apply H8.
Qed.

(** A thread ends a task, which it has just answered. *)
Lemma open_ended s s1 p delay os p' o i ok task :
  serving s delay p os -> ThreadPool.threads_ p !! i = Some (ThreadPool.Running task) ->
  ThreadPool.step p (ThreadPool.EFinish i ok) = Some (p', o) -> served s1 (request task) -> only (request task) s s1 ->
  serving (put_pool s1 pool delay p') delay p' (os ++ o).
Proof.
  intros [H1 H2 H3 H4 H5 H6 H7 H8] Hi E Hv [Hp Ho].
  assert (Hopen : (task :: open_tasks p') ≡ₚ open_tasks p).
  { cbn [ThreadPool.step] in E. rewrite Hi in E. injection E as <- _. exact (open_put p i _ (ThreadPool.Ready (Some ok)) Hi). }
  assert (Hd : (request task ∉ map request (open_tasks p')) /\ NoDup (map request (open_tasks p'))).
  { rewrite <- Hopen in H4. cbn in H4. by apply NoDup_cons in H4. }
  destruct Hd as [Hd Hnd].
  assert (Hsub : forall t, t ∈ open_tasks p' -> t ∈ open_tasks p /\ request t <> request task).
  { intros t Ht. split; [rewrite <- Hopen; by right|]. intros Et. apply Hd. rewrite <- Et. by apply list_elem_of_fmap_2. }
  split; try done.
  - cbn. by rewrite lookup_insert_eq.
  - by eapply step_ok.
  - by rewrite (proj1 (worker_step_same _ (ThreadPool.EFinish i ok) _ _ os eq_refl E)).
  - intros t Ht. destruct (Hsub t Ht) as [Ht' Hne]. destruct (H5 t Ht') as (r & Hr & Hrest).
    exists r. split; [|done]. cbn. by rewrite Ho.
  - intros t Ht. destruct (H6 t Ht) as [Hin|(r & Hr & Hsent)].
    + rewrite <- Hopen in Hin. apply elem_of_cons in Hin as [->|Hin]; [by right|by left].
    + right. destruct (decide (request t = request task)) as [->|Hne]; [exact Hv|].
      exists r. split; [|done]. cbn. by rewrite Ho.
  - intros id Hid. cbn. rewrite Ho; [by apply H7|]. intros ->. apply Hid, (H8 task). by eapply running_elem.
  - intros t Ht. by apply H8, Hsub.
Qed.

(** What it takes to run the task of a thread. *)
Lemma finish_runs s delay p os i task :
  serving s delay p os -> ThreadPool.threads_ p !! i = Some (ThreadPool.Running task) ->
  runs (handleTask handleRequest doFilter handler_set delay task) s (answers (request task) s).
Proof.
  intros H Hi. destruct (sv_open _ _ _ _ H task (running_elem _ _ _ Hi)) as (r & Hr & Hs & Hio & Hv).
  by eapply handleTask_answers.
Qed.

(** [EFinish] at a thread that runs a task. *)
Lemma thread_step_finish s delay p os i ok task :
  serving s delay p os -> ThreadPool.threads_ p !! i = Some (ThreadPool.Running task) ->
  exists s1 ok', served s1 (request task) /\ only (request task) s s1 /\
    thread_step pool (ThreadPool.EFinish i ok) s =
      ('(p', _) ← ThreadPool.step p (ThreadPool.EFinish i ok'); Some (put_pool s1 pool delay p')).
Proof.
  intros H Hi. destruct (finish_runs _ _ _ _ _ _ H Hi) as (s1 & res & E & Hn & Hv & Ho).
  assert (Hp : pools s1 !! pool = Some (MkRequestsPool delay p)) by (rewrite (proj1 Ho); apply H).
  exists s1, (if res is Throw _ then false else true). split; [done|]. split; [done|].
  unfold thread_step. rewrite (sv_pool _ _ _ _ H). cbn [mbind option_bind pool_ delay_]. rewrite Hi, E.
  cbn [mbind option_bind]. rewrite Hp. cbn [mbind option_bind pool_ delay_]. by destruct res.
Qed.

Lemma thread_step_other s delay p e :
  pools s !! pool = Some (MkRequestsPool delay p) -> (forall i ok, e <> ThreadPool.EFinish i ok) ->
  thread_step pool e s = ('(p', _) ← ThreadPool.step p e; Some (put_pool s pool delay p')).
Proof.
  intros H Hf. unfold thread_step. rewrite H. cbn [mbind option_bind pool_ delay_].
  destruct e as [| | | | | | | |i ok]; try done. by destruct (Hf i ok).
Qed.

Lemma event_cases e :
  (exists i ok, e = ThreadPool.EFinish i ok) \/ (forall i ok, e <> ThreadPool.EFinish i ok).
Proof. destruct e as [| | | | | | | |i ok]; try (by right). left. by exists i, ok. Qed.

Lemma serving_step s delay p os e s' :
  serving s delay p os -> ThreadPool.worker_event e = true -> thread_step pool e s = Some s' ->
  exists p' os', serving s' delay p' os' /\ (work p' < work p)%nat.
Proof.
  intros H He Hs. destruct (event_cases e) as [(i & ok & ->)|Hf].
  - assert (Hi : exists task, ThreadPool.threads_ p !! i = Some (ThreadPool.Running task)).
    { unfold thread_step in Hs. rewrite (sv_pool _ _ _ _ H) in Hs. cbn [mbind option_bind pool_] in Hs.
      destruct (_ !! i) as [[| | | |task|]|]; try done. by exists task. }
    destruct Hi as [task Hi]. destruct (thread_step_finish _ _ _ _ i ok task H Hi) as (s1 & ok' & Hv & Ho & E).
    rewrite E in Hs. destruct (ThreadPool.step p _) as [[p' o]|] eqn:Ep; [|done]. injection Hs as <-.
    exists p', (os ++ o). split; [by eapply open_ended|].
    exact (worker_step_work p (ThreadPool.EFinish i ok') _ _ eq_refl Ep).
  - rewrite (thread_step_other _ _ _ _ (sv_pool _ _ _ _ H) Hf) in Hs.
    destruct (ThreadPool.step p e) as [[p' o]|] eqn:Ep; [|done]. injection Hs as <-.
    exists p', (os ++ o). split; [|by eapply worker_step_work].
    eapply open_moved; [done..|]. by eapply open_step.
Qed.

(** Until the pool has settled one of its threads can go on. *)
Lemma serving_goes_on s delay p os :
  serving s delay p os -> ~ settled p ->
  exists e s', ThreadPool.worker_event e = true /\ thread_step pool e s = Some s'.
Proof.
  intros H Hn. destruct (work_to_do p Hn) as (e & p' & o & He & E).
  destruct (event_cases e) as [(i & ok & ->)|Hf].
  - cbn [ThreadPool.step] in E. destruct (_ !! i) as [[| | | |task|]|] eqn:Hi; try done.
    destruct (thread_step_finish _ _ _ _ i ok task H Hi) as (s1 & ok' & _ & _ & Es).
    eexists (ThreadPool.EFinish i ok), _. split; [done|]. rewrite Es. cbn [ThreadPool.step]. by rewrite Hi.
  - eexists e, _. split; [done|]. by rewrite (thread_step_other _ _ _ _ (sv_pool _ _ _ _ H) Hf), E.
Qed.

(** What is to become of the tasks. *)
Definition all_served s : Prop :=
  (forall task, task ∈ tasks -> served s (request task)) /\
  (exists rp, pools s !! pool = Some rp /\ open_tasks (pool_ rp) = []) /\
  (forall id, id ∉ map request tasks -> requests s !! id = requests s0 !! id).

Lemma serving_bound s delay p os : 0 < n -> serving s delay p os -> bound_to pool all_served s.
Proof.
  intros Hn. remember (work p) as k eqn:Hk. revert s p os Hk.
  induction k as [k IH] using lt_wf_ind; intros s p os -> H.
  assert (Hdec : settled p \/ ~ settled p) by (unfold settled; lia). destruct Hdec as [Hs|Hs].
  - destruct (settled_idle _ _ _ _ (sv_ok _ _ _ _ H) Hs Hn) as (Hr & _ & _ & Hq & _).
    assert (Ho : open_tasks p = []).
    { unfold open_tasks. by rewrite (running_none _ Hr), (Hq (sv_started _ _ _ _ H)). }
    apply bound_now. split; [|split; [|apply H]].
    + intros task Ht. destruct (sv_tasks _ _ _ _ H task Ht) as [Hin|]; [|done]. rewrite Ho in Hin. by apply elem_of_nil in Hin.
    + eexists. by split; [apply H|].
  - apply bound_later; [by eapply serving_goes_on|]. intros e s' He E.
    destruct (serving_step _ _ _ _ _ _ H He E) as (p' & os' & H' & Hlt). by eapply IH.
Qed.
End Pool.

(** C12: no request that a pool has accepted is left without an answer. In a started pool, reached
    by any sequence of calls and steps of its threads, let the requests of the unfinished tasks be
    distinct and unanswered, and their filters and handlers end for them, normally or with an
    exception. Then however the threads are scheduled the state is reached in which every one of
    these requests has had its response sent, by its handlers, by the error page for the
    exception or by the page for a timed-out task, in which no task is left, and in which no
    other request has been touched. *)
Theorem requests_served n q es p os s pool delay :
  0 < n -> 0 <= q -> ThreadPool.run (ThreadPool.create n q) es = Some (p, os) ->
  ThreadPool.started (ThreadPool.info_ p) = true ->
  pools s !! pool = Some (MkRequestsPool delay p) ->
  NoDup (map request (open_tasks p)) -> (forall task, task ∈ open_tasks p -> waits s task) ->
  bound_to pool (all_served pool (open_tasks p) s) s.
Proof.
  intros Hn Hq Hr Hs Hp Hd Hw. apply (serving_bound n q pool (open_tasks p) s s delay p os Hn).
  pose proof (run_ok n q es _ [] p os (create_ok n q Hq) Hr) as Hok. cbn [app] in Hok.
  split; try done; [by left|]. intros task Ht. by apply list_elem_of_fmap_2.
Qed.
End Threads.

(** ** A pool with one request *)

Section Examples.
Import Server RequestTask.
#[local] Existing Instance literal_regex.

Definition teapot_task : Task := MkTask 1 [] [1%nat] true true 100.

(** The thread of the pool has taken the task and is to run it. *)
Definition teapot_events : list (ThreadPool.event Task) :=
  [ThreadPool.EStart; ThreadPool.EAdd teapot_task; ThreadPool.EInit 0; ThreadPool.ELock 0; ThreadPool.ENotifyNone].

Definition teapot_server (p : ThreadPool.t Task) : Server.t nat MemStream StringBuffer.t :=
  put_pool demo_server (lit "main") 0 p.

Lemma teapot_serves : serves teapot through small_set teapot_task (MkRequestState login_page [] None).
Proof. intros s. eexists _, _. split; [reflexivity|]. split; [by eexists|]. cbn. lia. Qed.

Lemma requests_served_witness :
  exists p os, ThreadPool.run (ThreadPool.create 1 2) teapot_events = Some (p, os) /\
    open_tasks p = [teapot_task] /\
    bound_to teapot through small_set (lit "main") (fun s' => served s' 1%nat) (teapot_server p).
Proof.
  destruct (ThreadPool.run (ThreadPool.create 1 2) teapot_events) as [[p os]|] eqn:E; [|vm_compute in E; discriminate E].
  assert (Ho : open_tasks p = [teapot_task]) by (vm_compute in E; injection E as <- _; reflexivity).
  assert (Hs : ThreadPool.started (ThreadPool.info_ p) = true) by (vm_compute in E; injection E as <- _; reflexivity).
  exists p, os. split; [reflexivity|]. split; [exact Ho|].
  pose proof (requests_served input_ output_ teapot through small_set 1 2 teapot_events p os (teapot_server p) (lit "main") 0
    ltac:(reflexivity) ltac:(discriminate) E Hs) as H.
  eapply bound_to_mono; [|apply H].
  - intros s' (Hv & _). apply (Hv teapot_task). rewrite Ho. by left.
  - cbn. by rewrite lookup_insert_eq.
  - rewrite Ho. apply NoDup_singleton.
  - intros task. rewrite Ho. intros ->%list_elem_of_singleton. eexists. split; [reflexivity|].
    split; [reflexivity|]. split; [by eexists|apply teapot_serves].
Defined.
End Examples.
