(* ===== verification/Servlet.v ===== *)
(** * Servlet

    [library/http_request.cpp], [http_response.cpp], [http_servlet.cpp] and [handler.cpp]: the
    classes that servlets and compiled pages see. [HttpRequest] and [HttpResponse] refer to the
    request and to the [HandlerContext] of its run, which the state [World] holds; a servlet is
    a handler that dispatches on the method of the request. *)

From S2P Require Import Prelude Cxx OrdMap Ranges Buffer Cookie Parser Except Codec Request Session SessionManager Handlers.
From S2P Require Import Program Security ThreadPool Server.

Module HttpRequest.
Section Ops.
Context {V S I : Type} `{Any V} {IO : IOStream S} {DB : DataBufferImpl I} {HH : Subject.Hash} (crawler : bytes -> bool).
#[local] Abbreviation M := (prog (World V S I)).

Definition getHost : M bytes := Req.request_field Request.getHost.
Definition getServerAddr : M bytes := Req.request_field Request.getServerAddr.
Definition getPathInfo : M bytes := Req.request_field Request.getPathInfo.
Definition getPathTranslated : M bytes := Req.request_field Request.getPathTranslated.
Definition getScriptName : M bytes := Req.request_field Request.getScriptName.
Definition getScriptFilename : M bytes := Req.request_field Request.getScriptFilename.
Definition getDocumentRoot : M bytes := Req.request_field Request.getDocumentRoot.
Definition getRemoteUser : M bytes := Req.request_field Request.getRemoteUser.
Definition getRemoteAddr : M bytes := Req.request_field Request.getRemoteAddr.
Definition getQueryString : M bytes := Req.request_field Request.getQueryString.
Definition getRequestMethod : M bytes := Req.request_field Request.getRequestMethod.
Definition getRequestId : M bytes := Req.request_field Request.getRequestId.
Definition getContentType : M bytes := Req.request_field Request.getContentType.
Definition getURI : M bytes := Req.request_field Request.getURI.
Definition getUrl : M bytes := Req.request_field Request.getUrl.
Definition argNames : M (list bytes) := Req.request_field Request.argNames.
Definition headerNames : M (list bytes) := Req.request_field Request.headerNames.
Definition cookieNames : M (list bytes) := Req.request_field Request.cookieNames.
Definition remoteFiles : M (list bytes) := Req.request_field Request.remoteFiles.
Definition countArgs : M Z := Req.request_field Request.countArgs.
Definition countHeaders : M Z := Req.request_field Request.countHeaders.
Definition countCookie : M Z := Req.request_field Request.countCookie.
Definition countRemoteFiles : M Z := Req.request_field Request.countRemoteFiles.
Definition getEnvVariable (name : bytes) : M bytes := Req.request_field (fun r => Request.getEnvVariable r name).
Definition getArg (name : bytes) : M bytes := Req.request_field (fun r => Request.getArg r name).
Definition getHeader (name : bytes) : M bytes := Req.request_field (fun r => Request.getHeader r name).
Definition getCookie (name : bytes) : M bytes := Req.request_field (fun r => Request.getCookie r name).
Definition remoteFileName (name : bytes) : M bytes := Req.request_field (fun r => Request.remoteFileName r name).
Definition remoteFileType (name : bytes) : M bytes := Req.request_field (fun r => Request.remoteFileType r name).
Definition getArgs (name : bytes) : M (list bytes) := Req.request_field (fun r => Request.getArgs r name).
Definition hasArg (name : bytes) : M bool := Req.request_field (fun r => Request.hasArg r name).
Definition hasHeader (name : bytes) : M bool := Req.request_field (fun r => Request.hasHeader r name).
Definition hasCookie (name : bytes) : M bool := Req.request_field (fun r => Request.hasCookie r name).
Definition hasRemoteFile (name : bytes) : M bool := Req.request_field (fun r => Request.hasRemoteFile r name).
Definition hasFile (name : bytes) : M bool := Req.request_field (fun r => Request.hasFile r name).
Definition isSecure : M bool := Req.request_field Request.isSecure.
Definition requestBody : M DataBuffer := Req.request_field Request.requestBody.
Definition getServerPort : M Z := n ← Req.request_field Request.getServerPort; lift n.
Definition getContentLength : M Z := n ← Req.request_field Request.getContentLength; lift n.
Definition remoteFile (name : bytes) : M DataBuffer := r ← gets req; h ← gets heap; lift (Request.remoteFile h r name).

Definition createSession : M (option nat) := Req.createSession crawler.
Definition getSession : M (option nat) := Req.getSession crawler.
Definition getSubject : M nat := Req.getSubject.
Definition isUserInRole (roleName : bytes) : M bool := Req.isUserInRole roleName.

(** The attributes of the request are those of the context; listeners are not called there. *)
Definition setAttribute (name : bytes) (value : V) : M unit :=
  modify (fun w => set_context w (AttributesHolder.setAttribute (context_ w) name value).1).
Definition getAttribute (name : bytes) : M V := gets (fun w => AttributesHolder.getAttribute (context_ w) name).
Definition hasAttribute (name : bytes) : M bool := gets (fun w => AttributesHolder.hasAttribute (context_ w) name).
Definition removeAttribute (name : bytes) : M unit :=
  c ← gets context_; c ← lift (AttributesHolder.removeAttribute c name); modify (fun w => set_context w c).
Definition removeAllAttributes : M unit :=
  modify (fun w => set_context w (AttributesHolder.removeAllAttributes (context_ w))).

(** [HandlerContextImpl] *)
Definition getParam (name : bytes) : M V := getAttribute name.
Definition setParam (name : bytes) (value : V) : M unit := setAttribute name value.
End Ops.
End HttpRequest.

Module HttpResponse.
Section Ops.
Context {V S I R : Type} {IO : IOStream S} {DB : DataBufferImpl I} {RE : Regex R}.
#[local] Abbreviation M := (prog (World V S I)).
Context (handleRequest : nat -> M unit) (hs : HandlerSet.t R) (cs : ComponentSet).

Definition setCookie (c : Cookie.t) : M unit := Req.request_set (fun r => Request.setCookie r c).
Definition setStatus (status : Z) : M unit := Req.request_set (fun r => Request.setStatus r status).
Definition sendError (status : Z) : M unit := RequestTask.request_call (fun r => Request.sendError r status).
Definition setHeader (name value : bytes) : M unit := Req.request_set (fun r => Request.setHeader r name value).
Definition write_buf (buf : bytes) : M unit := RequestTask.request_call (fun r => Request.write_buf r buf).
Definition write (buf : bytes) : M Z := RequestTask.request_call (fun r => Request.write r buf).
Definition outputHeader (name : bytes) : M bytes := Req.request_field (fun r => Request.outputHeader r name).
Definition redirectBack : M unit := Req.request_set Request.redirectBack.
Definition redirectToPath (path : bytes) : M unit := Req.request_set (fun r => Request.redirectToPath r path).
Definition forwardToPath (path : bytes) : M unit := Req.request_set (fun r => Request.forwardToPath r path).
Definition setContentType (type : bytes) : M unit := Req.request_set (fun r => Request.setContentType r type).
Definition setContentEncoding (encoding : bytes) : M unit := Req.request_set (fun r => Request.setContentEncoding r encoding).

(** The functions [handlers] and [component] of [Servlet::handleRequest]. *)
Definition handlers (uri : bytes) : M (list nat) :=
  handler ← lift (HandlerSet.findURIHandler_uri hs uri);
  match handler with
  | Some d => if bool_decide (HandlerSet.handlers d = []) then throw Exceptions.NotFound else ret (HandlerSet.handlers d)
  | None => throw Exceptions.NotFound
  end.

Definition component (name : bytes) : M nat :=
  match components_find cs name with
  | None => throw (RuntimeError (lit "Cannot find component: " ++ name))
  | Some c =>
      if is_Handler cs c then ret c
      else throw (RuntimeError (lit "Component " ++ name ++ lit " does not implement interface Handler"))
  end.

Definition includePath (path : bytes) : M unit :=
  l ← handlers path; RequestTask.handle_all handleRequest l.

Definition includeComponent (name : bytes) : M unit :=
  processed ← Req.request_field Request.isProcessed;
  if negb processed then c ← component name; handleRequest c else ret tt.
End Ops.
End HttpResponse.

Module Servlet.

Inductive Method := HEAD | GET | POST | PUT | DELETE | OPTIONS | TRACE | PATCH.

Definition http_methods_map : list (bytes * Method) :=
  [(lit "HEAD", HEAD); (lit "GET", GET); (lit "POST", POST); (lit "PUT", PUT); (lit "DELETE", DELETE);
   (lit "OPTIONS", OPTIONS); (lit "TRACE", TRACE); (lit "PATCH", PATCH)].

Definition find_method (name : bytes) : option Method :=
  match find (fun m => str_eqb name m.1) http_methods_map with Some m => Some m.2 | None => None end.

Section Ops.
Context {V S I : Type} {IO : IOStream S}.
#[local] Abbreviation M := (prog (World V S I)).

(** The member functions of a servlet: those of a class that overrides some of them. *)
Record t := MkServlet {
  doHead : M unit;
  doGet : M unit;
  doPost : M unit;
  doPut : M unit;
  doDelete : M unit;
  doOptions : M unit;
  doTrace : M unit;
  doPatch : M unit
}.

Definition not_allowed : M unit := HttpResponse.sendError 405.

(** The base class. *)
Definition Servlet : t :=
  MkServlet not_allowed not_allowed not_allowed not_allowed not_allowed not_allowed not_allowed not_allowed.

Definition handleRequest (s : t) : M unit :=
  method ← HttpRequest.getRequestMethod;
  match find_method method with
  | Some GET => doGet s
  | Some POST => doPost s
  | Some HEAD => doHead s
  | Some PUT => doPut s
  | Some DELETE => doDelete s
  | Some OPTIONS => doOptions s
  | Some PATCH => doPatch s
  | Some TRACE => doTrace s
  | None => HttpResponse.sendError 405
  end.

(** [onLoad] finds the servlet's logger. *)
Definition onLoad (cs : ComponentSet) (is_Logger : nat -> bool) (config : Config) (componentXPath : bytes) : result nat :=
  loggerComponentName ← asString config (componentXPath ++ lit "/logger");
  match components_find cs loggerComponentName with
  | Some c => if is_Logger c then Ok c else Throw (RuntimeError (lit "cannot get component " ++ loggerComponentName))
  | None => Throw (RuntimeError (lit "cannot get component " ++ loggerComponentName))
  end.

(** [getParam] *)
Definition getParam (config : Config) (componentXPath name : bytes) : result bytes := asString config (componentXPath ++ name).
Definition getParam_default (config : Config) (componentXPath name defValue : bytes) : bytes :=
  asString_default config (componentXPath ++ name) defValue.
End Ops.
Arguments t : clear implicits.
End Servlet.

Section Dispatch.
Context {V S I : Type} {IO : IOStream S} (pending written : S -> bytes) {IOk : IOStreamOk S pending written}.
#[local] Abbreviation M := (prog (World V S I)).
Import Servlet.

Definition method_name (m : Method) : bytes :=
  match m with
  | HEAD => lit "HEAD" | GET => lit "GET" | POST => lit "POST" | PUT => lit "PUT"
  | DELETE => lit "DELETE" | OPTIONS => lit "OPTIONS" | TRACE => lit "TRACE" | PATCH => lit "PATCH"
  end.

Definition member (s : Servlet.t V S I) (m : Method) : M unit :=
  match m with
  | HEAD => doHead s | GET => doGet s | POST => doPost s | PUT => doPut s
  | DELETE => doDelete s | OPTIONS => doOptions s | TRACE => doTrace s | PATCH => doPatch s
  end.

Lemma find_method_name m : find_method (method_name m) = Some m.
Proof. by destruct m. Qed.

Lemma find_method_spec name m : find_method name = Some m -> name = method_name m.
Proof.
  unfold find_method. cbn [find http_methods_map fst].
  repeat (destruct (str_eqb name _) eqn:E; [intros [= <-]; by apply str_eqb_true in E|clear E]). done.
Qed.

Lemma not_allowed_answers (w : World V S I) :
  Request.headers_sent_ (req w) = false -> is_Some (Request.stream_ (req w)) ->
  exists r', not_allowed w = Some (set_req w r', Ok tt) /\ answered written (req w) r' (error_text 405).
Proof.
  intros Hs Hio. destruct (sendError_answers pending written (req w) 405 Hs Hio) as (r' & E & Ha); [lia|].
  exists r'. split; [|done]. unfold not_allowed, HttpResponse.sendError, RequestTask.request_call. by rewrite E.
Qed.

(** C40: A servlet does for a request what its member for the request's method does, and nothing
    else; methods are told apart by their exact names. A request of any other method, or of a
    method the servlet does not override, is answered with the error page 405. *)
Theorem servlet_dispatch (s : Servlet.t V S I) (w : World V S I) :
  (forall m, Request.getRequestMethod (req w) = method_name m -> handleRequest s w = member s m w) /\
  (Request.headers_sent_ (req w) = false -> is_Some (Request.stream_ (req w)) ->
   (forall m, Request.getRequestMethod (req w) = method_name m -> member s m = member Servlet m) ->
   exists r', handleRequest s w = Some (set_req w r', Ok tt) /\ answered written (req w) r' (error_text 405)).
Proof.
  assert (H1 : forall m, Request.getRequestMethod (req w) = method_name m -> handleRequest s w = member s m w).
  { intros m Hm. unfold handleRequest, HttpRequest.getRequestMethod, Req.request_field.
    rewrite bind_gets, Hm, find_method_name. by destruct m. }
  split; [exact H1|]. intros Hs Hio Hb.
  destruct (not_allowed_answers w Hs Hio) as (r' & E & Ha). exists r'. split; [|exact Ha].
  destruct (find_method (Request.getRequestMethod (req w))) as [m|] eqn:Em.
  - apply find_method_spec in Em. rewrite (H1 m Em), (Hb m Em), <- E. by destruct m.
  - unfold handleRequest, HttpRequest.getRequestMethod, Req.request_field. rewrite bind_gets, Em. exact E.
Qed.

(** A page that includes another: within one request they share their attributes. *)
Lemma include_shares_attributes `{Any V} (handle : nat -> M unit) (cs : ComponentSet) (w : World V S I) name value part c next :
  Request.isProcessed (req w) = false -> components_find cs part = Some c -> is_Handler cs c = true ->
  handle c = (v ← HttpRequest.getAttribute name; next v) ->
  (HttpRequest.setAttribute name value ;; HttpResponse.includeComponent handle cs part) w =
    next value (set_context w (AttributesHolder.setAttribute (context_ w) name value).1).
Proof.
  intros Hp Hc Hh Hn. unfold HttpRequest.setAttribute, HttpResponse.includeComponent, HttpResponse.component.
  rewrite bind_modify. unfold Req.request_field. rewrite bind_gets. cbn [req set_context]. rewrite Hp. cbn [negb].
  rewrite Hc, Hh, bind_ret, Hn. unfold HttpRequest.getAttribute. rewrite bind_gets. f_equal.
  unfold AttributesHolder.setAttribute, AttributesHolder.setAttributeInternal, AttributesHolder.getAttribute. cbn.
  destruct (AttributesHolder.attributes_ (context_ w) !! name); cbn; by rewrite lookup_insert_eq.
Qed.
End Dispatch.

Definition demo_page : World form_value MemStream StringBuffer.t := set_req demo_world login_page.

Lemma servlet_dispatch_witness :
  exists r', Servlet.handleRequest Servlet.Servlet demo_page = Some (set_req demo_page r', Ok tt) /\
    answered output_ (req demo_page) r' (error_text 405).
Proof.
  apply (proj2 (servlet_dispatch input_ output_ Servlet.Servlet demo_page)).
  - reflexivity.
  - eexists. reflexivity.
  - reflexivity.
Defined.
