(* ===== verification/Example.v ===== *)
(** * Example

    [example/example.cpp]: the components that show how the library is used: a realm over the
    users of the configuration, a filter, two handlers and a servlet. What they print and log
    is left out. *)

From S2P Require Import Prelude Cxx OrdMap Ranges Buffer Cookie Parser Except Codec Request Session SessionManager Handlers.
From S2P Require Import Program Security ThreadPool Server Servlet.

(** ** The realm *)

Module ExampleRealm.
Section Ops.
Context {HH : Subject.Hash}.

Record UserData := MkUser { password : bytes; roles : list bytes }.

Definition user (config : Config) (u : bytes) : bytes * UserData :=
  (asString_default config (u ++ lit "/@name") [],
   MkUser (asString_default config (u ++ lit "/@password") [])
     (map (fun r => asString_default config (r ++ lit "/@name") [])
        (config_subKeys config (u ++ lit "/role[count(@name)=1]")))).

(** [users_], in which the first user of a name stays. *)
Definition users (config : Config) (componentXPath : bytes) : gmap bytes UserData :=
  foldl (fun m u => match m !! u.1 with Some _ => m | None => <[u.1 := u.2]> m end) ∅
    (map (user config) (config_subKeys config (componentXPath ++ lit "/users/user[count(@name)=1]"))).

Fixpoint add_roles (s : Subject.t) (roles : list bytes) : result Subject.t :=
  match roles with
  | [] => Ok s
  | r :: roles' => s ← Subject.setPrincipal s r; add_roles s roles'
  end.

Definition subject_of (u : UserData) : result (option Subject.t) :=
  s ← add_roles Subject.create (roles u); Ok (Some (Subject.setReadOnly s)).

Definition authenticate (users : gmap bytes UserData) (username credentials : bytes) : result (option Subject.t) :=
  match users !! username with
  | Some u => if str_eqb credentials (password u) then subject_of u else Ok None
  | None => Ok None
  end.

Definition getSubject (users : gmap bytes UserData) (username : bytes) : result (option Subject.t) :=
  match users !! username with Some u => subject_of u | None => Ok None end.

Definition create (config : Config) (componentXPath : bytes) : Realm :=
  let m := users config componentXPath in
  MkRealm (realm_name (realm_create config componentXPath)) (authenticate m) (getSubject m).
End Ops.
End ExampleRealm.

(** ** The filter, the handlers and the servlet *)

Section Handlers.
Context {V S I R : Type} `{SessionValue V} {IO : IOStream S} {DB : DataBufferImpl I}
  {HH : Subject.Hash} {RE : Regex R} (crawler : bytes -> bool).
#[local] Abbreviation M := (prog (World V S I)).

(** [stream << text], on the stream of the request. *)
Definition put_text (text : bytes) : M unit := modify (fun w => set_response w (response w ++ text)).

Definition put_line (texts : list bytes) : M unit := put_text (concat texts ++ [Byte.x0a]).
End Handlers.

Module ExampleFilter.
Section Ops.
Context {V S I : Type} {IO : IOStream S}.

Definition doFilter (next : prog (World V S I) unit) : prog (World V S I) unit :=
  next ;;
  try_catch (HttpResponse.setHeader (lit "X-TestHeader") (lit "TestValue")) (fun _ => ret tt).
End Ops.
End ExampleFilter.

Module ExampleHandler.
Section Ops.
Context {V S I R : Type} `{SessionValue V} {IO : IOStream S} {DB : DataBufferImpl I}
  {HH : Subject.Hash} {RE : Regex R} (crawler : bytes -> bool).
#[local] Abbreviation M := (prog (World V S I)).

Definition onLoad (cs : ComponentSet) (is_Logger : nat -> bool) (config : Config) (componentXPath : bytes) : result nat :=
  Servlet.onLoad cs is_Logger config componentXPath.

Definition put_names (kind : bytes) (names : Request.t S -> list bytes) (get : Request.t S -> bytes -> bytes) : M unit :=
  r ← gets req;
  for_each (names r) (fun i => put_line [kind; lit " "; i; lit " has value "; get r i]).

(** [req->getSession()->...]: a null pointer is not checked. *)
Definition with_session_of {A} (k : nat -> M A) : M A :=
  Req.using_session crawler (fun p => match p with Some p => k p | None => lift Undef end).

Definition put_session : M unit :=
  has ← Req.using_session crawler (fun p => ret (bool_decide (is_Some p)));
  if (has : bool) then
    with_session_of (fun p => s ← Req.session p; put_line [lit "session_id="; Session.getId s]) ;;
    r ← gets req;
    (if Request.hasArg r (lit "a1")
     then with_session_of (fun p => FormAuthenticator.setAttribute p (lit "a1") (of_string (Request.getArg r (lit "a1"))))
     else ret tt) ;;
    kept ← with_session_of (fun p => FormAuthenticator.hasAttribute p (lit "a1"));
    if (kept : bool) then
      with_session_of (fun p =>
        a ← FormAuthenticator.getAttribute to_string_value p (lit "a1");
        put_text (lit "session attribute a1=" ++ a))
    else ret tt
  else put_line [lit "session is not supported in current configuration"].

Definition html_source : bytes :=
  let nl := [Byte.x0a] in
  nl ++ lit "<table border=" ++ [Byte.x22] ++ lit "1" ++ [Byte.x22] ++ lit ">" ++ nl ++
  [Byte.x09] ++ lit "<tr><td>1</td><td>2</td></tr>" ++ nl ++
  [Byte.x09] ++ lit "<tr><td>a</td><td>b</td></tr>" ++ nl ++ lit "</table>" ++ nl.

Definition handleRequest : M unit :=
  put_names (lit "arg") Request.argNames Request.getArg ;;
  put_names (lit "header") Request.headerNames Request.getHeader ;;
  put_names (lit "cookie") Request.cookieNames Request.getCookie ;;
  r ← gets req;
  put_line [lit "Remote User: "; Request.getRemoteUser r] ;;
  put_line [lit "ExampleHandler: test ok 222"] ;;
  put_session ;;
  put_text html_source ;;
  HttpResponse.setStatus 200 ;;
  HttpRequest.setParam (lit "param1") (of_string (lit "hi!")).
End Ops.
End ExampleHandler.

Module ExampleHandler2.
Section Ops.
Context {V S I : Type} {IO : IOStream S} {DB : DataBufferImpl I}.

(** The file that is uploaded is read, and printed. *)
Definition handleRequest : prog (World V S I) unit :=
  put_line [lit "ExampleHandler2: OK"] ;;
  r ← gets req;
  if str_eqb (Request.getScriptName r) (lit "/upload") && str_eqb (Request.getRequestMethod r) (lit "POST") then
    f ← HttpRequest.remoteFile (lit "file");
    h ← gets heap;
    lift (Buf.toString h f) ;; ret tt
  else ret tt.
End Ops.
End ExampleHandler2.

Module ExampleServlet.
Section Ops.
Context {V S I R : Type} {IO : IOStream S} {RE : Regex R}.
#[local] Abbreviation M := (prog (World V S I)).
Context (handleRequest : nat -> M unit) (hs : HandlerSet.t R).

Definition doGet : M unit :=
  put_line [[Byte.x0a]; lit "test ok 33 (servlet)"] ;;
  HttpResponse.includePath handleRequest hs (lit "/test").

Definition servlet : Servlet.t V S I :=
  Servlet.MkServlet (Servlet.doHead Servlet.Servlet) doGet (Servlet.doPost Servlet.Servlet) (Servlet.doPut Servlet.Servlet)
    (Servlet.doDelete Servlet.Servlet) (Servlet.doOptions Servlet.Servlet) (Servlet.doTrace Servlet.Servlet)
    (Servlet.doPatch Servlet.Servlet).
End Ops.
End ExampleServlet.

(** ** Logging in *)

Section Login.
Context {HH : Subject.Hash}.
Import ExampleRealm.

Lemma add_roles_spec l : forall s, Subject.readOnly_ s = false -> NoDup (map Subject.hash (Subject.principals_ s)) ->
  (NoDup (map Subject.hash (Subject.principals_ s ++ l)) /\ add_roles s l = Ok (Subject.MkSubject (Subject.principals_ s ++ l) false)) \/
  (~ NoDup (map Subject.hash (Subject.principals_ s ++ l)) /\ add_roles s l = Throw (RuntimeError (lit "Duplicate principal"))).
Proof.
  induction l as [|r l IH]; intros [ps ro] Hs Hd; cbn [Subject.readOnly_ Subject.principals_] in *; subst ro; cbn [add_roles].
  { left. by rewrite app_nil_r. }
  unfold Subject.setPrincipal. cbn [negb Subject.readOnly_ Subject.principals_].
  destruct (Subject.hasPrincipal_hash _ _) eqn:E; cbn [negb].
  - right. split; [|done]. apply hasPrincipal_hash_spec in E as (p & Hp & Eh). cbn [Subject.principals_] in Hp.
    rewrite map_app, NoDup_app. intros (_ & Hno & _). apply (Hno (Subject.hash p)); [by apply list_elem_of_fmap_2|].
    cbn [map]. rewrite Eh. left.
  - assert (Hnew : NoDup (map Subject.hash (ps ++ [r]))).
    { rewrite map_app. apply NoDup_app. split; [done|]. split; [|apply NoDup_singleton].
      intros z (p & -> & Hp)%list_elem_of_fmap Hz%list_elem_of_singleton.
      assert (Ht : Subject.hasPrincipal_hash (Subject.MkSubject ps false) (Subject.getHashCode r) = true)
        by (apply hasPrincipal_hash_spec; by exists p).
      congruence. }
    cbn [mbind result_bind]. destruct (IH (Subject.MkSubject (ps ++ [r]) false) eq_refl Hnew) as [[H1 H2]|[H1 H2]];
      cbn [Subject.principals_] in H1, H2; rewrite <- app_assoc in H1; [left|right]; (split; [exact H1|]); rewrite H2; [|done].
    by rewrite <- app_assoc.
Qed.

(** Who logs in, and as what: the password must be the user's, and the roles the user's own; a user
    two of whose roles have the same hash, such as a role that is given twice, cannot log in. *)
Lemma example_login config componentXPath username credentials :
  let r := create config componentXPath in
  match users config componentXPath !! username with
  | Some u =>
      if str_eqb credentials (password u) then
        (NoDup (map Subject.hash (roles u)) /\ exists s, realm_authenticate r username credentials = Ok (Some s) /\
           Subject.isReadOnly s = true /\ Subject.principals_ s = roles u /\
           forall name, Subject.hasPrincipal s name = true <-> exists p, p ∈ roles u /\ Subject.hash p = Subject.hash name) \/
        (~ NoDup (map Subject.hash (roles u)) /\
           realm_authenticate r username credentials = Throw (RuntimeError (lit "Duplicate principal")))
      else realm_authenticate r username credentials = Ok None
  | None => realm_authenticate r username credentials = Ok None
  end.
Proof.
  cbv zeta. unfold create. cbn [realm_authenticate]. unfold authenticate.
  destruct (users config componentXPath !! username) as [u|]; [|done]. destruct (str_eqb credentials (password u)); [|done].
  unfold subject_of. destruct (add_roles_spec (roles u) Subject.create eq_refl ltac:(constructor)) as [[H1 H2]|[H1 H2]];
    cbn [Subject.principals_ Subject.create app] in H1, H2; rewrite H2; [left|right]; [|done]. split; [done|].
  eexists. split; [done|]. split; [done|]. split; [done|]. intros name. apply hasPrincipal_hash_spec.
Qed.
End Login.

(** ** Handling *)

Section Handling.
Context {V S I R : Type} {IO : IOStream S} {DB : DataBufferImpl I}.
Implicit Types w : World V S I.

(** The filter adds its header when it still can, and fails only when what it surrounds fails. *)
Lemma example_filter next w w' :
  next w = Some (w', Ok tt) ->
  runs (ExampleFilter.doFilter next) w (fun w2 res => res = Ok tt /\
    if Request.headers_sent_ (req w') then w2 = w'
    else w2 = set_req w' (Request.set_out_headers (req w') (om_put StringCILess (Request.out_headers_ (req w'))
           (Parser.normalizeOutputHeaderName (lit "X-TestHeader")) (lit "TestValue")))).
Proof.
  intros E. unfold ExampleFilter.doFilter, runs. rewrite (bind_ok _ _ _ _ _ E).
  unfold try_catch, HttpResponse.setHeader, Req.request_set, Request.setHeader.
  destruct (Request.headers_sent_ (req w')); by eexists _, _.
Qed.

(** The second handler writes its line whatever the request is. *)
Lemma example_writes w :
  str_eqb (Request.getScriptName (req w)) (lit "/upload") = false ->
  ExampleHandler2.handleRequest w = Some (set_response w (response w ++ lit "ExampleHandler2: OK" ++ [Byte.x0a]), Ok tt).
Proof. intros E. unfold ExampleHandler2.handleRequest, put_line, put_text. rewrite bind_modify, bind_gets. cbn [req set_response]. by rewrite E. Qed.
End Handling.

(** A request with an argument, from a client that has a session. *)
Section Example_page.
#[local] Existing Instances form_any form_session_value.

Definition page_world : World form_value MemStream StringBuffer.t :=
  set_req demo_world (Request.set_in (req demo_world) (set_args (Request.in_ (req demo_world)) [(lit "a1", lit "blue")])).

Definition page_lines : list bytes :=
  [lit "arg a1 has value blue"; lit "header user-agent has value Mozilla"; lit "cookie JSESSIONID has value s1";
   lit "Remote User: "; lit "ExampleHandler: test ok 222"; lit "session_id=s1"].

Lemma example_page :
  match ExampleHandler.handleRequest crawler_test page_world with
  | Some (w, res) => (response w, res, AttributesHolder.getAttribute (context_ w) (lit "param1"))
  | None => ([], Undef, VEmpty)
  end = (concat (map (fun l => l ++ [Byte.x0a]) page_lines) ++ lit "session attribute a1=blue" ++ ExampleHandler.html_source,
         Ok tt, VString (lit "hi!")).
Proof. vm_compute. reflexivity. Qed.
End Example_page.
