(* ===== verification/FileCache.v ===== *)
(** * FileCache

    [request-cache/file_cache.cpp]: large requests live in files of the cache directory; a
    request that is to be tried again is kept there under a new link and is dispatched again
    when its delay is over, at most [max_retries_] times.

    The files are the system's: opening a buffer on a path and linking a path to another are
    arguments. [active_] and [waiting_] are guarded by a mutex each; the operations here are
    what a thread does to them between two of its waits. *)

From S2P Require Import Prelude Cxx OrdMap Ranges StringUtils HashUtils Buffer Parser Codec Request Handlers Config Program.

Module FileCache.

(** ** Keys *)

(** The thread-local [KeyId]: [id] is an [int], the times are [time_t]. *)
Record KeyId := MkKeyId { id : Z; last : Z }.

Definition key_init (now : Z) : KeyId := MkKeyId 0 now.

Definition key_text (k : KeyId) (thread_id : Z) : bytes :=
  Codec.le_bytes 4 (id k) ++ lit ":" ++ Codec.le64 (last k) ++ lit ":" ++ Codec.le64 thread_id.

(** [++id] past the largest [int] is undefined. *)
Definition key_next (k : KeyId) (now : Z) : result KeyId :=
  if now =? last k then (if id k <? 2 ^ 31 - 1 then Ok (MkKeyId (id k + 1) (last k)) else Undef)
  else Ok (MkKeyId 0 now).

Section Ops.
Context {I S : Type} {DB : DataBufferImpl I} {IO : IOStream S} (md5 : bytes -> bytes).

(** The name of the file of a [FileBuffer]; other buffers have none. *)
Context (filename : I -> option bytes).
Context (open_file : bytes -> gmap nat I -> result (gmap nat I * DataBuffer)).
(** [link(path, new_path)] succeeds. *)
Context (link : bytes -> bytes -> bool).

Record DelayTask := MkDelayTask { key : bytes; retries : Z }.

Inductive log_entry :=
| LogCannotLink (path : bytes)
| LogCannotSave (script : bytes)
| LogMaxRetries (script : bytes)
| LogCannotLoad (key : bytes)
| LogException (e : exn).

(** [waiting_] is a [multimap]: in the order of its times, equal times in the order of
    insertion. The clocks: [now] for delays, [wall] for keys. *)
Record t := MkCache {
  cache_dir_ : bytes;
  max_retries_ : Z;
  min_post_size_ : Z;
  waiting_ : list (Z * DelayTask);
  active_ : list (bytes * Z);
  stopped_ : bool;
  heap : gmap nat I;
  key_ids : gmap Z KeyId;
  now : Z;
  wall : Z;
  logged : list log_entry
}.

Definition set_waiting (c : t) v := MkCache (cache_dir_ c) (max_retries_ c) (min_post_size_ c) v (active_ c)
  (stopped_ c) (heap c) (key_ids c) (now c) (wall c) (logged c).
Definition set_active (c : t) v := MkCache (cache_dir_ c) (max_retries_ c) (min_post_size_ c) (waiting_ c) v
  (stopped_ c) (heap c) (key_ids c) (now c) (wall c) (logged c).
Definition set_stopped (c : t) v := MkCache (cache_dir_ c) (max_retries_ c) (min_post_size_ c) (waiting_ c)
  (active_ c) v (heap c) (key_ids c) (now c) (wall c) (logged c).
Definition set_heap (c : t) v := MkCache (cache_dir_ c) (max_retries_ c) (min_post_size_ c) (waiting_ c)
  (active_ c) (stopped_ c) v (key_ids c) (now c) (wall c) (logged c).
Definition set_key_ids (c : t) v := MkCache (cache_dir_ c) (max_retries_ c) (min_post_size_ c) (waiting_ c)
  (active_ c) (stopped_ c) (heap c) v (now c) (wall c) (logged c).
Definition set_logged (c : t) v := MkCache (cache_dir_ c) (max_retries_ c) (min_post_size_ c) (waiting_ c)
  (active_ c) (stopped_ c) (heap c) (key_ids c) (now c) (wall c) v.

Definition set_outside (c : t) (h : gmap nat I) (now wall : Z) := MkCache (cache_dir_ c) (max_retries_ c)
  (min_post_size_ c) (waiting_ c) (active_ c) (stopped_ c) h (key_ids c) now wall (logged c).

#[local] Abbreviation P := (prog t).

Definition log (e : log_entry) : P unit := modify (fun c => set_logged c (logged c ++ [e])).

(** The constructor once it has read the configuration. *)
Definition create_cache (dir : bytes) (max_retries min_post_size now wall : Z) : t :=
  let dir := if Range.empty dir then lit "/tmp/fastcgi3-container/cache/request-cache/" else dir in
  let dir := match rev dir with c :: _ => if beqb c "/"%byte then dir else dir ++ lit "/" | [] => dir end in
  MkCache dir (u32 max_retries) (u32 min_post_size) [] [] false ∅ ∅ now wall [].

(** The constructor: the directory is made and must be writable; [window_], the size of the windows
    of its file buffers, comes with the cache. The [int]s are converted to the members' types. *)
Definition configure (mkdir : bytes -> Z) (isWritable : bytes -> bool) (config : Config) (componentXPath : bytes)
    (now wall : Z) : result (t * Z) :=
  let dir := cache_dir_ (create_cache (asString_default config (componentXPath ++ lit "/cache-dir") []) 0 0 now wall) in
  _ ← (FileSystemUtils.createDirectories mkdir dir).2;
  if negb (isWritable dir) then Throw (RuntimeError (lit "Permission denied"))
  else
    window ← XmlConfig.asInt_default config (componentXPath ++ lit "/file-window") (1024 * 1024);
    max_retries ← XmlConfig.asInt_default config (componentXPath ++ lit "/max-retries") 2;
    min_post_size ← XmlConfig.asInt_default config (componentXPath ++ lit "/min-post-size") (1024 * 1024);
    Ok (create_cache dir max_retries min_post_size now wall, u64 window).

(** The test of the attribute [attach] in the expressions for a session manager. *)
Definition attached : bytes :=
  let equals (value : bytes) := lit "@attach=" ++ [Byte.x22] ++ value ++ [Byte.x22] in
  lit "session[" ++ equals (lit "1") ++ lit " or " ++ equals (lit "true") ++ lit "]".

(** [onLoad]: the logger and the session manager, by address; then the thread runs. The expression
    for the cache's own setting lacks a slash before [@component], and is written as it is. *)
Definition onLoad (config : Config) (componentXPath : bytes) (cs : ComponentSet) (is_Logger is_SessionManager : nat -> bool)
    : result (nat * option nat) :=
  loggerComponentName ← asString config (componentXPath ++ lit "/logger");
  logger ← (match components_find cs loggerComponentName with
            | Some c => if is_Logger c then Ok c else Throw (RuntimeError (lit "cannot get component " ++ loggerComponentName))
            | None => Throw (RuntimeError (lit "cannot get component " ++ loggerComponentName))
            end);
  let managerComponentName :=
    asString_default config (componentXPath ++ lit "/" ++ attached ++ lit "@component")
      (asString_default config (lit "/fastcgi[count(session)=1]/" ++ attached ++ lit "/@component") []) in
  if Range.empty managerComponentName then Ok (logger, None)
  else
    match components_find cs managerComponentName with
    | None => Throw (RuntimeError (lit "cannot get component " ++ managerComponentName))
    | Some c =>
        if is_SessionManager c then Ok (logger, Some c)
        else Throw (RuntimeError (lit "Component " ++ managerComponentName ++ lit " does not implement SessionManager interface"))
    end.

Definition generateUniqueKey (thread : Z) : P bytes := fun c =>
  let k := default (key_init (wall c)) (key_ids c !! thread) in
  match key_next k (wall c) with
  | Ok k => Some (set_key_ids c (<[thread := k]> (key_ids c)), Ok (HashUtils.hexMD5 md5 (key_text k thread)))
  | Throw e => Some (c, Throw e)
  | Undef => Some (c, Undef)
  end.

Definition createFileBuffer (key : bytes) : P DataBuffer := fun c =>
  match open_file (cache_dir_ c ++ key) (heap c) with
  | Ok (h, d) => Some (set_heap c h, Ok d)
  | Throw e => Some (c, Throw e)
  | Undef => Some (c, Undef)
  end.

Definition insertActive (key : bytes) (retries : Z) : P unit :=
  modify (fun c => set_active c (om_insert str_ltb (active_ c) key retries).1).

Definition create (thread : Z) : P DataBuffer :=
  key ← generateUniqueKey thread;
  buffer ← createFileBuffer key;
  (if negb (Buf.isNil buffer) then insertActive key 0 else ret tt) ;;
  ret buffer.

(** The file that holds the body of a request, if it is one of the cache. *)
Definition body_file (c : t) (r : Request.t S) : bytes :=
  match data_ (Request.body_ r) with
  | Some l => match heap c !! l with Some i => default [] (filename i) | None => [] end
  | None => []
  end.

Definition in_cache (c : t) (name : bytes) : bool :=
  negb (Range.empty name) && starts_with (c_str (cache_dir_ c)) (c_str name).

Definition getStoredKey (r : Request.t S) : P bytes :=
  c ← gets (fun c => c);
  let name := body_file c r in
  ret (if in_cache c name then drop (length (cache_dir_ c)) name else []).

Definition getKey (thread : Z) (r : Request.t S) : P bytes :=
  key ← getStoredKey r;
  if Range.empty key then generateUniqueKey thread else ret key.

Definition createHardLink (thread : Z) (key : bytes) : P bytes :=
  dir ← gets cache_dir_;
  new_key ← generateUniqueKey thread;
  if link (dir ++ key) (dir ++ new_key) then ret new_key
  else log (LogCannotLink (dir ++ key)) ;; ret [].

Definition serialize_request (r : Request.t S) (buffer : DataBuffer) : P DataBuffer := fun c =>
  match Codec.serialize (heap c) (Request.in_ r) (Request.body_ r) buffer with
  | Ok (h, d) => Some (set_heap c h, Ok d)
  | Throw e => Some (c, Throw e)
  | Undef => Some (c, Undef)
  end.

(** The new key, when the request has been saved. *)
Definition saveRequest (thread : Z) (r : Request.t S) (key : bytes) : P (option bytes) :=
  c ← gets (fun c => c);
  stored ← (if negb (in_cache c (body_file c r)) then
              buffer ← createFileBuffer key;
              if Buf.isNil buffer then ret false else serialize_request r buffer ;; ret true
            else ret true);
  if (stored : bool) then
    new_key ← createHardLink thread key;
    ret (if Range.empty new_key then None else Some new_key)
  else ret None.

Definition eraseActive (key : bytes) : P unit :=
  modify (fun c => set_active c (om_erase str_ltb (active_ c) key)).

Fixpoint multi_insert (m : list (Z * DelayTask)) (time : Z) (task : DelayTask) : list (Z * DelayTask) :=
  match m with
  | [] => [(time, task)]
  | (time', task') :: m' => if time' <=? time then (time', task') :: multi_insert m' time task else (time, task) :: m
  end.

Definition insertWaiting (delay : Z) (key : bytes) (retries : Z) : P unit :=
  modify (fun c => set_waiting c (multi_insert (waiting_ c) (now c + delay) (MkDelayTask key retries))).

(** [retries] of a task is converted to [unsigned] and back. *)
Definition save (thread : Z) (r : Request.t S) (delay : Z) : P unit :=
  max_retries ← gets max_retries_;
  if (delay =? 0) || (max_retries <=? 0) then
    key ← getStoredKey r;
    if negb (Range.empty key) then eraseActive key else ret tt
  else
    key ← getKey thread r;
    active ← gets active_;
    match om_find str_ltb active key with
    | None =>
        new_key ← saveRequest thread r key;
        match new_key with
        | None => log (LogCannotSave (Request.getScriptName r))
        | Some new_key => insertWaiting delay new_key 1
        end
    | Some retries =>
        if max_retries <=? u32 retries then
          log (LogMaxRetries (Request.getScriptName r)) ;; eraseActive key
        else
          new_key ← saveRequest thread r key;
          match new_key with
          | None => log (LogCannotSave (Request.getScriptName r)) ;; eraseActive key
          | Some new_key => eraseActive key ;; insertWaiting delay new_key (s32 (u32 (u32 retries + 1)))
          end
    end.

Definition stop : P unit := modify (fun c => set_stopped c true).

(** One turn of the loop of [handle]: what to do with the request that is due, if one is;
    [None] when the thread has stopped or waits. *)
Definition parse_request (buffer : DataBuffer) : P (Request.t S) := fun c =>
  match Codec.parse (heap c) buffer no_input with
  | Ok (p, body) => Some (c, Ok (Request.set_body (Request.set_in Request.create p) body))
  | Throw e => Some (c, Throw e)
  | Undef => Some (c, Undef)
  end.

Definition next_due (c : t) : option (DelayTask * t) :=
  match waiting_ c with
  | (time, task) :: rest => if now c <? time then None else Some (task, set_waiting c rest)
  | [] => None
  end.

Definition handle_turn (handleRequest : Request.t S -> P unit) : P bool := fun c =>
  if stopped_ c then Some (c, Ok false)
  else match next_due c with
       | None => Some (c, Ok true)
       | Some (task, c) =>
           try_catch
             (buffer ← createFileBuffer (key task);
              (if Buf.isNil buffer then log (LogCannotLoad (key task)) else insertActive (key task) (retries task)) ;;
              r ← parse_request buffer;
              handleRequest r ;; ret true)
             (fun e => log (LogException e) ;; ret true) c
       end.
End Ops.
Arguments t : clear implicits.
End FileCache.

(** ** Keys are not used twice *)

Section Keys.
Import FileCache.

(** The states of the [KeyId] of a thread over calls at the given times. *)
Fixpoint key_run (k : KeyId) (times : list Z) : result (list KeyId) :=
  match times with
  | [] => Ok []
  | time :: times' => k ← key_next k time; ks ← key_run k times'; Ok (k :: ks)
  end.

Definition key_before (k k' : KeyId) : Prop := last k < last k' \/ (last k = last k' /\ id k < id k').

Lemma key_next_before k now k' :
  last k <= now -> 0 <= id k < 2 ^ 31 -> key_next k now = Ok k' ->
  key_before k k' /\ 0 <= id k' < 2 ^ 31 /\ last k' = now.
Proof.
  intros Hl Hi. unfold key_next. destruct (now =? last k) eqn:E.
  - apply Z.eqb_eq in E. destruct (id k <? _) eqn:E2; [|done]. apply Z.ltb_lt in E2. intros [= <-].
    unfold key_before. cbn. lia.
  - apply Z.eqb_neq in E. intros [= <-]. unfold key_before. cbn. lia.
Qed.

Lemma key_run_before k times ks :
  Sorted.StronglySorted Z.le (last k :: times) -> 0 <= id k < 2 ^ 31 -> key_run k times = Ok ks ->
  Forall (key_before k) ks /\ Forall (fun k => 0 <= id k < 2 ^ 31 /\ last k ∈ times) ks /\ NoDup ks.
Proof.
  revert k ks. induction times as [|time times IH]; intros k ks Hs Hi; cbn [key_run].
  { intros [= <-]. split; [constructor|]. split; constructor. }
  apply Sorted.StronglySorted_inv in Hs as [Hs Hall]. apply Forall_cons in Hall as [Hle Hall].
  destruct (key_next k time) as [k1|e|] eqn:E; try done. cbn [mbind result_bind].
  destruct (key_next_before k time k1 Hle Hi E) as (Hb & Hi1 & Hl1).
  destruct (key_run k1 times) as [ks1|e|] eqn:E1; try done. intros [= <-].
  destruct (IH k1 ks1) as (Hb1 & Hr1 & Hn1); [by rewrite Hl1|done|done|].
  split; [|split].
  - constructor; [done|]. eapply Forall_impl; [exact Hb1|]. unfold key_before in *. lia.
  - constructor; [split; [done|]; rewrite Hl1; by left|].
    eapply Forall_impl; [exact Hr1|]. intros x [? ?]. split; [done|]. by right.
  - constructor; [|done]. intros Hin. rewrite Forall_forall in Hb1. specialize (Hb1 _ Hin).
    unfold key_before in Hb1. lia.
Qed.

Lemma key_text_inj k k' thread thread' :
  0 <= id k < 2 ^ 32 -> 0 <= id k' < 2 ^ 32 -> 0 <= last k < 2 ^ 64 -> 0 <= last k' < 2 ^ 64 ->
  0 <= thread < 2 ^ 64 -> 0 <= thread' < 2 ^ 64 ->
  key_text k thread = key_text k' thread' -> k = k' /\ thread = thread'.
Proof.
  intros Hi Hi' Hl Hl' Ht Ht' E. unfold key_text in E.
  apply app_inj_1 in E as [E1 E]; [|by rewrite !le_bytes_length].
  apply app_inv_head in E. apply app_inj_1 in E as [E2 E]; [|unfold Codec.le64; by rewrite !le_bytes_length].
  apply app_inv_head in E.
  apply (f_equal Codec.le_value) in E1, E2, E. rewrite !le_value_64 in E2, E by done.
  rewrite !le_value_bytes in E1 by (cbn; lia). destruct k, k'. cbn in *. by subst.
Qed.

(** C33: no two files of the cache get the same key: the texts that a thread's calls digest,
    over times that do not go back, are pairwise distinct, and distinct from those of any
    other thread, so that equal keys are a collision of MD5. *)
Theorem unique_keys k times ks thread :
  Sorted.StronglySorted Z.le (last k :: times) -> Forall (fun time => 0 <= time < 2 ^ 64) times ->
  0 <= id k < 2 ^ 31 -> 0 <= thread < 2 ^ 64 -> key_run k times = Ok ks ->
  NoDup (map (fun k => key_text k thread) ks) /\
  (forall k' thread', 0 <= id k' < 2 ^ 31 -> 0 <= last k' < 2 ^ 64 -> 0 <= thread' < 2 ^ 64 -> thread' <> thread ->
     key_text k' thread' ∉ map (fun k => key_text k thread) ks) /\
  (forall md5 k1 k2, k1 ∈ ks -> k2 ∈ ks -> (forall s, length (md5 s) = 16%nat) ->
     HashUtils.hexMD5 md5 (key_text k1 thread) = HashUtils.hexMD5 md5 (key_text k2 thread) ->
     k1 = k2 \/ (key_text k1 thread <> key_text k2 thread /\ md5 (key_text k1 thread) = md5 (key_text k2 thread))).
Proof.
  intros Hs Ht Hi Hth E. destruct (key_run_before k times ks Hs Hi E) as (_ & Hr & Hn).
  assert (Hrange : forall k, k ∈ ks -> 0 <= id k < 2 ^ 31 /\ 0 <= last k < 2 ^ 64).
  { intros x Hx. rewrite Forall_forall in Hr. rewrite Forall_forall in Ht. destruct (Hr x Hx) as [? Hl]. split; [done|by apply Ht]. }
  split; [|split].
  - apply NoDup_fmap_2_strong; [|done]. intros x y Hx Hy Exy.
    destruct (Hrange x Hx), (Hrange y Hy). apply key_text_inj in Exy as [? _]; (done || lia).
  - intros k' thread' Hi' Hl' Ht' Hne Hin. apply list_elem_of_fmap in Hin as (x & Ex & Hx).
    destruct (Hrange x Hx). apply key_text_inj in Ex as [_ ?]; (done || lia).
  - intros md5 k1 k2 H1 H2 Hlen Eh. apply hexMD5_inj in Eh; [|done..].
    destruct (decide (key_text k1 thread = key_text k2 thread)) as [Et|Et]; [left|by right].
    destruct (Hrange k1 H1), (Hrange k2 H2). apply key_text_inj in Et as [? _]; (done || lia).
Qed.

Lemma unique_keys_witness :
  exists ks, key_run (key_init 1000) [1000; 1000; 1001] = Ok ks /\ NoDup (map (fun k => key_text k 7) ks).
Proof.
  eexists. split; [reflexivity|].
  apply (unique_keys (key_init 1000) [1000; 1000; 1001]).
  - repeat constructor; discriminate.
  - repeat constructor; (discriminate || reflexivity).
  - cbn. split; [discriminate|reflexivity].
  - split; [discriminate|reflexivity].
  - reflexivity.
Defined.
End Keys.

(** ** The waiting requests *)

Section Retries.
Context {I S : Type} {DB : DataBufferImpl I} {IO : IOStream S} (md5 : bytes -> bytes).
Context (filename : I -> option bytes) (open_file : bytes -> gmap nat I -> result (gmap nat I * DataBuffer)).
Context (link : bytes -> bytes -> bool).
Import FileCache.
Implicit Types (c : FileCache.t I) (r : Request.t S).

(** Every request that waits has been tried [1 .. max_retries_] times, and every one that runs
    from the cache at most [max_retries_] times; those that wait are in the order of their times. *)
Record cache_ok c : Prop := {
  ok_max : 0 <= max_retries_ c < 2 ^ 31;
  ok_waiting : Forall (fun x => 1 <= retries x.2 <= max_retries_ c) (waiting_ c);
  ok_order : Sorted.StronglySorted (fun x y => x.1 <= y.1) (waiting_ c);
  ok_active : Forall (fun x => 0 <= x.2 <= max_retries_ c) (active_ c)
}.

Definition same_cache c c' : Prop :=
  max_retries_ c' = max_retries_ c /\ waiting_ c' = waiting_ c /\ active_ c' = active_ c.

Lemma same_ok c c' : same_cache c c' -> cache_ok c -> cache_ok c'.
Proof. intros (E1 & E2 & E3) [H1 H2 H3 H4]. split; by rewrite ?E1, ?E2, ?E3. Qed.

(** Computations that leave the table, the queue and the limit alone. *)
Definition keeps {A} (p : prog (FileCache.t I) A) : Prop := forall c c' res, p c = Some (c', res) -> same_cache c c'.

Lemma keeps_bind {A B} (p : prog (FileCache.t I) A) (f : A -> prog _ B) :
  keeps p -> (forall a, keeps (f a)) -> keeps (p ≫= f).
Proof.
  intros Hp Hf c c' res. unfold mbind, prog_bind. destruct (p c) as [[c1 [a|e|]]|] eqn:E; try done.
  - intros E2. destruct (Hp _ _ _ E) as (? & ? & ?), (Hf a _ _ _ E2) as (? & ? & ?).
    unfold same_cache. intuition congruence.
  - intros [= <- <-]. by eapply Hp.
  - intros [= <- <-]. by eapply Hp.
Qed.

Lemma keeps_pure {A} (p : prog (FileCache.t I) A) :
  (forall c, exists res, p c = Some (c, res)) -> keeps p.
Proof. intros H c c' res. destruct (H c) as [res' ->]. by intros [= <- <-]. Qed.

Lemma keeps_ret {A} (a : A) : keeps (ret a).
Proof. apply keeps_pure. intros c. by eexists. Qed.
Lemma keeps_gets {A} (f : FileCache.t I -> A) : keeps (gets f).
Proof. apply keeps_pure. intros c. by eexists. Qed.
Lemma keeps_log e : keeps (log (I := I) e).
Proof. intros c c' res. by intros [= <- <-]. Qed.
Lemma keeps_key thread : keeps (generateUniqueKey (I := I) md5 thread).
Proof. intros c c' res. unfold generateUniqueKey. by destruct (key_next _ _); intros [= <- <-]. Qed.
Lemma keeps_open key : keeps (createFileBuffer open_file key).
Proof. intros c c' res. unfold createFileBuffer. by destruct (open_file _ _) as [[]|e|]; intros [= <- <-]. Qed.
Lemma keeps_serialize r buffer : keeps (serialize_request r buffer).
Proof. intros c c' res. unfold serialize_request. by destruct (Codec.serialize _ _ _ _) as [[]|e|]; intros [= <- <-]. Qed.
Lemma keeps_parse buffer : keeps (parse_request (S := S) buffer).
Proof. intros c c' res. unfold parse_request. by destruct (Codec.parse _ _ _) as [[]|e|]; intros [= <- <-]. Qed.

Create HintDb keeps.
#[local] Hint Resolve keeps_bind keeps_ret keeps_gets keeps_log keeps_key keeps_open keeps_serialize keeps_parse : keeps.

Lemma keeps_if {A} (b : bool) (p q : prog (FileCache.t I) A) : keeps p -> keeps q -> keeps (if b then p else q).
Proof. by destruct b. Qed.
#[local] Hint Resolve keeps_if : keeps.

Lemma keeps_stored r : keeps (getStoredKey filename r).
Proof. unfold getStoredKey. auto with keeps. Qed.
Lemma keeps_getKey thread r : keeps (getKey md5 filename thread r).
Proof. unfold getKey. pose proof keeps_stored. auto with keeps. Qed.
Lemma keeps_save thread r key : keeps (saveRequest md5 filename open_file link thread r key).
Proof. unfold saveRequest, createHardLink. auto 10 with keeps. Qed.

(** How often requests can still be dispatched: one that waits has its dispatch to come and those after
    the waits that it has left, one that runs has only the latter. *)
Definition left (m n : Z) : nat := Z.to_nat (m - n).
Definition left_waiting (m : Z) (l : list (Z * DelayTask)) : nat := sum_list_with (fun x => Datatypes.S (left m (retries x.2))) l.
Definition left_active (m : Z) (l : list (bytes * Z)) : nat := sum_list_with (fun x => left m x.2) l.
Definition dispatches_left c : nat := left_waiting (max_retries_ c) (waiting_ c) + left_active (max_retries_ c) (active_ c).

(** [p] leads from good states with the limit [m], of which [P] holds, to good states with it, in
    which there are at most [k] more dispatches left. *)
Definition safe_from (P : FileCache.t I -> Prop) (m : Z) (k : nat) {A} (p : prog (FileCache.t I) A) : Prop :=
  forall c c' res, P c -> cache_ok c -> max_retries_ c = m -> p c = Some (c', res) ->
    cache_ok c' /\ max_retries_ c' = m /\ (dispatches_left c' <= dispatches_left c + k)%nat.
Definition safe (m : Z) (k : nat) {A} (p : prog (FileCache.t I) A) : Prop := safe_from (fun _ => True) m k p.

Lemma safe_weaken m k k' {A} (p : prog (FileCache.t I) A) : safe m k p -> (k <= k')%nat -> safe m k' p.
Proof. intros H Hk c c' res Hp Hok Hm E. destruct (H _ _ _ Hp Hok Hm E) as (? & ? & ?). split_and!; [done..|lia]. Qed.

Lemma safe_keeps m k {A} (p : prog (FileCache.t I) A) : keeps p -> safe m k p.
Proof.
  intros H c c' res _ Hok Hm E. pose proof (H _ _ _ E) as Hs. split; [by eapply same_ok|]. destruct Hs as (E1 & E2 & E3).
  split; [congruence|]. unfold dispatches_left. rewrite E1, E2, E3. lia.
Qed.

Lemma cache_safe_bind m k k' {A B} (p : prog (FileCache.t I) A) (f : A -> prog _ B) :
  safe m k p -> (forall a, safe m k' (f a)) -> safe m (k + k') (p ≫= f).
Proof.
  intros Hp Hf c c' res _ Hok Hm. unfold mbind, prog_bind. destruct (p c) as [[c1 o]|] eqn:E; [|done].
  destruct (Hp _ _ _ Logic.I Hok Hm E) as (Hok1 & Hm1 & Hd1). destruct o as [a|e|].
  - intros E2. destruct (Hf a _ _ _ Logic.I Hok1 Hm1 E2) as (? & ? & ?). split_and!; [done..|lia].
  - intros [= <- <-]. split_and!; [done..|lia].
  - intros [= <- <-]. split_and!; [done..|lia].
Qed.

Lemma safe_gets m k {A B} (f : FileCache.t I -> A) (g : A -> prog (FileCache.t I) B) :
  (forall c, cache_ok c -> max_retries_ c = m -> safe_from (fun c' => c' = c) m k (g (f c))) -> safe m k (gets f ≫= g).
Proof. intros H c c' res _ Hok Hm. rewrite bind_gets. by apply (H c). Qed.

Lemma safe_at P m k {A} (p : prog (FileCache.t I) A) : safe m k p -> safe_from P m k p.
Proof. intros H c c' res _. by apply H. Qed.

Lemma safe_if P m k {A} (b : bool) (p q : prog (FileCache.t I) A) :
  (b = true -> safe_from P m k p) -> (b = false -> safe_from P m k q) -> safe_from P m k (if b then p else q).
Proof. destruct b; auto. Qed.

(** A request that runs from the cache under [key], after [n] waits. *)
Definition active_with (key : bytes) (n : Z) c : Prop := om_find str_ltb (active_ c) key = Some n.

Lemma keeps_active key n m k {A B} (p : prog (FileCache.t I) A) (f : A -> prog _ B) :
  keeps p -> (forall a, safe_from (active_with key n) m k (f a)) -> safe_from (active_with key n) m k (p ≫= f).
Proof.
  intros Hp Hf c c' res Ha Hok Hm. unfold mbind, prog_bind. destruct (p c) as [[c1 o]|] eqn:E; [|done].
  destruct (safe_keeps m 0 p Hp _ _ _ Logic.I Hok Hm E) as (Hok1 & Hm1 & Hd1). destruct (Hp _ _ _ E) as (_ & _ & Ea).
  destruct o as [a|e|]; [|intros [= <- <-]; split_and!; [done..|lia]|intros [= <- <-]; split_and!; [done..|lia]].
  intros E2. destruct (Hf a _ _ _ ltac:(unfold active_with in *; by rewrite Ea) Hok1 Hm1 E2) as (? & ? & ?). split_and!; [done..|lia].
Qed.

Lemma erase_left m l key :
  (left_active m (om_erase str_ltb l key) + match om_find str_ltb l key with Some n => left m n | None => 0 end = left_active m l)%nat.
Proof.
  unfold left_active. induction l as [|[k v] l IH]; [done|]. cbn [om_erase om_find].
  destruct (str_ltb k key); [cbn [sum_list_with]; lia|]. destruct (str_ltb key k); cbn [sum_list_with snd]; lia.
Qed.

Lemma erase_ok c key : cache_ok c -> cache_ok (set_active c (om_erase str_ltb (active_ c) key)).
Proof.
  intros [H1 H2 H3 H4]. split; try done. cbn.
  induction H4 as [|[k v] l Hk Hl IH]; cbn; [constructor|].
  destruct (str_ltb k key); [by constructor|]. destruct (str_ltb key k); [by constructor|done].
Qed.

Lemma safe_erase m key : safe m 0 (eraseActive (I := I) key).
Proof.
  intros c c' res _ Hok Hm [= <- <-]. split; [by apply erase_ok|]. split; [done|].
  unfold dispatches_left. cbn [max_retries_ waiting_ active_ set_active set_waiting set_stopped set_outside]. pose proof (erase_left (max_retries_ c) (active_ c) key). lia.
Qed.

Lemma safe_activate m key n : 0 <= n <= m -> safe m (left m n) (insertActive (I := I) key n).
Proof.
  intros Hn c c' res _ [H1 H2 H3 H4] Hm [= <- <-]. split; [|split; [done|]].
  - split; try done. cbn. rewrite Hm in *. rewrite om_insert_spec. destruct (om_find _ _ _); cbn [fst]; [done|].
    induction H4 as [|[k v] l Hk Hl IH]; cbn; [by apply Forall_singleton|].
    destruct (str_ltb k key); [by apply Forall_cons|].
    destruct (str_ltb key k); apply Forall_cons; (split; [done|]); [by apply Forall_cons|done].
  - unfold dispatches_left. cbn [max_retries_ waiting_ active_ set_active set_waiting set_stopped set_outside]. rewrite Hm. enough (left_active m (om_insert str_ltb (active_ c) key n).1 <= left_active m (active_ c) + left m n)%nat by lia.
    unfold left_active. clear. induction (active_ c) as [|[k v] l IH]; cbn [om_insert fst sum_list_with snd]; [lia|].
    destruct (str_ltb k key); [revert IH; destruct (om_insert str_ltb l key n); cbn [fst sum_list_with snd]; lia|].
    destruct (str_ltb key k); cbn [fst sum_list_with snd]; lia.
Qed.

Lemma multi_insert_ok (P : Z * DelayTask -> Prop) l time task :
  P (time, task) -> Forall P l -> Sorted.StronglySorted (fun x y => x.1 <= y.1) l ->
  Forall P (multi_insert l time task) /\ Sorted.StronglySorted (fun x y => x.1 <= y.1) (multi_insert l time task).
Proof.
  intros Hp Hl Hs. revert P Hp Hl.
  induction Hs as [|[t1 x1] l Hs IH Hall]; intros P Hp Hl; cbn [multi_insert].
  { split; [by repeat constructor|]. repeat constructor. }
  apply Forall_cons in Hl as [H1 Hl]. destruct (t1 <=? time) eqn:E.
  - apply Z.leb_le in E. split; [constructor; [done|by apply (IH P)]|]. constructor.
    + by apply (IH P).
    + by apply (IH (fun y => t1 <= y.1)).
  - apply Z.leb_gt in E. split; [by repeat constructor|]. constructor; [by constructor|].
    constructor; [cbn; lia|]. eapply Forall_impl; [exact Hall|]. cbn. lia.
Qed.

Lemma waiting_left m l time task : left_waiting m (multi_insert l time task) = (left_waiting m l + Datatypes.S (left m (retries task)))%nat.
Proof.
  unfold left_waiting. induction l as [|[t1 x1] l IH]; cbn [multi_insert sum_list_with snd]; [lia|].
  destruct (t1 <=? time); cbn [sum_list_with snd]; [lia|]. cbn. lia.
Qed.

Lemma safe_wait m delay key n : 1 <= n <= m -> safe m (Datatypes.S (left m n)) (insertWaiting (I := I) delay key n).
Proof.
  intros Hn c c' res _ [H1 H2 H3 H4] Hm [= <- <-]. split; [|split; [done|]].
  - destruct (multi_insert_ok (fun x => 1 <= retries x.2 <= max_retries_ c) (waiting_ c) (now c + delay)
      (MkDelayTask key n)) as [Hf Hs]; [cbn; lia|done|done|]. by split.
  - unfold dispatches_left. cbn [max_retries_ waiting_ active_ set_active set_waiting set_stopped set_outside]. rewrite waiting_left, Hm. cbn. lia.
Qed.

Lemma om_find_Forall {V} (P : V -> Prop) (l : list (bytes * V)) k v :
  Forall (fun x => P x.2) l -> om_find str_ltb l k = Some v -> P v.
Proof.
  induction 1 as [|[k' v'] l Hv Hl IH]; cbn; [done|]. destruct (str_ltb k' k); [done|].
  destruct (str_ltb k k'); [done|]. by intros [= <-].
Qed.

Lemma active_bound key n c : cache_ok c -> active_with key n c -> 0 <= n <= max_retries_ c.
Proof. intros Hok H. eapply (om_find_Forall (fun v => 0 <= v <= max_retries_ c)); [|exact H]. apply Hok. Qed.

(** A request that runs and waits again has the same number of dispatches left. *)
Lemma safe_requeue m key n delay new_key : 0 <= n -> n < m ->
  safe_from (active_with key n) m 0 (eraseActive (I := I) key ;; insertWaiting delay new_key (n + 1)).
Proof.
  intros Hn Hm c c' res Ha Hok Hc E. unfold eraseActive in E. rewrite bind_modify in E.
  pose proof (erase_left (max_retries_ c) (active_ c) key) as He. unfold active_with in Ha. rewrite Ha in He.
  destruct (safe_wait m delay new_key (n + 1) ltac:(lia) _ _ _ Logic.I (erase_ok c key Hok) Hc E) as (H1 & H2 & H3).
  split; [done|]. split; [done|]. unfold dispatches_left, left in *. cbn [waiting_ active_ max_retries_ set_active] in H3. lia.
Qed.

(** [save] of a request that was found to run under [key], after [n] waits. *)
#[local] Abbreviation save_again := (fun thread r delay (max_retries : Z) (key : bytes) (n : Z) =>
  if max_retries <=? u32 n then log (LogMaxRetries (Request.getScriptName r)) ;; eraseActive key
  else
    new_key ← saveRequest md5 filename open_file link thread r key;
    match new_key with
    | None => log (LogCannotSave (Request.getScriptName r)) ;; eraseActive key
    | Some new_key => eraseActive key ;; insertWaiting delay new_key (s32 (u32 (u32 n + 1)))
    end).

Lemma save_again_safe m thread r delay key n : 0 <= n <= m -> m < 2 ^ 31 ->
  safe_from (active_with key n) m 0 (save_again thread r delay m key n).
Proof.
  intros Hn Hmax. assert (Hdrop : forall e, safe_from (active_with key n) m 0 (log (I := I) e ;; eraseActive key)).
  { intros e. apply keeps_active; [apply keeps_log|]. intros _. apply safe_at, safe_erase. }
  assert (Hu : u32 n = n) by (apply Z.mod_small; lia). cbn beta. rewrite Hu. apply safe_if; intros Hlim; [apply Hdrop|].
  apply Z.leb_gt in Hlim. apply keeps_active; [apply keeps_save|]. intros [new_key|]; [|apply Hdrop].
  assert (Hu1 : s32 (u32 (n + 1)) = n + 1).
  { unfold u32, s32. rewrite (Z.mod_small (n + 1)) by lia. rewrite Z.mod_small by lia. lia. }
  rewrite Hu1. apply safe_requeue; lia.
Qed.

Lemma save_safe m thread r delay : safe m (Z.to_nat m) (save md5 filename open_file link thread r delay).
Proof.
  unfold save. apply safe_gets. intros c0 Hok0 Hm0. apply safe_at. rewrite Hm0. apply safe_if; intros Hd.
  { apply (cache_safe_bind m 0 (Z.to_nat m)); [apply safe_keeps, keeps_stored|]. intros key.
    apply safe_if; intros _; [eapply safe_weaken; [apply safe_erase|lia]|apply safe_keeps, keeps_ret]. }
  apply orb_false_iff in Hd as [_ Hd]. apply Z.leb_gt in Hd.
  apply (cache_safe_bind m 0 (Z.to_nat m)); [apply safe_keeps, keeps_getKey|]. intros key. apply safe_gets. intros c Hok Hm.
  destruct (om_find str_ltb (active_ c) key) as [n|] eqn:Hf.
  - intros c1 c' res -> Hok1 Hm1 E.
    destruct (save_again_safe m thread r delay key n ltac:(rewrite <- Hm; by apply (active_bound key)) ltac:(rewrite <- Hm; apply Hok)
      c c' res Hf Hok Hm E) as (? & ? & ?). split_and!; [done..|lia].
  - apply safe_at, (cache_safe_bind m 0 (Z.to_nat m)); [apply safe_keeps, keeps_save|]. intros [new_key|]; [|apply safe_keeps, keeps_log].
    eapply safe_weaken; [apply safe_wait; lia|]. unfold left. lia.
Qed.

(** Whether a request that is saved runs from the cache already. *)
Definition stored_key c r : bytes :=
  let name := body_file filename c r in if in_cache c name then drop (length (cache_dir_ c)) name else [].
Definition known c r : bool :=
  negb (Range.empty (stored_key c r)) && bool_decide (is_Some (om_find str_ltb (active_ c) (stored_key c r))).

Lemma bind_stored {B} (f : bytes -> prog _ B) c r : (getStoredKey filename r ≫= f) c = f (stored_key c r) c.
Proof. unfold getStoredKey. by rewrite bind_assoc, bind_gets, bind_ret. Qed.

(** [save] of a request that runs from the cache. *)
Lemma save_known thread r delay c : known c r = true ->
  exists n, om_find str_ltb (active_ c) (stored_key c r) = Some n /\
    save md5 filename open_file link thread r delay c =
      (if (delay =? 0) || (max_retries_ c <=? 0) then eraseActive (stored_key c r)
       else save_again thread r delay (max_retries_ c) (stored_key c r) n) c.
Proof.
  intros Hk. apply andb_true_iff in Hk as [He Hk]. apply bool_decide_eq_true in Hk as [n Hn]. apply negb_true_iff in He.
  exists n. split; [done|]. unfold save. rewrite bind_gets. destruct (_ || _).
  - rewrite bind_stored, He. done.
  - unfold getKey. rewrite bind_assoc, bind_stored, He, bind_ret, bind_gets, Hn. done.
Qed.

Lemma save_left m thread r delay c c' res :
  cache_ok c -> max_retries_ c = m -> save md5 filename open_file link thread r delay c = Some (c', res) ->
  cache_ok c' /\ max_retries_ c' = m /\ (dispatches_left c' <= dispatches_left c + (if known c r then 0 else Z.to_nat m))%nat.
Proof.
  intros Hok Hm E. destruct (known c r) eqn:Hk; [|by apply (save_safe m thread r delay c c' res)].
  destruct (save_known thread r delay c Hk) as (n & Hn & E2). rewrite E2 in E. rewrite Hm in E. destruct (_ || _).
  - by apply (safe_erase m (stored_key c r) c c' res).
  - pose proof (active_bound _ _ _ Hok Hn) as Hb. rewrite Hm in Hb.
    by apply (save_again_safe m thread r delay (stored_key c r) n Hb ltac:(rewrite <- Hm; apply Hok) c c' res).
Qed.

(** The dispatch of a request does not touch the cache; its handlers may call [save], which is a
    step of its own. *)
Lemma handle_turn_safe m (handleRequest : Request.t S -> prog (FileCache.t I) unit) c c' res :
  (forall r, keeps (handleRequest r)) -> cache_ok c -> max_retries_ c = m -> handle_turn open_file handleRequest c = Some (c', res) ->
  cache_ok c' /\ max_retries_ c' = m /\ (dispatches_left c' + (if stopped_ c then 0 else if next_due c is Some _ then 1 else 0) <= dispatches_left c)%nat.
Proof.
  intros Hh Hok Hm. unfold handle_turn. destruct (stopped_ c); [intros [= <- <-]; split_and!; [done..|lia]|].
  unfold next_due. destruct (waiting_ c) as [|[time task] rest] eqn:Hw; [intros [= <- <-]; split_and!; [done..|lia]|].
  destruct (_ <? time); [intros [= <- <-]; split_and!; [done..|lia]|].
  assert (H0 : cache_ok (set_waiting c rest) /\ 0 <= retries task <= m).
  { destruct Hok as [H1 H2 H3 H4]. rewrite Hw in H2, H3. apply Forall_cons in H2 as [Hr H2].
    apply Sorted.StronglySorted_inv in H3 as [H3 _]. cbn in Hr. split; [by split|lia]. }
  destruct H0 as [Hok0 Hr]. set (c0 := set_waiting c rest) in *. assert (Hm0 : max_retries_ c0 = m) by done.
  assert (Hd0 : (dispatches_left c = dispatches_left c0 + Datatypes.S (left m (retries task)))%nat).
  { unfold dispatches_left, c0. cbn [max_retries_ waiting_ active_ set_waiting]. rewrite Hw, Hm. unfold left_waiting. cbn [sum_list_with snd]. lia. }
  assert (Hbody : safe m (left m (retries task)) (buffer ← createFileBuffer open_file (key task);
              (if Buf.isNil buffer then log (LogCannotLoad (key task)) else insertActive (key task) (retries task)) ;;
              r ← parse_request buffer; handleRequest r ;; ret true)).
  { apply (cache_safe_bind m 0 (left m (retries task))); [apply safe_keeps, keeps_open|]. intros buffer.
    rewrite <- (Nat.add_0_r (left m _)). apply cache_safe_bind.
    { apply safe_if; intros _; [apply safe_keeps, keeps_log|by apply safe_activate]. }
    intros _. apply (cache_safe_bind m 0 0); [apply safe_keeps, keeps_parse|]. intros r.
    apply (cache_safe_bind m 0 0); [by apply safe_keeps|]. intros _. apply safe_keeps, keeps_ret. }
  unfold try_catch. set (body := createFileBuffer _ _ ≫= _) in *.
  destruct (body c0) as [[c1 o]|] eqn:E; [|done]. destruct (Hbody _ _ _ Logic.I Hok0 Hm0 E) as (Hok1 & Hm1 & Hd1).
  destruct o as [b|e|].
  - intros [= <- <-]. split_and!; [done..|lia].
  - intros E2. destruct (safe_keeps m 0 (log (LogException e) ;; ret true) ltac:(auto with keeps) _ _ _ Logic.I Hok1 Hm1 E2) as (? & ? & ?).
    split_and!; [done..|lia].
  - intros [= <- <-]. split_and!; [done..|lia].
Qed.

(** What can happen to a cache: its members are called, its thread takes turns, and outside time
    passes and buffers change. The numbers count the requests that are new to the cache, which
    it has not dispatched itself, and the requests that its thread takes to dispatch them. *)
Inductive cache_step c c' : nat -> nat -> Prop :=
| StepCreate thread res : create md5 open_file thread c = Some (c', res) -> cache_step c c' 1 0
| StepSave thread r delay res : save md5 filename open_file link thread r delay c = Some (c', res) ->
    cache_step c c' (if known c r then 0 else 1) 0
| StepTurn (handleRequest : Request.t S -> prog (FileCache.t I) unit) res :
    (forall r, keeps (handleRequest r)) -> handle_turn open_file handleRequest c = Some (c', res) ->
    cache_step c c' 0 (if stopped_ c then 0 else if next_due c is Some _ then 1 else 0)
| StepStop : c' = set_stopped c true -> cache_step c c' 0 0
| StepOutside h now wall : c' = set_outside c h now wall -> cache_step c c' 0 0.

Inductive cache_run c : nat -> nat -> FileCache.t I -> Prop :=
| RunNothing : cache_run c 0 0 c
| RunStep a d c1 a' d' c2 : cache_run c a d c1 -> cache_step c1 c2 a' d' -> cache_run c (a + a') (d + d') c2.

Lemma step_safe m c c' a d : cache_step c c' a d -> cache_ok c -> max_retries_ c = m ->
  cache_ok c' /\ max_retries_ c' = m /\ (dispatches_left c' + d <= dispatches_left c + a * Z.to_nat m)%nat.
Proof.
  intros Hs Hok Hm. destruct Hs as [thread res E|thread r delay res E|hr res Hk E| ->|h n w ->].
  - assert (H : safe m (Z.to_nat m) (create md5 open_file thread)).
    { apply (cache_safe_bind m 0 (Z.to_nat m)); [apply safe_keeps, keeps_key|]. intros key.
      apply (cache_safe_bind m 0 (Z.to_nat m)); [apply safe_keeps, keeps_open|]. intros buffer.
      rewrite <- (Nat.add_0_r (Z.to_nat m)). apply cache_safe_bind; [|intros; apply safe_keeps, keeps_ret].
      destruct (negb _); [|apply safe_keeps, keeps_ret]. eapply safe_weaken; [apply safe_activate; rewrite <- Hm; split; [done|apply Hok]|].
      unfold left. lia. }
    destruct (H _ _ _ Logic.I Hok Hm E) as (? & ? & ?). split_and!; [done..|lia].
  - destruct (save_left m _ _ _ _ _ _ Hok Hm E) as (? & ? & ?). split_and!; [done..|]. destruct (known c r); lia.
  - destruct (handle_turn_safe m _ _ _ _ Hk Hok Hm E) as (? & ? & ?). split_and!; [done..|lia].
  - split; [by apply (same_ok c)|]. split; [done|]. unfold dispatches_left. cbn [max_retries_ waiting_ active_ set_active set_waiting set_stopped set_outside]. lia.
  - split; [by apply (same_ok c)|]. split; [done|]. unfold dispatches_left. cbn [max_retries_ waiting_ active_ set_active set_waiting set_stopped set_outside]. lia.
Qed.

Lemma run_safe c0 a d c : cache_run c0 a d c -> cache_ok c0 -> dispatches_left c0 = 0%nat ->
  cache_ok c /\ max_retries_ c = max_retries_ c0 /\ (d + dispatches_left c <= a * Z.to_nat (max_retries_ c0))%nat.
Proof.
  intros Hr Hok H0. induction Hr as [|a d c1 a' d' c2 Hr (H1 & H2 & H3) Hs]; [split_and!; [done..|lia]|].
  destruct (step_safe _ _ _ _ _ Hs H1 H2) as (? & ? & ?). split_and!; [done..|lia].
Qed.

Lemma configure_ok mkdir isWritable config xpath n w c0 window :
  configure mkdir isWritable config xpath n w = Ok (c0, window) -> max_retries_ c0 < 2 ^ 31 -> cache_ok c0 /\ dispatches_left c0 = 0%nat.
Proof.
  unfold configure. cbv zeta. intros H Hmax. res_inv. destruct (negb _); [discriminate H|]. res_inv.
  split; [|done]. split; cbn in *; [|constructor..]. split; [|done]. unfold u32. by apply Z.mod_pos_bound.
Qed.

End Retries.

(** A request that is saved twice and then dropped. *)
Section Example_cache.
Import FileCache.

Definition demo_md5 (s : bytes) : bytes := take 16 (s ++ repeat Byte.x00 16).
Definition no_name (i : StringBuffer.t) : option bytes := None.
Definition memory_file (path : bytes) (h : gmap nat StringBuffer.t) : result (gmap nat StringBuffer.t * DataBuffer) :=
  Ok (Buf.create h (StringBuffer.create [])).
Definition linked (path new_path : bytes) : bool := true.

Definition demo_cache : FileCache.t StringBuffer.t := create_cache (lit "/var/cache") 1 (1024 * 1024) 100 7.
Definition saved_once : FileCache.t StringBuffer.t :=
  match save demo_md5 no_name memory_file linked 1 (Request.create : Request.t MemStream) 50 demo_cache with
  | Some (c, _) => c
  | None => demo_cache
  end.

Definition cache_config : Config := MkConfig
  (fun key => if str_eqb key (lit "/c/cache-dir") then Some (lit "/var/cache")
              else if str_eqb key (lit "/c/max-retries") then Some (lit "1") else None) (fun _ => 0%nat).

Definition cached_request : Request.t MemStream := Request.create.

(** The request is taken again, and nothing waits after that. *)
Definition taken_again : FileCache.t StringBuffer.t :=
  match handle_turn memory_file (fun _ : Request.t MemStream => ret tt) (set_outside saved_once (heap saved_once) 200 8) with
  | Some (c, _) => c
  | None => demo_cache
  end.

End Example_cache.
