(* ===== verification/Retry.v ===== *)
(** * Retry

    The request cache ([request-cache/file_cache.cpp]) together with the serialized form of a
    request ([library/request.cpp]): what is dispatched when the delay of a saved request is over
    is the request that was saved. *)

From S2P Require Import Prelude Cxx OrdMap Ranges StringUtils HashUtils Buffer Parser Codec Request Program FileCache.

Section Retry.
Context {I S : Type} `{DataBufferImplOk I wf contents} {IO : IOStream S} (md5 : bytes -> bytes).
Context (filename : I -> option bytes) (open_file : bytes -> gmap nat I -> result (gmap nat I * DataBuffer)).
Context (link : bytes -> bytes -> bool).
Import FileCache.
Implicit Types (c : FileCache.t I) (r : Request.t S).

#[local] Abbreviation den := (denotes (wf := wf) (contents := contents)).

(** Opening a file makes a new buffer on its bytes, which leaves the others alone. *)
Definition opens_new : Prop := forall path h h' d, open_file path h = Ok (h', d) -> Buf.isNil d = false ->
  begin_ d = 0 /\ (exists s, den h' d s) /\ forall d' s, den h d' s -> den h' d' s /\ data_ d' <> data_ d.

(** What the file of a saved request holds. *)
Definition saved_text r (sb : bytes) : bytes := enc_request (Request.in_ r) (Request.body_ r) sb.

Definition saveable c r (sb : bytes) : Prop :=
  den (heap c) (Request.body_ r) sb /\ wf_parsed (Request.in_ r) /\
  Forall (file_ok (Request.body_ r)) (files_ (Request.in_ r)) /\ len (saved_text r sb) < 2 ^ 62.

Lemma key_generated thread c c' k :
  generateUniqueKey md5 thread c = Some (c', Ok k) -> exists ids, c' = set_key_ids c ids.
Proof. unfold generateUniqueKey. destruct (key_next _ _); [|done..]. intros [= <- _]. by eexists. Qed.

(** A saved request is in the file of its key, and the new key is a link to it. *)
Lemma request_saved thread r key c c' new_key sb :
  opens_new -> saveable c r sb -> in_cache c (body_file filename c r) = false ->
  saveRequest md5 filename open_file link thread r key c = Some (c', Ok (Some new_key)) ->
  link (cache_dir_ c ++ key) (cache_dir_ c ++ new_key) = true /\
  (exists h h1 d, open_file (cache_dir_ c ++ key) h = Ok (h1, d) /\
     exists d', data_ d' = data_ d /\ den (heap c') d' (saved_text r sb)) /\
  exists ids, c' = set_key_ids (set_heap c (heap c')) ids.
Proof.
  intros Hopen (Hb & Hw & Hf & Hlen) Hin. unfold saveRequest. rewrite bind_gets, Hin. cbn [negb].
  intros E. apply bind_inv in E as (c1 & stored & E1 & E).
  apply bind_inv in E1 as (c0 & d & E0 & E1). unfold createFileBuffer in E0.
  destruct (open_file (cache_dir_ c ++ key) (heap c)) as [[h1 d1]|e|] eqn:Eo; [|done..]. injection E0 as <- <-.
  destruct (Buf.isNil d1) eqn:En; [by injection E1 as <- <-|].
  destruct (Hopen _ _ _ _ Eo En) as (Hd0 & [s0 Hd] & Hother). destruct (Hother _ _ Hb) as [Hb1 Hne].
  destruct (serialize_writes h1 (Request.in_ r) (Request.body_ r) sb d1 s0 Hb1 Hd Hne Hf) as (h2 & d2 & Es & Hd2 & _ & Hden & _).
  { rewrite Hd0. exact Hlen. }
  unfold serialize_request, mbind, prog_bind in E1. cbn [heap set_heap] in E1. rewrite Es in E1. injection E1 as <- <-.
  apply bind_inv in E as (c2 & nk & E2 & E3). unfold createHardLink in E2. rewrite bind_gets in E2.
  apply bind_inv in E2 as (c3 & k & E4 & E2). destruct (key_generated _ _ _ _ E4) as [ids ->].
  cbn [cache_dir_ set_heap] in E2. destruct (link _ _) eqn:El.
  2: { injection E2 as <- <-. by injection E3. }
  injection E2 as <- <-. destruct (Range.empty k); [by injection E3|]. injection E3 as <- <-. split; [exact El|].
  split; [|by exists ids]. exists (heap c), h1, d1. split; [done|]. by exists d2.
Qed.

Lemma multi_insert_length l time task : length (multi_insert l time task) = Datatypes.S (length l).
Proof. induction l as [|[t x] l IH]; cbn; [done|]. destruct (t <=? time); cbn; [by rewrite IH|done]. Qed.

(** [r'] is the request [r] with the body [sb], read back. *)
Definition same_request h r (sb : bytes) r' : Prop :=
  Request.in_ r' = restored (Request.in_ r) (Request.body_ r) (Request.body_ r') /\ den h (Request.body_ r') sb /\
  Forall (fun nf => begin_ (Request.body_ r) <= begin_ (File.data_ nf.2) ->
    den h (File.data_ (restored_file (Request.body_ r) (Request.body_ r') nf).2)
      (slice sb (begin_ (File.data_ nf.2) - begin_ (Request.body_ r)) (end_ (File.data_ nf.2) - begin_ (Request.body_ r))))
    (files_ (Request.in_ r)).

(** The turn in which a request is due dispatches what its file holds. *)
Lemma turn_restores c r sb (handleRequest : Request.t S -> prog (FileCache.t I) unit) c1 c2 new_key n h1 d1 :
  saveable c r sb -> stopped_ c1 = false -> next_due c1 = Some (MkDelayTask new_key n, c2) ->
  open_file (cache_dir_ c1 ++ new_key) (heap c2) = Ok (h1, d1) -> den h1 d1 (saved_text r sb) ->
  exists r', same_request h1 r sb r' /\
    handle_turn open_file handleRequest c1 =
      try_catch (handleRequest r' ;; ret true) (fun e => log (LogException e) ;; ret true)
        (set_active (set_heap c2 h1) (om_insert str_ltb (active_ c2) new_key n).1).
Proof.
  intros (Hb & Hw & Hf & _) Hs Hn Ho Hd. pose proof (denotes_bounds _ _ _ Hb) as Bb. pose proof (denotes_len _ _ _ Hb) as Lb.
  destruct (parse_encoded h1 d1 (Request.in_ r) (Request.body_ r) sb Hw Hf) as (body' & E & Hb' & _); [lia|lia|exact Hd|].
  exists (Request.set_body (Request.set_in Request.create (restored (Request.in_ r) (Request.body_ r) body')) body').
  split.
  - split; [done|]. split; [exact Hb'|]. eapply Forall_impl; [exact Hf|]. intros [name f] (Hin & Hbe & _) Hge. cbn in *.
    pose proof Hin as (_ & ? & ?). apply denotes_sub; [done|lia|lia|lia].
  - unfold handle_turn. rewrite Hs, Hn. unfold try_catch, createFileBuffer, parse_request, insertActive, mbind, prog_bind.
    assert (Hdir : cache_dir_ c2 = cache_dir_ c1).
    { unfold next_due in Hn. destruct (waiting_ c1) as [|[t x] w]; [done|]. destruct (_ <? _); [done|]. by injection Hn as _ <-. }
    cbn [key retries]. rewrite Hdir, Ho. assert (Hnil : Buf.isNil d1 = false).
    { destruct (denotes_deref _ _ _ Hd) as (i & Hi & _). unfold Buf.isNil. apply bool_decide_eq_false. intros En.
      unfold Buf.deref in Hi. by rewrite En in Hi. }
    rewrite Hnil. unfold modify. cbn [heap set_active set_heap]. rewrite E. done.
Qed.

(** C2: a request that is saved to be tried again is tried again as it was. When [save] has put
    off a request that is not in the cache yet, a new file has its serialized form and the key
    under which it waits is a link to that file; in the turn in which the delay of that key is
    over, if the link shows the bytes of the file, the request that is dispatched has the
    variables, the headers, the cookies, the files and the body of the one that was saved, and
    its arguments as [serialize] keeps them. *)
Theorem retry_restored thread r delay c c' sb :
  opens_new -> saveable c r sb -> in_cache c (body_file filename c r) = false ->
  delay <> 0 -> 0 < max_retries_ c ->
  save md5 filename open_file link thread r delay c = Some (c', Ok tt) -> waiting_ c' <> waiting_ c ->
  exists key new_key n,
    waiting_ c' = multi_insert (waiting_ c) (now c + delay) (MkDelayTask new_key n) /\
    link (cache_dir_ c ++ key) (cache_dir_ c ++ new_key) = true /\
    (exists h h1 d, open_file (cache_dir_ c ++ key) h = Ok (h1, d) /\
       exists d', data_ d' = data_ d /\ den (heap c') d' (saved_text r sb)) /\
    forall handleRequest c1 c2 h1 d1,
      stopped_ c1 = false -> cache_dir_ c1 = cache_dir_ c -> next_due c1 = Some (MkDelayTask new_key n, c2) ->
      open_file (cache_dir_ c1 ++ new_key) (heap c2) = Ok (h1, d1) -> den h1 d1 (saved_text r sb) ->
      exists r', same_request h1 r sb r' /\
        handle_turn open_file handleRequest c1 =
          try_catch (handleRequest r' ;; ret true) (fun e => log (LogException e) ;; ret true)
            (set_active (set_heap c2 h1) (om_insert str_ltb (active_ c2) new_key n).1).
Proof.
  intros Hopen Hsave Hin Hd Hm E Hne. unfold save in E. rewrite bind_gets in E.
  apply Z.eqb_neq in Hd. apply Z.leb_gt in Hm. rewrite Hd, Hm in E. cbn [orb] in E.
  apply bind_inv in E as (c1 & key & Ek & E).
  assert (Hk : exists ids, c1 = set_key_ids c ids).
  { unfold getKey, getStoredKey in Ek. rewrite bind_assoc, bind_gets, Hin, bind_ret in Ek. exact (key_generated _ _ _ _ Ek). }
  destruct Hk as [ids ->]. rewrite bind_gets in E.
  assert (Hfinal : exists new_key c2 n, saveRequest md5 filename open_file link thread r key (set_key_ids c ids) = Some (c2, Ok (Some new_key)) /\
    waiting_ c' = multi_insert (waiting_ c2) (now c2 + delay) (MkDelayTask new_key n) /\ heap c' = heap c2).
  { destruct (om_find str_ltb (active_ (set_key_ids c ids)) key) as [n|].
    - destruct (max_retries_ c <=? u32 n); [injection E as <-; by destruct Hne|].
      apply bind_inv in E as (c2 & [new_key|] & Es & E); [|apply keeps_save in Es as (_ & Ew & _); injection E as <-; by destruct Hne].
      exists new_key, c2, (s32 (u32 (u32 n + 1))). split; [exact Es|]. by injection E as <-.
    - apply bind_inv in E as (c2 & [new_key|] & Es & E); [|apply keeps_save in Es as (_ & Ew & _); by injection E as <-].
      exists new_key, c2, 1. split; [exact Es|]. by injection E as <-. }
  destruct Hfinal as (new_key & c2 & n & Es & Ew & Eh).
  destruct (request_saved thread r key (set_key_ids c ids) c2 new_key sb Hopen Hsave Hin Es) as (Hl & Hfile & ids2 & E2).
  exists key, new_key, n. rewrite Ew, Eh, E2. split; [done|]. split; [exact Hl|]. split; [exact Hfile|].
  intros handleRequest c3 c4 h1 d1 Hs Hdir Hn Ho Hden. by apply (turn_restores c r sb handleRequest c3 c4 new_key n h1 d1).
Qed.
End Retry.

(** A request with a body and a file in it, in a cache on a system that shows the bytes of the first
    file under the link. *)
Section Examples.
Import FileCache.

Definition demo_retry : Request.t MemStream :=
  Request.set_body (Request.set_in Request.create demo_request) demo_body.2.
Definition retry_text : bytes := saved_text demo_retry (lit "0123456789").

Definition demo_key (id : Z) : bytes := HashUtils.hexMD5 demo_md5 (key_text (MkKeyId id 7) 1).
Definition shown (path : bytes) : StringBuffer.t :=
  StringBuffer.create (if str_eqb path (lit "/var/cache/" ++ demo_key 1) then [] else retry_text).
Definition linked_files (path : bytes) (h : gmap nat StringBuffer.t) : result (gmap nat StringBuffer.t * DataBuffer) :=
  Ok (Buf.create h (shown path)).

Definition before_retry : FileCache.t StringBuffer.t := set_heap (create_cache (lit "/var/cache") 2 (1024 * 1024) 100 7) demo_body.1.
Definition save_retry : option (FileCache.t StringBuffer.t * result unit) :=
  save demo_md5 no_name linked_files linked 1 demo_retry 50 before_retry.

Lemma shown_wf path : string_wf (shown path).
Proof. unfold shown. by destruct (str_eqb _ _). Qed.

Lemma linked_files_new : opens_new (wf := string_wf) (contents := StringBuffer.data_) linked_files.
Proof.
  intros path h h' d E _. pose proof (create_denotes (wf := string_wf) (contents := StringBuffer.data_) h _ (shown_wf path)) as Hd.
  pose proof (create_frame (wf := string_wf) (contents := StringBuffer.data_) h (shown path)) as Hf.
  assert (Hl : data_ (Buf.create h (shown path)).2 = Some (fresh (dom h))) by reflexivity.
  assert (H0 : begin_ (Buf.create h (shown path)).2 = 0) by reflexivity.
  unfold linked_files in E. destruct (Buf.create h (shown path)) as [h1 d1]. injection E as <- <-.
  split; [exact H0|]. split; [by eexists|]. intros d' s Hs. split; [by apply Hf|].
  destruct Hs as (l & i & El & Hi & _). cbn [snd] in Hl. rewrite El, Hl. intros [= E]. apply (is_fresh (dom h)).
  rewrite <- E. by eapply elem_of_dom_2.
Qed.

Lemma retry_saveable : saveable (wf := string_wf) (contents := StringBuffer.data_) before_retry demo_retry (lit "0123456789").
Proof.
  split; [by apply (string_view_denotes (lit "0123456789"))|]. split; [repeat split; repeat constructor|].
  split; [repeat constructor; cbn; try lia; discriminate|by vm_compute].
Qed.

Lemma retry_waits :
  match save_retry with Some (c, res) => (waiting_ c, stopped_ c, cache_dir_ c, res) | None => ([], true, [], Undef) end =
  ([(150, MkDelayTask (demo_key 2) 1)], false, lit "/var/cache/", Ok tt).
Proof. vm_compute. reflexivity. Qed.

Lemma retry_shown : StringBuffer.data_ (shown (lit "/var/cache/" ++ demo_key 2)) = retry_text.
Proof. vm_compute. reflexivity. Qed.

Lemma retry_restored_witness :
  exists c r, save_retry = Some (c, Ok tt) /\
    same_request (wf := string_wf) (contents := StringBuffer.data_) (Buf.create ∅ (shown (lit "/var/cache/" ++ demo_key 2))).1
      demo_retry (lit "0123456789") r.
Proof.
  pose proof retry_waits as Hw. destruct save_retry as [[c res]|] eqn:E; [|discriminate Hw].
  injection Hw as Hw Hs Hd ->.
  destruct (retry_restored demo_md5 no_name linked_files linked 1 demo_retry 50 before_retry c (lit "0123456789"))
    as (key & new_key & n & Ew & _ & _ & Hturn).
  - exact linked_files_new.
  - exact retry_saveable.
  - reflexivity.
  - discriminate.
  - reflexivity.
  - exact E.
  - rewrite Hw. discriminate.
  - rewrite Hw in Ew. injection Ew as <- <-.
    destruct (Hturn (fun _ => ret tt) (set_outside c ∅ 200 9) (set_waiting (set_outside c ∅ 200 9) [])
      (Buf.create ∅ (shown (lit "/var/cache/" ++ demo_key 2))).1 (Buf.create ∅ (shown (lit "/var/cache/" ++ demo_key 2))).2)
      as (r & Hr & _).
    + exact Hs.
    + exact Hd.
    + unfold next_due. cbn [waiting_ set_outside now]. rewrite Hw. reflexivity.
    + cbn [cache_dir_ set_outside]. rewrite Hd. reflexivity.
    + change (saved_text demo_retry (lit "0123456789")) with retry_text. rewrite <- retry_shown.
      exact (create_denotes (wf := string_wf) (contents := StringBuffer.data_) ∅ _ (shown_wf _)).
    + exists c, r. split; [reflexivity|exact Hr].
Defined.
End Examples.
