(* ===== verification/Loggers.v ===== *)
(** * Loggers

    [library/logger.cpp], [file-logger/file_logger.cpp] and [syslog/syslog-logger.cpp]: which
    messages are logged, what becomes of their texts, and how they reach a file or the system's
    log. The file logger queues its lines for a thread that writes them; its executions are
    sequences of the critical sections of [log], [rollOver], the destructor and
    [writingThread], and of the results of the calls of [write]. *)

From S2P Require Import Prelude Cxx StringUtils Ranges Buffer Parser Codec Request Session SessionManager Handlers.
From S2P Require Import Program Security Server.

Module Logger.

Inductive Level := DEBUG | INFO | ERROR | EMERGENCY.

Definition level_num (l : Level) : Z := match l with DEBUG => 0 | INFO => 1 | ERROR => 2 | EMERGENCY => 3 end.
Definition less (a b : Level) : bool := level_num a <? level_num b.

(** [::tolower] on plain [char]s. *)
Definition stringToLevel (name : bytes) : result Level :=
  let name := tolower_str name in
  if str_eqb name (lit "info") then Ok INFO
  else if str_eqb name (lit "debug") then Ok DEBUG
  else if str_eqb name (lit "error") then Ok ERROR
  else if str_eqb name (lit "emerg") then Ok EMERGENCY
  else Throw (RuntimeError (lit "bad string to log level cast")).

Definition levelToString (level : Level) : bytes :=
  match level with
  | INFO => lit "INFO"
  | DEBUG => lit "DEBUG"
  | ERROR => lit "ERROR"
  | EMERGENCY => lit "EMERG"
  end.

(** The arguments of a message, and [vsnprintf] with the conversions that take them; other
    conversions, and arguments that are missing or of another type, are not defined. *)
Inductive arg := AStr (s : bytes) | AInt (n : Z).

Fixpoint printf (fmt : bytes) (args : list arg) : result bytes :=
  match fmt with
  | [] => Ok []
  | c :: f =>
      if beqb c "%"%byte then
        match f with
        | [] => Undef
        | d :: f' =>
            if beqb d "%"%byte then t ← printf f' args; Ok (d :: t)
            else if beqb d "s"%byte then
              match args with AStr s :: args' => t ← printf f' args'; Ok (c_str s ++ t) | _ => Undef end
            else if beqb d "d"%byte || beqb d "i"%byte then
              match args with AInt n :: args' => t ← printf f' args'; Ok (to_string n ++ t) | _ => Undef end
            else Undef
        end
      else t ← printf f args; Ok (c :: t)
  end.
End Logger.

(** ** The file logger *)

Module FileLogger.
Import Logger.

Definition BUF_SIZE : nat := 512.

(** Where the thread is in [writingThread]: at the test of [stopping_]; before the lock of the
    queue; in [wait], or woken and about to lock again; with the lines of [queueCopy], before
    the lock of the file; writing them, so many bytes of the first one written; returned. *)
Inductive writer :=
| Checking
| Locking
| Waiting
| Woken
| Holding (queueCopy : list bytes)
| Writing (wrote : Z) (queueCopy : list bytes)
| Ended.

(** [fd_]: whether the file is open; [file]: what has been written through it. *)
Record t := MkFileLogger {
  level_ : Level;
  filename_ : bytes;
  open_mode_ : Z;
  time_format_ : bytes;
  print_level_ : bool;
  print_time_ : bool;
  fd_ : bool;
  stopping_ : bool;
  queue_ : list bytes;
  writing_thread_ : writer;
  file : bytes
}.

Definition set_fd (l : t) v := MkFileLogger (level_ l) (filename_ l) (open_mode_ l) (time_format_ l)
  (print_level_ l) (print_time_ l) v (stopping_ l) (queue_ l)
  (writing_thread_ l) (file l).
Definition set_stopping (l : t) v := MkFileLogger (level_ l) (filename_ l) (open_mode_ l) (time_format_ l)
  (print_level_ l) (print_time_ l) (fd_ l) v (queue_ l)
  (writing_thread_ l) (file l).
Definition set_queue (l : t) v := MkFileLogger (level_ l) (filename_ l) (open_mode_ l) (time_format_ l)
  (print_level_ l) (print_time_ l) (fd_ l) (stopping_ l) v
  (writing_thread_ l) (file l).
Definition set_writer (l : t) v := MkFileLogger (level_ l) (filename_ l) (open_mode_ l) (time_format_ l)
  (print_level_ l) (print_time_ l) (fd_ l) (stopping_ l)
  (queue_ l) v (file l).
Definition set_file (l : t) v := MkFileLogger (level_ l) (filename_ l) (open_mode_ l) (time_format_ l)
  (print_level_ l) (print_time_ l) (fd_ l) (stopping_ l)
  (queue_ l) (writing_thread_ l) v.

(** [openFile] closes the file first; [open_] gives 0 or [errno]. *)
Definition openFile (open_ : bytes -> Z -> Z) (l : t) : t * result unit :=
  let errno := open_ (c_str (filename_ l)) (open_mode_ l) in
  if errno =? 0 then (set_fd l true, Ok tt) else (set_fd l false, Throw (SystemError errno)).

(** The modes for [/read]: [S_IRUSR] is 256, [S_IWUSR] 128, [S_IRGRP] 32, [S_IWGRP] 16 and
    [S_IROTH] 4; [S_IXUSR], [S_IXGRP] and [S_IXOTH] together are 73. *)
Definition read_mode (read : bytes) : Z :=
  if str_eqb read (lit "all") then 256 + 128 + 32 + 4
  else if str_eqb read (lit "group") then 256 + 128 + 32
  else if str_eqb read (lit "user") then 256 + 128
  else 256 + 128 + 32 + 16 + 4.

(** The constructor over the calls of the system; the thread is running when it returns. [yes]
    in any case of its letters. *)
Definition create (mkdir : Z -> bytes -> Z) (isWritable : bytes -> bool) (open_ : bytes -> Z -> Z)
    (config : Config) (componentXPath : bytes) : result t :=
  filename ← asString config (componentXPath ++ lit "/file");
  name ← asString config (componentXPath ++ lit "/level");
  level ← stringToLevel name;
  let print_level := strcaseeq (c_str (asString_default config (componentXPath ++ lit "/print-level") (lit "yes"))) (lit "yes") in
  let print_time := strcaseeq (c_str (asString_default config (componentXPath ++ lit "/print-time") (lit "yes"))) (lit "yes") in
  let time_format := asString_default config (componentXPath ++ lit "/time-format") (lit "[%Y/%m/%d %T]") in
  let open_mode := read_mode (asString_default config (componentXPath ++ lit "/read") []) in
  let path := FileSystemUtils.pathToFile filename in
  _ ← (FileSystemUtils.createDirectories (mkdir (Z.lor open_mode 73)) path).2;
  if negb (isWritable path) then Throw (RuntimeError (lit "Permission denied"))
  else
    let '(l, r) := openFile open_ (MkFileLogger level filename open_mode time_format print_level print_time false false []
                                     Checking []) in
    _ ← r; Ok l.

(** The format of the line; [timestr] is the formatted time. [snprintf] with one byte less than
    the buffer and a last byte for its end. *)
Definition prepareFormat (l : t) (timestr : bytes) (level : Level) (format : bytes) : bytes :=
  take (BUF_SIZE - 2)
    (match print_time_ l, print_level_ l with
     | true, true => timestr ++ lit " " ++ levelToString level ++ lit ": " ++ c_str format ++ [Byte.x0a]
     | true, false => timestr ++ lit " " ++ c_str format ++ [Byte.x0a]
     | false, true => levelToString level ++ lit ": " ++ c_str format ++ [Byte.x0a]
     | false, false => c_str format ++ [Byte.x0a]
     end).

(** The line that a message gives, when it is logged. *)
Definition log_line (l : t) (timestr : bytes) (level : Level) (format : bytes) (args : list arg) : result (option bytes) :=
  if less level (level_ l) then Ok None
  else if negb (fd_ l) then Ok None
  else
    data ← printf (prepareFormat l timestr level format) args;
    Ok (match data with [] => None | _ => Some data end).

Definition wake (l : t) : t := match writing_thread_ l with Waiting => set_writer l Woken | _ => l end.

(** What can be seen of an execution: a line is queued; something that was queued is given up. *)
Inductive obs := Queued (line : bytes) | Failed.

(** The line is queued and the thread notified under the lock. *)
Definition log (l : t) (timestr : bytes) (level : Level) (format : bytes) (args : list arg) : result (t * list obs) :=
  line ← log_line l timestr level format args;
  Ok (match line with
      | Some data => (wake (set_queue l (queue_ l ++ [data])), [Queued data])
      | None => (l, [])
      end).

(** The start of the destructor, which then joins the thread. *)
Definition destroy (l : t) : t := wake (set_stopping l true).

(** One step of [writingThread]; [res] is what [write] returns, if it is called. *)
Definition thread_step (l : t) (res : Z) : option (t * list obs) :=
  match writing_thread_ l with
  | Checking => Some (set_writer l (if stopping_ l then Ended else Locking), [])
  | Locking => Some (set_writer l Waiting, [])
  | Waiting => None
  | Woken => Some (set_queue (set_writer l (Holding (queue_ l))) [], [])
  | Holding batch =>
      if fd_ l then Some (set_writer l (Writing 0 batch), [])
      else Some (set_writer l Checking, match batch with [] => [] | _ => [Failed] end)
  | Writing wrote [] => Some (set_writer l Checking, [])
  | Writing wrote (i :: batch) =>
      if wrote <? len i then
        if res <? 0 then Some (set_writer l (Writing 0 batch), [Failed])
        else if res <=? len i - wrote then
          Some (set_file (set_writer l (Writing (wrote + res) (i :: batch)))
                  (file l ++ slice i wrote (wrote + res)), [])
        else None
      else Some (set_writer l (Writing 0 batch), [])
  | Ended => None
  end.

Inductive event :=
| ELog (timestr : bytes) (level : Level) (format : bytes) (args : list arg)
| ERollOver (errno : Z)         (* waits while the thread has the file *)
| EDestroy
| ESpurious                    (* the wait ends by itself *)
| EThread (res : Z).

Definition step (l : t) (e : event) : option (t * list obs) :=
  match e with
  | ELog timestr level format args =>
      match log l timestr level format args with Ok r => Some r | _ => None end
  | ERollOver errno =>
      match writing_thread_ l with Writing _ _ => None | _ => Some ((openFile (fun _ _ => errno) l).1, []) end
  | EDestroy => Some (destroy l, [])
  | ESpurious => match writing_thread_ l with Waiting => Some (set_writer l Woken, []) | _ => None end
  | EThread res => thread_step l res
  end.

Fixpoint run (l : t) (es : list event) : option (t * list obs) :=
  match es with
  | [] => Some (l, [])
  | e :: es' =>
      '(l, o1) ← step l e;
      '(l, o2) ← run l es';
      Some (l, o1 ++ o2)
  end.
End FileLogger.

(** ** The system's log *)

Module SyslogLogger.
Import Logger.

(** [threadIdent_] is that of the thread that logs. *)
Record t := MkSyslog {
  level_ : Level;
  ident_ : bytes;
  priority_ : Z;
  requestSpecificIdent_ : bool;
  threadIdent_ : option bytes
}.

Definition toSyslogPriority (level : Level) : Z :=
  match level with
  | INFO => 6
  | DEBUG => 7
  | ERROR => 3
  | EMERGENCY => 0
  end.

(** [setLevel], with [setLevelInternal]. *)
Definition setLevel (l : t) (level : Level) : t :=
  MkSyslog level (ident_ l) (toSyslogPriority level) (requestSpecificIdent_ l) (threadIdent_ l).

Definition create (config : Config) (componentXPath : bytes) : result t :=
  ident ← asString config (componentXPath ++ lit "/ident");
  name ← asString config (componentXPath ++ lit "/level");
  level ← stringToLevel name;
  Ok (MkSyslog level ident (toSyslogPriority level)
        (str_eqb (asString_default config (componentXPath ++ lit "/request-specific-ident") (lit "off")) (lit "on")) None).

Definition setRequestId (l : t) (id : bytes) : t :=
  MkSyslog (level_ l) (ident_ l) (priority_ l) (requestSpecificIdent_ l) (Some id).

Definition getRequestId (l : t) : bytes :=
  if requestSpecificIdent_ l then default [] (threadIdent_ l) else [].

Definition format_ident (l : t) : bytes :=
  match requestSpecificIdent_ l, threadIdent_ l with
  | true, Some id => ident_ l ++ lit ":" ++ id ++ lit ": %s"
  | _, _ => ident_ l ++ lit ": %s"
  end.

(** The text in a string of 10240 characters, those after it being NUL. *)
Definition FORMATTED : nat := Z.to_nat 10240.
Definition formatted (text : bytes) : bytes :=
  let s := take (FORMATTED - 1) text in s ++ repeat Byte.x00 (FORMATTED - length s).

(** [while (ss.good()) getline]: the pieces between the newlines, each given to [syslog]. *)
Definition log (l : t) (level : Level) (format : bytes) (args : list arg) : result (list (Z * bytes)) :=
  if negb (less level (level_ l)) then
    text ← printf (c_str format) args;
    mapM (fun tmp => s ← printf (c_str (format_ident l)) [AStr tmp]; Ok (toSyslogPriority level, s))
      (split_on Byte.x0a (formatted text))
  else Ok [].

Section Handle.
Context {V S I : Type} {IO : IOStream S}.

Definition say (text : bytes) : prog (World V S I) unit :=
  modify (fun w => set_response w (response w ++ text ++ [Byte.x0a])).

(** [handleRequest]; it gives the logger it leaves. *)
Definition handleRequest (l : t) : prog (World V S I) t :=
  Req.request_set (fun r => Request.setContentType r (lit "text/plain")) ;;
  action ← Req.request_field (fun r => Request.getArg r (lit "action"));
  if str_eqb (lit "setlevel") action then
    name ← Req.request_field (fun r => Request.getArg r (lit "level"));
    level ← lift (stringToLevel name);
    say (lit "level " ++ name ++ lit "successfully set") ;;
    ret (setLevel l level)
  else if str_eqb (lit "rollover") action then say (lit "rollover successful") ;; ret l
  else say (lit "bad action") ;; ret l.
End Handle.
End SyslogLogger.

(** ** What reaches the file *)

Section Written.
Import FileLogger.
Implicit Types l : FileLogger.t.

(** The lines the thread has taken and not finished, and what it has written of the first. *)
Definition held l : list bytes := match writing_thread_ l with Holding b | Writing _ b => b | _ => [] end.
Definition current l : bytes := match writing_thread_ l with Writing wrote (i :: _) => slice i 0 wrote | _ => [] end.

Definition queued (os : list obs) : list bytes := omap (fun o => match o with Queued x => Some x | Failed => None end) os.

(** What has been written are the lines that were queued and are finished, in order, each of
    them whole or, after a failure, a front part of it; then the current one so far. *)
Definition log_ok l os : Prop :=
  (exists parts finished,
     queued os = finished ++ held l ++ queue_ l /\
     Forall2 prefix parts finished /\
     file l = concat parts ++ current l /\
     (Failed ∉ os -> parts = finished)) /\
  match writing_thread_ l with Writing wrote (i :: _) => 0 <= wrote <= len i | _ => True end.

Lemma queued_app o1 o2 : queued (o1 ++ o2) = queued o1 ++ queued o2.
Proof. apply omap_app. Qed.

(** A step that changes neither the file nor what is held or queued. *)
Lemma log_ok_same l l' os :
  log_ok l os -> held l' = held l -> queue_ l' = queue_ l -> current l' = current l -> file l' = file l ->
  match writing_thread_ l' with Writing wrote (i :: _) => 0 <= wrote <= len i | _ => True end -> log_ok l' os.
Proof.
  intros [(ps & fin & H1 & H2 & H3 & H4) _] Eh Eq Ec Ef Hw. split; [|done].
  exists ps, fin. rewrite Eh, Eq, Ec, Ef. done.
Qed.

Lemma wake_same l : held (wake l) = held l /\ queue_ (wake l) = queue_ l /\ current (wake l) = current l /\
  file (wake l) = file l.
Proof. unfold wake. destruct l as [? ? ? ? ? ? ? ? ? [] ?]; done. Qed.

Lemma wake_writing l P : match writing_thread_ l with Writing w (i :: _) => P w i | _ => True end ->
  match writing_thread_ (wake l) with Writing w (i :: _) => P w i | _ => True end.
Proof. unfold wake. destruct l as [? ? ? ? ? ? ? ? ? [] ?]; done. Qed.

(** The thread is done with the first of its lines. *)
Lemma log_ok_next l wrote i batch os o :
  log_ok l os -> writing_thread_ l = Writing wrote (i :: batch) ->
  (o = [] /\ len i <= wrote \/ o = [Failed]) ->
  log_ok (set_writer l (Writing 0 batch)) (os ++ o).
Proof.
  intros [(ps & fin & H1 & H2 & H3 & H4) Hb] Ew Ho. rewrite Ew in Hb. unfold held, current in *. rewrite Ew in *.
  split; [|cbn; destruct batch as [|j ?]; [done|]; pose proof (len_nonneg j); lia].
  exists (ps ++ [slice i 0 wrote]), (fin ++ [i]). split_and!.
  - rewrite queued_app, H1. destruct Ho as [[-> _]| ->]; cbn; by rewrite app_nil_r, <- !app_assoc.
  - apply Forall2_app; [done|]. apply Forall2_cons. split; [|by apply Forall2_nil].
    exists (drop (Z.to_nat wrote) i). unfold slice. by rewrite Z.sub_0_r, drop_0, take_drop.
  - cbn [file set_writer]. rewrite concat_app, H3. cbn. rewrite app_nil_r. destruct batch; [|rewrite (slice_empty _ 0 0) by lia]; by rewrite app_nil_r.
  - intros HF. destruct Ho as [[-> Hl]| ->]; [|set_solver +HF]. rewrite app_nil_r in HF. rewrite (H4 HF).
    do 2 f_equal. unfold slice. rewrite Z.sub_0_r, drop_0. apply take_ge. unfold len in Hl. lia.
Qed.

Lemma thread_step_ok l res l' o os :
  thread_step l res = Some (l', o) -> log_ok l os -> log_ok l' (os ++ o).
Proof.
  intros Hs Hok. pose proof Hok as [(ps & fin & H1 & H2 & H3 & H4) Hb].
  destruct (writing_thread_ l) as [| | | |b|wrote [|i batch]|] eqn:Ew; unfold thread_step in Hs; rewrite Ew in Hs; try done.
  - injection Hs as <- <-. rewrite app_nil_r. eapply log_ok_same; [exact Hok|..];
      unfold held, current; cbn; rewrite ?Ew; destruct (stopping_ l); done.
  - injection Hs as <- <-. rewrite app_nil_r. eapply log_ok_same; [exact Hok|..]; unfold held, current; cbn; by rewrite ?Ew.
  - injection Hs as <- <-. rewrite app_nil_r. split; [|done]. exists ps, fin.
    unfold held, current in *. rewrite Ew in H1, H3. cbn. by rewrite app_nil_r.
  - destruct (fd_ l).
    + injection Hs as <- <-. rewrite app_nil_r. eapply log_ok_same; [exact Hok|..]; unfold held, current; cbn; rewrite ?Ew; try done.
      * by destruct b.
      * destruct b as [|i ?]; [done|]. pose proof (len_nonneg i). lia.
    + injection Hs as <- <-. split; [|done]. unfold held, current in *. rewrite Ew in H1, H3. cbn.
      exists (ps ++ map (fun _ => []) b), (fin ++ b). split_and!.
      * rewrite queued_app, H1. by destruct b; cbn; rewrite !app_nil_r, <- ?app_assoc.
      * apply Forall2_app; [done|]. apply Forall2_fmap_l, Forall_Forall2_diag, Forall_true. intros i. apply prefix_nil.
      * rewrite concat_app, H3. replace (concat (map (fun _ => []) b)) with (@nil byte); [by rewrite !app_nil_r|].
        clear. by induction b.
      * destruct b; [|set_solver]. rewrite !app_nil_r. done.
  - injection Hs as <- <-. rewrite app_nil_r. eapply log_ok_same; [exact Hok|..]; unfold held, current; cbn; by rewrite ?Ew.
  - destruct (Z.ltb_spec wrote (len i)).
    + destruct (Z.ltb_spec res 0).
      { injection Hs as <- <-. eapply log_ok_next; [done..|by right]. }
      destruct (Z.leb_spec res (len i - wrote)); [|done]. injection Hs as <- <-. rewrite app_nil_r.
      split; [|cbn; lia]. exists ps, fin. unfold held, current in *. rewrite Ew in H1, H3. cbn. split_and!; try done.
      rewrite H3, <- app_assoc. f_equal. symmetry. apply slice_split; lia.
    + injection Hs as <- <-. eapply log_ok_next; [done..|left; split; [done|lia]].
Qed.

Lemma log_step_ok l e l' o os : step l e = Some (l', o) -> log_ok l os -> log_ok l' (os ++ o).
Proof.
  intros Hs Hok. pose proof Hok as [_ Hb]. destruct e as [timestr level format args|errno| | |res]; cbn [step] in Hs.
  - destruct (log l timestr level format args) as [r|x|] eqn:E; try done. injection Hs as ->.
    unfold log in E. destruct (log_line _ _ _ _ _) as [[data|]|x|]; try done; injection E as <- <-; [|by rewrite app_nil_r].
    destruct Hok as [(ps & fin & H1 & H2 & H3 & H4) _].
    destruct (wake_same (set_queue l (queue_ l ++ [data]))) as (E1 & E2 & E3 & E4).
    split; [|by apply (wake_writing (set_queue l _) (fun w i => 0 <= w <= len i))].
    exists ps, fin. rewrite E1, E2, E3, E4. split_and!; try done.
    + rewrite queued_app, H1. unfold held. cbn. by rewrite !app_assoc.
    + set_solver.
  - assert (Hsame : log_ok (openFile (fun _ _ => errno) l).1 (os ++ [])).
    { rewrite app_nil_r. unfold openFile. destruct (errno =? 0); by eapply log_ok_same. }
    by destruct (writing_thread_ l); simplify_eq.
  - injection Hs as <- <-. rewrite app_nil_r. destruct (wake_same (set_stopping l true)) as (E1 & E2 & E3 & E4).
    eapply log_ok_same; [exact Hok|done..|]. by apply (wake_writing (set_stopping l true) (fun w i => 0 <= w <= len i)).
  - destruct (writing_thread_ l) eqn:Ew; try done. injection Hs as <- <-. rewrite app_nil_r.
    eapply log_ok_same; [exact Hok|..]; unfold held, current; cbn; by rewrite ?Ew.
  - by eapply thread_step_ok.
Qed.

Lemma log_run_ok es l l' os os' : run l es = Some (l', os') -> log_ok l os -> log_ok l' (os ++ os').
Proof.
  revert l os os'. induction es as [|e es IH]; cbn [run]; intros l os os' H Hok.
  - injection H as <- <-. by rewrite app_nil_r.
  - destruct (step l e) as [[l1 o1]|] eqn:E; [|done]. cbn in H.
    destruct (run l1 es) as [[l2 o2]|] eqn:Er; [|done]. injection H as <- <-. rewrite app_assoc.
    eapply IH; [done|]. by eapply log_step_ok.
Qed.

(** C21: A file that is logged to, after any execution: every line that was queued is finished,
    taken by the writing thread or still in the queue, each once and in the order of logging;
    the file holds the finished lines one after the other, and then what has been written of
    the current one, also when [write] takes a line in several pieces. A line is cut short, or
    left out, only after a failure (a [write] that fails, or a file that could not be opened). *)
Theorem log_written mkdir isWritable open_ config xpath l0 es l os :
  create mkdir isWritable open_ config xpath = Ok l0 -> run l0 es = Some (l, os) ->
  exists parts finished,
    queued os = finished ++ held l ++ queue_ l /\
    Forall2 prefix parts finished /\
    file l = concat parts ++ current l /\
    (Failed ∉ os -> parts = finished).
Proof.
  intros Hc Hr. assert (Hok : log_ok l0 []).
  { unfold create in Hc. do 2 (destruct (asString config _); try done; cbn in Hc). destruct (Logger.stringToLevel _); try done.
    cbn [mbind result_bind] in Hc. destruct (FileSystemUtils.createDirectories _ _).2; try done. cbn in Hc.
    destruct (negb _); [done|]. unfold openFile in Hc. destruct (_ =? 0); [|done]. injection Hc as <-.
    split; [|done]. exists [], []. split_and!; by try apply Forall2_nil. }
  apply (log_run_ok _ _ _ _ _ Hr) in Hok as [H _]. exact H.
Qed.
End Written.

(** ** The text of a line *)

Section Text.
Import Logger.

Definition no_percent (s : bytes) : Prop := Forall (fun c => beqb c "%"%byte = false) s.

Lemma printf_plain s f args : no_percent s -> printf (s ++ f) args = t ← printf f args; Ok (s ++ t).
Proof.
  unfold no_percent. induction 1 as [|c s Hc _ IH]; cbn; [|rewrite Hc, IH]; by destruct (printf f args).
Qed.

Lemma printf_all s args : no_percent s -> printf s args = Ok s.
Proof. intros H. pose proof (printf_plain s [] args H) as E. rewrite app_nil_r in E. rewrite E. cbn. by rewrite app_nil_r. Qed.

(** What follows a complete format without conversions is copied. *)
Lemma printf_then n f args t s :
  (length f <= n)%nat -> printf f args = Ok t -> no_percent s -> printf (f ++ s) args = Ok (t ++ s).
Proof.
  intros Hn Ht Hs. revert f args t Hn Ht. induction n as [|n IH]; intros [|c f] args t Hn Ht; cbn in Hn; try lia.
  1, 2: cbn in Ht; injection Ht as <-; by apply printf_all.
  cbn in Ht |- *. destruct (beqb c "%"%byte).
  - destruct f as [|d f]; [done|]. cbn in Hn |- *.
    destruct (beqb d "%"%byte); [|destruct (beqb d "s"%byte); [|destruct (_ || _); [|done]]].
    + destruct (printf f args) as [t'|e|] eqn:E; try done. injection Ht as <-. by rewrite (IH f args t') by (done || lia).
    + destruct args as [|[x|x] args]; try done. destruct (printf f args) as [t'|e|] eqn:E; try done. injection Ht as <-.
      rewrite (IH f args t') by (done || lia). cbn. by rewrite app_assoc.
    + destruct args as [|[x|x] args]; try done. destruct (printf f args) as [t'|e|] eqn:E; try done. injection Ht as <-.
      rewrite (IH f args t') by (done || lia). cbn. by rewrite app_assoc.
  - destruct (printf f args) as [t'|e|] eqn:E; try done. injection Ht as <-. by rewrite (IH f args t') by (done || lia).
Qed.

Lemma no_percent_app a b : no_percent a -> no_percent b -> no_percent (a ++ b).
Proof. apply Forall_app_2. Qed.

Lemma match_snoc {A} (l : list A) a : match l ++ [a] with [] => None | _ => Some (l ++ [a]) end = Some (l ++ [a]).
Proof. by destruct l. Qed.

#[local] Ltac no_percent := repeat apply no_percent_app; first [assumption|repeat constructor].

(** The line of a message: the time, the level and the text of the message, as configured, when
    the format fits. *)
Lemma log_line_text l timestr level format args text :
  FileLogger.fd_ l = true -> less level (FileLogger.level_ l) = false ->
  no_percent timestr -> (length timestr + length format <= 500)%nat -> printf (c_str format) args = Ok text ->
  FileLogger.log_line l timestr level format args =
    Ok (Some ((if FileLogger.print_time_ l then timestr ++ lit " " else []) ++
              (if FileLogger.print_level_ l then levelToString level ++ lit ": " else []) ++ text ++ [Byte.x0a])).
Proof.
  intros Hfd Hl Ht Hn Hp. unfold FileLogger.log_line, FileLogger.prepareFormat. rewrite Hl, Hfd. cbn [negb].
  assert (Hc : (length (c_str format) <= length format)%nat).
  { unfold c_str. clear. induction format as [|c f IH]; cbn; [lia|]. destruct (negb _); cbn; lia. }
  assert (Hlv : (length (levelToString level) <= 5)%nat) by (by destruct level; cbn; lia).
  assert (Hnl : no_percent (levelToString level)) by (by destruct level; repeat constructor).
  assert (Hpn : printf (c_str format ++ [Byte.x0a]) args = Ok (text ++ [Byte.x0a])) 
    by (apply (printf_then _ _ _ _ _ (le_n _)); [done|repeat constructor]).
  destruct (FileLogger.print_time_ l), (FileLogger.print_level_ l); cbn [app];
    rewrite take_ge by (repeat (rewrite length_app || cbn [length lit]); cbn; lia).
  1: rewrite (app_assoc (levelToString level)), (app_assoc (lit " ")), (app_assoc timestr).
  2: rewrite (app_assoc timestr). 3: rewrite (app_assoc (levelToString level)).
  all: rewrite ?printf_plain by no_percent; rewrite Hpn; cbn.
  all: rewrite ?(app_assoc _ text), match_snoc, <- ?app_assoc; cbn; by rewrite <- ?app_assoc.
Qed.
End Text.

(** ** The system's log gets every line *)

Section Lines.
Import Logger SyslogLogger.

Lemma c_str_zeros s n : mem Byte.x00 s = false -> c_str (s ++ repeat Byte.x00 n) = s.
Proof.
  induction s as [|c s IH]; cbn.
  - by destruct n.
  - intros [Hc Hs]%orb_false_iff. unfold c_str in IH |- *. cbn.
    assert (E : beqb c Byte.x00 = false).
    { destruct (beqb c Byte.x00) eqn:E; [|done]. apply beqb_true in E as ->. done. }
    rewrite E. cbn. by rewrite IH.
Qed.

Lemma split_on_zeros s n : map c_str (split_on Byte.x0a (s ++ repeat Byte.x00 n)) = map c_str (split_on Byte.x0a s).
Proof.
  induction s as [|c s IH]; cbn.
  - rewrite split_on_none by (induction n as [|n IH]; [done|exact IH]). cbn. f_equal. by apply (c_str_zeros []).
  - destruct (beqb c Byte.x0a); cbn; [by rewrite IH|].
    pose proof (split_on_not_nil Byte.x0a (s ++ repeat Byte.x00 n)) as H1.
    pose proof (split_on_not_nil Byte.x0a s) as H2.
    destruct (split_on Byte.x0a (s ++ _)) as [|x xs]; [done|]. destruct (split_on Byte.x0a s) as [|y ys]; [done|].
    cbn in IH |- *. injection IH as Ex Exs. rewrite Exs. f_equal. unfold c_str. cbn.
    destruct (negb _); [|done]. f_equal. exact Ex.
Qed.

Lemma split_on_free c s : Forall (fun x => mem c x = false) (split_on c s).
Proof.
  induction s as [|a s IH]; cbn; [by repeat constructor|].
  destruct (beqb a c) eqn:E; [by constructor|].
  destruct (split_on c s) as [|x xs]; inversion_clear IH as [|? ? Hx Hxs]; constructor; try done; cbn.
  all: rewrite beqb_false in E; rewrite (proj2 (beqb_false _ _)) by congruence; done.
Qed.

Lemma split_on_mem z c s : mem z s = false -> Forall (fun x => mem z x = false) (split_on c s).
Proof.
  induction s as [|a s IH]; cbn; [by repeat constructor|]. intros [Ha Hs]%orb_false_iff. specialize (IH Hs).
  destruct (beqb a c); [by constructor|].
  destruct (split_on c s) as [|x xs]; inversion_clear IH as [|? ? Hx Hxs]; constructor; try done; cbn; by rewrite Ha.
Qed.

Lemma mapM_ok {A B} (f : A -> result B) (g : A -> B) xs : (forall x, f x = Ok (g x)) -> mapM f xs = Ok (map g xs).
Proof. intros Hf. induction xs as [|x xs IH]; [done|]. cbn. rewrite Hf. cbn. by rewrite IH. Qed.

Lemma printf_ident pre tmp : no_percent pre -> printf (pre ++ lit ": %s") [AStr tmp] = Ok (pre ++ lit ": " ++ c_str tmp).
Proof. intros H. rewrite printf_plain by done. cbn. by rewrite app_nil_r. Qed.

(** A message that the level admits, of a text below 10240 characters, gives the system's
    log, with the priority of the level, one entry for each of its lines, in order, under the
    identifier and, when it is configured and known, the request's: the entries' texts joined
    by newlines are the text of the message, so a text that ends with a newline has an empty
    entry at its end. *)
Theorem syslog_entries l level format args text :
  less level (level_ l) = false -> printf (c_str format) args = Ok text ->
  mem Byte.x00 text = false -> (length text < FORMATTED)%nat ->
  no_percent (ident_ l) -> mem Byte.x00 (ident_ l) = false ->
  (forall id, threadIdent_ l = Some id -> no_percent id /\ mem Byte.x00 id = false) ->
  exists lines,
    log l level format args = Ok (map (fun x =>
      (toSyslogPriority level,
       ident_ l ++ (if requestSpecificIdent_ l
                    then match threadIdent_ l with Some id => lit ":" ++ id | None => [] end else []) ++
       lit ": " ++ x)) lines) /\
    join [Byte.x0a] lines = text /\ Forall (fun x => mem Byte.x0a x = false) lines.
Proof.
  intros Hl Ht Hn Hs Hip Hin Hid. exists (split_on Byte.x0a text). split_and!.
  2: apply join_split_on. 2: apply split_on_free.
  set (pre := ident_ l ++ if requestSpecificIdent_ l
              then match threadIdent_ l with Some id => lit ":" ++ id | None => [] end else []).
  assert (Hf : format_ident l = pre ++ lit ": %s").
  { unfold format_ident, pre. destruct (requestSpecificIdent_ l), (threadIdent_ l); rewrite <- ?app_assoc; done. }
  assert (Hpre : no_percent pre /\ mem Byte.x00 pre = false).
  { unfold pre. destruct (requestSpecificIdent_ l), (threadIdent_ l) as [id|]; rewrite ?app_nil_r; try done.
    destruct (Hid id eq_refl) as [H1 H2]. split; [apply no_percent_app; [done|by constructor]|].
    rewrite mem_app, Hin. exact H2. }
  destruct Hpre as [Hpp Hpn]. unfold log. rewrite Hl, Ht. cbn [negb mbind result_bind].
  rewrite (mapM_ok _ (fun tmp => (toSyslogPriority level, pre ++ lit ": " ++ c_str tmp))).
  2: { intros tmp. rewrite Hf, c_str_id by (rewrite mem_app, Hpn; done). by rewrite printf_ident. }
  f_equal. unfold formatted. rewrite take_ge by lia.
  transitivity (map (fun x => (toSyslogPriority level, pre ++ lit ": " ++ x))
                  (map c_str (split_on Byte.x0a (text ++ repeat Byte.x00 (FORMATTED - length text))))).
  { by rewrite map_map. }
  rewrite split_on_zeros, map_map. apply map_ext_Forall.
  pose proof (split_on_mem Byte.x00 Byte.x0a text Hn) as HF. induction HF as [|x xs Hx _ IH]; constructor; [|done].
  rewrite c_str_id by done. unfold pre. by rewrite <- app_assoc.
Qed.
End Lines.

(** ** Examples *)

Section Examples.
Import Logger FileLogger.

Definition demo_config : Config := MkConfig
  (fun key => if str_eqb key (lit "x/file") then Some (lit "/var/log/app.log")
              else if str_eqb key (lit "x/level") then Some (lit "info")
              else if str_eqb key (lit "x/print-time") then Some (lit "no") else None)
  (fun _ => 0%nat).

Definition demo_logger : FileLogger.t := MkFileLogger INFO (lit "/var/log/app.log") 436 (lit "[%Y/%m/%d %T]") true false true false []
  Checking [].

(** All directories can be made, and the file opened. *)
Definition demo_create : result FileLogger.t := create (fun _ _ => 17) (fun _ => true) (fun _ _ => 0) demo_config (lit "x").

(** The thread waits; two messages of three are admitted; the first line is written in two
    pieces. *)
Definition demo_events : list FileLogger.event :=
  [EThread 0; EThread 0; ELog [] ERROR (lit "%s: %d") [AStr (lit "x"); AInt 7]; ELog [] DEBUG (lit "no") [];
   EThread 0; ELog [] INFO (lit "ok") []; EThread 0; EThread 4; EThread 8].

Definition demo_after : FileLogger.t :=
  MkFileLogger INFO (lit "/var/log/app.log") 436 (lit "[%Y/%m/%d %T]") true false true false [lit "INFO: ok" ++ [Byte.x0a]]
    (Writing 12 [lit "ERROR: x: 7" ++ [Byte.x0a]]) (lit "ERROR: x: 7" ++ [Byte.x0a]).

Definition demo_obs : list obs := [Queued (lit "ERROR: x: 7" ++ [Byte.x0a]); Queued (lit "INFO: ok" ++ [Byte.x0a])].

Lemma demo_created : demo_create = Ok demo_logger.
Proof. reflexivity. Qed.

Lemma demo_run : run demo_logger demo_events = Some (demo_after, demo_obs).
Proof. reflexivity. Qed.

Lemma log_written_witness :
  demo_create = Ok demo_logger /\
  exists parts finished, queued demo_obs = finished ++ held demo_after ++ queue_ demo_after /\
    Forall2 prefix parts finished /\ file demo_after = concat parts ++ current demo_after /\
    (Failed ∉ demo_obs -> parts = finished).
Proof.
  split; [exact demo_created|]. exact (log_written (fun _ _ => 17) (fun _ => true) (fun _ _ => 0) demo_config (lit "x") _ _ _ _ demo_created demo_run).
Defined.

(** A message can stay in the queue, and a destructor can wait for a thread that nothing wakes:
    a notification counts only while the thread waits. *)
Lemma notification_lost :
  exists es l os, run demo_logger es = Some (l, os) /\ writing_thread_ l = Waiting /\ queue_ l <> [] /\
    stopping_ l = true /\ forall res, step l (EThread res) = None.
Proof.
  exists [EThread 0; ELog [] INFO (lit "ok") []; EDestroy; EThread 0]. eexists _, _. by split_and!.
Qed.

Definition demo_syslog : SyslogLogger.t := SyslogLogger.MkSyslog INFO (lit "app") 6 true (Some (lit "r1")).

Lemma syslog_entries_witness :
  exists lines, SyslogLogger.log demo_syslog ERROR (lit "%s") [AStr (lit "out of memory")] =
    Ok (map (fun x => (3, lit "app:r1: " ++ x)) lines) /\ join [Byte.x0a] lines = lit "out of memory" /\
    Forall (fun x => mem Byte.x0a x = false) lines.
Proof.
  apply (syslog_entries demo_syslog ERROR (lit "%s") [AStr (lit "out of memory")] (lit "out of memory")).
  - reflexivity.
  - reflexivity.
  - reflexivity.
  - unfold SyslogLogger.FORMATTED. rewrite <- Nat2Z.inj_lt || apply Nat2Z.inj_lt. rewrite Z2Nat.id by lia. reflexivity.
  - repeat constructor.
  - reflexivity.
  - intros id [= <-]. split; [repeat constructor|reflexivity].
Defined.
End Examples.
