(* ===== verification/Daemon.v ===== *)
(** * Daemon

    [main/endpoint.cpp], [main/fcgi_request.cpp], [library/globals.cpp] and
    what [main/fcgi_server.cpp] does besides handling requests: the end points, the pools of
    the configuration, starting and stopping, and the report of the monitor. Sockets, pipes,
    threads and the FastCGI library are the system's. *)

From stdpp Require Import sorting.
From S2P Require Import Prelude Cxx OrdMap Ranges StringUtils Buffer Parser Codec Request Session SessionManager.
From S2P Require Import Handlers Config Program Security ThreadPool Server.

Module Endpoint.

Record t := MkEndpoint {
  socket_ : Z;
  busy_count_ : Z;
  threads_ : Z;
  socket_path_ : bytes;
  socket_port_ : bytes;
  keepConnection_ : Z
}.

Definition create (path port : bytes) (keepConnection threads : Z) : result t :=
  if Range.empty path && Range.empty port
  then Throw (RuntimeError (lit "Both /socket and /port param for endpoint is empty"))
  else Ok (MkEndpoint (-1) 0 threads path port keepConnection).

Definition toString (e : t) : bytes :=
  if Range.empty (socket_path_ e) then lit ":" ++ socket_port_ e else socket_path_ e.

(** The system's calls: [mkdir] and [chmod] give 0 or [errno], [FCGX_OpenSocket] a descriptor or
    -1 with [errno], and [error] is the text of an error. *)
Record System := MkSystem {
  mkdir : bytes -> Z;
  isWritable : bytes -> bool;
  FCGX_OpenSocket : bytes -> Z -> Z * Z;
  chmod : bytes -> Z -> Z;
  error : Z -> bytes
}.

(** The directories of a socket's path are made; the socket is for everybody (0666). *)
Definition openSocket (sys : System) (e : t) (backlog : Z) : result t :=
  _ ← (if Range.empty (socket_path_ e) then Ok tt
       else
         let path := FileSystemUtils.pathToFile (socket_path_ e) in
         _ ← (FileSystemUtils.createDirectories (mkdir sys) path).2;
         if isWritable sys path then Ok tt else Throw (RuntimeError (lit "Permission denied")));
  let '(fd, errno) := FCGX_OpenSocket sys (c_str (toString e)) backlog in
  if fd =? -1 then
    Throw (RuntimeError (lit "can not open fastcgi socket: " ++ toString e ++ lit "[" ++ error sys errno ++ lit "]"))
  else
    let code := if Range.empty (socket_path_ e) then 0 else chmod sys (c_str (socket_path_ e)) 438 in
    if code =? 0 then Ok (MkEndpoint fd (busy_count_ e) (threads_ e) (socket_path_ e) (socket_port_ e) (keepConnection_ e))
    else Throw (SystemError code).

(** The counter is an [int], reported as an [unsigned short]. *)
Definition getBusyCounter (e : t) : Z := u16 (busy_count_ e).

Definition set_busy (e : t) v := MkEndpoint (socket_ e) v (threads_ e) (socket_path_ e) (socket_port_ e) (keepConnection_ e).

Definition incrementBusyCounter (e : t) : t := set_busy e (busy_count_ e + 1).

(** The assertion aborts. *)
Definition decrementBusyCounter (e : t) : result t :=
  if 0 <? busy_count_ e then Ok (set_busy e (busy_count_ e - 1)) else Undef.

(** [ScopedBusyCounter]: its flag, next to the end point. *)
Definition scoped_increment (c : bool * t) : bool * t :=
  if c.1 then c else (true, incrementBusyCounter c.2).

Definition scoped_decrement (c : bool * t) : result (bool * t) :=
  if c.1 then e ← decrementBusyCounter c.2; Ok (false, e) else Ok c.

Definition scoped_create (e : t) : bool * t := scoped_increment (false, e).
Definition scoped_destroy (c : bool * t) : result t := c ← scoped_decrement c; Ok c.2.

Inductive scoped_call := Increment | Decrement.

Fixpoint scoped_run (c : bool * t) (calls : list scoped_call) : result (bool * t) :=
  match calls with
  | [] => Ok c
  | Increment :: calls' => scoped_run (scoped_increment c) calls'
  | Decrement :: calls' => c ← scoped_decrement c; scoped_run c calls'
  end.
End Endpoint.

Module Globals.
Section Pools.
Context {R : Type}.

(** One [pool] element: its name, its numbers and its delay in milliseconds, as read. *)
Record PoolConfig := MkPoolConfig { name : bytes; threads : Z; queue : Z; max_delay : Z }.

Definition pool_config (config : Config) (p : bytes) : result PoolConfig :=
  n ← asString config (p ++ lit "/@name");
  threads ← XmlConfig.asInt config (p ++ lit "/@threads");
  queue ← XmlConfig.asInt config (p ++ lit "/@queue");
  delay ← XmlConfig.asInt_default config (p ++ lit "/@max-delay") 0;
  Ok (MkPoolConfig n threads queue delay).

(** The numbers are converted to [unsigned]; the delay counts in nanoseconds here. *)
Definition new_pool (c : PoolConfig) : Server.RequestsThreadPool :=
  Server.MkRequestsPool (if 0 <? max_delay c then max_delay c * 1000000 else 0)
    (ThreadPool.create (u32 (threads c)) (u32 (queue c))).

(** The loop of [initPools], with the pools that are made when it ends or throws; [counter] is
    [maxTasksInProcessCounter], an [unsigned]; the sum of two [int]s may not overflow. *)
Fixpoint init_pools (config : Config) (needed : gset bytes) (keys : list bytes) (counter : Z)
    (pools : gmap bytes Server.RequestsThreadPool) : gmap bytes Server.RequestsThreadPool * result unit :=
  match keys with
  | [] => (pools, Ok tt)
  | p :: keys' =>
      match pool_config config p with
      | Ok c =>
          let sum := threads c + queue c in
          let counter := u32 (counter + sum) in
          if negb ((- 2 ^ 31 <=? sum) && (sum <? 2 ^ 31)) then (pools, Undef)
          else if 65535 <? counter then
            (pools, Throw (RuntimeError (lit "The sum of all threads and queue attributes must be not more than 65535")))
          else match pools !! name c with
               | Some _ => (pools, Throw (RuntimeError (name c ++ lit ": pool names must be unique")))
               | None =>
                   init_pools config needed keys' counter
                     (if bool_decide (name c ∈ needed) then <[name c := new_pool c]> pools else pools)
               end
      | Throw e => (pools, Throw e)
      | Undef => (pools, Undef)
      end
  end.

(** The names of a set in their order, and the first of them that has no pool. *)
Definition in_order (names : gset bytes) : list bytes :=
  merge_sort (fun a b => Is_true (negb (str_ltb b a))) (elements names).

Fixpoint check_needed (needed : list bytes) (pools : gmap bytes Server.RequestsThreadPool) : result unit :=
  match needed with
  | [] => Ok tt
  | i :: needed' =>
      match pools !! i with
      | Some _ => check_needed needed' pools
      | None => Throw (RuntimeError (lit "cannot find pool " ++ i))
      end
  end.

Definition initPools (config : Config) (hs : HandlerSet.t R) : gmap bytes Server.RequestsThreadPool * result unit :=
  let needed := HandlerSet.getPoolsNeeded hs in
  let '(pools, res) := init_pools config needed (config_subKeys config (lit "/fastcgi/pools/pool")) 0 ∅ in
  (pools, _ ← res; check_needed (in_order needed) pools).

(** [initLogger]; [is_Logger] is the dynamic type of a component. *)
Definition initLogger (config : Config) (cs : ComponentSet) (is_Logger : nat -> bool) : result nat :=
  n ← asString config (lit "/fastcgi/daemon[count(logger)=1]/logger/@component");
  match components_find cs n with
  | None => Throw (RuntimeError (lit "Daemon logger does not exist"))
  | Some c =>
      if is_Logger c then Ok c
      else Throw (RuntimeError (lit "Component " ++ n ++ lit " does not implement Logger interface"))
  end.

Definition start_pool (p : Server.RequestsThreadPool) : Server.RequestsThreadPool :=
  Server.MkRequestsPool (Server.delay_ p) (ThreadPool.start (Server.pool_ p)).
Definition stop_pool (p : Server.RequestsThreadPool) : Server.RequestsThreadPool :=
  Server.MkRequestsPool (Server.delay_ p) (ThreadPool.stop (Server.pool_ p)).

Definition startThreadPools (pools : gmap bytes Server.RequestsThreadPool) := fmap (M := gmap bytes) start_pool pools.
Definition stopThreadPools (pools : gmap bytes Server.RequestsThreadPool) := fmap (M := gmap bytes) stop_pool pools.
End Pools.
End Globals.

Module FastcgiRequest.
Section Ops.
Context {I S : Type} {DB : DataBufferImpl I} {HS : StringImpl I} {IO : IOStream S}.

(** The last variable whose name matches, in any case: [strncasecmp] of the prefix. *)
Definition find_env (name : bytes) (env : list bytes) : option bytes :=
  foldl (fun found e => if starts_with_ci name e then Some (drop (length name) e) else found) None env.

(** [attach]: the address and the identifier for the log, the header, and the request's own
    [attach]. [keepConnection] is the flag of the FastCGI library. *)
Definition attach (h : gmap nat I) (cache : option (RequestCache I)) (r : Request.t S) (stream : option S)
    (env : list bytes) (keepConnection : Z) : bytes * bytes * result (gmap nat I * Request.t S) :=
  let url := default [] (find_env (lit "REQUEST_URI=") env) in
  let request_id := default [] (find_env (lit "REQUEST_ID=") env) in
  (url, request_id,
   r ← (if keepConnection =? 0 then Request.setHeader r (lit "Connection") (lit "close") else Ok r);
   Attach.attach h cache r stream (Some env)).

(** The stream of a request: what the FastCGI library has of it, the time of its acceptance, which
    has no value before, and the handler's id. *)
Record t := MkStream {
  url_ : bytes;
  request_id_ : bytes;
  keepConnection : Z;
  accept_time_ : option (Z * Z);
  handler_ : option bytes
}.

(** The constructor, on what [FCGX_InitRequest] gives. *)
Definition create (initialized : Z) : result t :=
  if negb (initialized =? 0) then Throw (RuntimeError (lit "can not init fastcgi request"))
  else Ok (MkStream [] [] 0 None None).

(** [accept], on what [FCGX_Accept_r] gives and at the time [now]; [timed] says whether times are
    logged or counted. *)
Definition accept (e : Endpoint.t) (timed : bool) (status : Z) (now : Z * Z) (s : t) : t * Z :=
  (if 0 <=? status
   then MkStream (url_ s) (request_id_ s) (Endpoint.keepConnection_ e)
          (if timed then Some now else accept_time_ s) (handler_ s)
   else s, status).

(** The inner loops of [generateRequestInfo]: the arguments as they were read, cut at 1024
    characters. [None] when the text is complete after [...]. *)
Fixpoint info_values (name : bytes) (args : list bytes) (result : bytes) : bytes * bool :=
  match args with
  | [] => (result, false)
  | e :: args' =>
      let result := (match result with [] => [] | _ => result ++ lit "&" end) ++ name ++ lit "=" in
      if 1024 <? len result + len e then (result, true) else info_values name args' (result ++ e)
  end.

Fixpoint info_args (r : Request.t S) (names : list bytes) (result : bytes) : bytes * bool :=
  match names with
  | [] => (result, false)
  | n :: names' =>
      match info_values n (Request.getArgs r n) result with
      | (result, true) => (result, true)
      | (result, false) => info_args r names' result
      end
  end.

Definition generateRequestInfo (r : Request.t S) (url : bytes) : bytes :=
  let method := Request.getRequestMethod r in
  lit "Url: " ++ url ++
  if negb (str_eqb (lit "POST") method) && negb (str_eqb (lit "PUT") method) then []
  else match info_args r (Request.argNames r) [] with
       | (result, cut) => lit ". Args: " ++ result ++ (if cut : bool then lit "..." else [])
       end.

(** [write] on what [FCGX_PutStr] and [FCGX_GetError] give. *)
Definition write (num error : Z) (error_text info : bytes) : result Z :=
  if num =? -1 then
    Throw (RuntimeError ((if 0 <? error then lit "Cannot write data to fastcgi socket: " ++ error_text ++ lit ". "
                          else lit "FastCGI error. ") ++ info))
  else Ok num.

(** What the destructor reports to the statistics: the handler's id, the status and the time in
    microseconds, from [timeval]s of seconds and microseconds. *)
Definition DAEMON_STRING : bytes := lit "fastcgi3-daemon".

Definition elapsed (accept finish : Z * Z) : Z :=
  u64 ((finish.1 - accept.1) * 1000000 + (finish.2 - accept.2)).

Definition report (handler : option bytes) (r : Request.t S) (accept finish : Z * Z) : bytes * Z * Z :=
  (default DAEMON_STRING handler, Request.status r, elapsed accept finish).

(** The destructor: the line for the log, with the text that [printf] has for a number of seconds,
    and the report to the statistics. It reads the time of the acceptance whether there was one
    or not. *)
Definition destroy (logTimes statistics : bool) (seconds : Z -> bytes) (s : t) (r : Request.t S) (finish : Z * Z)
    : result (option bytes * option (bytes * Z * Z)) :=
  if logTimes || statistics then
    match accept_time_ s with
    | None => Undef
    | Some time =>
        Ok (if logTimes then Some (lit "handling " ++ c_str (url_ s) ++ lit " taken " ++ seconds (elapsed time finish) ++ lit " seconds")
            else None,
            if statistics then Some (report (handler_ s) r time finish) else None)
    end
  else Ok (None, None).
End Ops.
End FastcgiRequest.

Module FCGIServer.

Inductive Status := NOT_INITED | LOADING | RUNNING.

(** The life of the server: its status, [stopper_], the pools, the end points, and the components
    it uses, by address. *)
Record t := MkFCGI {
  status_ : Status;
  stopped_ : bool;
  logTimes_ : bool;
  pools_ : gmap bytes Server.RequestsThreadPool;
  endpoints_ : list Endpoint.t;
  monitorSocket_ : Z;
  request_cache_ : option nat;
  time_statistics_ : option nat;
  sessionManager_ : option nat
}.

Definition create (pools : gmap bytes Server.RequestsThreadPool) : t :=
  MkFCGI NOT_INITED false false pools [] (-1) None None None.

Definition set_status (s : t) v := MkFCGI v (stopped_ s) (logTimes_ s) (pools_ s) (endpoints_ s)
  (monitorSocket_ s) (request_cache_ s) (time_statistics_ s) (sessionManager_ s).
Definition set_log_times (s : t) v := MkFCGI (status_ s) (stopped_ s) v (pools_ s) (endpoints_ s)
  (monitorSocket_ s) (request_cache_ s) (time_statistics_ s) (sessionManager_ s).
Definition set_endpoints (s : t) v := MkFCGI (status_ s) (stopped_ s) (logTimes_ s) (pools_ s) v
  (monitorSocket_ s) (request_cache_ s) (time_statistics_ s) (sessionManager_ s).
Definition set_monitor_socket (s : t) v := MkFCGI (status_ s) (stopped_ s) (logTimes_ s) (pools_ s)
  (endpoints_ s) v (request_cache_ s) (time_statistics_ s) (sessionManager_ s).
Definition set_cache (s : t) v := MkFCGI (status_ s) (stopped_ s) (logTimes_ s) (pools_ s) (endpoints_ s)
  (monitorSocket_ s) v (time_statistics_ s) (sessionManager_ s).
Definition set_statistics (s : t) v := MkFCGI (status_ s) (stopped_ s) (logTimes_ s) (pools_ s) (endpoints_ s)
  (monitorSocket_ s) (request_cache_ s) v (sessionManager_ s).
Definition set_manager (s : t) v := MkFCGI (status_ s) (stopped_ s) (logTimes_ s) (pools_ s) (endpoints_ s)
  (monitorSocket_ s) (request_cache_ s) (time_statistics_ s) v.
Definition set_stopped (s : t) (pools : gmap bytes Server.RequestsThreadPool) := MkFCGI (status_ s) true
  (logTimes_ s) pools (endpoints_ s) (monitorSocket_ s) (request_cache_ s) (time_statistics_ s) (sessionManager_ s).

#[local] Abbreviation P := (prog t).

Definition endpoint (config : Config) (c : bytes) : result Endpoint.t :=
  let socket := asString_default config (c ++ lit "/socket") [] in
  let port := asString_default config (c ++ lit "/port") [] in
  let keep := asString_default config (c ++ lit "/@keepalive")
                (asString_default config (c ++ lit "/@keepConnection") (lit "true")) in
  threads ← XmlConfig.asInt_default config (c ++ lit "/threads") 1;
  Endpoint.create socket port (if str_eqb keep (lit "true") then 1 else 0) (u16 threads).

(** The socket of the monitor: the calls give -1 when they fail, with a text for [errno]. *)
Record MonitorSystem := MkMonitor {
  socket : Z;
  setsockopt : Z -> Z;
  bind : Z -> Z -> Z;
  listen : Z -> Z;
  monitor_error : bytes
}.

(** [initMonitorThread]; [htons] takes 16 bits, and the result of [listen] is compared with 1. *)
Definition initMonitorThread (sys : MonitorSystem) (config : Config) : P unit :=
  modify (fun s => set_monitor_socket s (socket sys)) ;;
  fd ← gets monitorSocket_;
  if fd =? -1 then throw (RuntimeError (lit "Cannot create monitor socket"))
  else if setsockopt sys fd =? -1 then throw (RuntimeError (lit "Cannot reuse monitor port: " ++ monitor_error sys))
  else
    port ← lift (XmlConfig.asInt config (lit "/fastcgi/daemon/monitor_port"));
    if bind sys fd (u16 port) =? -1 then throw (RuntimeError (lit "Cannot bind monitor port address"))
    else if listen sys fd =? 1 then throw (RuntimeError (lit "Cannot listen monitor port"))
    else ret tt.

Section Start.
(** What the system gives: the calls for the monitor's socket, the FastCGI library, the socket of an
    end point with a backlog, the pipes for the stop signal; and the dynamic types of the
    components. [SOMAXCONN] is the system's constant. *)
Context (SOMAXCONN : Z) (monitor : MonitorSystem) (FCGX_Init : result unit) (sys : Endpoint.System)
  (stop_pipes : result unit).
Context (is_RequestCache is_ResponseTimeStatistics is_SessionManager : nat -> bool).

(** The loop of [initFastCGISubsystem]. *)
Fixpoint init_endpoints (config : Config) (keys : list bytes) : P unit :=
  match keys with
  | [] => ret tt
  | c :: keys' =>
      e ← lift (endpoint config c);
      backlog ← lift (XmlConfig.asInt_default config (c ++ lit "/backlog") SOMAXCONN);
      e ← lift (Endpoint.openSocket sys e backlog);
      modify (fun s => set_endpoints s (endpoints_ s ++ [e])) ;;
      init_endpoints config keys'
  end.

Definition initFastCGISubsystem (config : Config) : P unit :=
  lift FCGX_Init ;;
  init_endpoints config (config_subKeys config (lit "/fastcgi/daemon/endpoint")) ;;
  es ← gets endpoints_;
  match es with
  | [] => throw (RuntimeError (lit "At least one endpoint has to be configured"))
  | _ => ret tt
  end.

(** A component that the configuration may name, and that must then have the interface. *)
Definition init_component (config : Config) (cs : ComponentSet) (key interface : bytes) (implements : nat -> bool)
    : result (option nat) :=
  let n := asString_default config key [] in
  match components_find cs n with
  | None => Ok None
  | Some c =>
      if implements c then Ok (Some c)
      else Throw (RuntimeError (lit "Component " ++ n ++ lit " does not implement " ++ interface ++ lit " interface"))
  end.

(** An attribute test in an XPath expression: name, equals sign, quoted value. *)
Definition equals (name value : bytes) : bytes := lit "@" ++ name ++ lit "=" ++ [Byte.x22] ++ value ++ [Byte.x22].

Definition initRequestCache (config : Config) (cs : ComponentSet) : P unit :=
  c ← lift (init_component config cs (lit "/fastcgi/daemon[count(request-cache)=1]/request-cache/@component")
              (lit "RequestCache") is_RequestCache);
  modify (fun s => set_cache s c).

Definition initTimeStatistics (config : Config) (cs : ComponentSet) : P unit :=
  c ← lift (init_component config cs (lit "/fastcgi/daemon[count(statistics)=1]/statistics/@component")
              (lit "ResponseTimeStatistics") is_ResponseTimeStatistics);
  modify (fun s => set_statistics s c).

Definition initSessionManager (config : Config) (cs : ComponentSet) : P unit :=
  c ← lift (init_component config cs
              (lit "/fastcgi[count(session)=1]/session[" ++ equals (lit "attach") (lit "1") ++ lit " or " ++
               equals (lit "attach") (lit "true") ++ lit "]/@component")
              (lit "SessionManager") is_SessionManager);
  modify (fun s => set_manager s c).

(** [start]; the threads it creates are not part of the state. *)
Definition start (config : Config) (cs : ComponentSet) : P unit :=
  status ← gets status_;
  match status with
  | NOT_INITED =>
      modify (fun s => set_status s LOADING) ;;
      times ← lift (XmlConfig.asInt_default config (lit "/fastcgi/daemon/log-times") 0);
      modify (fun s => set_log_times s (negb (times =? 0))) ;;
      initMonitorThread monitor config ;;
      initRequestCache config cs ;;
      initTimeStatistics config cs ;;
      initFastCGISubsystem config ;;
      initSessionManager config cs ;;
      modify (fun s => set_status s RUNNING) ;;
      lift stop_pipes
  | _ => throw (RuntimeError (lit "Server is already started"))
  end.
End Start.

Definition stopInternal : P unit :=
  status ← gets status_;
  match status with
  | NOT_INITED => throw (RuntimeError (lit "Cannot stop server because it is not started yet"))
  | LOADING => throw (RuntimeError (lit "Cannot stop until loading finish"))
  | RUNNING =>
      stopped ← gets stopped_;
      if (stopped : bool) then throw (RuntimeError (lit "Server is already stopping"))
      else modify (fun s => set_stopped s (Globals.stopThreadPools (pools_ s)))
  end.

(** The command of the monitor: the first character it reads. *)
Inductive monitor_command := Info | Stop | Nothing.

Definition monitor (buf : bytes) : monitor_command :=
  match buf with
  | c :: _ => if beqb c "i"%byte || beqb c "I"%byte then Info
              else if beqb c "s"%byte || beqb c "S"%byte then Stop else Nothing
  | [] => Nothing
  end.

(** [std::endl] is not used: the lines end with a newline character. *)
Definition line (indent : nat) (text : bytes) : bytes := repeat " "%byte indent ++ text ++ [Byte.x0a].
Definition attr (name value : bytes) : bytes := lit " " ++ name ++ lit "=" ++ [Byte.x22] ++ value ++ [Byte.x22].

Definition status_text (s : t) : bytes :=
  match status_ s with
  | LOADING => lit "loading"
  | RUNNING => lit "running"
  | NOT_INITED => lit "not inited"
  end.

Definition endpoint_line (e : Endpoint.t) : bytes :=
  line 6 (lit "<endpoint" ++ attr (lit "socket") (Endpoint.toString e) ++
    attr (lit "threads") (to_string (Endpoint.threads_ e)) ++
    attr (lit "busy") (to_string (Endpoint.getBusyCounter e)) ++ lit "/>").

Definition pool_line (p : bytes * Server.RequestsThreadPool) : bytes :=
  let i := ThreadPool.getInfo (Server.pool_ p.2) in
  let good := ThreadPool.goodTasksCounter i in
  let bad := ThreadPool.badTasksCounter i in
  line 4 (lit "<pool" ++ attr (lit "name") p.1 ++ attr (lit "threads") (to_string (ThreadPool.threadsNumber i)) ++
    attr (lit "busy") (to_string (ThreadPool.busyThreadsCounter i)) ++
    attr (lit "queue") (to_string (ThreadPool.queueLength i)) ++
    attr (lit "current_queue") (to_string (ThreadPool.currentQueue i)) ++
    attr (lit "all_tasks") (to_string (u64 (good + bad))) ++
    attr (lit "exception_tasks") (to_string bad) ++ lit "/>").

(** [pools] in the order of their names. *)
Definition getServerInfo (s : t) (pools : list (bytes * Server.RequestsThreadPool)) : bytes :=
  line 0 (lit "<fastcgi-container>") ++
  lit "  <status>" ++ status_text s ++ lit "</status>" ++ [Byte.x0a] ++
  match status_ s with
  | RUNNING =>
      line 2 (lit "<pools>") ++ line 4 (lit "<endpoint_pools>") ++
      flat_map endpoint_line (endpoints_ s) ++ line 4 (lit "</endpoint_pools>") ++
      flat_map pool_line pools ++ line 2 (lit "</pools>")
  | _ => []
  end ++
  line 0 (lit "</fastcgi-container>").
End FCGIServer.

(** ** Pools *)

Section Pools.
Context {R : Type} {RE : Regex R}.
Import Globals.

Lemma init_pools_spec (config : Config) (needed : gset bytes) (keys : list bytes) (counter : Z) (pools pools' : gmap bytes Server.RequestsThreadPool) :
  init_pools config needed keys counter pools = (pools', Ok tt) ->
  (forall p, is_Some (pools !! p) -> p ∈ needed) ->
  (forall p, is_Some (pools' !! p) -> p ∈ needed) /\
  (forall p rp, pools' !! p = Some rp -> pools !! p = Some rp \/ exists c, p = name c /\ rp = new_pool c).
Proof.
  revert counter pools. induction keys as [|k keys IH]; intros counter pools; cbn [init_pools].
  { intros [= <-] H. split; [done|auto]. }
  destruct (pool_config config k) as [c|e|]; try done.
  destruct (negb _); [done|]. destruct (65535 <? _); [done|]. destruct (pools !! name c) as [rp|] eqn:E; [done|].
  intros Hi Hp. apply IH in Hi as [H1 H2].
  - split; [done|]. intros p rp Hrp. apply H2 in Hrp as [Hrp|Hrp]; [|by right].
    case_bool_decide; [|by left]. apply lookup_insert_Some in Hrp as [[<- <-]|[_ Hrp]]; [right; by exists c|by left].
  - intros p Hs. case_bool_decide; [|by apply Hp].
    destruct (decide (p = name c)) as [->|Hne]; [done|]. rewrite lookup_insert_ne in Hs by done. by apply Hp.
Qed.

Lemma check_needed_spec (l : list bytes) (pools : gmap bytes Server.RequestsThreadPool) :
  check_needed l pools = Ok tt -> forall p, p ∈ l -> is_Some (pools !! p).
Proof.
  induction l as [|i l IH]; cbn; [by intros _ p ?%elem_of_nil|].
  destruct (pools !! i) eqn:E; [|done]. intros H p [->|Hp]%elem_of_cons; [by eexists|by apply IH].
Qed.

(** The pools of the server, once started: one for each pool that a handler or the default
    names, and no other, each taking tasks. *)
Lemma pools_of_config (config : Config) (hs : HandlerSet.t R) pools :
  initPools config hs = (pools, Ok tt) ->
  forall p, p ∈ HandlerSet.getPoolsNeeded hs <-> is_Some (startThreadPools pools !! p).
Proof.
  unfold initPools. destruct (init_pools _ _ _ _ _) as [ps [[]|e|]] eqn:E; try done. cbn [mbind result_bind].
  intros [= <- Ec] p.
  unfold startThreadPools. rewrite lookup_fmap, fmap_is_Some. split.
  - intros Hp. apply (check_needed_spec _ _ Ec). unfold in_order. rewrite merge_sort_Permutation. by apply elem_of_elements.
  - apply (init_pools_spec _ _ _ _ _ _ E). intros q [? Hq]. by rewrite lookup_empty in Hq.
Qed.
End Pools.

(** ** The busy counter *)

Section Busy.
Import Endpoint.

Lemma set_busy_back (e : Endpoint.t) v : set_busy (set_busy e v) (busy_count_ e) = e.
Proof. by destruct e. Qed.

(** The counter of an end point is what it was when a scope is left, however often the scope
    has counted itself in and out, and the assertion holds throughout. *)
Theorem scoped_balanced e calls :
  0 <= busy_count_ e ->
  exists c, scoped_run (scoped_create e) calls = Ok c /\ scoped_destroy c = Ok e.
Proof.
  intros He. set (up := set_busy e (busy_count_ e + 1)).
  assert (Hup : decrementBusyCounter up = Ok e).
  { unfold decrementBusyCounter. cbn. rewrite (proj2 (Z.ltb_lt _ _)) by lia. f_equal.
    rewrite Z.add_simpl_r. apply set_busy_back. }
  assert (H : forall calls c, (c = (true, up) \/ c = (false, e)) -> exists c',
    scoped_run c calls = Ok c' /\ (c' = (true, up) \/ c' = (false, e))).
  { clear calls. induction calls as [|[] calls IH]; intros c Hc; cbn [scoped_run].
    - by exists c.
    - apply IH. left. by destruct Hc as [-> | ->].
    - destruct Hc as [-> | ->]; unfold scoped_decrement; cbn [fst snd].
      + rewrite Hup. cbn. apply IH. by right.
      + cbn. apply IH. by right. }
  destruct (H calls (scoped_create e)) as (c & Hc & Hcase); [by left|].
  exists c. split; [done|]. unfold scoped_destroy, scoped_decrement.
  destruct Hcase as [-> | ->]; cbn [fst snd]; [by rewrite Hup|done].
Qed.
End Busy.

(** ** The time of a request *)

Section Times.
Context {S : Type}.
Import FastcgiRequest.
Implicit Types (r : Request.t S) (s : FastcgiRequest.t).

(** A request that was accepted is reported with the time since then, modulo [2^64]. *)
Lemma accepted_reported e logTimes statistics seconds s r status now finish :
  0 <= status ->
  exists line, destroy logTimes statistics seconds (accept e (logTimes || statistics) status now s).1 r finish =
    Ok (line, if statistics then Some (default DAEMON_STRING (handler_ s), Request.status r,
      u64 ((finish.1 - now.1) * 1000000 + (finish.2 - now.2))) else None).
Proof.
  intros H. unfold accept, destroy. rewrite (proj2 (Z.leb_le _ _) H). cbn.
  destruct logTimes, statistics; cbn; by eexists.
Qed.

(** One whose acceptance failed is reported too, with a time that was never set. *)
Lemma failed_accept_undefined e logTimes statistics seconds s r status now finish :
  create 0 = Ok s -> status < 0 -> logTimes || statistics = true ->
  destroy logTimes statistics seconds (accept e (logTimes || statistics) status now s).1 r finish = Undef.
Proof.
  intros [= <-] H Ht. unfold accept, destroy. rewrite (proj2 (Z.leb_gt _ _) H), Ht. done.
Qed.
End Times.

(** ** The life of the server *)

Section Life.
Import FCGIServer.
Implicit Types s : FCGIServer.t.

Definition set_pools s v := MkFCGI (status_ s) (stopped_ s) (logTimes_ s) v (endpoints_ s) (monitorSocket_ s)
  (request_cache_ s) (time_statistics_ s) (sessionManager_ s).

Definition pool_started (rp : Server.RequestsThreadPool) : bool :=
  ThreadPool.started (ThreadPool.info_ (Server.pool_ rp)).

(** What happens to a server: it is started, in whatever environment, stopped, and threads act on
    its pools. *)
Inductive life s s' : Prop :=
| LifeStart sm ms fi os sp c1 c2 c3 config cs res :
    start sm ms fi os sp c1 c2 c3 config cs s = Some (s', res) -> life s s'
| LifeStop res : stopInternal s = Some (s', res) -> life s s'
| LifePool n rp e p obs :
    pools_ s !! n = Some rp -> e <> ThreadPool.EStart -> e <> ThreadPool.EStop ->
    ThreadPool.step (Server.pool_ rp) e = Some (p, obs) ->
    s' = set_pools s (<[n := Server.MkRequestsPool (Server.delay_ rp) p]> (pools_ s)) -> life s s'.

(** The pools take tasks until the server is stopped, which happens only while it runs; it runs
    with an end point. *)
Record life_ok s : Prop := {
  life_stopped : stopped_ s = true -> status_ s = RUNNING;
  life_endpoints : match status_ s with NOT_INITED => endpoints_ s = [] | LOADING => True | RUNNING => endpoints_ s <> [] end;
  life_pools : forall n rp, pools_ s !! n = Some rp -> pool_started rp = negb (stopped_ s)
}.

Definition same_life s s' : Prop :=
  status_ s' = status_ s /\ stopped_ s' = stopped_ s /\ pools_ s' = pools_ s /\ (endpoints_ s <> [] -> endpoints_ s' <> []).

#[local] Instance same_life_preorder : PreOrder same_life.
Proof.
  split; [by intros s|]. intros s1 s2 s3 (? & ? & ? & ?) (? & ? & ? & ?). split_and!; solve [congruence|auto].
Qed.

#[local] Ltac same :=
  repeat (first [apply preserves_bind; [exact _| |intros ?] | apply preserves_pure; exact _ |
                 apply preserves_modify; intros ?; by split_and! | progress case_match]).

Lemma init_endpoints_same sm os config keys : preserves same_life (init_endpoints sm os config keys).
Proof.
  induction keys as [|c keys IH]; cbn [init_endpoints]; [apply preserves_pure; exact _|].
  repeat (apply preserves_bind; [exact _|apply preserves_pure; exact _|intros ?]).
  apply preserves_bind; [exact _| |intros ?; exact IH].
  apply preserves_modify. intros s. split_and!; try done. cbn. by destruct (endpoints_ s).
Qed.

Lemma initFastCGI_same sm fi os config s s' res :
  initFastCGISubsystem sm fi os config s = Some (s', res) ->
  same_life s s' /\ (forall a, res = Ok a -> endpoints_ s' <> []).
Proof.
  unfold initFastCGISubsystem. intros H.
  apply bind_cases in H as [(s1 & a & [= <- _] & H)|(r & [= -> <-] & H)]; [|split; [done|intros a ->; by destruct (H a)]].
  apply bind_cases in H as [(s2 & b & H1 & H2)|(r & H1 & H2)].
  - apply init_endpoints_same in H1. unfold mbind, prog_bind, gets in H2.
    destruct (endpoints_ s2) as [|e es] eqn:E; injection H2 as <- <-; (split; [done|]); [done|].
    intros _ _. by rewrite E.
  - apply init_endpoints_same in H1. split; [done|]. intros a' ->. by destruct (H2 a').
Qed.

Lemma init_same {A} config cs key interface c (f : FCGIServer.t -> option nat -> FCGIServer.t) (a : A) :
  (forall s o, same_life s (f s o)) ->
  preserves same_life (o ← lift (init_component config cs key interface c); modify (fun s => f s o)).
Proof.
  intros Hf. apply preserves_bind; [exact _|apply preserves_pure; exact _|]. intros o.
  apply preserves_modify. intros s. apply Hf.
Qed.

(** A server that is starting: loading, or running once it has an end point. *)
Definition starting s s' : Prop :=
  stopped_ s' = stopped_ s /\ pools_ s' = pools_ s /\
  (status_ s' = LOADING \/ status_ s' = RUNNING /\ endpoints_ s' <> []).

Lemma same_starting s s1 s2 : starting s s1 -> same_life s1 s2 -> starting s s2.
Proof.
  intros (? & ? & Hs) (Es & ? & ? & He). split_and!; [congruence..|].
  destruct Hs as [?|[??]]; [left; congruence|right; split; [congruence|auto]].
Qed.

Lemma lift_same {A} (r : result A) : preserves same_life (lift r).
Proof. apply preserves_pure; exact _. Qed.

Lemma log_times_same b : preserves same_life (modify (fun s => set_log_times s b)).
Proof. apply preserves_modify. intros s. by split_and!. Qed.

Lemma cache_same c1 config cs : preserves same_life (initRequestCache c1 config cs).
Proof. apply (init_same config cs _ _ c1 set_cache ()). intros s o. by split_and!. Qed.

Lemma statistics_same c2 config cs : preserves same_life (initTimeStatistics c2 config cs).
Proof. apply (init_same config cs _ _ c2 set_statistics ()). intros s o. by split_and!. Qed.

Lemma manager_same c3 config cs : preserves same_life (initSessionManager c3 config cs).
Proof. apply (init_same config cs _ _ c3 set_manager ()). intros s o. by split_and!. Qed.

Lemma monitor_same sys config : preserves same_life (initMonitorThread sys config).
Proof. unfold initMonitorThread. same. Qed.

#[local] Ltac stage H lem s1 S0 S1 :=
  apply bind_cases in H as [(s1 & ? & H1 & H)|(r & H1 & _)]; [|by eapply same_starting, lem, H1];
  apply lem in H1; pose proof (same_starting _ _ _ S0 H1) as S1; clear H1.

Lemma start_starting sm ms fi os sp c1 c2 c3 config cs s s' res :
  status_ s = NOT_INITED -> start sm ms fi os sp c1 c2 c3 config cs s = Some (s', res) -> starting s s'.
Proof.
  intros Es H. unfold start in H. rewrite bind_gets, Es, bind_modify in H.
  assert (S0 : starting s (set_status s LOADING)) by (split_and!; [done..|by left]).
  stage H @lift_same s1 S0 S1. stage H log_times_same s2 S1 S2.
  stage H monitor_same s4 S2 S4.
  stage H cache_same s5 S4 S5. stage H statistics_same s6 S5 S6.
  apply bind_cases in H as [(s7 & a & H1 & H)|(r & H1 & _)].
  2: { apply initFastCGI_same in H1 as [H1 _]. by eapply same_starting, H1. }
  apply initFastCGI_same in H1 as [H1 He]. specialize (He a eq_refl).
  pose proof (same_starting _ _ _ S6 H1) as S7. clear H1.
  apply bind_cases in H as [(s8 & ? & H1 & H)|(r & H1 & _)]; [|by eapply same_starting, manager_same, H1].
  apply manager_same in H1. destruct (same_starting _ _ _ S7 H1) as (E1 & E2 & _).
  destruct H1 as (_ & _ & _ & He'). specialize (He' He).
  rewrite bind_modify in H. injection H as <- _. split_and!; [done..|by right].
Qed.

(** A pool takes tasks or not as before, whatever its threads and its clients do. *)
Lemma step_started {T} (p p' : ThreadPool.t T) e obs :
  e <> ThreadPool.EStart -> e <> ThreadPool.EStop -> ThreadPool.step p e = Some (p', obs) ->
  ThreadPool.started (ThreadPool.info_ p') = ThreadPool.started (ThreadPool.info_ p).
Proof.
  intros H1 H2. destruct e; try done; cbn [ThreadPool.step]; unfold ThreadPool.addTask, ThreadPool.lock, ThreadPool.next_task;
    repeat case_match; intros; simplify_eq; try done; cbn in *; try congruence.
  all: repeat match goal with st : option bool |- _ => destruct st as [[]|] end; done.
Qed.

Lemma life_ok_step s s' : life_ok s -> life s s' -> life_ok s'.
Proof.
  intros Hok [sm ms fi os sp c1 c2 c3 config cs res H|res H|n rp e p obs Hn He1 He2 Hs ->].
  - destruct (status_ s) eqn:Es.
    2, 3: unfold start in H; rewrite bind_gets, Es in H; by injection H as <- _.
    destruct (start_starting _ _ _ _ _ _ _ _ _ _ _ _ _ Es H) as (E1 & E2 & Hst).
    assert (Hns : stopped_ s = false).
    { destruct (stopped_ s) eqn:E; [|done]. apply (life_stopped _ Hok) in E. congruence. }
    split.
    + congruence.
    + destruct Hst as [->|[-> ?]]; done.
    + rewrite E1, E2. apply Hok.
  - unfold stopInternal in H. rewrite bind_gets in H. destruct (status_ s) eqn:Es; try by injection H as <- _.
    rewrite bind_gets in H. destruct (stopped_ s) eqn:Eb; injection H as <- _; [done|]. split; cbn.
    + by rewrite Es.
    + by apply Hok.
    + intros n rp. unfold Globals.stopThreadPools. rewrite lookup_fmap, fmap_Some. by intros (rp' & _ & ->).
  - split; [by apply Hok..|]. cbn. intros m rp'. destruct (decide (m = n)) as [->|Hne].
    + rewrite lookup_insert_eq. intros [= <-]. unfold pool_started. cbn.
      rewrite (step_started _ _ _ _ He1 He2 Hs). by apply (life_pools _ Hok n).
    + rewrite lookup_insert_ne by done. apply Hok.
Qed.

(** C32: The life of a server, from its creation with the started pools of the configuration,
    through any starts, stops and activity of its pools: it stops only after it has begun to
    run and it runs with at least one end point; until then every pool takes tasks, up to the
    length of its queue, and from then on every pool refuses every task; a second start and a
    second stop are errors that change nothing. *)
Theorem daemon_lifecycle pools s :
  rtc life (create (Globals.startThreadPools pools)) s ->
  (stopped_ s = true -> status_ s = RUNNING) /\
  (status_ s = RUNNING -> endpoints_ s <> []) /\
  (forall n rp task, pools_ s !! n = Some rp ->
    (ThreadPool.addTask (Server.pool_ rp) task).2 =
      if stopped_ s then Throw (RuntimeError (lit "Thread pool is not started yet"))
      else if ThreadPool.queueLength (ThreadPool.info_ (Server.pool_ rp)) <=?
              Z.of_nat (length (ThreadPool.tasksQueue_ (Server.pool_ rp)))
           then Throw (ThreadPool.queue_full (Server.pool_ rp)) else Ok tt) /\
  (status_ s <> NOT_INITED -> forall sm ms fi os sp c1 c2 c3 config cs,
    start sm ms fi os sp c1 c2 c3 config cs s = Some (s, Throw (RuntimeError (lit "Server is already started")))) /\
  (stopped_ s = true -> stopInternal s = Some (s, Throw (RuntimeError (lit "Server is already stopping")))).
Proof.
  intros H. assert (Hok : life_ok s).
  { revert H. apply (rtc_ind_r (fun s => life_ok s)).
    - split; [done..|]. cbn. intros n rp. unfold Globals.startThreadPools. rewrite lookup_fmap, fmap_Some.
      intros (rp' & _ & ->). unfold pool_started, Globals.start_pool, ThreadPool.start. cbn.
      by case_match.
    - intros s1 s2 _ Hl Hs. by eapply life_ok_step. }
  split_and!.
  - apply Hok.
  - intros Hr. pose proof (life_endpoints _ Hok) as He. by rewrite Hr in He.
  - intros n rp task Hn. pose proof (life_pools _ Hok _ _ Hn) as Hp. unfold pool_started in Hp.
    unfold ThreadPool.addTask. rewrite Hp, negb_involutive. destruct (stopped_ s); [done|]. by destruct (_ <=? _).
  - intros Hs sm ms fi os sp c1 c2 c3 config cs. unfold start. rewrite bind_gets. by destruct (status_ s).
  - intros Hs. unfold stopInternal. rewrite bind_gets, (life_stopped _ Hok Hs), bind_gets. by rewrite Hs.
Qed.

(** A server with one pool that has been started and stopped. *)
Definition demo_config : Config := MkConfig
  (fun key => if str_eqb key (lit "/fastcgi/daemon/monitor_port") then Some (lit "20012")
              else if str_eqb key (lit "/fastcgi/daemon/endpoint[1]/port") then Some (lit "8080") else None)
  (fun key => if str_eqb key (lit "/fastcgi/daemon/endpoint") then 1%nat else 0%nat).

Definition no_components : ComponentSet := MkComponents (fun _ => None) (fun _ => false) (fun _ => false).

Definition demo_pools : gmap bytes Server.RequestsThreadPool :=
  {[lit "main" := Server.MkRequestsPool 0 (ThreadPool.create 2 10)]}.

Definition demo_start : prog FCGIServer.t unit :=
  start 4096 (MkMonitor 4 (fun _ => 0) (fun _ _ => 0) (fun _ => 0) []) (Ok tt) (Endpoint.MkSystem (fun _ => 0) (fun _ => true) (fun _ _ => (5, 0)) (fun _ _ => 0) to_string) (Ok tt) (fun _ => true) (fun _ => true) (fun _ => true)
     demo_config no_components.

Definition demo_created : FCGIServer.t := create (Globals.startThreadPools demo_pools).

Definition demo_running : FCGIServer.t :=
  MkFCGI RUNNING false false (pools_ demo_created) [Endpoint.MkEndpoint 5 0 1 [] (lit "8080") 1] 4 None None None.
Definition demo_stopped : FCGIServer.t := set_stopped demo_running (Globals.stopThreadPools (pools_ demo_running)).

Lemma demo_starts : demo_start demo_created = Some (demo_running, Ok tt).
Proof. reflexivity. Qed.

Lemma demo_stops : stopInternal demo_running = Some (demo_stopped, Ok tt).
Proof. reflexivity. Qed.

Lemma demo_lives : rtc life demo_created demo_stopped.
Proof.
  eapply rtc_l; [eapply LifeStart, demo_starts|]. eapply rtc_l; [eapply LifeStop, demo_stops|]. apply rtc_refl.
Qed.

Lemma daemon_lifecycle_witness :
  rtc life demo_created demo_stopped /\
  stopInternal demo_stopped = Some (demo_stopped, Throw (RuntimeError (lit "Server is already stopping"))).
Proof.
  split; [exact demo_lives|].
  exact (proj2 (proj2 (proj2 (proj2 (daemon_lifecycle demo_pools demo_stopped demo_lives)))) eq_refl).
Defined.
End Life.
