(* ===== verification/WorkThreads.v ===== *)
(** * WorkThreads

    The threads of [FCGIServer] that accept requests ([main/fcgi_server.cpp]: [createWorkThreads],
    [handle]), the flag and the shared pointer by which they learn of [stop] and [join] learns of
    them, and the busy counters of the end points. What a turn does with its request is
    [Server.handle]. An execution is a sequence of the accesses of the threads to what they share,
    and of the returns of [FCGX_Accept_r] and of the handling of a request, in any order. *)

From S2P Require Import Prelude Cxx Program Server Daemon.

Module WorkThreads.

(** Where a thread is in [handle]: what it does next. *)
Inductive point :=
| CheckStopper                     (* [if (stopper->stopped())] at the start of a turn *)
| TakeHolder                       (* [holder = active_thread_holder_] *)
| CountBusy                        (* [Endpoint::ScopedBusyCounter busyCounter] *)
| MakeRequest                      (* the task, its request and its stream, which may throw *)
| UncountBusy                      (* [busyCounter.decrement()] *)
| ResetHolder                      (* [holder.reset()] *)
| AcceptRequest                    (* [request->accept()] *)
| CheckAgain (status : Z)          (* [if (stopper->stopped())] after it *)
| TakeAgain (status : Z)           (* [holder = active_thread_holder_], and the test of [status] *)
| CountAgain                       (* [busyCounter.increment()] *)
| HandleRequest                    (* [attach], [handleRequest] and the [catch] blocks *)
| LeaveScope (again : bool)        (* the destructor of [busyCounter] *)
| DropHolder (again : bool)        (* the destructor of [holder] *)
| Returned.

(** A thread: its end point, and its [holder] and [busyCounter] with the flag of the latter. *)
Record thread := MkThread { endpoint : nat; point_ : point; holder_ : bool; incremented_ : bool }.

(** [use_count] is that of [active_thread_holder_], of which the server has one; [joined_] says that
    [join] has found it to be one. *)
Record t := MkState {
  endpoints_ : list Endpoint.t;
  stopped_ : bool;
  use_count : Z;
  threads_ : list thread;
  joined_ : bool
}.

Definition createWorkThreads (endpoints : list Endpoint.t) : list thread :=
  concat (imap (fun k e => repeat (MkThread k CheckStopper false false) (Z.to_nat (Endpoint.threads_ e))) endpoints).

(** The server as [start] leaves it. *)
Definition start (endpoints : list Endpoint.t) : t := MkState endpoints false 1 (createWorkThreads endpoints) false.

Definition at_point (th : thread) (pt : point) : thread := MkThread (endpoint th) pt (holder_ th) (incremented_ th).

Definition put (s : t) (i : nat) (th : thread) : t :=
  MkState (endpoints_ s) (stopped_ s) (use_count s) (<[i := th]> (threads_ s)) (joined_ s).

Definition take (s : t) (i : nat) (th : thread) (pt : point) : t :=
  MkState (endpoints_ s) (stopped_ s) (if holder_ th then use_count s else use_count s + 1)
    (<[i := MkThread (endpoint th) pt true (incremented_ th)]> (threads_ s)) (joined_ s).

Definition drop_holder (s : t) (i : nat) (th : thread) (pt : point) : t :=
  MkState (endpoints_ s) (stopped_ s) (if holder_ th then use_count s - 1 else use_count s)
    (<[i := MkThread (endpoint th) pt false (incremented_ th)]> (threads_ s)) (joined_ s).

(** The scoped counter of a thread, at its end point. *)
Definition scoped (f : bool * Endpoint.t -> result (bool * Endpoint.t)) (s : t) (i : nat) (th : thread) (pt : point)
    : option (result t) :=
  e ← endpoints_ s !! endpoint th;
  Some ('(flag, e) ← f (incremented_ th, e);
    Ok (MkState (<[endpoint th := e]> (endpoints_ s)) (stopped_ s) (use_count s)
      (<[i := MkThread (endpoint th) pt (holder_ th) flag]> (threads_ s)) (joined_ s))).

Definition increment := scoped (fun c => Ok (Endpoint.scoped_increment c)).
Definition decrement := scoped Endpoint.scoped_decrement.

Inductive event :=
| Go (i : nat)                     (* a step of a thread that depends on the state alone *)
| Made (i : nat) (ok : bool)       (* the request is made, or an exception is thrown *)
| Accepted (i : nat) (status : Z)  (* [FCGX_Accept_r] returns *)
| Handled (i : nat)                (* the handling of the request ends, however *)
| Stop                             (* [stopInternal] *)
| Join.                            (* [active_thread_holder_.unique()] holds in [join] *)

(** [stopper_->stopped(true)]; [active_thread_holder_.unique()], and the end of the loop of [join]. *)
Definition stop (s : t) : t := MkState (endpoints_ s) true (use_count s) (threads_ s) (joined_ s).
Definition unique (s : t) : bool := use_count s =? 1.
Definition join (s : t) : t := MkState (endpoints_ s) (stopped_ s) (use_count s) (threads_ s) true.

(** A step of [handle]; an exception goes to the end of the turn, as [continue] does. *)
Definition go (s : t) (i : nat) (th : thread) : option (result t) :=
  match point_ th with
  | CheckStopper => Some (Ok (put s i (at_point th (if stopped_ s then Returned else TakeHolder))))
  | TakeHolder => Some (Ok (take s i th CountBusy))
  | CountBusy => increment s i th MakeRequest
  | UncountBusy => decrement s i th ResetHolder
  | ResetHolder => Some (Ok (drop_holder s i th AcceptRequest))
  | CheckAgain status => Some (Ok (put s i (at_point th (if stopped_ s then LeaveScope false else TakeAgain status))))
  | TakeAgain status => Some (Ok (take s i th (if status <? 0 then LeaveScope true else CountAgain)))
  | CountAgain => increment s i th HandleRequest
  | LeaveScope again => decrement s i th (DropHolder again)
  | DropHolder again => Some (Ok (drop_holder s i th (if again then CheckStopper else Returned)))
  | MakeRequest | AcceptRequest | HandleRequest | Returned => None
  end.

Definition step (s : t) (e : event) : option (result t) :=
  match e with
  | Go i => th ← threads_ s !! i; go s i th
  | Made i ok =>
      th ← threads_ s !! i;
      match point_ th with
      | MakeRequest => Some (Ok (put s i (at_point th (if ok : bool then UncountBusy else LeaveScope true))))
      | _ => None
      end
  | Accepted i status =>
      th ← threads_ s !! i;
      match point_ th with
      | AcceptRequest => Some (Ok (put s i (at_point th (CheckAgain status))))
      | _ => None
      end
  | Handled i =>
      th ← threads_ s !! i;
      match point_ th with
      | HandleRequest => Some (Ok (put s i (at_point th (LeaveScope true))))
      | _ => None
      end
  | Stop => if stopped_ s then None else Some (Ok (stop s))
  | Join => if unique s then Some (Ok (join s)) else None
  end.

Fixpoint run (s : t) (es : list event) : option (result t) :=
  match es with
  | [] => Some (Ok s)
  | e :: es' =>
      r ← step s e;
      match r with Ok s' => run s' es' | Throw x => Some (Throw x) | Undef => Some Undef end
  end.
End WorkThreads.

(** ** The counters *)

Section Counters.
Import WorkThreads.
Implicit Types (s : WorkThreads.t) (th : thread).

(** What a thread holds where it is. *)
Definition thread_ok th : bool :=
  match point_ th with
  | CheckStopper | TakeHolder | AcceptRequest | CheckAgain _ | TakeAgain _ | Returned
  | LeaveScope false | DropHolder false => negb (holder_ th) && negb (incremented_ th)
  | CountBusy | ResetHolder | CountAgain | DropHolder true => holder_ th && negb (incremented_ th)
  | MakeRequest | UncountBusy | HandleRequest => holder_ th && incremented_ th
  | LeaveScope true => holder_ th
  end.

Definition held th : nat := if holder_ th then 1 else 0.
Definition counted (k : nat) th : nat := if incremented_ th then if decide (endpoint th = k) then 1 else 0 else 0.
Definition at_endpoint (k : nat) th : nat := if decide (endpoint th = k) then 1 else 0.

(** The threads of an end point that are busy, and the threads that have a holder. *)
Definition busy s (k : nat) : nat := sum_list_with (counted k) (threads_ s).
Definition holding s : nat := sum_list_with held (threads_ s).

Record threads_ok s0 s : Prop := {
  tk_busy : forall k e, endpoints_ s !! k = Some e -> Endpoint.busy_count_ e = Z.of_nat (busy s k);
  tk_held : use_count s = 1 + Z.of_nat (holding s);
  tk_flags : forall th, th ∈ threads_ s -> thread_ok th = true /\ (endpoint th < length (endpoints_ s))%nat;
  tk_threads : map endpoint (threads_ s) = map endpoint (threads_ s0);
  tk_endpoints : map Endpoint.threads_ (endpoints_ s) = map Endpoint.threads_ (endpoints_ s0)
}.

(** A thread moves, and with it the counters. *)
Lemma thread_moved s0 s i th th' e :
  threads_ok s0 s -> threads_ s !! i = Some th -> endpoints_ s !! endpoint th = Some e ->
  endpoint th' = endpoint th -> thread_ok th' = true ->
  threads_ok s0 (MkState
    (<[endpoint th := Endpoint.set_busy e (Endpoint.busy_count_ e + Z.b2z (incremented_ th') - Z.b2z (incremented_ th))]>
       (endpoints_ s)) (stopped_ s) (use_count s + Z.b2z (holder_ th') - Z.b2z (holder_ th)) (<[i := th']> (threads_ s))
    (joined_ s)).
Proof.
  intros [H1 H2 H3 H4 H5] Hi He Heq Hok. pose proof (lookup_lt_Some _ _ _ He) as Hlt. split; cbn.
  - intros k e' Hk. pose proof (sum_list_insert (counted k) _ _ _ th' Hi) as Hs. unfold busy in *. cbn.
    unfold counted in Hs at 2 4. rewrite Heq in Hs. destruct (decide (endpoint th = k)) as [<-|Hne].
    + rewrite list_lookup_insert_eq in Hk by done. injection Hk as <-. cbn.
      rewrite (H1 _ _ He). destruct (incremented_ th), (incremented_ th'); cbn; lia.
    + rewrite list_lookup_insert_ne in Hk by done. rewrite (H1 _ _ Hk).
      destruct (incremented_ th), (incremented_ th'); lia.
  - pose proof (sum_list_insert held _ _ _ th' Hi) as Hs. unfold holding in *. cbn. rewrite H2.
    unfold held in Hs at 2 4. destruct (holder_ th), (holder_ th'); cbn; lia.
  - intros x Hx. rewrite length_insert. apply list_elem_of_lookup in Hx as [j Hj].
    destruct (decide (i = j)) as [<-|Hne].
    + rewrite list_lookup_insert_eq in Hj by (by eapply lookup_lt_Some). injection Hj as <-. by rewrite Heq.
    + rewrite list_lookup_insert_ne in Hj by done. apply H3. by eapply list_elem_of_lookup_2.
  - rewrite <- H4. change (endpoint <$> <[i:=th']> (threads_ s) = endpoint <$> threads_ s).
    rewrite list_fmap_insert, Heq. apply list_insert_id. rewrite list_lookup_fmap. by rewrite Hi.
  - rewrite <- H5. set (e' := Endpoint.set_busy e _).
    change (Endpoint.threads_ <$> <[endpoint th:=e']> (endpoints_ s) = Endpoint.threads_ <$> endpoints_ s).
    rewrite list_fmap_insert. apply list_insert_id. rewrite list_lookup_fmap, He. done.
Qed.

Lemma set_busy_same (l : list Endpoint.t) k e v :
  l !! k = Some e -> v = Endpoint.busy_count_ e -> <[k := Endpoint.set_busy e v]> l = l.
Proof. intros H ->. apply list_insert_id. rewrite H. by destruct e. Qed.

(** A thread moves with what it holds, or takes or drops the holder. *)
Lemma holder_ok s0 s i th th' u :
  threads_ok s0 s -> threads_ s !! i = Some th -> endpoint th' = endpoint th -> incremented_ th' = incremented_ th ->
  thread_ok th' = true -> u = use_count s + Z.b2z (holder_ th') - Z.b2z (holder_ th) ->
  threads_ok s0 (MkState (endpoints_ s) (stopped_ s) u (<[i := th']> (threads_ s)) (joined_ s)).
Proof.
  intros H Hi Hep Hinc Hok ->.
  destruct (lookup_lt_is_Some_2 (endpoints_ s) (endpoint th)) as [e He].
  { eapply tk_flags; [done|]. by eapply list_elem_of_lookup_2. }
  pose proof (thread_moved s0 s i th th' e H Hi He Hep Hok) as Hm. rewrite (set_busy_same _ _ _ _ He) in Hm by (rewrite Hinc; lia).
  exact Hm.
Qed.

Lemma put_ok s0 s i th pt :
  threads_ok s0 s -> threads_ s !! i = Some th -> thread_ok (at_point th pt) = true ->
  threads_ok s0 (put s i (at_point th pt)).
Proof. intros H Hi Hok. eapply holder_ok; try done. cbn. lia. Qed.

(** A step never fails, and keeps the counters right. *)
Definition keeps s0 (r : option (result WorkThreads.t)) : Prop :=
  forall x, r = Some x -> exists s', x = Ok s' /\ threads_ok s0 s'.

Lemma keeps_ok s0 s : threads_ok s0 s -> keeps s0 (Some (Ok s)).
Proof. intros H x [= <-]. by exists s. Qed.

Lemma increment_ok s0 s i th pt :
  threads_ok s0 s -> threads_ s !! i = Some th -> incremented_ th = false ->
  thread_ok (MkThread (endpoint th) pt (holder_ th) true) = true -> keeps s0 (increment s i th pt).
Proof.
  intros H Hi Hinc Hok. unfold increment, scoped. destruct (endpoints_ s !! endpoint th) as [e|] eqn:He; [|done].
  rewrite Hinc. cbn [mbind option_bind result_bind Endpoint.scoped_increment fst snd]. apply keeps_ok.
  pose proof (thread_moved s0 s i th (MkThread (endpoint th) pt (holder_ th) true) e H Hi He eq_refl Hok) as Hm. cbn [holder_ incremented_] in Hm. rewrite Hinc in Hm.
  replace (use_count s) with (use_count s + Z.b2z (holder_ th) - Z.b2z (holder_ th)) by lia.
  unfold Endpoint.incrementBusyCounter.
  replace (Endpoint.busy_count_ e + 1) with (Endpoint.busy_count_ e + Z.b2z true - Z.b2z false) by (cbn; lia). exact Hm.
Qed.

(** The assertion in [decrementBusyCounter] holds. *)
Lemma decrement_ok s0 s i th pt :
  threads_ok s0 s -> threads_ s !! i = Some th ->
  thread_ok (MkThread (endpoint th) pt (holder_ th) false) = true -> keeps s0 (decrement s i th pt).
Proof.
  intros H Hi Hok. unfold decrement, scoped. destruct (endpoints_ s !! endpoint th) as [e|] eqn:He; [|done].
  pose proof (thread_moved s0 s i th (MkThread (endpoint th) pt (holder_ th) false) e H Hi He eq_refl Hok) as Hm. cbn [holder_ incremented_] in Hm.
  replace (use_count s + Z.b2z (holder_ th) - Z.b2z (holder_ th)) with (use_count s) in Hm by lia.
  cbn [mbind option_bind]. unfold Endpoint.scoped_decrement. cbn [fst snd].
  destruct (incremented_ th) eqn:Hinc.
  - unfold Endpoint.decrementBusyCounter. rewrite (proj2 (Z.ltb_lt _ _)).
    + apply keeps_ok. cbn [Z.b2z] in Hm. by rewrite Z.add_0_r in Hm.
    + rewrite (tk_busy _ _ H _ _ He). pose proof (sum_list_insert (counted (endpoint th)) _ _ _ (MkThread (endpoint th) pt false false) Hi) as Hs.
      unfold counted in Hs at 2 4. cbn [incremented_] in Hs. rewrite Hinc, decide_True in Hs by done. unfold busy. lia.
  - apply keeps_ok. rewrite (set_busy_same _ _ _ _ He) in Hm by (cbn; lia). by rewrite (list_insert_id _ _ _ He).
Qed.

Lemma go_ok s0 s i th : threads_ok s0 s -> threads_ s !! i = Some th -> keeps s0 (go s i th).
Proof.
  intros H Hi. destruct (tk_flags _ _ H th ltac:(by eapply list_elem_of_lookup_2)) as [Hok _].
  unfold thread_ok in Hok. unfold go. destruct th as [ep pt h c]. cbn [point_ holder_ incremented_] in *.
  destruct pt as [| | | | | | |status|status| | |[]|[]|]; try done;
    (destruct h; try discriminate Hok); (destruct c; try discriminate Hok).
  all: try (by apply (increment_ok _ _ _ _ _ H Hi)); try (by apply (decrement_ok _ _ _ _ _ H Hi)).
  all: apply keeps_ok; unfold take, drop_holder.
  all: try (destruct (stopped_ s); by apply put_ok).
  all: try (eapply holder_ok; [done..|cbn; lia]).
  eapply holder_ok; [done..| |cbn; lia]. by destruct (_ <? 0).
Qed.

Lemma threads_step s0 s e : threads_ok s0 s -> keeps s0 (step s e).
Proof.
  intros H. destruct e as [i|i ok|i status|i| |]; cbn [step].
  1-4: destruct (threads_ s !! i) as [th|] eqn:Hi; [|done]; cbn [mbind option_bind].
  1: by apply go_ok.
  1-3: destruct (tk_flags _ _ H th ltac:(by eapply list_elem_of_lookup_2)) as [Hok _];
    destruct (point_ th) eqn:Hp; try done; apply keeps_ok, put_ok; try done;
    unfold thread_ok in *; cbn; rewrite Hp in Hok; try (destruct ok); try done; by apply andb_true_iff in Hok as [-> _].
  - destruct (stopped_ s); [done|]. apply keeps_ok. destruct H. by split.
  - destruct (unique s); [|done]. apply keeps_ok. destruct H. by split.
Qed.

Lemma threads_run s0 s es : threads_ok s0 s -> keeps s0 (run s es).
Proof.
  revert s. induction es as [|e es IH]; intros s H; cbn [run]; [by apply keeps_ok|].
  pose proof (threads_step s0 s e H) as Hs. destruct (step s e) as [x|]; [|done].
  destruct (Hs x eq_refl) as (s' & -> & H'). by apply IH.
Qed.

(** The threads that an end point is given. *)
Lemma created_at k o (es : list Endpoint.t) :
  sum_list_with (at_endpoint k) (concat (imap (fun j e =>
    repeat (MkThread (o + j) CheckStopper false false) (Z.to_nat (Endpoint.threads_ e))) es)) =
  if decide (o <= k)%nat then from_option (fun e => Z.to_nat (Endpoint.threads_ e)) 0%nat (es !! (k - o)%nat) else 0%nat.
Proof.
  revert o. induction es as [|e es IH]; intros o; cbn [imap concat]; [by case_decide|].
  rewrite sum_list_with_app.
  rewrite (imap_ext _ (fun j e => repeat (MkThread (Datatypes.S o + j) CheckStopper false false) (Z.to_nat (Endpoint.threads_ e))))
    by (intros j x _; cbn; do 2 f_equal; lia).
  rewrite IH.
  assert (Hr : forall n, sum_list_with (at_endpoint k) (repeat (MkThread (o + 0) CheckStopper false false) n) =
    if decide (o = k) then n else 0%nat).
  { intros n. rewrite Nat.add_0_r. induction n as [|n IHn]; cbn; [by case_decide|]. rewrite IHn.
    unfold at_endpoint. cbn. by case_decide. }
  rewrite Hr. destruct (decide (o = k)) as [<-|Hne].
  - rewrite decide_False by lia. rewrite decide_True by lia. rewrite Nat.sub_diag. cbn. lia.
  - destruct (decide (Datatypes.S o <= k)%nat).
    + rewrite decide_True by lia. by replace (k - o)%nat with (Datatypes.S (k - Datatypes.S o)) by lia.
    + by rewrite decide_False by lia.
Qed.

Lemma created_elem th (es : list Endpoint.t) :
  th ∈ createWorkThreads es -> exists k, (k < length es)%nat /\ th = MkThread k CheckStopper false false.
Proof.
  unfold createWorkThreads. intros H. apply list_elem_of_In, in_concat in H as (l & Hl & H).
  apply list_elem_of_In, elem_of_lookup_imap in Hl as (k & e & -> & Hk). apply repeat_spec in H as ->.
  exists k. split; [by eapply lookup_lt_Some|done].
Qed.

Lemma threads_start (es : list Endpoint.t) :
  Forall (fun e => Endpoint.busy_count_ e = 0) es -> threads_ok (start es) (start es).
Proof.
  intros H. split; cbn; try done.
  - intros k e He. rewrite Forall_lookup in H. rewrite (H _ _ He). unfold busy. rewrite sum_list_zero; [done|].
    by intros th (j & _ & ->)%created_elem.
  - unfold holding. rewrite sum_list_zero; [done|]. by intros th (j & _ & ->)%created_elem.
  - by intros th (j & Hj & ->)%created_elem.
Qed.

Lemma at_endpoint_map k (l : list thread) :
  sum_list_with (at_endpoint k) l = sum_list_with (fun j => if decide (j = k) then 1 else 0)%nat (map endpoint l).
Proof. induction l as [|th l IH]; cbn; [done|]. by rewrite IH. Qed.

Lemma busy_bound (es : list Endpoint.t) s k e :
  threads_ok (start es) s -> endpoints_ s !! k = Some e -> (busy s k <= Z.to_nat (Endpoint.threads_ e))%nat.
Proof.
  intros H He. transitivity (sum_list_with (at_endpoint k) (threads_ s)).
  { apply sum_list_bound. intros th _. unfold counted, at_endpoint. destruct (incremented_ th); [done|]. lia. }
  rewrite at_endpoint_map, (tk_threads _ _ H), <- at_endpoint_map.
  pose proof (created_at k 0 es) as Hc. cbn [Nat.add] in Hc. unfold start. cbn. unfold createWorkThreads. rewrite Hc.
  rewrite decide_True, Nat.sub_0_r by lia.
  pose proof (f_equal (fun l => l !! k) (tk_endpoints _ _ H)) as Hk. cbn in Hk.
  change (map Endpoint.threads_ (endpoints_ s)) with (Endpoint.threads_ <$> endpoints_ s) in Hk.
  change (map Endpoint.threads_ es) with (Endpoint.threads_ <$> es) in Hk.
  rewrite !list_lookup_fmap, He in Hk. cbn in Hk. destruct (es !! k) as [e0|]; [|done]. cbn in *. injection Hk as ->. lia.
Qed.

(** C17: whatever the order in which the threads that accept requests run, requests arrive, are
    handled or fail, and the server is stopped: the assertion of the busy counter never fails,
    the number that an end point reports is that of its threads that are busy, which is at most
    the number of threads it was given, and the use count on which [join] waits counts the
    threads that hold on to the server. *)
Theorem busy_counters (es : list Endpoint.t) evs r :
  Forall (fun e => Endpoint.busy_count_ e = 0 /\ 0 <= Endpoint.threads_ e < 2 ^ 16) es -> run (start es) evs = Some r ->
  exists s, r = Ok s /\ use_count s = 1 + Z.of_nat (holding s) /\
    forall k e, endpoints_ s !! k = Some e ->
      Endpoint.getBusyCounter e = Z.of_nat (busy s k) /\ Z.of_nat (busy s k) <= Endpoint.threads_ e.
Proof.
  intros Hes Hr. assert (H0 : threads_ok (start es) (start es)).
  { apply threads_start. eapply Forall_impl; [exact Hes|]. by intros e []. }
  destruct (threads_run _ _ evs H0 r Hr) as (s & -> & H). exists s. split; [done|]. split; [apply H|]. intros k e He.
  pose proof (busy_bound es s k e H He) as Hb.
  assert (Ht : 0 <= Endpoint.threads_ e < 2 ^ 16).
  { assert (Hin : Endpoint.threads_ e ∈ map Endpoint.threads_ (endpoints_ (start es))).
    { rewrite <- (tk_endpoints _ _ H). apply list_elem_of_fmap_2. by eapply list_elem_of_lookup_2. }
    apply list_elem_of_fmap in Hin as (e0 & -> & Hin). rewrite Forall_forall in Hes. by apply Hes. }
  split; [|lia]. unfold Endpoint.getBusyCounter, u16. rewrite (tk_busy _ _ H _ _ He). apply Z.mod_small. lia.
Qed.

(** ** Stopping *)

(** How far a thread still goes when the server has been stopped. *)
Definition weight th : nat :=
  match point_ th with
  | Returned => 0 | DropHolder false => 1 | LeaveScope false => 2 | CheckAgain _ => 3 | AcceptRequest => 4
  | ResetHolder => 5 | UncountBusy => 6 | MakeRequest => 7 | CountBusy => 8 | TakeHolder => 9
  | CheckStopper => 1 | DropHolder true => 2 | LeaveScope true => 3 | HandleRequest => 4 | CountAgain => 5
  | TakeAgain _ => 6
  end.

Definition work_left s : nat := sum_list_with weight (threads_ s).

(** A thread that handles no request any more once the server has been stopped. *)
Definition gone th : bool :=
  match point_ th with
  | Returned | AcceptRequest | CheckAgain _ | LeaveScope false | DropHolder false => true
  | _ => false
  end.

(** The steps of the threads, and those of them that do not wait for a request to arrive. *)
Definition thread_event (e : event) : bool := match e with Stop | Join => false | _ => true end.
Definition own_event (e : event) : bool := match e with Go _ | Made _ _ | Handled _ => true | _ => false end.

(** What one step of the thread [i] does to the threads. *)
Definition turns i th s (x : option (result WorkThreads.t)) : Prop :=
  forall s', x = Some (Ok s') -> exists th',
    threads_ s' = <[i := th']> (threads_ s) /\ stopped_ s' = stopped_ s /\
    (weight th' < weight th)%nat /\ (gone th = true -> gone th' = true).

Lemma scoped_turns f s i th pt :
  (forall h c, (weight (MkThread (endpoint th) pt h c) < weight th)%nat) ->
  (gone th = true -> forall h c, gone (MkThread (endpoint th) pt h c) = true) -> turns i th s (scoped f s i th pt).
Proof.
  intros Hw Hg s'. unfold scoped. destruct (endpoints_ s !! _) as [e|]; [|done]. cbn [mbind option_bind].
  destruct (f _) as [[flag e']| |]; try done. intros [= <-]. eexists. split; [done|]. split; [done|]. auto.
Qed.

Lemma go_turns s i th : stopped_ s = true -> turns i th s (go s i th).
Proof.
  intros Hs. unfold go. destruct (point_ th) as [| | | | | | |status|status| | |[]|[]|] eqn:Hp; try done;
    unfold increment, decrement;
    try (apply scoped_turns; unfold weight, gone; cbn; rewrite Hp; (lia || done)).
  all: rewrite ?Hs; intros s' [= <-]; eexists; (split; [done|]); (split; [done|]); unfold weight, gone; cbn; rewrite Hp;
    try destruct (_ <? 0); split; (lia || done).
Qed.

Lemma stopped_step s e s' :
  stopped_ s = true -> thread_event e = true -> step s e = Some (Ok s') ->
  stopped_ s' = true /\ (work_left s' < work_left s)%nat /\
  (Forall (fun th => gone th = true) (threads_ s) -> Forall (fun th => gone th = true) (threads_ s') /\ forall i, e <> Handled i).
Proof.
  intros Hs He E.
  assert (H : exists i th, threads_ s !! i = Some th /\ turns i th s (step s e) /\ forall j, e = Handled j -> gone th = false).
  { destruct e as [i|i ok|i status|i| |]; try done; cbn [step] in *; exists i;
      (destruct (threads_ s !! i) as [th|] eqn:Hi; [|done]); exists th; (split; [done|]); cbn [mbind option_bind] in *.
    1: by split; [apply go_turns|].
    all: destruct (point_ th) eqn:Hp; try done; (split; [|intros j Hj; try done; unfold gone; by rewrite Hp]);
      intros x [= <-]; eexists; (split; [done|]); (split; [done|]); unfold weight, gone; cbn; rewrite Hp; try destruct ok;
      split; (lia || done). }
  destruct H as (i & th & Hi & Ht & Hh). destruct (Ht s' E) as (th' & Eth & Est & Hw & Hg).
  split; [congruence|]. split.
  - unfold work_left. rewrite Eth. pose proof (sum_list_insert weight _ _ _ th' Hi). lia.
  - intros Hall. rewrite Eth. pose proof (Forall_lookup_1 _ _ _ _ Hall Hi) as Hgone. cbn in Hgone. split.
    + apply Forall_insert; auto.
    + intros j Hj. rewrite (Hh j Hj) in Hgone. done.
Qed.

(** However the threads go on, and whether requests still arrive or not, [P] comes to hold. *)
Inductive inevitable (P : WorkThreads.t -> Prop) s : Prop :=
| inevitable_now : P s -> inevitable P s
| inevitable_later :
    (exists e s', own_event e = true /\ step s e = Some (Ok s')) ->
    (forall e s', thread_event e = true -> step s e = Some (Ok s') -> inevitable P s') -> inevitable P s.

Lemma inevitable_impl (P Q : WorkThreads.t -> Prop) s :
  (forall s, P s -> Q s) -> inevitable P s -> inevitable Q s.
Proof. intros HPQ. induction 1 as [s H|s He _ IH]; [apply inevitable_now; auto|by apply inevitable_later]. Qed.

Lemma goes_on s0 s i th :
  threads_ok s0 s -> threads_ s !! i = Some th -> gone th = false ->
  exists e s', own_event e = true /\ step s e = Some (Ok s').
Proof.
  intros H Hi Hg.
  assert (He : exists e x, own_event e = true /\ step s e = Some x).
  { destruct (lookup_lt_is_Some_2 (endpoints_ s) (endpoint th)) as [ep Hep].
    { eapply tk_flags; [done|]. by eapply list_elem_of_lookup_2. }
    unfold gone in Hg. destruct (point_ th) eqn:Hp; try done.
    4: exists (Made i true); cbn; rewrite Hi; cbn; rewrite Hp; by eexists.
    8: exists (Handled i); cbn; rewrite Hi; cbn; rewrite Hp; by eexists.
    all: exists (Go i); cbn; rewrite Hi; cbn; unfold go; rewrite Hp; unfold increment, decrement, scoped;
      rewrite ?Hep; by eexists. }
  destruct He as (e & x & He & E). destruct (threads_step s0 s e H x E) as (s' & -> & _). by exists e, s'.
Qed.

Definition all_gone s : Prop := Forall (fun th => gone th = true) (threads_ s).

#[local] Instance all_gone_dec s : Decision (all_gone s).
Proof. unfold all_gone. exact _. Defined.

Lemma all_gone_held s0 s : threads_ok s0 s -> all_gone s -> use_count s = 1.
Proof.
  intros H Hg. rewrite (tk_held _ _ H). unfold holding. rewrite sum_list_zero; [done|]. intros th Hth.
  unfold all_gone in Hg. rewrite Forall_forall in Hg. specialize (Hg th Hth). cbn in Hg.
  destruct (tk_flags _ _ H th Hth) as [Hok _]. unfold gone, thread_ok, held in *.
  destruct (point_ th) as [| | | | | | |?|?| | |[]|[]|]; try done; by apply andb_true_iff in Hok as [->%negb_true_iff _].
Qed.

(** Once all threads are gone this stays so. *)
Lemma all_gone_run s0 s es x :
  threads_ok s0 s -> stopped_ s = true -> all_gone s -> run s es = Some x ->
  exists s', x = Ok s' /\ use_count s' = 1 /\ forall i, Handled i ∉ es.
Proof.
  revert s. induction es as [|e es IH]; intros s H Hs Hg; cbn [run].
  - intros [= <-]. exists s. split; [done|]. split; [by eapply all_gone_held|]. intros i Hi. by apply elem_of_nil in Hi.
  - pose proof (threads_step s0 s e H) as Hk. destruct (step s e) as [y|] eqn:E; [|done].
    destruct (Hk y eq_refl) as (s1 & -> & H1). cbn [mbind option_bind]. intros Hr.
    assert (Hnext : stopped_ s1 = true /\ all_gone s1 /\ forall i, e <> Handled i).
    { destruct (thread_event e) eqn:He.
      - destruct (stopped_step s e s1 Hs He E) as (E1 & _ & E2). split; [done|]. by apply E2.
      - destruct e; try done; cbn in E; [by rewrite Hs in E|]. destruct (unique s); [|done]. injection E as <-. done. }
    destruct Hnext as (Hs1 & Hg1 & Hne). destruct (IH s1 H1 Hs1 Hg1 Hr) as (s' & -> & Hu & Hh).
    exists s'. split; [done|]. split; [done|]. intros i [Hi|Hi]%elem_of_cons; [by apply (Hne i)|by apply (Hh i)].
Qed.

Lemma threads_go s0 s : threads_ok s0 s -> stopped_ s = true ->
  inevitable (fun s' => threads_ok s0 s' /\ stopped_ s' = true /\ all_gone s') s.
Proof.
  remember (work_left s) as k eqn:Hk. revert s Hk. induction k as [k IH] using lt_wf_ind; intros s -> H Hs.
  destruct (decide (all_gone s)) as [Hg|Hg].
  - by apply inevitable_now.
  - apply inevitable_later.
    + apply not_Forall_Exists, Exists_exists in Hg as (th & [i Hi]%list_elem_of_lookup & Hg); [|exact _].
      apply not_true_is_false in Hg. by eapply goes_on.
    + intros e s' He E. destruct (stopped_step s e s' Hs He E) as (Hs' & Hw & _).
      destruct (threads_step s0 s e H _ E) as (s1 & [= <-] & H'). by eapply IH.
Qed.

(** C14: once the server is stopped its threads come to an end, whatever their schedule and
    whatever requests still arrive, as long as the handling of each request ends: inevitably a
    state is reached in which every thread has returned, or waits in the accept call, or is on
    its way out; in every state that can follow no request is handled any more, no assertion
    fails, and the condition on which [join] waits holds. *)
Theorem stop_ends (es : list Endpoint.t) evs s :
  Forall (fun e => Endpoint.busy_count_ e = 0) es -> run (start es) evs = Some (Ok s) -> stopped_ s = true ->
  inevitable (fun s' => all_gone s' /\
    forall evs' r, run s' evs' = Some r -> exists s'', r = Ok s'' /\ use_count s'' = 1 /\ forall i, Handled i ∉ evs') s.
Proof.
  intros Hes Hr Hs. destruct (threads_run _ _ evs (threads_start es Hes) _ Hr) as (s1 & [= <-] & H).
  eapply inevitable_impl; [|by eapply threads_go]. intros s' (H' & Hs' & Hg). split; [done|]. intros evs' r.
  by eapply all_gone_run.
Qed.

(** Between its second look at the flag and taking its holder a thread is not counted: [join] can
    end while the thread is about to handle a request. *)
Definition one_thread : list Endpoint.t := [Endpoint.MkEndpoint 5 0 1 [] (lit "8080") 1].

Definition accepting : list event := [Go 0; Go 0; Go 0; Made 0 true; Go 0; Go 0; Accepted 0 0; Go 0].

Lemma join_misses_thread :
  exists s, run (start one_thread) (accepting ++ [Stop; Join; Go 0; Go 0]) = Some (Ok s) /\
    joined_ s = true /\ map point_ (threads_ s) = [HandleRequest].
Proof. eexists. split; [reflexivity|]. split; reflexivity. Qed.

Lemma busy_counters_witness :
  exists s, run (start one_thread) (accepting ++ [Go 0; Go 0]) = Some (Ok s) /\ use_count s = 1 + Z.of_nat (holding s) /\
    map Endpoint.busy_count_ (endpoints_ s) = [1].
Proof.
  destruct (run (start one_thread) (accepting ++ [Go 0; Go 0])) as [r|] eqn:E; [|vm_compute in E; discriminate E].
  destruct (busy_counters one_thread _ r ltac:(repeat constructor; discriminate) E) as (s & -> & Hu & _).
  exists s. split; [reflexivity|]. split; [exact Hu|]. vm_compute in E. injection E as <-. reflexivity.
Defined.

Lemma stop_ends_witness :
  exists s, run (start one_thread) (accepting ++ [Stop]) = Some (Ok s) /\ inevitable all_gone s.
Proof.
  destruct (run (start one_thread) (accepting ++ [Stop])) as [[s| |]|] eqn:E; try (vm_compute in E; discriminate E).
  assert (Hs : stopped_ s = true) by (vm_compute in E; injection E as <-; reflexivity).
  exists s. split; [reflexivity|].
  exact (inevitable_impl _ _ _ (fun s' => @proj1 _ _) (stop_ends one_thread _ s ltac:(repeat constructor) E Hs)).
Defined.
End Counters.
