(* ===== verification/Services.v ===== *)
(** * Services

    [session-manager/simple_session_manager.cpp] as a component: how the configuration makes the
    session manager, what it looks for when it is loaded, and the thread that removes the
    sessions that have timed out, from [onLoad] to [stop]. The table and its operations are
    [SessionManager]. An execution is a sequence of steps of that thread, of the clients of the
    manager and of [stop]; [mutex_] makes a sweep one step. *)

From S2P Require Import Prelude Cxx OrdMap Ranges Request Session SessionManager Handlers Config FileCache.

Module SimpleSessionManager.

Definition default_crawlers_agents : bytes :=
  lit ".*(bot|Crawler|Google|Rambler|Yahoo|Yandex|accoona|ASPSeek|Lycos|Scooter|AltaVista|eStyle|Scrubby|Bench).*".

Section Component.
Context {V : Type}.

(** The constructor. [compile] is [std::regex::assign], whose result matches a whole text; the
    expression of a manager whose own cannot be compiled matches nothing. *)
Definition configure (compile : bytes -> option (bytes -> bool)) (config : Config) (componentXPath : bytes)
    : result (SessionManager.t V * (bytes -> bool)) :=
  let session := lit "/fastcgi[count(session)=1]/" ++ FileCache.attached in
  own ← XmlConfig.asInt_default config (componentXPath ++ lit "/timeout") 30;
  sessionTimeout ← XmlConfig.asInt_default config (session ++ lit "/timeout") own;
  let crawler_agents := asString_default config (session ++ lit "/crawlerUserAgents") default_crawlers_agents in
  Ok (SessionManager.create_manager (u32 sessionTimeout), default (fun _ => false) (compile crawler_agents)).

(** Where the thread is in [checkSessionTimeout]: before its look at [stopped_], before the sweep,
    in [wait_for], returned. *)
Inductive point := Looking | Sweeping | Waiting | Returned.

(** [joinable]: the thread has not been joined; [stopping]: a caller of [stop] is in [join]. *)
Record t := MkService {
  manager : SessionManager.t V;
  thread_ : point;
  joinable : bool;
  stopping : bool
}.

(** [onLoad]: the thread is started before the logger is looked for. *)
Definition onLoad (config : Config) (componentXPath : bytes) (cs : ComponentSet) (is_Logger : nat -> bool)
    (m : SessionManager.t V) : t * result nat :=
  (MkService m Looking true false,
   loggerComponentName ← asString config (componentXPath ++ lit "/logger");
   match components_find cs loggerComponentName with
   | Some c => if is_Logger c then Ok c else Throw (RuntimeError (lit "Cannot get component " ++ loggerComponentName))
   | None => Throw (RuntimeError (lit "Cannot get component " ++ loggerComponentName))
   end).

Definition set_thread (s : t) (pt : point) : t := MkService (manager s) pt (joinable s) (stopping s).
Definition set_manager (s : t) (m : SessionManager.t V) : t := MkService m (thread_ s) (joinable s) (stopping s).

(** The thread: its look at the flag, a sweep at the time [now], the end of its wait. *)
Definition look (s : t) : t := set_thread s (if SessionManager.stopped_ (manager s) then Returned else Sweeping).
Definition sweep (now : Z) (s : t) : t :=
  set_thread (set_manager s (SessionManager.checkSessionTimeout (manager s) now)) Waiting.

(** [stop] up to [join]: the flag is set and the thread woken, if it waits. *)
Definition stopTimeoutThread (s : t) : t :=
  MkService (SessionManager.set_stopped (manager s) true)
    (match thread_ s with Waiting => Looking | pt => pt end) (joinable s) true.

(** [join], and the rest of [stop]; [None] while it blocks. Joining a thread twice is EINVAL. *)
Definition join (s : t) : option (t * result unit) :=
  if negb (joinable s) then Some (MkService (manager s) (thread_ s) false false, Throw (SystemError 22))
  else match thread_ s with
       | Returned => Some (MkService (SessionManager.invalidateAll (manager s)) Returned false false, Ok tt)
       | _ => None
       end.
End Component.
Arguments t : clear implicits.
End SimpleSessionManager.

(** ** The thread and its end *)

Section Service.
Context {V S : Type} {IO : IOStream S} (crawler : bytes -> bool).
Import SimpleSessionManager.
Implicit Types s : SimpleSessionManager.t V.

(** The steps of the thread and of the caller of [stop]. *)
Inductive own_step s : SimpleSessionManager.t V -> Prop :=
| StepLook : thread_ s = Looking -> own_step s (look s)
| StepSweep now : thread_ s = Sweeping -> own_step s (sweep now s)
| StepWake : thread_ s = Waiting -> own_step s (set_thread s Looking)
| StepJoin s' res : stopping s = true -> join s = Some (s', res) -> own_step s s'.

(** What the clients of the manager do. *)
Definition client_step s s' : Prop := exists m',
  SessionManager.step (V := V) (S := S) crawler (manager s) m' /\
  SessionManager.stopped_ m' = SessionManager.stopped_ (manager s) /\ s' = set_manager s m'.

Inductive service_step s s' : Prop :=
| ByOwn : own_step s s' -> service_step s s'
| ByClient : client_step s s' -> service_step s s'
| ByStop : stopping s = false -> s' = stopTimeoutThread s -> service_step s s'.

(** [n] own steps, with any steps of clients in between. *)
Inductive goes : nat -> SimpleSessionManager.t V -> SimpleSessionManager.t V -> Prop :=
| GoesRefl s : goes 0 s s
| GoesOwn n s1 s2 s3 : stopping s1 = true -> own_step s1 s2 -> goes n s2 s3 -> goes (Datatypes.S n) s1 s3
| GoesClient n s1 s2 s3 : client_step s1 s2 -> goes n s2 s3 -> goes n s1 s3.

Lemma release_stopped n m p : SessionManager.stopped_ (SessionManager.release_fuel (V := V) n m p) = SessionManager.stopped_ m.
Proof.
  revert m p. induction n as [|n IH]; intros m p; cbn [SessionManager.release_fuel]; [done|].
  destruct (SessionManager.referenced m p); [done|]. destruct (SessionManager.store m !! p); [|done].
  cbn. destruct (SessionManager.sessions_ m !! _) as [[q|]|]; [|done..]. by rewrite IH.
Qed.

Lemma sweep_stopped m now :
  SessionManager.stopped_ (SessionManager.checkSessionTimeout (V := V) m now) = SessionManager.stopped_ m.
Proof.
  unfold SessionManager.checkSessionTimeout. generalize (map fst (map_to_list (SessionManager.sessions_ m))). intros l.
  revert m. induction l as [|id l IH]; intros m; cbn [foldl]; [done|]. rewrite IH. destruct (SessionManager.expired_entry m now id); [|done].
  unfold SessionManager.erase_entry. destruct (SessionManager.sessions_ m !! id) as [[p|]|]; [|done..]. unfold SessionManager.release. by rewrite release_stopped.
Qed.

Record service_ok s : Prop := {
  so_good : good (manager s);
  so_flag : stopping s = true -> SessionManager.stopped_ (manager s) = true;
  so_joined : joinable s = false -> thread_ s = Returned
}.

Lemma own_ok s s' : service_ok s -> own_step s s' -> service_ok s'.
Proof.
  intros [H1 H2 H3] [E|now E|E|s'' res Hs Hj].
  - split; [done..|]. intros Hj. cbn in *. by rewrite H3 in E.
  - split; cbn.
    + eapply (step_good (S := S) crawler); [exact H1|constructor].
    + intros Hs. rewrite sweep_stopped. by apply H2.
    + intros Hj. by rewrite H3 in E.
  - split; [done..|]. intros Hj. cbn in *. by rewrite H3 in E.
  - unfold join in Hj. destruct (joinable s) eqn:Ej; cbn [negb] in Hj.
    + destruct (thread_ s); try done. injection Hj as <- _. split; [|done..]. by apply invalidateAll_spec.
    + injection Hj as <- _. by split; [|done|intros _; apply H3].
Qed.

Lemma client_ok s s' : service_ok s -> client_step s s' -> service_ok s' /\ thread_ s' = thread_ s /\
  stopping s' = stopping s /\ joinable s' = joinable s.
Proof.
  intros [H1 H2 H3] (m' & Hm & Hst & ->). split; [|done]. split; [|intros Hs; cbn in *; rewrite Hst; auto|done].
  by eapply step_good.
Qed.

Lemma service_ok_step s s' : service_ok s -> service_step s s' -> service_ok s'.
Proof.
  intros H [Ho|Hc|Hs ->].
  - by eapply own_ok.
  - by apply (client_ok s).
  - destruct H as [H1 H2 H3]. split; [by destruct H1|done|]. intros Hj. cbn. by rewrite (H3 Hj).
Qed.

(** What the caller of [stop] still has to wait for. *)
Definition to_go s : nat :=
  if stopping s then match thread_ s with Returned => 1 | Looking => 2 | Waiting => 3 | Sweeping => 4 end else 0.

Lemma own_to_go s s' : service_ok s -> stopping s = true -> own_step s s' -> (to_go s' < to_go s)%nat.
Proof.
  intros [_ H2 _] Hs Ho. unfold to_go. rewrite Hs. destruct Ho as [E|now E|E|s'' res _ Hj]; cbn; rewrite ?Hs, ?E; try lia.
  - rewrite (H2 Hs). lia.
  - unfold join in Hj. destruct (joinable s); cbn [negb] in Hj; [destruct (thread_ s); try done|];
      injection Hj as <- _; cbn; [lia|]. destruct (thread_ s); lia.
Qed.

(** C15: the session manager can be stopped. From the configuration on, whatever its thread and
    its clients have done, a caller of [stop] never waits for ever: a step of the thread or the
    end of its [join] is always possible, and there are at most four of them, whatever clients
    do in between; the first [stop] leaves an empty table, and sessions only where pointers to
    them are held; one more [stop] is an error that leaves the sessions as they are. *)
Theorem session_manager_stops compile config xpath cs is_Logger m s :
  configure compile config xpath = Ok (m, crawler) -> rtc service_step (onLoad config xpath cs is_Logger m).1 s ->
  stopping s = true ->
  (exists s', own_step s s') /\ (forall n s', goes n s s' -> (n <= 4)%nat) /\
  (forall s' res, join s = Some (s', res) ->
     if joinable s
     then res = Ok tt /\ SessionManager.sessions_ (manager s') = ∅ /\ good (manager s')
     else res = Throw (SystemError 22) /\ manager s' = manager s).
Proof.
  intros Hc Hr Hs. assert (H : service_ok s).
  { assert (H0 : service_ok (onLoad config xpath cs is_Logger m).1).
    { split; [|done..]. cbn. unfold configure in Hc. cbv zeta in Hc. res_inv. apply create_manager_good. }
    refine (rtc_ind_r (fun s => service_ok s) _ H0 _ s Hr). intros s1 s2 _ Hst Hok. by eapply service_ok_step. }
  split; [|split].
  - destruct (thread_ s) eqn:E; [eexists; by constructor|eexists; by apply (StepSweep _ 0)|eexists; by apply StepWake|].
    destruct (joinable s) eqn:Ej; eexists; (eapply StepJoin; [done|]); unfold join; rewrite Ej, E; reflexivity.
  - intros n s' Hg. transitivity (to_go s); [|unfold to_go; rewrite Hs; destruct (thread_ s); lia].
    clear Hr Hs Hc. induction Hg as [s|n s1 s2 s3 Hs Ho _ IH|n s1 s2 s3 Hcl _ IH]; [lia| |].
    + pose proof (own_to_go _ _ H Hs Ho). specialize (IH (own_ok _ _ H Ho)). lia.
    + destruct (client_ok _ _ H Hcl) as (H' & E1 & E2 & _). specialize (IH H'). unfold to_go in *. by rewrite E1, E2 in IH.
  - intros s' res. unfold join. destruct (joinable s); cbn [negb]; [|by intros [= <- <-]].
    destruct (thread_ s); try done. intros [= <- <-]. split; [done|]. cbn.
    destruct (invalidateAll_spec (manager s) (so_good _ H)) as (? & ? & _). done.
Qed.
End Service.

(** A manager that is stopped while its thread waits. *)
Section Examples.
Import SimpleSessionManager.

Definition service_config : Config := MkConfig
  (fun key => if str_eqb key (lit "/m/timeout") then Some (lit "20") else if str_eqb key (lit "/m/logger") then Some (lit "log")
              else None) (fun _ => 0%nat).

Definition service_components : ComponentSet :=
  MkComponents (fun n => if str_eqb n (lit "log") then Some 7%nat else None) (fun _ => false) (fun _ => false).

Definition loaded : SimpleSessionManager.t nat * result nat :=
  onLoad service_config (lit "/m") service_components (fun _ => true) (SessionManager.create_manager 20).

Definition stopped_service : SimpleSessionManager.t nat := stopTimeoutThread (sweep 0 (look loaded.1)).

Lemma session_manager_stops_witness :
  loaded.2 = Ok 7%nat /\ thread_ stopped_service = Looking /\
  forall n s', goes (S := MemStream) crawler_test n stopped_service s' -> (n <= 4)%nat.
Proof.
  split; [vm_compute; reflexivity|]. split; [reflexivity|].
  refine (proj1 (proj2 (session_manager_stops (S := MemStream) crawler_test (fun _ => Some crawler_test) service_config
    (lit "/m") service_components (fun _ => true) (SessionManager.create_manager 20) stopped_service _ _ _))).
  - vm_compute. reflexivity.
  - eapply rtc_l; [apply ByOwn, StepLook; reflexivity|]. eapply rtc_l; [apply ByOwn, (StepSweep _ 0); reflexivity|].
    eapply rtc_l; [apply ByStop; reflexivity|]. apply rtc_refl.
  - reflexivity.
Defined.
End Examples.
