(* ===== verification/Monitor.v ===== *)
(** * Monitor

    The thread of [FCGIServer::monitor] ([main/fcgi_server.cpp]): it accepts connections on the
    monitor's port, one at a time, and answers the command of each. What the other threads do to
    the server meanwhile comes with each turn of its loop, as do the connection and its bytes. *)

From S2P Require Import Prelude Cxx OrdMap Ranges Handlers Program ThreadPool Server Daemon.

Module Monitor.

(** One turn: the server when the flag is read and when [accept] returns, what it returns, with
    [errno], and what [read] gives (nothing when it fails or the connection is closed). [has_pipe]
    tells whether [start] has made the pipe of the stop thread by then, which it does after it has
    started this thread, and after it has set the status. *)
Record turn := MkTurn {
  before : FCGIServer.t;
  now : FCGIServer.t;
  has_pipe : bool;
  fd : Z;
  errno : Z;
  received : bytes
}.

(** What the thread has done: the connections that it has open, what it has sent on them and to the
    stop pipe, and what it has reported, to the logger or on the standard error stream. *)
Record t := MkMonitor {
  opened : list Z;
  sent : list (Z * bytes);
  pipe : bytes;
  logged : list (bytes * Z);
  errors : list bytes
}.

Definition create : t := MkMonitor [] [] [] [] [].

Definition set_opened (m : t) v : t := MkMonitor v (sent m) (pipe m) (logged m) (errors m).
Definition set_sent (m : t) v : t := MkMonitor (opened m) v (pipe m) (logged m) (errors m).
Definition set_pipe (m : t) v : t := MkMonitor (opened m) (sent m) v (logged m) (errors m).
Definition set_logged (m : t) v : t := MkMonitor (opened m) (sent m) (pipe m) v (errors m).
Definition set_errors (m : t) v : t := MkMonitor (opened m) (sent m) (pipe m) (logged m) v.

#[local] Abbreviation P := (prog t).

Definition close (s : Z) : P unit := modify (fun m => set_opened m (List.filter (fun x => negb (x =? s)) (opened m))).

(** The report of the server, with its pools in the order of their names. *)
Definition info (s : FCGIServer.t) : bytes :=
  FCGIServer.getServerInfo s
    (omap (fun name => pair name <$> FCGIServer.pools_ s !! name) (Globals.in_order (dom (FCGIServer.pools_ s)))).

(** The command of a connection: [read] takes at most 80 bytes, of which the first counts. [stop]
    writes to a descriptor that has no value before there is a pipe. *)
Definition command (tn : turn) : P unit :=
  match FCGIServer.monitor (take 80 (received tn)) with
  | FCGIServer.Info => modify (fun m => set_sent m (sent m ++ [(fd tn, info (now tn))]))
  | FCGIServer.Stop => if has_pipe tn then modify (fun m => set_pipe m (pipe m ++ lit "s")) else lift Undef
  | FCGIServer.Nothing => ret tt
  end.

(** The [try] block from [accept] on, and its [catch]; the result tells whether the loop goes on. *)
Definition connection (tn : turn) : P bool :=
  (if fd tn =? -1 then ret tt else modify (fun m => set_opened m (fd tn :: opened m))) ;;
  if FCGIServer.stopped_ (now tn) then ret false
  else if fd tn =? -1 then throw (RuntimeError (lit "Cannot accept connection on monitor port"))
  else if Range.empty (received tn) then close (fd tn) ;; ret true
  else command tn ;; close (fd tn) ;; ret true.

Definition report (what : exn -> bytes) (tn : turn) (e : exn) : P bool :=
  (if fd tn =? -1 then ret tt else close (fd tn)) ;;
  match FCGIServer.status_ (now tn) with
  | FCGIServer.RUNNING => modify (fun m => set_logged m (logged m ++ [(what e, errno tn)])) ;; ret true
  | _ =>
      if FCGIServer.stopped_ (now tn) then ret true
      else modify (fun m => set_errors m (errors m ++
             [what e ++ lit ", errno = " ++ to_string (errno tn) ++ [Byte.x0a]])) ;; ret true
  end.

Definition step (what : exn -> bytes) (tn : turn) : P bool :=
  if FCGIServer.stopped_ (before tn) then ret false else try_catch (connection tn) (report what tn).

(** The loop, for as many turns as there are. *)
Fixpoint run (what : exn -> bytes) (turns : list turn) : P bool :=
  match turns with
  | [] => ret true
  | tn :: turns' => goes_on ← step what tn; if goes_on : bool then run what turns' else ret false
  end.
End Monitor.

(** ** The connections *)

Section Facts.
Import Monitor.
Context (what : exn -> bytes).
Implicit Types m : Monitor.t.

(** What one turn answers and what it writes to the stop pipe. *)
Definition answer (tn : turn) : list (Z * bytes) :=
  if fd tn =? -1 then []
  else match FCGIServer.monitor (take 80 (received tn)) with FCGIServer.Info => [(fd tn, info (now tn))] | _ => [] end.

Definition stop_sent (tn : turn) : bytes :=
  if fd tn =? -1 then []
  else match FCGIServer.monitor (take 80 (received tn)) with FCGIServer.Stop => lit "s" | _ => [] end.

Definition undisturbed (tn : turn) : Prop :=
  FCGIServer.stopped_ (before tn) = false /\ FCGIServer.stopped_ (now tn) = false.

(** A turn in which nobody asks for a stop, or there is a pipe to write it to. *)
Definition stoppable (tn : turn) : bool := match stop_sent tn with [] => true | _ => has_pipe tn end.

(** The connection that a turn leaves open. *)
Definition left_open (tn : turn) : list Z :=
  if negb (FCGIServer.stopped_ (before tn)) && negb (fd tn =? -1) then [fd tn] else [].

Lemma close_only m s : opened m = [] ->
  set_opened m (List.filter (fun x => negb (x =? s)) (s :: opened m)) = m.
Proof. intros E. rewrite E. cbn. rewrite Z.eqb_refl. cbn. destruct m. cbn in *. by subst. Qed.

Lemma step_goes_on tn m : undisturbed tn -> stoppable tn = true -> opened m = [] ->
  exists m', step what tn m = Some (m', Ok true) /\ opened m' = [] /\
    sent m' = sent m ++ answer tn /\ pipe m' = pipe m ++ stop_sent tn.
Proof.
  intros [Hb Hn] Hs Ho. unfold stoppable in Hs. unfold step, try_catch, connection, answer, stop_sent in *. rewrite Hb, Hn.
  destruct (fd tn =? -1) eqn:Ef.
  - rewrite bind_ret. unfold throw, report. rewrite Ef, bind_ret, !app_nil_r, Hn.
    destruct (FCGIServer.status_ (now tn)); by eexists.
  - unfold close, command, mbind, prog_bind, modify, ret, mret, prog_ret. cbn [opened set_opened].
    destruct (received tn) as [|c rest].
    + cbn [Range.empty take FCGIServer.monitor]. cbn [set_opened opened]. eexists. split; [done|]. cbn.
      by rewrite Ho, !app_nil_r, Z.eqb_refl.
    + cbn [Range.empty]. destruct (FCGIServer.monitor _); cbn in Hs; try rewrite Hs; eexists; (split; [done|]); cbn;
        by rewrite Ho, ?app_nil_r, Z.eqb_refl.
Qed.

Lemma step_undefined tn m : undisturbed tn -> stoppable tn = false ->
  exists m', step what tn m = Some (m', Undef) /\ sent m' = sent m /\ pipe m' = pipe m.
Proof.
  intros [Hb Hn] Hs. unfold stoppable in Hs. unfold step, try_catch, connection, stop_sent in *. rewrite Hb, Hn.
  destruct (fd tn =? -1); [done|]. unfold command. destruct (received tn) as [|c rest]; [done|]. cbn [Range.empty].
  destruct (FCGIServer.monitor _); [done| |done]. cbn in Hs. rewrite Hs. by eexists.
Qed.

Lemma step_ends tn m : ~ undisturbed tn -> opened m = [] ->
  exists m', step what tn m = Some (m', Ok false) /\ opened m' = left_open tn /\ sent m' = sent m /\ pipe m' = pipe m.
Proof.
  intros Hu Ho. unfold step, try_catch, connection, left_open, undisturbed in *.
  destruct (FCGIServer.stopped_ (before tn)); [by eexists|]. cbn [negb andb].
  destruct (FCGIServer.stopped_ (now tn)); [|by destruct Hu]. destruct (fd tn =? -1); eexists; (split; [done|]); cbn; by rewrite Ho.
Qed.

Lemma stoppable_false tn : stoppable tn = false -> stop_sent tn = lit "s" /\ has_pipe tn = false.
Proof. unfold stoppable, stop_sent. destruct (fd tn =? -1); [done|]. by destruct (FCGIServer.monitor _). Qed.

(** C37: the connections of the monitor. Whatever connections come, whatever they send, and however
    the server changes between and during the turns, the thread answers a connection that asks
    for information with the report of the server at that time, asks for a stop once for each
    connection that wants it, and closes every connection before it accepts the next one. It
    goes on until it sees that the server is stopped, and a connection that is accepted in the
    turn in which it sees that is the only one it leaves open, without an answer; or until a stop
    is wanted before [start] has made the pipe, which is undefined. *)
Theorem monitor_connections turns m : opened m = [] ->
  exists m' res served rest, run what turns m = Some (m', res) /\ turns = served ++ rest /\
    Forall (fun tn => undisturbed tn /\ stoppable tn = true) served /\ sent m' = sent m ++ flat_map answer served /\
    pipe m' = pipe m ++ flat_map stop_sent served /\
    match res with
    | Ok true => rest = [] /\ opened m' = []
    | Ok false => exists tn later, rest = tn :: later /\ ~ undisturbed tn /\ opened m' = left_open tn
    | Undef => exists tn later, rest = tn :: later /\ undisturbed tn /\ stop_sent tn = lit "s" /\ has_pipe tn = false
    | Throw _ => False
    end.
Proof.
  revert m. induction turns as [|tn turns IH]; intros m Ho; cbn [run].
  { exists m, (Ok true), [], []. cbn. by rewrite !app_nil_r. }
  assert (Hd : undisturbed tn \/ ~ undisturbed tn).
  { unfold undisturbed. destruct (FCGIServer.stopped_ (before tn)), (FCGIServer.stopped_ (now tn)); [right; by intros []..|by left]. }
  destruct Hd as [Hu|Hu]; [destruct (stoppable tn) eqn:Hst|].
  - destruct (step_goes_on tn m Hu Hst Ho) as (m1 & E & Ho1 & Hs1 & Hp1). rewrite (bind_ok _ _ _ _ _ E).
    destruct (IH m1 Ho1) as (m2 & res & served & rest & E2 & -> & Hf & Hs2 & Hp2 & Hend).
    exists m2, res, (tn :: served), rest. cbn. rewrite Hs2, Hs1, Hp2, Hp1, <- !app_assoc. split_and!; try done. by constructor.
  - destruct (step_undefined tn m Hu Hst) as (m1 & E & Hs1 & Hp1).
    exists m1, Undef, [], (tn :: turns). cbn. rewrite Hs1, Hp1, !app_nil_r. split; [unfold mbind, prog_bind; by rewrite E|].
    split_and!; try done. exists tn, turns. by destruct (stoppable_false tn Hst).
  - destruct (step_ends tn m Hu Ho) as (m1 & E & Ho1 & Hs1 & Hp1). rewrite (bind_ok _ _ _ _ _ E).
    exists m1, (Ok false), [], (tn :: turns). cbn. rewrite Hs1, Hp1, !app_nil_r. split_and!; try done. by exists tn, turns.
Qed.
End Facts.

(** Three connections: one asks for information, one sends nothing, and one comes while the server
    stops. *)
Section Examples.
Import Monitor.

Definition idle : FCGIServer.t := FCGIServer.create ∅.
Definition demo_turns : list turn :=
  [MkTurn idle idle false 7 0 (lit "info"); MkTurn idle idle false (-1) 4 []; MkTurn idle idle true 8 0 [];
   MkTurn idle (FCGIServer.set_stopped idle ∅) true 9 0 (lit "info"); MkTurn idle idle true 10 0 (lit "s")].

Lemma monitor_connections_witness :
  exists m, run (fun _ => lit "error") demo_turns create = Some (m, Ok false) /\
    opened m = [9] /\ sent m = [(7, info idle)] /\ pipe m = [].
Proof.
  destruct (monitor_connections (fun _ => lit "error") demo_turns create eq_refl)
    as (m & res & served & rest & E & Ht & Hf & Hs & Hp & Hend).
  assert (Hr : res = Ok false /\ opened m = [9]).
  { vm_compute in E. injection E as <- <-. split; reflexivity. }
  destruct Hr as [-> Ho]. exists m. split; [exact E|]. split; [exact Ho|].
  destruct Hend as (tn & later & -> & Hu & _).
  destruct served as [|t1 [|t2 [|t3 [|t4 served]]]]; injection Ht; intros; subst.
  - destruct Hu. split; reflexivity.
  - destruct Hu. split; reflexivity.
  - destruct Hu. split; reflexivity.
  - split; [exact Hs|exact Hp].
  - inversion Hf as [|? ? _ Hf1]; inversion Hf1 as [|? ? _ Hf2]; inversion Hf2 as [|? ? _ Hf3]; inversion Hf3 as [|? ? [[_ Hn] _] _].
    discriminate Hn.
Defined.
End Examples.
