(* ===== verification/Startup.v ===== *)
(** * Startup

    [main/main.cpp] and the constructor of [Globals] ([library/globals.cpp]): how the parts come
    together. The process changes its group and its user, becomes a daemon, reads its
    configuration, loads the libraries, makes and loads the components, selects handlers and
    filters, makes and starts the pools, and starts the server. A signal makes it stop, and when its
    threads have ended [main] destroys it. What the system answers, what libraries and components
    do, and reading the file ([XmlDocument.read], over libxml2) are arguments. *)

From stdpp Require Import sorting.
From S2P Require Import Prelude Cxx Except OrdMap Handlers Program Loader Components Config Xml ThreadPool Server Daemon.

Module Startup.

(** The members of [Globals] besides the loader and the components, which are in the process. *)
Record Globals {R : Type} := MkGlobals {
  handlerSet_ : HandlerSet.t R;
  logger_ : nat;
  pools_ : gmap bytes Server.RequestsThreadPool
}.
Arguments Globals : clear implicits.

(** The components as others find them, once all are loaded. *)
Definition found (is_Handler is_Filter : nat -> bool) (s : ComponentSet.t) : ComponentSet :=
  MkComponents (fun name => ComponentSet.component <$> ComponentSet.container s name) is_Handler is_Filter.

(** What happens to the components: [onLoad] and [onUnload] succeed or are called, the server stops its
    session manager, and the libraries, in which their code is, are closed. *)
Inductive event := Loaded (name : bytes) | Unloaded (name : bytes) | ManagerStopped (manager : nat) | Closed.

(** ** The process *)

Section Process.
Context {R : Type} {RE : Regex R}.

(** The calls of the system, with the text of its errors. [name_to_uid] and [name_to_gid] are over [getpwnam_r] and [getgrnam_r]
    with the size of their buffers, and [seteuid] and [setegid] tell whether they succeed. [logger_outlives]
    tells whether a reference to the logger can still be let go of when the libraries are closed: not
    when it is the last one and the destructor is in one of them. *)
Record System := MkSystem {
  sysconf_pw : Z;
  getpwnam : bytes -> option Z;
  sysconf_gr : Z;
  getgrnam : bytes -> option Z;
  seteuid : Z -> Z -> bool;
  setegid : Z -> Z -> bool;
  getrlimit : option Z;
  fork1 : Z;
  setsid : Z;
  fork2 : Z;
  errno_text : bytes;
  null_fds : Z * Z * Z;
  opens : bytes -> bool;
  getpid : Z;
  signal : Z -> bool;
  read_config : bytes -> result Config;
  logger_outlives : bool;
  system_text : Z -> bytes
}.

(** What the process has become. [printed] and [errors] are what went to its outputs, whatever their
    buffers; [current] tells that [::server] points to the server, and [pipes] is what waits in the
    pipe for the stop thread, once there is one. The pools of the server are those of [globals],
    which stay as they were when the server was made. [trace] is what has happened to the
    components. *)
Record process := MkProcess {
  euid : Z;
  egid : Z;
  daemon : bool;
  printed : list bytes;
  errors : list bytes;
  files : list (bytes * bytes);
  loader : Loader.t;
  components : ComponentSet.t;
  globals : option (Globals R);
  server : option FCGIServer.t;
  current : bool;
  pipes : option bytes;
  trace : list event
}.

Definition set_euid (p : process) v := MkProcess v (egid p) (daemon p) (printed p) (errors p) (files p)
  (loader p) (components p) (globals p) (server p) (current p) (pipes p) (trace p).
Definition set_egid (p : process) v := MkProcess (euid p) v (daemon p) (printed p) (errors p) (files p)
  (loader p) (components p) (globals p) (server p) (current p) (pipes p) (trace p).
Definition set_daemon (p : process) v := MkProcess (euid p) (egid p) v (printed p) (errors p) (files p)
  (loader p) (components p) (globals p) (server p) (current p) (pipes p) (trace p).
Definition set_printed (p : process) v := MkProcess (euid p) (egid p) (daemon p) v (errors p) (files p)
  (loader p) (components p) (globals p) (server p) (current p) (pipes p) (trace p).
Definition set_errors (p : process) v := MkProcess (euid p) (egid p) (daemon p) (printed p) v (files p)
  (loader p) (components p) (globals p) (server p) (current p) (pipes p) (trace p).
Definition set_files (p : process) v := MkProcess (euid p) (egid p) (daemon p) (printed p) (errors p) v
  (loader p) (components p) (globals p) (server p) (current p) (pipes p) (trace p).
Definition set_loader (p : process) v := MkProcess (euid p) (egid p) (daemon p) (printed p) (errors p)
  (files p) v (components p) (globals p) (server p) (current p) (pipes p) (trace p).
Definition set_components (p : process) v := MkProcess (euid p) (egid p) (daemon p) (printed p) (errors p)
  (files p) (loader p) v (globals p) (server p) (current p) (pipes p) (trace p).
Definition set_globals (p : process) v := MkProcess (euid p) (egid p) (daemon p) (printed p) (errors p)
  (files p) (loader p) (components p) v (server p) (current p) (pipes p) (trace p).
Definition set_server (p : process) v := MkProcess (euid p) (egid p) (daemon p) (printed p) (errors p)
  (files p) (loader p) (components p) (globals p) v (current p) (pipes p) (trace p).
Definition set_current (p : process) v := MkProcess (euid p) (egid p) (daemon p) (printed p) (errors p)
  (files p) (loader p) (components p) (globals p) (server p) v (pipes p) (trace p).
Definition set_pipes (p : process) v := MkProcess (euid p) (egid p) (daemon p) (printed p) (errors p)
  (files p) (loader p) (components p) (globals p) (server p) (current p) v (trace p).
Definition set_trace (p : process) v := MkProcess (euid p) (egid p) (daemon p) (printed p) (errors p)
  (files p) (loader p) (components p) (globals p) (server p) (current p) (pipes p) v.

Definition no_id : Z := 2 ^ 32 - 1.

Definition name_to_uid (sys : System) (name : bytes) : Z :=
  if sysconf_pw sys =? -1 then no_id else default no_id (getpwnam sys name).
Definition name_to_gid (sys : System) (name : bytes) : Z :=
  if sysconf_gr sys =? -1 then no_id else default no_id (getgrnam sys name).

(** How [main] goes on: it ends the process with a code, it goes on, or [std::terminate] is called. *)
Inductive flow := Exits (code : Z) | Continues | Terminates.

#[local] Abbreviation P := (prog process).

Definition print (line : bytes) : P unit := modify (fun p => set_printed p (printed p ++ [line])).

(** The first argument that is the option and is followed by another one. *)
Fixpoint option_value (opt : bytes) (args : list bytes) : option bytes :=
  match args with
  | a :: ((value :: _) as args') => if str_eqb a opt then Some value else option_value opt args'
  | _ => None
  end.

(** The loop for one of the two options; [%d] shows an identifier as an [int]. *)
Definition change (opt kind : bytes) (name_to : bytes -> Z) (current : process -> Z) (allowed : Z -> Z -> bool)
    (become : process -> Z -> process) (argv : list bytes) : P flow :=
  match option_value opt (tail argv) with
  | None => ret Continues
  | Some name =>
      let id := name_to name in
      let text := kind ++ lit " to '" ++ name ++ lit "'=" ++ to_string (s32 id) ++ [Byte.x0a] in
      cur ← gets current;
      if negb (cur =? id) then
        if allowed cur id then modify (fun p => become p id) ;; print (lit "Changed " ++ text) ;; ret Continues
        else print (lit "Could not change " ++ text) ;; ret (Exits 1)
      else ret Continues
  end.

Definition change_group (sys : System) : list bytes -> P flow :=
  change (lit "--group") (lit "group") (name_to_gid sys) egid (setegid sys) set_egid.
Definition change_user (sys : System) : list bytes -> P flow :=
  change (lit "--user") (lit "user") (name_to_uid sys) euid (seteuid sys) set_euid.

(** [daemonize]: the parents exit with 0; the loop over the descriptors counts in an [int]. *)
Definition daemonize (sys : System) : P (flow * bool) :=
  print (lit "Starting Fastcgi-Container as a daemon" ++ [Byte.x0a]) ;;
  match getrlimit sys with
  | None => throw (LogicError (lit "Can" ++ [Byte.xe2; Byte.x80; Byte.x99] ++ lit "t get file limit"))
  | Some rlim_max =>
      if fork1 sys =? -1 then throw (LogicError (lit "Could not become a daemon: fork #1 failed: " ++ errno_text sys))
      else if negb (fork1 sys =? 0) then ret (Exits 0, false)
      else if setsid sys =? -1 then throw (LogicError (lit "Could not become a daemon: setsid failed: " ++ errno_text sys))
      else if fork2 sys =? -1 then throw (LogicError (lit "Could not become a daemon: fork #2 failed: " ++ errno_text sys))
      else if negb (fork2 sys =? 0) then ret (Exits 0, false)
      else
        let rlim_max := if rlim_max =? 2 ^ 64 - 1 then 1024 else rlim_max in
        if 2 ^ 31 <=? rlim_max then lift Undef
        else
          let '(fd0, fd1, fd2) := null_fds sys in
          if negb (fd0 =? 0) || negb (fd1 =? 1) || negb (fd2 =? 2) then ret (Continues, false)
          else modify (fun p => set_daemon p true) ;; ret (Continues, true)
  end.

Definition become_daemon (sys : System) (argv : list bytes) : P flow :=
  if existsb (str_eqb (lit "--daemon")) (tail argv) then
    r ← daemonize sys;
    match r with
    | (Continues, false) => print (lit "Could not run as daemon" ++ [Byte.x0a]) ;; ret (Exits 1)
    | (f, _) => ret f
    end
  else ret Continues.

(** [FCGIServer::writePid]: a file that cannot be opened sets the fail bit, which does not throw. *)
Definition writePid (sys : System) (config : Config) : P unit :=
  file ← lift (asString config (lit "/fastcgi/daemon/pidfile"));
  if opens sys (c_str file) then modify (fun p => set_files p (files p ++ [(c_str file, to_string (getpid sys))])) else ret tt.

Definition setUpSignalHandlers (sys : System) : P unit :=
  if negb (signal sys 2) then throw (RuntimeError (lit "Cannot set up SIGINT handler"))
  else if negb (signal sys 15) then throw (RuntimeError (lit "Cannot set up SIGTERM handler"))
  else ret tt.

(** The libraries, factories and components, as [Globals] is given them, and the system as the
    server is. *)
Context (sys : System) (libraries : Loader.System) (createComponent : nat -> bytes -> result nat)
  (lookups : Config -> bytes -> list bytes) (onLoad : bytes -> list bool -> option exn) (onUnload : bytes -> option exn)
  (is_Handler is_Filter is_Logger : nat -> bool).
Context (SOMAXCONN : Z) (monitor : FCGIServer.MonitorSystem) (FCGX_Init : result unit) (sockets : Endpoint.System)
  (stop_pipes : result unit) (is_RequestCache is_ResponseTimeStatistics is_SessionManager : nat -> bool).

Definition on_server (f : prog FCGIServer.t unit) : P unit := fun p =>
  match server p with
  | Some s =>
      match f s with
      | Some (s, res) => Some (set_server p (Some s), res)
      | None => None
      end
  | None => Some (p, Undef)
  end.

(** The thread objects of the server, once they are created: nothing joins or detaches them, and
    destroying one that is still joinable terminates the program. *)
Definition globalPool (s : FCGIServer.t) : Z :=
  match FCGIServer.status_ s with
  | FCGIServer.RUNNING => foldr Z.add 0 (map Endpoint.threads_ (FCGIServer.endpoints_ s))
  | _ => 0
  end.

(** *** [Globals] *)

Definition add_events (p : process) (l : list event) : process := set_trace p (trace p ++ l).

Definition init_components (config : Config) : P unit :=
  l ← gets loader;
  finally
    (zoom components set_components
      (ComponentSet.init (lookups config) onLoad (Exceptions.what (system_text sys)) config (Loader.findComponentFactory l) createComponent))
    (fun p => add_events p (map Loaded (ComponentSet.loadingStack_ (components p)))).

Definition construct (config : Config) : P (HandlerSet.t R * nat) :=
  zoom loader set_loader (Loader.init libraries config) ;;
  init_components config ;;
  cs ← gets (fun p => found is_Handler is_Filter (components p));
  hs ← lift (HandlerSet.init config cs HandlerSet.create);
  logger ← lift (Globals.initLogger config cs is_Logger);
  ret (hs, logger).

(** [pools_] is the last member to go, and libstdc++ destroys its pools from the last to the first. Each
    lets go of the logger, and then [~ThreadPool] stops it and joins its threads. Those have been
    joined before by [FCGIServer::join], and joining them again throws out of the
    destructor, which terminates the program. *)
Fixpoint destroy_pools (pools : list Server.RequestsThreadPool) : result flow :=
  match pools with
  | [] => Ok Continues
  | rp :: pools' =>
      if match pools' with [] => negb (logger_outlives sys) | _ => false end then Undef
      else match ThreadPool.threads_ (Server.pool_ rp) with
           | [] => destroy_pools pools'
           | _ => Ok Terminates
           end
  end.

Definition from_the_last (pools : gmap bytes Server.RequestsThreadPool) : list Server.RequestsThreadPool :=
  reverse (omap (fun name => pools !! name) (Globals.in_order (dom pools))).

(** The members go in the reverse order: the components are unloaded, which only writes about the
    exceptions, then the libraries are closed, and then the pools, as they are now, are destroyed. *)
Definition destroy_globals (pools : gmap bytes Server.RequestsThreadPool) : P flow :=
  cs ← gets components;
  told ← lift (ComponentSet.sendOnUnloadToComponents (Exceptions.what (system_text sys)) onUnload cs);
  modify (fun p => set_errors p (errors p ++ told.2)) ;;
  modify (fun p => add_events p (map Unloaded told.1)) ;;
  modify (fun p => set_components p ComponentSet.create) ;;
  modify (fun p => set_loader p (Loader.destroy (loader p))) ;;
  modify (fun p => set_globals (add_events p [Closed]) None) ;;
  lift (destroy_pools (from_the_last pools)).

(** A constructor that throws destroys the members that are made; pools among them have not been
    started, so that they have no threads. *)
Definition Globals_create (config : Config) : P (Globals R) :=
  members ← try_catch (construct config) (fun e => destroy_globals ∅ ;; throw e);
  let '(pools, made) := Globals.initPools config members.1 in
  match made with
  | Ok _ => ret (MkGlobals R members.1 members.2 (Globals.startThreadPools pools))
  | Throw e => destroy_globals pools ;; throw e
  | Undef => lift Undef
  end.

(** The server is destroyed and then [Globals]; [::server] keeps its value. The destructor of the
    server stops the session manager and closes the pipes, whose descriptors have no value before
    they are made. *)
Definition destroy_server (s : FCGIServer.t) : P bool :=
  modify (fun p => add_events p (match FCGIServer.sessionManager_ s with Some m => [ManagerStopped m] | None => [] end)) ;;
  pipe ← gets pipes;
  match pipe with
  | None => lift Undef
  | Some _ =>
      if 0 <? globalPool s then ret true else modify (fun p => set_server p None) ;; ret false
  end.

Definition unwind : P flow :=
  s ← gets server;
  terminates ← match s with Some s => destroy_server s | None => ret false end;
  if terminates : bool then ret Terminates
  else
    g ← gets globals;
    match g with
    | Some g => destroy_globals (match s with Some s => FCGIServer.pools_ s | None => pools_ g end)
    | None => ret Continues
    end.

(** [main] from the construction of [Globals] to the start of the server. *)
Definition serve (config : Config) : P unit :=
  g ← Globals_create config;
  modify (fun p => set_globals p (Some g)) ;;
  modify (fun p => set_server p (Some (FCGIServer.create (pools_ g)))) ;;
  modify (fun p => set_current p true) ;;
  setUpSignalHandlers sys ;;
  cs ← gets (fun p => found is_Handler is_Filter (components p));
  on_server (FCGIServer.start SOMAXCONN monitor FCGX_Init sockets stop_pipes
               is_RequestCache is_ResponseTimeStatistics is_SessionManager config cs) ;;
  modify (fun p => set_pipes p (Some [])).

(** An exception destroys what was made, and then the [catch] reports it. *)
Definition report (e : exn) : P flow :=
  if is_std e then
    f ← unwind;
    match f with
    | Terminates => ret Terminates
    | _ => modify (fun p => set_errors p (errors p ++ [Exceptions.what (system_text sys) e ++ [Byte.x0a]])) ;; ret (Exits 1)
    end
  else ret Terminates.

(** Steps that may end the process. *)
Definition and_then (first second : P flow) : P flow :=
  f ← first; match f with Continues => second | f => ret f end.

(** [main], up to the call of [server.join]; *)
Definition main (argv : list bytes) : P flow :=
  try_catch
    (and_then (change_group sys argv)
      (and_then (change_user sys argv)
        (and_then (become_daemon sys argv)
          (args ← lift (XmlConfig.create_args argv);
           config ← lift (read_config sys args.1);
           writePid sys config ;;
           serve config ;;
           ret Continues))))
    report.

(** and from its return: [return EXIT_SUCCESS] destroys the server and [Globals]. *)
Definition main_end : P flow := and_then unwind (ret (Exits 0)).

(** [signalHandler], and [FCGIServer::stop], which writes to the pipe whether or not there is one. *)
Definition signalHandler (signo : Z) : P unit :=
  current ← gets current;
  if ((signo =? 2) || (signo =? 15)) && current then
    pipe ← gets pipes;
    match pipe with
    | Some pending => modify (fun p => set_pipes p (Some (pending ++ lit "s")))
    | None => lift Undef
    end
  else ret tt.

(** [stopThreadFunction] waits until it reads an s. *)
Fixpoint read_stop (pending : bytes) : P unit :=
  match pending with
  | [] => fun _ => None
  | c :: pending' =>
      modify (fun p => set_pipes p (Some pending')) ;;
      if beqb c "s"%byte then on_server FCGIServer.stopInternal else read_stop pending'
  end.

Definition stopThreadFunction : P unit :=
  pipe ← gets pipes; read_stop (default [] pipe).
End Process.
Arguments process : clear implicits.
End Startup.

(** ** The start *)

Section Facts.
Import Startup.
Context {R : Type} {RE : Regex R}.
Context (sys : System) (libraries : Loader.System) (createComponent : nat -> bytes -> result nat)
  (lookups : Config -> bytes -> list bytes) (onLoad : bytes -> list bool -> option exn) (onUnload : bytes -> option exn)
  (is_Handler is_Filter is_Logger : nat -> bool).
Context (SOMAXCONN : Z) (monitor : FCGIServer.MonitorSystem) (FCGX_Init : result unit) (sockets : Endpoint.System)
  (stop_pipes : result unit) (is_RequestCache is_ResponseTimeStatistics is_SessionManager : nat -> bool).
Implicit Types p : process R.

#[local] Abbreviation create_globals := (Globals_create (RE := RE) sys libraries createComponent lookups onLoad onUnload
  is_Handler is_Filter is_Logger).
#[local] Abbreviation start := (FCGIServer.start SOMAXCONN monitor FCGX_Init sockets stop_pipes
  is_RequestCache is_ResponseTimeStatistics is_SessionManager).

(** A process in which the program's own parts are as they were, *)
Definition same_parts p p' : Prop :=
  loader p' = loader p /\ components p' = components p /\ globals p' = globals p /\ server p' = server p /\
  current p' = current p /\ pipes p' = pipes p /\ trace p' = trace p.

(** and one that is the same for the system. *)
Definition same_identity p p' : Prop := euid p' = euid p /\ egid p' = egid p /\ daemon p' = daemon p.

#[local] Instance same_parts_pre : PreOrder same_parts.
Proof. split; [intros p; by split_and!|]. intros p q r (?&?&?&?&?&?&?) (?&?&?&?&?&?&?). split_and!; congruence. Qed.

#[local] Instance same_identity_pre : PreOrder same_identity.
Proof. split; [intros p; by split_and!|]. intros p q r (?&?&?) (?&?&?). split_and!; congruence. Qed.

(** *** [Globals] *)

(** A process whose parts have not been made. *)
Definition bare p : Prop :=
  loader p = Loader.create /\ components p = ComponentSet.create /\ globals p = None /\ server p = None /\ pipes p = None.

(** The components of the process: each of them that was loaded was loaded once, and can be found. *)
Definition components_ok p : Prop :=
  NoDup (ComponentSet.loadingStack_ (components p)) /\
  forall x, x ∈ ComponentSet.loadingStack_ (components p) -> is_Some (ComponentSet.container (components p) x).

Definition loads_of p : list event := map Loaded (ComponentSet.loadingStack_ (components p)).
Definition unloads_of p : list event := map Unloaded (ComponentSet.loadingStack_ (components p)).

(** The members of the constructor besides the pools. *)
Definition members_ok (config : Config) p (members : HandlerSet.t R * nat) : Prop :=
  (forall name, is_Some (ComponentSet.container (components p) name) -> ComponentSet.isComponentLoaded (components p) name = true) /\
  HandlerSet.init config (found is_Handler is_Filter (components p)) HandlerSet.create = Ok members.1 /\
  Globals.initLogger config (found is_Handler is_Filter (components p)) is_Logger = Ok members.2.

(** What the constructor promises of its members. *)
Record globals_ok (config : Config) p (g : Globals R) : Prop := {
  all_loaded : forall name, is_Some (ComponentSet.container (components p) name) ->
    ComponentSet.isComponentLoaded (components p) name = true;
  handlers_found : HandlerSet.init config (found is_Handler is_Filter (components p)) HandlerSet.create = Ok (handlerSet_ g);
  logger_found : Globals.initLogger config (found is_Handler is_Filter (components p)) is_Logger = Ok (logger_ g);
  pools_made : exists pools, Globals.initPools config (handlerSet_ g) = (pools, Ok tt) /\ pools_ g = Globals.startThreadPools pools
}.

(** What the construction leaves of the process besides the loader and the components. *)
Definition built p p' : Prop :=
  same_identity p p' /\ globals p' = globals p /\ server p' = server p /\ current p' = current p /\ pipes p' = pipes p.

Lemma init_components_spec config p :
  components p = ComponentSet.create ->
  runs (init_components (R := R) sys createComponent lookups onLoad config) p (fun p' res =>
    built p p' /\ loader p' = loader p /\ components_ok p' /\ trace p' = trace p ++ loads_of p' /\
    (res = Ok tt -> forall name, is_Some (ComponentSet.container (components p') name) ->
       ComponentSet.isComponentLoaded (components p') name = true)).
Proof.
  intros Hc. unfold init_components, runs. rewrite bind_gets.
  destruct (init_all_loaded (lookups config) onLoad (Exceptions.what (system_text sys)) config (Loader.findComponentFactory (loader p)) createComponent)
    as (s & res & E & Hok & Hin & Hall).
  unfold finally, zoom. rewrite Hc, E. eexists _, _. split; [done|].
  split; [by split_and!|]. split; [done|]. split; [by split; [apply Hok|]|]. split; [done|].
  intros Hr x Hx. apply loaded_spec. by apply Hall.
Qed.

Definition constructed p p' : Prop :=
  built p p' /\ Loader.balanced (loader p') /\ components_ok p' /\ trace p' = trace p ++ loads_of p'.

Lemma construct_spec config p :
  Loader.throws_std libraries -> bare p ->
  runs (construct (RE := RE) sys libraries createComponent lookups onLoad is_Handler is_Filter is_Logger config) p
    (fun p' res => res <> Undef -> constructed p p' /\ forall members, res = Ok members -> members_ok config p' members).
Proof.
  intros Hstd (Hl & Hc & _). unfold construct. apply runs_bind.
  destruct (init_ends libraries config (config_subKeys config (lit "/fastcgi/modules/module")) (loader p)) as [[l res] E].
  unfold runs at 1, zoom, Loader.init. rewrite E. eexists _, _. split; [done|]. rewrite Hl in E.
  assert (H0 : res <> Undef -> constructed p (set_loader p l)).
  { intros Hu. split; [by split_and!|]. split.
    - refine (proj1 (init_loads libraries config _ Loader.create l res Hstd _ _ E Hu));
        [unfold Loader.balanced; reflexivity|constructor].
    - unfold components_ok, loads_of. cbn. rewrite Hc. cbn. rewrite app_nil_r. split; [|done]. split; [constructor|].
      by intros x ?%elem_of_nil. }
  destruct res as [[]|e|]; [|intros _; by split; [apply H0|]|done]. destruct (H0 ltac:(done)) as (_ & Hb & _). clear H0.
  apply runs_bind. eapply runs_mono; [by apply init_components_spec|]. cbn beta.
  intros p' res (H1 & H2 & H3 & H4 & H5). cbn in H2, H4.
  assert (H0 : constructed p p') by (unfold constructed; by rewrite H2).
  destruct res as [[]|e|]; [|by intros _; split|done].
  unfold runs. rewrite bind_gets. set (cs := found _ _ _). unfold lift, mbind, prog_bind.
  destruct (HandlerSet.init _ _ _) as [hs|e|] eqn:Eh; [|by eexists _, _..].
  destruct (Globals.initLogger _ _ _) as [logger|e|] eqn:Elog; [|by eexists _, _..].
  eexists _, _. split; [done|]. intros _. split; [done|]. intros members [= <-]. by split; [apply H5|].
Qed.

Lemma destroy_closes l : Loader.balanced l -> Loader.opened (Loader.destroy l) = [].
Proof. unfold Loader.balanced. intros Hb. apply close_all. rewrite Hb. apply Permutation_rev. Qed.

Lemma destroy_pools_never_throw pools : (exists f, destroy_pools sys pools = Ok f) \/ destroy_pools sys pools = Undef.
Proof.
  induction pools as [|rp pools IH]; cbn [destroy_pools]; [left; by eexists|].
  destruct (match pools with [] => _ | _ => _ end); [by right|]. by destruct (ThreadPool.threads_ _); [|left; eexists].
Qed.

(** Destroying [Globals] unloads what was loaded and then closes the libraries, before it comes to the
    pools. *)
Lemma globals_destroyed p pools :
  components_ok p -> Loader.balanced (loader p) ->
  exists p', destroy_globals (R := R) sys onUnload pools p = Some (p', destroy_pools sys (from_the_last pools)) /\
    same_identity p p' /\ server p' = server p /\ pipes p' = pipes p /\ globals p' = None /\ components p' = ComponentSet.create /\
    Loader.opened (loader p') = [] /\ trace p' = trace p ++ unloads_of p ++ [Closed].
Proof.
  intros [_ Hin] Hb. unfold destroy_globals. rewrite bind_gets.
  destruct (unload_all_ok (Exceptions.what (system_text sys)) onUnload (components p) _ Hin) as [lines E].
  unfold ComponentSet.sendOnUnloadToComponents. rewrite E, (bind_ok (lift _) _ p p _ eq_refl).
  rewrite !bind_modify. eexists. split; [done|]. split_and!; try done; cbn; [by apply destroy_closes|by rewrite app_assoc].
Qed.

(** No library is open, and what was loaded has been unloaded before. *)
Definition cleaned p p' : Prop :=
  globals p' = None /\ Loader.opened (loader p') = [] /\
  exists l, NoDup l /\ trace p' = trace p ++ map Loaded l ++ map Unloaded l ++ [Closed].

(** What the constructor leaves when it throws. *)
Lemma failed_create {A} p p1 pools e :
  bare p -> constructed p p1 ->
  runs (destroy_globals (R := R) sys onUnload pools ;; (throw e : prog (process R) A)) p1 (fun p' res =>
    match res with
    | Ok _ => False
    | Throw _ => same_identity p p' /\ server p' = None /\ cleaned p p'
    | Undef => True
    end).
Proof.
  intros Hbare ((Hi & Hg & Hs & _) & Hb & Hc & Ht).
  destruct (globals_destroyed p1 pools Hc Hb) as (p2 & E2 & Hi2 & Hs2 & _ & Hg2 & _ & Ho2 & Ht2).
  unfold runs, mbind, prog_bind. rewrite E2. destruct (destroy_pools_never_throw (from_the_last pools)) as [[f ->]| ->]; [|by eexists _, _].
  exists p2, (Throw e). split; [done|]. split; [by etrans|]. split; [rewrite Hs2, Hs; apply Hbare|].
  split; [done|]. split; [done|]. exists (ComponentSet.loadingStack_ (components p1)). split; [apply Hc|].
  by rewrite Ht2, Ht, <- !app_assoc.
Qed.

Lemma create_spec config p :
  Loader.throws_std libraries -> bare p ->
  runs (create_globals config) p (fun p' res =>
    match res with
    | Ok g => constructed p p' /\ globals_ok config p' g
    | Throw _ => same_identity p p' /\ server p' = None /\ cleaned p p'
    | Undef => True
    end).
Proof.
  intros Hstd Hbare. destruct (construct_spec config p Hstd Hbare) as (p1 & res & E & H).
  unfold Globals_create. apply runs_bind. unfold runs, try_catch. rewrite E.
  destruct res as [members|e|]; [| |by exists p1, Undef].
  2: { eapply runs_mono; [apply (failed_create p p1); [done|by apply H]|]. by intros p2 [|e'|]. }
  destruct (H ltac:(done)) as [H1 H2]. specialize (H2 _ eq_refl). eexists _, _. split; [done|]. cbn beta match.
  destruct (Globals.initPools config members.1) as [pools [[]|e|]] eqn:Ep.
  - eexists _, _. split; [done|]. split; [done|]. destruct H2 as (? & ? & ?). split; cbn; [done..|by exists pools].
  - eapply runs_mono; [by apply (failed_create p p1)|]. by intros p2 [g|e'|].
  - by eexists _, _.
Qed.

(** *** The server *)

Lemma init_endpoints_ends sm os config keys : ends (FCGIServer.init_endpoints sm os config keys).
Proof. induction keys as [|c keys IH]; cbn [FCGIServer.init_endpoints]; prog_ends. Qed.

Lemma start_ends config cs : ends (start config cs).
Proof.
  unfold FCGIServer.start, FCGIServer.initMonitorThread, FCGIServer.initFastCGISubsystem, FCGIServer.initRequestCache, FCGIServer.initTimeStatistics,
    FCGIServer.initSessionManager. prog_ends. apply init_endpoints_ends.
Qed.

(** A server that has started runs, with its pools as they were. *)
Lemma start_runs config cs s s' u :
  FCGIServer.status_ s = FCGIServer.NOT_INITED -> start config cs s = Some (s', Ok u) ->
  FCGIServer.status_ s' = FCGIServer.RUNNING /\ FCGIServer.stopped_ s' = FCGIServer.stopped_ s /\
  FCGIServer.pools_ s' = FCGIServer.pools_ s /\ FCGIServer.endpoints_ s' <> [].
Proof.
  intros Es E. destruct (start_starting _ _ _ _ _ _ _ _ _ _ _ _ _ Es E) as (E1 & E2 & H).
  assert (Hr : FCGIServer.status_ s' = FCGIServer.RUNNING).
  { unfold FCGIServer.start in E. rewrite bind_gets, Es in E.
    do 8 (apply bind_inv in E as (? & ? & _ & E)). rewrite bind_modify in E.
    unfold lift in E. by injection E as <- _. }
  destruct H as [H|[_ H]]; [congruence|done].
Qed.

(** A start that fails after the server was made ends in its destructor, with pipes that have no
    value. *)
Lemma unwind_undefined p s : server p = Some s -> pipes p = None -> exists p', unwind sys onUnload p = Some (p', Undef).
Proof.
  intros Hs Hp. unfold unwind, destroy_server. rewrite bind_gets, Hs, bind_assoc, bind_modify, bind_assoc, bind_gets.
  cbn [pipes add_events set_trace]. rewrite Hp. by eexists.
Qed.

Lemma unwind_bare p : server p = None -> globals p = None -> unwind sys onUnload p = Some (p, Ok Continues).
Proof. intros Hs Hg. unfold unwind. rewrite bind_gets, Hs, bind_ret, bind_gets. by rewrite Hg. Qed.

(** *** [main] *)

(** What an exception leaves: nothing, or a server without pipes. *)
Definition unwound p p' : Prop :=
  Loader.opened (loader p') = [] /\
  (trace p' = trace p \/ exists l, NoDup l /\ trace p' = trace p ++ map Loaded l ++ map Unloaded l ++ [Closed]).
Definition nothing_left p p' : Prop := server p' = None /\ globals p' = None /\ unwound p p'.
Definition closable p p' : Prop := nothing_left p p' \/ is_Some (server p') /\ pipes p' = None.

(** A process that serves. *)
Definition serving (config : Config) p : Prop :=
  exists g s, globals p = Some g /\ server p = Some s /\ current p = true /\ pipes p = Some [] /\
    globals_ok config p g /\ Loader.balanced (loader p) /\ components_ok p /\
    FCGIServer.status_ s = FCGIServer.RUNNING /\ FCGIServer.stopped_ s = false /\
    FCGIServer.pools_ s = pools_ g /\ FCGIServer.endpoints_ s <> [].

#[local] Abbreviation serve := (serve (RE := RE) sys libraries createComponent lookups onLoad onUnload is_Handler is_Filter is_Logger
  SOMAXCONN monitor FCGX_Init sockets stop_pipes is_RequestCache is_ResponseTimeStatistics is_SessionManager).
#[local] Abbreviation main := (main (RE := RE) sys libraries createComponent lookups onLoad onUnload is_Handler is_Filter is_Logger
  SOMAXCONN monitor FCGX_Init sockets stop_pipes is_RequestCache is_ResponseTimeStatistics is_SessionManager).

Lemma signals_cases p : setUpSignalHandlers sys p = Some (p, Ok tt) \/ exists e, setUpSignalHandlers sys p = Some (p, Throw e).
Proof. unfold setUpSignalHandlers. repeat case_match; [by right; eexists..|by left]. Qed.

Lemma serve_spec config p :
  Loader.throws_std libraries -> bare p ->
  runs (serve config) p (fun p' res =>
    match res with
    | Ok _ => same_identity p p' /\ serving config p' /\ trace p' = trace p ++ loads_of p'
    | Throw _ => closable p p'
    | Undef => True
    end).
Proof.
  intros Hstd Hbare. unfold Startup.serve. apply runs_bind.
  eapply runs_mono; [by apply create_spec|]. cbn beta. intros p1 [g|e|]; [|intros (_ & Hs & Hg & Ho & Ht); left; repeat split; auto|done].
  intros [((Hi & _ & _ & _ & Hp) & Hb & Hc & Ht) Hok]. rewrite (proj2 (proj2 (proj2 (proj2 Hbare)))) in Hp.
  unfold runs. rewrite !bind_modify. set (p2 := set_current _ true). assert (Hc2 : closable p p2) by (right; split; [by eexists|done]).
  destruct (signals_cases p2) as [Es|[e Es]]; [rewrite (bind_ok _ _ _ _ _ Es), bind_gets|rewrite (bind_throw _ _ _ _ _ Es); by exists p2, (Throw e)].
  destruct (start_ends config (found is_Handler is_Filter (components p2)) (FCGIServer.create (pools_ g))) as [[s r] Er].
  assert (Eo : forall f, on_server f p2 = match f (FCGIServer.create (pools_ g)) with
    | Some (s, res) => Some (set_server p2 (Some s), res) | None => None end) by done.
  unfold mbind at 1, prog_bind at 1. rewrite Eo, Er.
  destruct r as [[]|e|]; (eexists _, _; split; [done|]); [|right; split; [by eexists|done]|done].
  destruct (start_runs _ _ (FCGIServer.create (pools_ g)) _ _ eq_refl Er) as (H1 & H2 & H3 & H4). split; [done|]. split; [|done].
  exists g, s. split; [done|]. split; [done|]. split; [done|]. split; [done|]. split; [by destruct Hok as [? ? ? ?]; split|]. split; [done|]. split; [done|]. by split_and!.
Qed.

(** The user or the group that is asked for, or the current one. *)
Definition requested (opt : bytes) (name_to : bytes -> Z) (current : process R -> Z) (argv : list bytes) p : Z :=
  match option_value opt (tail argv) with Some name => name_to name | None => current p end.

Definition asks_daemon (argv : list bytes) : bool := existsb (str_eqb (lit "--daemon")) (tail argv).

Lemma change_cases opt kind name_to current allowed become argv p :
  exists p' f, change opt kind name_to current allowed become argv p = Some (p', Ok f) /\
    (f = Exits 1 /\ (exists l, p' = set_printed p l) \/
     f = Continues /\ ((exists l, p' = set_printed (become p (requested opt name_to current argv p)) l) \/
                       p' = p /\ current p = requested opt name_to current argv p)).
Proof.
  unfold change, requested. destruct (option_value opt (tail argv)) as [name|]; [|by eexists _, _; split; [|right; split; [|right]]].
  rewrite bind_gets. destruct (current p =? name_to name) eqn:E; cbn [negb].
  - apply Z.eqb_eq in E. eexists _, _. split; [done|]. right. split; [done|]. by right.
  - destruct (allowed _ _); (eexists _, _; split; [done|]); [right|left]; (split; [done|]); [left|]; by eexists.
Qed.

Lemma group_changed argv p :
  exists p' f, change_group sys argv p = Some (p', Ok f) /\ same_parts p p' /\
    (f = Exits 1 \/ f = Continues /\ euid p' = euid p /\ daemon p' = daemon p /\
       egid p' = requested (lit "--group") (name_to_gid sys) egid argv p).
Proof.
  destruct (change_cases (lit "--group") (lit "group") (name_to_gid sys) egid (setegid sys) set_egid argv p)
    as (p' & f & E & [[-> [l ->]]|[-> [[l ->]|[-> H]]]]); eexists _, _; (split; [exact E|]); (split; [by split_and!|]);
    [by left|by right..].
Qed.

Lemma user_changed argv p :
  exists p' f, change_user sys argv p = Some (p', Ok f) /\ same_parts p p' /\
    (f = Exits 1 \/ f = Continues /\ egid p' = egid p /\ daemon p' = daemon p /\
       euid p' = requested (lit "--user") (name_to_uid sys) euid argv p).
Proof.
  destruct (change_cases (lit "--user") (lit "user") (name_to_uid sys) euid (seteuid sys) set_euid argv p)
    as (p' & f & E & [[-> [l ->]]|[-> [[l ->]|[-> H]]]]); eexists _, _; (split; [exact E|]); (split; [by split_and!|]);
    [by left|by right..].
Qed.

#[local] Ltac leaves := eexists _, _; split; [done|]; split; [by split_and!|by auto].

Lemma daemon_became argv p :
  exists p' res, become_daemon sys argv p = Some (p', res) /\ same_parts p p' /\
    match res with
    | Ok Continues => egid p' = egid p /\ euid p' = euid p /\ daemon p' = asks_daemon argv || daemon p
    | Ok (Exits code) => code = 1 \/ code = 0 /\ asks_daemon argv = true
    | Ok Terminates => False
    | _ => True
    end.
Proof.
  unfold become_daemon. fold (asks_daemon argv). destruct (asks_daemon argv); [|leaves].
  unfold daemonize, print. rewrite bind_assoc, bind_modify.
  destruct (getrlimit sys) as [limit|]; [|leaves].
  destruct (fork1 sys =? -1); [leaves|].
  destruct (negb (fork1 sys =? 0)); [leaves|].
  destruct (setsid sys =? -1); [leaves|].
  destruct (fork2 sys =? -1); [leaves|].
  destruct (negb (fork2 sys =? 0)); [leaves|].
  cbv zeta. destruct (2 ^ 31 <=? _); [leaves|].
  destruct (null_fds sys) as [[fd0 fd1] fd2]. destruct (_ || _); leaves.
Qed.

Lemma pid_written config p :
  exists p' res, writePid sys config p = Some (p', res) /\ same_parts p p' /\ same_identity p p'.
Proof.
  unfold writePid, lift, mbind, prog_bind, modify, ret, mret, prog_ret.
  repeat case_match; simplify_eq; eexists _, _; (split; [done|]); by split_and!.
Qed.

Lemma bare_same p p' : bare p -> same_parts p p' -> bare p'.
Proof. intros (?&?&?&?&?) (?&?&?&?&?&?&?). split_and!; congruence. Qed.

Lemma bare_nothing_left p p' : bare p -> same_parts p p' -> nothing_left p p'.
Proof.
  intros Hb Hs. destruct (bare_same _ _ Hb Hs) as (Hl & _ & Hg & Hsv & _). split; [done|]. split; [done|].
  split; [by rewrite Hl|]. left. apply Hs.
Qed.

(** What the process is asked to be. *)
Definition as_asked argv p p' : Prop :=
  egid p' = requested (lit "--group") (name_to_gid sys) egid argv p /\
  euid p' = requested (lit "--user") (name_to_uid sys) euid argv p /\
  daemon p' = asks_daemon argv || daemon p.

(** The end of a start that does not throw. *)
Definition started argv p p' (f : flow) : Prop :=
  match f with
  | Continues => as_asked argv p p' /\ trace p' = trace p ++ loads_of p' /\ exists file args config,
      XmlConfig.create_args argv = Ok (file, args) /\ read_config sys file = Ok config /\ serving config p'
  | Exits code => nothing_left p p' /\ (code = 1 \/ code = 0 /\ asks_daemon argv = true)
  | Terminates => True
  end.

Lemma closable_from p p1 p' : same_parts p p1 -> closable p1 p' -> closable p p'.
Proof. intros (_&_&_&_&_&_&Ht). unfold closable, nothing_left, unwound. by rewrite Ht. Qed.

(** The rest of [main], once the process is as asked. *)
Lemma configured_spec argv p p1 :
  Loader.throws_std libraries -> bare p -> same_parts p p1 -> as_asked argv p p1 ->
  runs (args ← lift (XmlConfig.create_args argv); config ← lift (read_config sys args.1);
        writePid sys config ;; serve config ;; ret Continues) p1
    (fun p' res => match res with Ok f => started argv p p' f | Throw _ => closable p p' | Undef => True end).
Proof.
  intros Hstd Hb S1 Ha. assert (Hc : closable p p1) by (left; by apply bare_nothing_left).
  apply runs_bind. exists p1, (XmlConfig.create_args argv). split; [done|].
  destruct (XmlConfig.create_args argv) as [[file args]|e|] eqn:Ea; [|done..].
  apply runs_bind. exists p1, (read_config sys file). split; [done|].
  destruct (read_config sys file) as [config|e|] eqn:Er; [|done..].
  apply runs_bind. destruct (pid_written config p1) as (p2 & res & E & Hs & Hi). exists p2, res. split; [exact E|].
  pose proof (transitivity S1 Hs) as S2. pose proof (bare_same _ _ Hb S2) as Hb2.
  destruct res as [[]|e|]; [|left; by apply bare_nothing_left|done].
  apply runs_bind. eapply runs_mono; [by apply serve_spec|]. cbn beta. intros p3 [[]|e|]; [|by apply closable_from|done].
  intros (Hi2 & H3 & Ht). exists p3, (Ok Continues). split; [done|].
  split; [|split; [rewrite Ht; f_equal; apply S2|by exists file, args, config]].
  destruct Ha as (?&?&?), Hi as (?&?&?), Hi2 as (?&?&?). split_and!; congruence.
Qed.

Lemma main_body argv p :
  Loader.throws_std libraries -> bare p ->
  runs (and_then (change_group sys argv) (and_then (change_user sys argv) (and_then (become_daemon sys argv)
    (args ← lift (XmlConfig.create_args argv); config ← lift (read_config sys args.1);
     writePid sys config ;; serve config ;; ret Continues)))) p
    (fun p' res => match res with Ok f => started argv p p' f | Throw _ => closable p p' | Undef => True end).
Proof.
  intros Hstd Hb. unfold and_then. apply runs_bind.
  destruct (group_changed argv p) as (p1 & f & E & S1 & H1). exists p1, (Ok f). split; [exact E|].
  destruct H1 as [->|(-> & U1 & D1 & G1)];
    [eexists _, _; split; [done|]; split; [by apply bare_nothing_left|by left]|].
  apply runs_bind. destruct (user_changed argv p1) as (p2 & f & E2 & S2 & H2). exists p2, (Ok f). split; [exact E2|].
  pose proof (transitivity S1 S2) as S12.
  destruct H2 as [->|(-> & G2 & D2 & U2)];
    [eexists _, _; split; [done|]; split; [by apply bare_nothing_left|by left]|].
  apply runs_bind. destruct (daemon_became argv p2) as (p3 & res & E3 & S3 & H3). exists p3, res. split; [exact E3|].
  pose proof (transitivity S12 S3) as S13.
  destruct res as [[code| |]|e|];
    [eexists _, _; split; [done|]; split; [by apply bare_nothing_left|done]| |done|left; by apply bare_nothing_left|done].
  destruct H3 as (G3 & U3 & D3). apply configured_spec; [done..|]. unfold as_asked.
  rewrite G3, U3, D3, G2, D2, U2, G1, D1. split_and!; try done. unfold requested. by rewrite U1.
Qed.

Lemma main_spec argv p :
  Loader.throws_std libraries -> bare p ->
  runs (main argv) p (fun p' res => match res with Ok f => started argv p p' f | Throw _ => False | Undef => True end).
Proof.
  intros Hstd Hb. destruct (main_body argv p Hstd Hb) as (p1 & res & E & H). unfold Startup.main, runs, try_catch. rewrite E.
  destruct res as [f|e|]; [by exists p1, (Ok f)| |by exists p1, Undef].
  unfold report. destruct (is_std e); [|by eexists _, _].
  destruct H as [H|[[s Hs] Hp]].
  - pose proof H as (Hs & Hg & _). rewrite (bind_ok _ _ _ _ _ (unwind_bare p1 Hs Hg)), bind_modify.
    eexists _, _. split; [done|]. split; [exact H|by left].
  - destruct (unwind_undefined p1 s Hs Hp) as [p2 E2]. exists p2, Undef. split; [|done]. unfold mbind, prog_bind. by rewrite E2.
Qed.

Lemma pools_start (pools : gmap bytes Server.RequestsThreadPool) n rp :
  Globals.startThreadPools pools !! n = Some rp -> pool_started rp = true.
Proof.
  unfold Globals.startThreadPools. rewrite lookup_fmap, fmap_Some. intros (rp' & _ & ->).
  unfold pool_started, Globals.start_pool, ThreadPool.start. cbn. by case_match.
Qed.

(** Every handler of the configuration has a pool that takes tasks. *)
Lemma handlers_served config p g d :
  globals_ok config p g -> d ∈ HandlerSet.handlers_ (handlerSet_ g) ->
  Forall (fun c => is_Handler c = true) (HandlerSet.handlers d) /\
  exists rp, pools_ g !! HandlerSet.poolName d = Some rp /\ pool_started rp = true.
Proof.
  intros [_ Hh _ (pools & Hp & E)] Hd. destruct (init_spec _ _ _ Hh) as (_ & _ & Hok & _).
  rewrite Forall_forall in Hok. split; [by apply Hok|].
  destruct (proj1 (pools_of_config config (handlerSet_ g) pools Hp (HandlerSet.poolName d))) as [rp Hrp].
  { apply pools_needed_spec. right. by exists d. }
  exists rp. rewrite E. split; [done|]. by eapply pools_start.
Qed.

Lemma logger_is_logger config cs c : Globals.initLogger config cs is_Logger = Ok c -> is_Logger c = true.
Proof.
  unfold Globals.initLogger. destruct (asString _ _) as [n| |]; [|done..]. cbn [mbind result_bind].
  destruct (components_find cs n) as [c'|]; [|done]. destruct (is_Logger c') eqn:E; [|done]. by intros [= <-].
Qed.

(** C16: [main] either serves or leaves nothing behind. It always reaches an end. When it reaches
    [server.join], the process has the group and the user it was asked to have and is a daemon
    if it was asked to be one; the components of its configuration are all loaded, each was told
    so once and none was told anything else, the logger is a logger, every handler in the tables is
    a handler whose pool takes tasks, and the server runs with an end point. When it exits
    instead, with a failure or as the parent of a daemon, there is no server, and either no
    component was loaded or those that were have been unloaded, in the same order, before all the
    libraries were closed. (What fails once the server has been made is undefined: its
    destructor closes pipes that do not exist.) *)
Theorem main_serves argv p :
  Loader.throws_std libraries -> bare p ->
  runs (main argv) p (fun p' res =>
    (forall e, res <> Throw e) /\
    (forall code, res = Ok (Exits code) -> server p' = None /\ globals p' = None /\ Loader.opened (loader p') = [] /\
       (trace p' = trace p \/ exists l, NoDup l /\ trace p' = trace p ++ map Loaded l ++ map Unloaded l ++ [Closed]) /\
       (code = 1 \/ code = 0 /\ asks_daemon argv = true)) /\
    (res = Ok Continues -> as_asked argv p p' /\ exists file args config g s,
       XmlConfig.create_args argv = Ok (file, args) /\ read_config sys file = Ok config /\
       globals p' = Some g /\ server p' = Some s /\
       (forall name, is_Some (ComponentSet.container (components p') name) <-> Loaded name ∈ drop (length (trace p)) (trace p')) /\
       NoDup (drop (length (trace p)) (trace p')) /\
       is_Logger (logger_ g) = true /\
       (forall d, d ∈ HandlerSet.handlers_ (handlerSet_ g) ->
          Forall (fun c => is_Handler c = true) (HandlerSet.handlers d) /\
          exists rp, FCGIServer.pools_ s !! HandlerSet.poolName d = Some rp /\ pool_started rp = true) /\
       FCGIServer.status_ s = FCGIServer.RUNNING /\ FCGIServer.stopped_ s = false /\ FCGIServer.endpoints_ s <> [])).
Proof.
  intros Hstd Hb. eapply runs_mono; [by apply main_spec|]. cbn beta. intros p' res H.
  split; [by intros e ->|]. split; [intros code ->; destruct H as [(?&?&?&?) ?]; by repeat (split; [done|])|]. intros ->.
  destruct H as (Ha & Ht & file & args & config & E1 & E2 & g & s & Hg & Hs & _ & _ & Hok & _ & [Hnd Hin] & Hr & Hns & Hp & He).
  split; [done|]. exists file, args, config, g, s. pose proof Hok as [Hl _ Hlog _].
  rewrite Ht, drop_app_length. unfold loads_of. split; [done|]. split; [done|]. split; [done|]. split; [done|]. split.
  { intros name. rewrite list_elem_of_fmap. split; [|intros (x & [= ->] & Hx); by apply Hin].
    intros Hx. exists name. split; [done|]. apply loaded_spec. by apply Hl. }
  split; [apply NoDup_fmap; [|done]; by intros ?? [=]|].
  split; [by eapply logger_is_logger|]. split; [|done]. intros d Hd. rewrite Hp. by apply (handlers_served config p').
Qed.

(** *** The stop *)

Lemma life_running s s' : FCGIServer.status_ s = FCGIServer.RUNNING -> life s s' ->
  FCGIServer.status_ s' = FCGIServer.RUNNING /\ FCGIServer.endpoints_ s' = FCGIServer.endpoints_ s.
Proof.
  intros Hr [sm ms fi os sp c1 c2 c3 config cs res H|res H|n rp e q obs Hn He1 He2 Hq ->]; [| |done].
  - unfold FCGIServer.start in H. rewrite bind_gets, Hr in H. by injection H as <- _.
  - unfold FCGIServer.stopInternal in H. rewrite bind_gets, Hr, bind_gets in H. by destruct (FCGIServer.stopped_ s); injection H as <- _.
Qed.

Lemma lives_running s s' : FCGIServer.status_ s = FCGIServer.RUNNING -> rtc life s s' -> globalPool s' = globalPool s.
Proof.
  intros Hr H. revert Hr. induction H as [|s1 s2 s3 H12 _ IH]; intros Hr; [done|].
  destruct (life_running _ _ Hr H12) as [Hr2 He]. rewrite (IH Hr2). unfold globalPool. by rewrite Hr, Hr2, He.
Qed.

(** The number of threads of a pool stays as it was when it was started. *)
Definition threads_of (pools : gmap bytes Server.RequestsThreadPool) : gmap bytes nat :=
  (fun rp => length (ThreadPool.threads_ (Server.pool_ rp))) <$> pools.

Lemma step_threads {T} (q q' : ThreadPool.t T) e obs :
  e <> ThreadPool.EStart -> ThreadPool.step q e = Some (q', obs) ->
  length (ThreadPool.threads_ q') = length (ThreadPool.threads_ q).
Proof.
  intros He. destruct e as [| |task|i| |i|i|i|i ok]; cbn [ThreadPool.step]; try done; unfold ThreadPool.addTask, ThreadPool.lock, ThreadPool.next_task;
    repeat case_match; intros; simplify_eq; cbn; by rewrite ?length_map, ?length_insert.
Qed.

Lemma stop_threads pools : threads_of (Globals.stopThreadPools pools) = threads_of pools.
Proof.
  unfold threads_of, Globals.stopThreadPools. rewrite <- map_fmap_compose. apply map_fmap_ext.
  intros n rp _. cbn. apply length_map.
Qed.

Lemma life_threads s s' : FCGIServer.status_ s = FCGIServer.RUNNING -> life s s' ->
  threads_of (FCGIServer.pools_ s') = threads_of (FCGIServer.pools_ s).
Proof.
  intros Hr [sm ms fi os sp c1 c2 c3 config cs res H|res H|n rp e q obs Hn He1 He2 Hq ->].
  - unfold FCGIServer.start in H. rewrite bind_gets, Hr in H. by injection H as <- _.
  - unfold FCGIServer.stopInternal in H. rewrite bind_gets, Hr, bind_gets in H.
    destruct (FCGIServer.stopped_ s); injection H as <- _; [done|]. apply stop_threads.
  - unfold threads_of. cbn. rewrite fmap_insert. cbn. rewrite (step_threads _ _ _ _ He1 Hq). apply insert_id. by rewrite lookup_fmap, Hn.
Qed.

Lemma lives_threads s s' : FCGIServer.status_ s = FCGIServer.RUNNING -> rtc life s s' ->
  threads_of (FCGIServer.pools_ s') = threads_of (FCGIServer.pools_ s).
Proof.
  intros Hr H. revert Hr. induction H as [|s1 s2 s3 H12 _ IH]; intros Hr; [done|].
  destruct (life_running _ _ Hr H12) as [Hr2 _]. rewrite (IH Hr2). by apply life_threads.
Qed.

Lemma elem_of_from_the_last pools rp : rp ∈ from_the_last pools <-> exists n, pools !! n = Some rp.
Proof.
  unfold from_the_last, Globals.in_order. rewrite elem_of_reverse, list_elem_of_omap.
  setoid_rewrite merge_sort_Permutation. setoid_rewrite elem_of_elements. setoid_rewrite elem_of_dom.
  split; [by intros (n & _ & H); exists n|]. intros [n H]. exists n. by split; [rewrite H|].
Qed.

(** Which of the pools have threads decides how destroying them ends. *)
Lemma destroy_pools_spec pools :
  ((forall rp, rp ∈ pools -> ThreadPool.threads_ (Server.pool_ rp) = []) ->
     destroy_pools sys pools = if bool_decide (pools = []) || logger_outlives sys then Ok Continues else Undef) /\
  (forall rp, rp ∈ pools -> ThreadPool.threads_ (Server.pool_ rp) <> [] ->
     destroy_pools sys pools = Ok Terminates \/ logger_outlives sys = false /\ destroy_pools sys pools = Undef).
Proof.
  induction pools as [|rp pools [IH1 IH2]]; [split; [done|by intros rp ?%elem_of_nil]|]. cbn [destroy_pools]. split.
  - intros H. rewrite (H rp) by (by left). destruct pools as [|rp' pools]; [by destruct (logger_outlives sys)|].
    rewrite IH1; [done|]. intros r Hr. apply H. by right.
  - intros r Hr Ht. destruct pools as [|rp' pools].
    + apply list_elem_of_singleton in Hr as ->. destruct (logger_outlives sys); [left|by right]. by destruct (ThreadPool.threads_ _).
    + apply elem_of_cons in Hr as [->|Hr]; [left; by destruct (ThreadPool.threads_ _)|].
      destruct (ThreadPool.threads_ (Server.pool_ rp)); [by apply (IH2 r)|by left].
Qed.

(** How the process ends when the pools are the last that is left of it: only pools without threads let
    it exit with success. *)
Definition pools_end (pools : gmap bytes Server.RequestsThreadPool) (res : result flow) : Prop :=
  ((forall n rp, pools !! n = Some rp -> ThreadPool.threads_ (Server.pool_ rp) = []) ->
     res = if bool_decide (pools = ∅) || logger_outlives sys then Ok (Exits 0) else Undef) /\
  (forall n rp, pools !! n = Some rp -> ThreadPool.threads_ (Server.pool_ rp) <> [] ->
     res = Ok Terminates \/ logger_outlives sys = false /\ res = Undef).

Lemma pools_end_spec pools : pools_end pools (f ← destroy_pools sys (from_the_last pools); Ok (match f with Continues => Exits 0 | f => f end)).
Proof.
  destruct (destroy_pools_spec (from_the_last pools)) as [H1 H2]. split.
  - intros H. rewrite H1 by (intros rp [n Hn]%elem_of_from_the_last; by apply (H n)).
    replace (bool_decide (from_the_last pools = [])) with (bool_decide (pools = ∅)).
    { by destruct (bool_decide (pools = ∅) || logger_outlives sys). }
    apply bool_decide_ext. split; [by intros ->|]. intros He. apply map_eq. intros n. rewrite lookup_empty.
    destruct (pools !! n) as [rp|] eqn:E; [|done]. exfalso. apply (not_elem_of_nil rp). rewrite <- He. apply elem_of_from_the_last. by exists n.
  - intros n rp Hn Ht. destruct (H2 rp) as [E|[? E]]; [apply elem_of_from_the_last; by exists n|done|rewrite E; by left|rewrite E; by right].
Qed.

Lemma pools_end_same pools pools' res : threads_of pools' = threads_of pools -> pools_end pools' res -> pools_end pools res.
Proof.
  intros E [H1 H2].
  assert (Hl : forall n (q q' : gmap bytes Server.RequestsThreadPool) rp, threads_of q' = threads_of q -> q !! n = Some rp -> exists rp', q' !! n = Some rp' /\
    length (ThreadPool.threads_ (Server.pool_ rp')) = length (ThreadPool.threads_ (Server.pool_ rp))).
  { intros n q q' rp Eq Hn. assert (H : threads_of q' !! n = Some (length (ThreadPool.threads_ (Server.pool_ rp)))).
    { rewrite Eq. unfold threads_of. by rewrite lookup_fmap, Hn. }
    unfold threads_of in H. rewrite lookup_fmap, fmap_Some in H. destruct H as (rp' & Hr & Hx). by exists rp'. }
  split.
  - intros H. rewrite H1.
    + replace (bool_decide (pools' = ∅)) with (bool_decide (pools = ∅)); [done|]. apply bool_decide_ext.
      rewrite <- (fmap_empty_iff (fun rp => length (ThreadPool.threads_ (Server.pool_ rp))) pools).
      rewrite <- (fmap_empty_iff (fun rp => length (ThreadPool.threads_ (Server.pool_ rp))) pools'). unfold threads_of in E. by rewrite E.
    + intros n rp' Hn. destruct (Hl n _ _ _ (eq_sym E) Hn) as (rp & Hr & Hx). apply nil_length_inv. by rewrite <- Hx, (H n rp Hr).
  - intros n rp Hn Ht. destruct (Hl n _ _ _ E Hn) as (rp' & Hr & Hx). apply (H2 n rp' Hr).
    intros Hz. apply Ht, nil_length_inv. by rewrite <- Hx, Hz.
Qed.

(** [main] returns while the server has a pipe. *)
Lemma main_end_spec g p s2 n :
  globals p = Some g -> server p = Some s2 -> is_Some (pipes p) -> components_ok p -> Loader.balanced (loader p) -> globalPool s2 = n ->
  runs (main_end sys onUnload) p (fun p2 res =>
    let stops := match FCGIServer.sessionManager_ s2 with Some m => [ManagerStopped m] | None => [] end in
    if 0 <? n then res = Ok Terminates /\ trace p2 = trace p ++ stops
    else server p2 = None /\ Loader.opened (loader p2) = [] /\
      trace p2 = trace p ++ stops ++ map Unloaded (ComponentSet.loadingStack_ (components p)) ++ [Closed] /\
      pools_end (FCGIServer.pools_ s2) res).
Proof.
  intros Hg Hs [pipe Hp] Hc Hb <-. cbv zeta. set (stops := match _ with Some m => _ | None => _ end).
  unfold main_end, and_then, unwind, destroy_server, runs. rewrite bind_assoc, bind_gets, Hs, !bind_assoc, bind_modify.
  fold stops. rewrite !bind_assoc, bind_gets. cbn [pipes add_events set_trace]. rewrite Hp.
  destruct (0 <? globalPool s2); [by eexists _, _|].
  rewrite !bind_assoc, bind_modify, bind_ret, bind_assoc, bind_gets.
  change (globals (set_server _ None)) with (globals p). rewrite Hg.
  destruct (globals_destroyed (set_server (add_events p stops) None) (FCGIServer.pools_ s2) Hc Hb) as (p2 & E & _ & Hs2 & _ & _ & _ & Ho & Ht).
  pose proof (pools_end_spec (FCGIServer.pools_ s2)) as He. unfold mbind at 1, prog_bind at 1. rewrite E.
  destruct (destroy_pools_never_throw (from_the_last (FCGIServer.pools_ s2))) as [[f Ef]|Ef]; rewrite Ef in *; cbn [mbind result_bind] in He.
  - exists p2, (Ok match f with Continues => Exits 0 | f => f end). split; [by destruct f|]. rewrite Hs2, Ho, Ht. cbn. by rewrite <- app_assoc.
  - exists p2, Undef. split; [done|]. rewrite Hs2, Ho, Ht. cbn. by rewrite <- app_assoc.
Qed.

(** C31: how a process that serves ends. One of the two signals makes the stop thread stop the
    server: every pool refuses tasks from then on. When all its threads have come to their end
    and [join] has returned, whatever they did meanwhile, [main] returns; but the server still
    has the thread objects of its end points, so the end is [std::terminate], before any component
    is unloaded. Where no end point has a thread, the session manager is stopped, every component
    that was loaded is unloaded, and the libraries are closed, in this order; after that a pool
    that has threads ends the process with [std::terminate], since its destructor joins again
    what [join] has joined. Only where no pool has a thread either does the process exit with
    success. (The pools let go of the logger after the libraries are closed, which is undefined
    where they have the last reference to it and its destructor is in one of the libraries.) *)
Theorem signal_shutdown config p signo :
  serving config p -> signo = 2 \/ signo = 15 ->
  exists s p1 s1, server p = Some s /\
    (signalHandler signo ;; stopThreadFunction) p = Some (p1, Ok tt) /\ server p1 = Some s1 /\
    FCGIServer.stopped_ s1 = true /\
    (forall n rp task, FCGIServer.pools_ s1 !! n = Some rp ->
       (ThreadPool.addTask (Server.pool_ rp) task).2 = Throw (RuntimeError (lit "Thread pool is not started yet"))) /\
    forall s2, rtc life s1 s2 ->
      runs (main_end sys onUnload) (set_server p1 (Some s2)) (fun p2 res =>
        let stops := match FCGIServer.sessionManager_ s2 with Some m => [ManagerStopped m] | None => [] end in
        if 0 <? globalPool s then res = Ok Terminates /\ trace p2 = trace p ++ stops
        else server p2 = None /\ Loader.opened (loader p2) = [] /\
          trace p2 = trace p ++ stops ++ map Unloaded (ComponentSet.loadingStack_ (components p)) ++ [Closed] /\
          pools_end (FCGIServer.pools_ s) res).
Proof.
  intros (g & s & Hg & Hs & Hc & Hp & _ & Hb & Hco & Hr & Hn & _) Hsig.
  set (p0 := set_pipes p (Some [])). set (s1 := FCGIServer.set_stopped s (Globals.stopThreadPools (FCGIServer.pools_ s))).
  assert (E1 : signalHandler signo p = Some (set_pipes p (Some (lit "s")), Ok tt)).
  { unfold signalHandler, mbind, prog_bind, gets, modify. rewrite Hc. by destruct Hsig as [-> | ->]; cbn; rewrite Hp. }
  assert (E2 : FCGIServer.stopInternal s = Some (s1, Ok tt)).
  { unfold FCGIServer.stopInternal. rewrite bind_gets, Hr, bind_gets. by rewrite Hn. }
  exists s, (set_server p0 (Some s1)), s1. split; [done|]. split.
  { rewrite (bind_ok _ _ _ _ _ E1). unfold stopThreadFunction. rewrite bind_gets.
    change (on_server FCGIServer.stopInternal p0 = Some (set_server p0 (Some s1), Ok tt)). unfold on_server.
    change (server p0) with (server p). by rewrite Hs, E2. }
  split; [done|]. split; [done|]. split.
  { intros n rp task. cbn. unfold Globals.stopThreadPools. rewrite lookup_fmap, fmap_Some. by intros (rp' & _ & ->). }
  intros s2 Hl. pose proof (lives_running s1 s2 Hr Hl) as Hg2.
  eapply runs_mono; [by apply (main_end_spec g (set_server (set_server p0 (Some s1)) (Some s2)) s2 (globalPool s))|]. cbn beta zeta.
  intros p2 res H. destruct (0 <? globalPool s); [exact H|]. destruct H as (H1 & H2 & H3 & H4). split; [done|]. split; [done|]. split; [done|].
  eapply pools_end_same; [|exact H4]. rewrite (lives_threads s1 s2 Hr Hl). apply stop_threads.
Qed.
End Facts.

(** A daemon with a logger and a page, which has its own pool, run by a user with a group. *)
Section Examples.
Import Startup.

Definition demo_values : list (bytes * bytes) :=
  om_insert_all str_ltb [] (map (fun kv => (lit kv.1, lit kv.2))
    [("/fastcgi/daemon/pidfile", "${run}/site.pid"); ("/fastcgi/daemon/monitor_port", "20012");
     ("/fastcgi/daemon/endpoint[1]/port", "8080"); ("/fastcgi/daemon/endpoint[1]/threads", "2");
     ("/fastcgi/daemon[count(logger)=1]/logger/@component", "log");
     ("/fastcgi/modules/module[1]/@name", "site"); ("/fastcgi/modules/module[1]/@path", "site.so");
     ("/fastcgi/components/component[1]/@name", "log"); ("/fastcgi/components/component[1]/@type", "site:logger");
     ("/fastcgi/components/component[2]/@name", "pages"); ("/fastcgi/components/component[2]/@type", "site:pages");
     ("/fastcgi/pools/pool[1]/@name", "main"); ("/fastcgi/pools/pool[1]/@threads", "4");
     ("/fastcgi/pools/pool[1]/@queue", "20"); ("/fastcgi/pools/@default", "main");
     ("/fastcgi/handlers/handler[not(@url)][1]/component[1]/@name", "pages")]).

Definition demo_site (key : bytes) : list (option demo_node) :=
  match om_find str_ltb demo_values key with
  | Some v => [Some (DemoElement (Some v) None)]
  | None =>
      let empty := Some (DemoElement None None) in
      if str_eqb key (lit "/fastcgi/variables/variable") then [Some (DemoElement (Some (lit "/run")) (Some (lit "run")))]
      else if str_eqb key (lit "/fastcgi/components/component") then [empty; empty]
      else if existsb (str_eqb key) [lit "/fastcgi/modules/module"; lit "/fastcgi/pools/pool"; lit "/fastcgi/daemon/endpoint";
          other_key; other_key ++ lit "[1]/component"] then [empty] else []
  end.

Definition demo_xml := demo_libxml_of (fun file => if str_eqb file (lit "site.conf") then Some demo_site else None).

Definition demo_sys : System := {|
  sysconf_pw := 1024; getpwnam name := if str_eqb name (lit "www") then Some 33 else None;
  sysconf_gr := 1024; getgrnam name := if str_eqb name (lit "web") then Some 34 else None;
  seteuid := fun current _ => current =? 0; setegid := fun current _ => current =? 0;
  getrlimit := Some 1024; fork1 := 0; setsid := 7; fork2 := 0; errno_text := []; null_fds := (0, 1, 2);
  opens := fun _ => true; getpid := 42; signal := fun _ => true;
  logger_outlives := true;
  read_config := XmlDocument.read (LX := demo_xml) (str_eqb (lit "site.conf"));
  system_text := fun _ => []
|}.

Definition demo_libraries : Loader.System := Loader.MkSystem (fun _ => inl 1%nat)
  (fun _ => inl (Ok (Some [(lit "logger", 7%nat); (lit "pages", 8%nat)]))).

Definition demo_argv : list bytes :=
  [lit "fastcgi3-daemon"; lit "--user"; lit "www"; lit "--group"; lit "web"; lit "--daemon"; lit "--config=site.conf"].

Definition demo_main_on (bound : Z) (argv : list bytes) : prog (process bytes) flow :=
  main (RE := literal_regex) demo_sys demo_libraries (fun f _ => Ok f) (fun _ name => if str_eqb name (lit "pages") then [lit "log"] else [])
    (fun _ _ => None) (fun name => if str_eqb name (lit "log") then Some (RuntimeError (lit "busy")) else None)
    (fun c => bool_decide (c = 8%nat)) (fun _ => false) (fun c => bool_decide (c = 7%nat))
    4096 (FCGIServer.MkMonitor 4 (fun _ => 0) (fun _ _ => bound) (fun _ => 0) []) (Ok tt) (Endpoint.MkSystem (fun _ => 0) (fun _ => true) (fun _ _ => (5, 0)) (fun _ _ => 0) to_string) (Ok tt)
    (fun _ => true) (fun _ => true) (fun _ => true) argv.
Definition demo_main : list bytes -> prog (process bytes) flow := demo_main_on 0.

Definition root : process bytes := MkProcess 0 0 false [] [] [] Loader.create ComponentSet.create None None false None [].

Lemma demo_outcomes :
  snd <$> demo_main demo_argv root = Some (Ok Continues) /\
  snd <$> demo_main [lit "fastcgi3-daemon"; lit "--user"; lit "nobody"] root = Some (Ok (Exits 1)) /\
  snd <$> demo_main [lit "fastcgi3-daemon"; lit "--config=other.conf"] root = Some (Ok (Exits 1)).
Proof. vm_compute. split; [|split]; reflexivity. Qed.

(** The port of the monitor is taken. *)
Lemma failed_start_undefined :
  snd <$> demo_main_on (-1) demo_argv root = Some Undef.
Proof. vm_compute. reflexivity. Qed.

(** The pages look up the logger, which throws when it is unloaded. Their pool has threads, which the
    destructor joins again. *)
Lemma demo_trace :
  match demo_main demo_argv root with Some (p, _) => trace p | None => [] end = [Loaded (lit "log"); Loaded (lit "pages")] /\
  match main_end demo_sys (fun name => if str_eqb name (lit "log") then Some (RuntimeError (lit "busy")) else None)
    match demo_main demo_argv root with Some (p, _) => set_server p None | None => root end with
  | Some (p, res) => (trace p, errors p, res)
  | None => ([], [], Undef)
  end = ([Loaded (lit "log"); Loaded (lit "pages"); Unloaded (lit "log"); Unloaded (lit "pages"); Closed],
    [lit "busy" ++ [Byte.x0a]], Ok Terminates).
Proof. vm_compute. split; reflexivity. Qed.

(** The variable of the document is in the name of the file. *)
Lemma demo_pid :
  match demo_main demo_argv root with Some (p, _) => files p | None => [] end = [(lit "/run/site.pid", lit "42")].
Proof. vm_compute. reflexivity. Qed.

Lemma demo_threads :
  match demo_main demo_argv root with Some (p, _) => globalPool <$> server p | None => None end = Some 2.
Proof. vm_compute. reflexivity. Qed.

Lemma demo_std : Loader.throws_std demo_libraries.
Proof. discriminate. Qed.

Lemma root_bare : bare root.
Proof. by split_and!. Qed.

Lemma main_serves_witness :
  exists p g s, demo_main demo_argv root = Some (p, Ok Continues) /\
    egid p = 34 /\ euid p = 33 /\ daemon p = true /\ globals p = Some g /\ server p = Some s /\
    (forall d, d ∈ HandlerSet.handlers_ (handlerSet_ g) ->
       exists rp, FCGIServer.pools_ s !! HandlerSet.poolName d = Some rp /\ pool_started rp = true) /\
    FCGIServer.status_ s = FCGIServer.RUNNING.
Proof.
  pose proof (proj1 demo_outcomes) as Ho. unfold demo_main, demo_main_on in *.
  edestruct (main_serves (RE := literal_regex) demo_sys demo_libraries) as (p & res & E & _ & _ & H);
    [exact demo_std|exact root_bare|]. rewrite E in Ho. injection Ho as ->.
  destruct (H eq_refl) as ((Hgr & Hu & Hd) & file & args & config & g & s & _ & _ & Hg & Hs & _ & _ & _ & Hh & Hr & _).
  exists p, g, s. split; [exact E|]. split; [exact Hgr|]. split; [exact Hu|]. split; [exact Hd|]. split; [exact Hg|].
  split; [exact Hs|]. split; [|exact Hr]. intros d Hin. apply (Hh d Hin).
Defined.

Lemma demo_serving : exists p config, demo_main demo_argv root = Some (p, Ok Continues) /\
  serving (RE := literal_regex) (fun c => bool_decide (c = 8%nat)) (fun _ => false) (fun c => bool_decide (c = 7%nat)) config p.
Proof.
  pose proof (proj1 demo_outcomes) as Ho. unfold demo_main, demo_main_on in *.
  edestruct (main_spec (RE := literal_regex) demo_sys demo_libraries) as (p & res & E & H);
    [exact demo_std|exact root_bare|]. rewrite E in Ho. injection Ho as ->.
  destruct H as (_ & _ & file & args & config & _ & _ & Hs). exists p, config. split; [exact E|exact Hs].
Qed.

Lemma signal_shutdown_witness :
  exists p p1 s1, demo_main demo_argv root = Some (p, Ok Continues) /\
    (signalHandler 15 ;; stopThreadFunction) p = Some (p1, Ok tt) /\ server p1 = Some s1 /\
    FCGIServer.stopped_ s1 = true /\
    runs (main_end demo_sys (fun _ => None)) (set_server p1 (Some s1)) (fun _ res => res = Ok Terminates).
Proof.
  destruct demo_serving as (p & config & E & Hserving). pose proof demo_threads as Ht. rewrite E in Ht.
  destruct (signal_shutdown demo_sys (fun _ => None) _ _ _ config p 15 Hserving) as (s & p1 & s1 & Hs & E1 & Hs1 & Hst & _ & He); [right; reflexivity|].
  rewrite Hs in Ht. injection Ht as Ht. exists p, p1, s1. split; [exact E|]. split; [exact E1|]. split; [exact Hs1|].
  split; [exact Hst|]. pose proof (He s1 (rtc_refl _ _)) as Hend. rewrite Ht in Hend.
  destruct Hend as (p2 & res & E2 & Hr & _). exists p2, res. split; [exact E2|exact Hr].
Defined.
End Examples.
