(* ===== verification/Site.v ===== *)
(** * Site

    The whole program: the pools and the handlers that [main] makes ([Startup]), the requests that
    the server then dispatches to them ([Server]), and the threads of the pools that answer them
    ([Serving]). *)

From S2P Require Import Prelude Cxx OrdMap Ranges Buffer Parser Except Codec Request Session SessionManager Handlers.
From S2P Require Import Program Loader Components Config Xml Security ThreadPool Server Serving Daemon Startup.

(** ** Dispatched requests *)

Section Dispatch.
Context {V S I R : Type} {IO : IOStream S} (reads written : S -> bytes) {IOk : IOStreamOk S reads written}.
Context {DB : DataBufferImpl I} {HS : StringImpl I} {RE : Regex R}.
Context (handleRequest : nat -> prog (World V S I) unit).
Context (doFilter : nat -> prog (World V S I) unit -> prog (World V S I) unit) (hs : HandlerSet.t R).
Import Server.
Implicit Types (s : Server.t V S I) (task : Task) (r : RequestState S) (p : ThreadPool.t Task).

#[local] Abbreviation bound_to := (bound_to handleRequest doFilter hs).
#[local] Abbreviation serves := (serves handleRequest doFilter hs).
#[local] Abbreviation waits := (waits handleRequest doFilter hs).

(** A started pool whose requests wait for an answer. *)
Definition pool_ready s p : Prop :=
  (exists n q os, 0 < n /\ pool_ok n q p os) /\ ThreadPool.started (ThreadPool.info_ p) = true /\
  NoDup (map request (open_tasks p)) /\ forall task, task ∈ open_tasks p -> waits s task.

Definition ready s : Prop :=
  (forall pool, pool ∈ HandlerSet.getPoolsNeeded hs -> is_Some (pools s !! pool)) /\
  forall pool rp, pools s !! pool = Some rp -> pool_ready s (pool_ rp).

(** The request is among those that a pool has to answer. *)
Definition taken_on s (id : nat) : Prop :=
  exists pool rp, pools s !! pool = Some rp /\ id ∈ map request (open_tasks (pool_ rp)).

(** A pool that is ready answers what it has taken on. *)
Lemma ready_answers s id : ready s -> taken_on s id -> exists pool, bound_to pool (fun s' => served s' id) s.
Proof.
  intros [_ Hr] (pool & [delay p] & Hp & (task & -> & Ht)%list_elem_of_fmap). exists pool.
  destruct (Hr pool _ Hp) as ((n & q & os & Hn & Hok) & Hs & Hd & Hw). cbn [pool_] in *.
  eapply bound_to_mono; [|apply (serving_bound reads written handleRequest doFilter hs n q pool (open_tasks p) s s delay p os Hn)].
  - intros s' (Hv & _). by apply Hv.
  - split; try done; [by left|]. intros t Ht'. by apply list_elem_of_fmap_2.
Qed.

(** What a step on behalf of the request [id] does to the others: nothing. *)
Definition others (id : nat) s s' : Prop :=
  (forall q, q <> id -> requests s' !! q = requests s !! q) /\ forall q, q <> id -> taken_on s' q <-> taken_on s q.

Lemma others_trans id s1 s2 s3 : others id s1 s2 -> others id s2 s3 -> others id s1 s3.
Proof. intros [H1 H2] [H3 H4]. split; intros q Hq; [by rewrite H3, H1|by rewrite H4, H2]. Qed.

(** A change of a request that no pool has. *)
Lemma ready_only id s s' : ready s -> ~ taken_on s id -> only id s s' -> ready s' /\ others id s s' /\ ~ taken_on s' id.
Proof.
  intros [Hn Hr] Hid [Hp Ho].
  assert (Ht : forall q, taken_on s' q <-> taken_on s q) by (intros q; unfold taken_on; by rewrite Hp).
  split; [|split; [by split|by rewrite Ht]]. split; rewrite Hp; [done|]. intros pool rp Hpool.
  destruct (Hr pool rp Hpool) as (H1 & H2 & H3 & H4). split; [done|]. split; [done|]. split; [done|].
  intros task Hin. destruct (H4 task Hin) as (r & Hreq & Hrest). exists r. split; [|done].
  rewrite Ho; [done|]. intros E. apply Hid. exists pool, rp. split; [done|]. rewrite <- E. by apply list_elem_of_fmap_2.
Qed.

Lemma addTask_pool p task p' res :
  ThreadPool.addTask p task = (p', res) ->
  ThreadPool.started (ThreadPool.info_ p') = ThreadPool.started (ThreadPool.info_ p) /\
  ((res = Ok tt /\ open_tasks p' = open_tasks p ++ [task]) \/ ((exists e, res = Throw e) /\ open_tasks p' = open_tasks p)).
Proof.
  unfold ThreadPool.addTask. destruct (ThreadPool.started _) eqn:Es; cbn [negb].
  - destruct (_ <=? _); intros [= <- <-]; (split; [done|]); [right; by split; [eexists|]|left]. split; [done|].
    unfold open_tasks. cbn. by rewrite app_assoc.
  - intros [= <- <-]. split; [done|]. right. by split; [eexists|].
Qed.

(** Which pool has a request: a given one or another. *)
Definition elsewhere s pool (id : nat) : Prop :=
  exists pl rp, pl <> pool /\ pools s !! pl = Some rp /\ id ∈ map request (open_tasks (pool_ rp)).

Lemma taken_on_split s pool rp id :
  pools s !! pool = Some rp -> taken_on s id <-> id ∈ map request (open_tasks (pool_ rp)) \/ elsewhere s pool id.
Proof.
  intros Hp. split; [intros (pl & rp' & Hpl & Hin)|intros [Hin|(pl & rp' & _ & Hpl & Hin)]; [by exists pool, rp|by exists pl, rp']].
  destruct (decide (pl = pool)) as [->|Hne]; [left|right; by exists pl, rp']. rewrite Hp in Hpl. by injection Hpl as <-.
Qed.

Lemma taken_on_put s pool delay p' id :
  taken_on (put_pool s pool delay p') id <-> id ∈ map request (open_tasks p') \/ elsewhere s pool id.
Proof.
  rewrite (taken_on_split _ pool (MkRequestsPool delay p')) by (cbn; by rewrite lookup_insert_eq).
  apply or_iff_compat_l. split; intros (pl & rp' & Hne & Hpl & Hin); exists pl, rp'; (split; [done|]);
    (split; [|done]); cbn in *; by rewrite lookup_insert_ne in *.
Qed.

(** A pool that is ready with a task more. *)
Lemma pool_ready_put s pool rp p' task :
  ready s -> pools s !! pool = Some rp -> ~ taken_on s (request task) -> waits s task ->
  ThreadPool.started (ThreadPool.info_ p') = ThreadPool.started (ThreadPool.info_ (pool_ rp)) ->
  (exists n q os, 0 < n /\ pool_ok n q p' os) ->
  open_tasks p' = open_tasks (pool_ rp) ++ [task] \/ open_tasks p' = open_tasks (pool_ rp) ->
  ready (put_pool s pool (delay_ rp) p').
Proof.
  intros [Hn Hr] Hp Hid Hw Hst Hok Hopen. destruct (Hr pool rp Hp) as (_ & H2 & H3 & H4).
  split; [intros x Hx|intros x rx Hx]; cbn in *.
  - destruct (decide (x = pool)) as [->|Hne]; [rewrite lookup_insert_eq; by eexists|].
    rewrite lookup_insert_ne by done. by apply Hn.
  - apply lookup_insert_Some in Hx as [[<- <-]|[_ Hx]]; [|exact (Hr x rx Hx)]. cbn [pool_].
    split; [exact Hok|]. split; [by rewrite Hst|]. destruct Hopen as [->| ->]; [|by split].
    split.
    + rewrite map_app. apply NoDup_app. split; [done|]. split; [|apply NoDup_singleton].
      intros x Hx ->%list_elem_of_singleton. apply Hid. by exists pool, rp.
    + intros t [Hin| ->%list_elem_of_singleton]%elem_of_app; [by apply H4|done].
Qed.

(** A task that a pool takes on, or refuses. *)
Lemma addTask_ready s pool task rp r s' res :
  ready s -> pools s !! pool = Some rp -> ~ taken_on s (request task) ->
  requests s !! request task = Some r -> Request.headers_sent_ (object r) = false -> is_Some (Request.stream_ (object r)) ->
  (forall t, serves (MkTask (request task) (filters task) (handlers task) (futureHandlers task) (dispatch_ task) t) r) ->
  addTask pool task s = Some (s', res) ->
  ready s' /\ others (request task) s s' /\ requests s' = requests s /\
  (res = Ok tt /\ taken_on s' (request task) \/ (exists e, res = Throw e) /\ ~ taken_on s' (request task)).
Proof.
  intros Hr Hp Hid Hreq Hs Hio Hserves. unfold addTask. rewrite Hp.
  set (task' := MkTask _ _ _ _ _ _). destruct (ThreadPool.addTask (pool_ rp) task') as [p' res'] eqn:Ea. intros [= <- <-].
  change (set_pools s _) with (put_pool s pool (delay_ rp) p').
  destruct (addTask_pool _ _ _ _ Ea) as [Hst Hopen].
  assert (Hok : exists n q os, 0 < n /\ pool_ok n q p' os).
  { destruct (proj1 (proj2 Hr pool rp Hp)) as (n & q & os & Hn0 & Hok). exists n, q. eexists. split; [done|].
    eapply (step_ok n q _ os (ThreadPool.EAdd task') p' _ Hok). cbn [ThreadPool.step]. by rewrite Ea. }
  assert (Hin : forall x, taken_on (put_pool s pool (delay_ rp) p') x <->
    (x = request task /\ res' = Ok tt) \/ taken_on s x).
  { intros x. rewrite taken_on_put, (taken_on_split s pool rp x Hp). destruct Hopen as [[-> ->]|[[e ->] ->]].
    - rewrite map_app. change (map request [task']) with [request task]. rewrite elem_of_app, list_elem_of_singleton.
      split; [intros [[H|H]|H]|intros [[H _]|[H|H]]]; auto.
    - split; [by right|]. by intros [[_ [=]]|H]. }
  assert (Hopen' : open_tasks p' = open_tasks (pool_ rp) ++ [task'] \/ open_tasks p' = open_tasks (pool_ rp))
    by (destruct Hopen as [[_ H]|[_ H]]; auto).
  split; [apply (pool_ready_put s pool rp p' task'); try done; exists r; split; [done|split; [done|split; [done|apply Hserves]]]|].
  split; [split; [done|intros x Hx; rewrite Hin; split; [by intros [[? _]|H]|by right]]|]. split; [done|]. rewrite Hin.
  destruct Hopen as [[-> _]|[[e ->] _]]; [by left; split; [|left]|right]. split; [by eexists|]. by intros [[_ [=]]|H].
Qed.

(** What dispatching does for the request [id]: it is answered or a pool has it. *)
Definition dispatched (id : nat) s s' : Prop :=
  ready s' /\ others id s s' /\ (served s' id \/ taken_on s' id).

Lemma sendError_dispatched s id r status :
  ready s -> ~ taken_on s id -> requests s !! id = Some r -> Request.headers_sent_ (object r) = false ->
  is_Some (Request.stream_ (object r)) -> 0 <= status < 2 ^ 16 ->
  exists s', sendError id status s = Some (s', Ok tt) /\ dispatched id s s'.
Proof.
  intros Hr Hid Hreq Hs Hio Hst.
  destruct (sendError_request reads written s id r status Hreq Hs Hio Hst) as (s' & r' & E & Hl & (Hsent & _) & _).
  exists s'. split; [done|]. unfold sendError in E.
  destruct (ready_only id s s' Hr Hid) as (H1 & H2 & _); [by eapply on_request_only|]. split; [done|]. split; [done|].
  left. by exists r'.
Qed.

Lemma enqueue_dispatched s pool task rp r :
  ready s -> pools s !! pool = Some rp -> ~ taken_on s (request task) ->
  requests s !! request task = Some r -> Request.headers_sent_ (object r) = false -> is_Some (Request.stream_ (object r)) ->
  (forall t, serves (MkTask (request task) (filters task) (handlers task) (futureHandlers task) (dispatch_ task) t) r) ->
  exists s', enqueue pool task s = Some (s', Ok tt) /\ dispatched (request task) s s'.
Proof.
  intros Hr Hp Hid Hreq Hs Hio Hserves. unfold enqueue.
  assert (Hadd : exists s1 res, addTask pool task s = Some (s1, res)).
  { unfold addTask. rewrite Hp. destruct (ThreadPool.addTask _ _). by eexists _, _. }
  destruct Hadd as (s1 & res & E).
  destruct (addTask_ready s pool task rp r s1 res Hr Hp Hid Hreq Hs Hio Hserves E) as (Hr1 & Ho1 & Hq1 & [[-> Ht]|[[e ->] Ht]]).
  - exists s1. split; [by apply try_catch_ok|]. split; [done|]. split; [done|]. by right.
  - rewrite (try_catch_throw _ _ _ _ _ E).
    destruct (sendError_dispatched s1 (request task) r 503 Hr1 Ht ltac:(by rewrite Hq1) Hs Hio ltac:(lia))
      as (s2 & E2 & H1 & H2 & H3).
    rewrite (bind_ok _ _ _ _ _ E2). eexists. split; [reflexivity|]. split; [exact H1|]. split; [|exact H3].
    exact (others_trans _ _ _ _ Ho1 H2).
Qed.

(** A request that the handlers and the filters of the site are made for: it is unanswered, its
    address can be matched, and the filters and handlers it goes to end for it. *)
Definition asks s task : Prop := exists r fs handler,
  requests s !! request task = Some r /\ Request.headers_sent_ (object r) = false /\ is_Some (Request.stream_ (object r)) /\
  HandlerSet.findURIFilters hs (object r) [] = Ok fs /\ HandlerSet.findURIHandler hs (object r) = Ok handler /\
  forall pool l t d, destination hs fs handler = Some (pool, l) ->
    serves (MkTask (request task) fs l true true t) (MkRequestState (object r) (stream r) d).

Lemma handle_request_dispatched s task :
  ready s -> ~ taken_on s (request task) -> asks s task ->
  exists s', handle_request hs task s = Some (s', Ok tt) /\ dispatched (request task) s s'.
Proof.
  intros Hr Hid (r & fs & handler & Hreq & Hs & Hio & Hf & Hh & Hserves).
  unfold handle_request, dispatch. cbn [request filters handlers start_].
  pose proof (on_request_read s (request task) r (fun r : Request.t S => HandlerSet.findURIFilters hs r []) Hreq) as E1.
  pose proof (on_request_read s (request task) r (HandlerSet.findURIHandler hs) Hreq) as E2.
  cbn beta in E1. rewrite Hf in E1. rewrite Hh in E2.
  rewrite (bind_ok _ _ _ _ _ E1), (bind_ok _ _ _ _ _ E2). unfold destination in Hserves.
  set (r1 := MkRequestState (object r) (stream r) (match handler with Some d => Some (HandlerSet.id d) | None => None end)).
  set (s1 := set_requests s (alter (fun r => MkRequestState (object r) (stream r)
    (match handler with Some d => Some (HandlerSet.id d) | None => None end)) (request task) (requests s))).
  assert (Eset : setHandlerDesc (request task) handler s = Some (s1, Ok tt)) by done.
  assert (Hr1 : requests s1 !! request task = Some r1) by (cbn; by rewrite lookup_alter_eq, Hreq).
  assert (Hone : only (request task) s s1) by (split; [done|]; intros q Hq; cbn; by rewrite lookup_alter_ne).
  destruct (ready_only _ _ _ Hr Hid Hone) as (Hready1 & Ho1 & Hid1).
  assert (Hafter : forall s', dispatched (request task) s1 s' -> dispatched (request task) s s').
  { intros s' (H1 & H2 & H3). split; [done|]. split; [by eapply others_trans|done]. }
  destruct (no_handlers handler) eqn:Hn; [case_bool_decide as Hfs|]; cbn [negb andb].
  - rewrite (bind_ok _ _ _ _ _ Eset).
    destruct (sendError_dispatched s1 _ r1 404 Hready1 Hid1 Hr1 Hs Hio ltac:(lia)) as (s2 & E & H).
    exists s2. split; [|by apply Hafter]. rewrite <- E. unfold handleRequestInternal, no_handlers in *.
    destruct handler as [d|]; [|done]. by rewrite Hn.
  - destruct (proj1 Hr (HandlerSet.getDefaultPool hs)) as [rp Hrp]; [apply pools_needed_spec; by left|].
    destruct (enqueue_dispatched s _ (MkTask (request task) fs [] true true (start_ task)) rp r Hr Hrp Hid Hreq Hs Hio)
      as (s2 & E & H); [|by exists s2].
    intros t. cbn. pose proof (Hserves _ _ t (description r) eq_refl) as Hv. by destruct r.
  - destruct handler as [d|]; [|done]. cbn in Hn. rewrite (bind_ok _ _ _ _ _ Eset).
    destruct (proj1 Hready1 (HandlerSet.poolName d)) as [rp Hrp].
    { apply pools_needed_spec. right. exists d. split; [by eapply find_handler_in|done]. }
    unfold handleRequestInternal. rewrite Hn.
    destruct (enqueue_dispatched s1 _ (MkTask (request task) fs (HandlerSet.handlers d) true true (start_ task)) rp r1
      Hready1 Hrp Hid1 Hr1 Hs Hio) as (s2 & E & H); [|exists s2; split; [done|by apply Hafter]].
    intros t. by apply (Hserves (HandlerSet.poolName d)).
Qed.

Lemma asks_kept s s' task : asks s task -> requests s' !! request task = requests s !! request task -> asks s' task.
Proof. intros (r & fs & handler & Hr & H) E. exists r, fs, handler. by rewrite E. Qed.

(** Requests that are dispatched one after the other. *)
Lemma all_dispatched tasks s :
  ready s -> NoDup (map request tasks) -> (forall task, task ∈ tasks -> asks s task /\ ~ taken_on s (request task)) ->
  exists s', for_each tasks (handle_request hs) s = Some (s', Ok tt) /\ ready s' /\
    (forall id, id ∉ map request tasks -> requests s' !! id = requests s !! id /\ (taken_on s' id <-> taken_on s id)) /\
    forall task, task ∈ tasks -> served s' (request task) \/ taken_on s' (request task).
Proof.
  revert s. induction tasks as [|task tasks IH]; intros s Hr Hd Ha; cbn [for_each].
  { exists s. split; [done|]. split; [done|]. split; [done|]. by intros task ?%elem_of_nil. }
  cbn [map] in Hd. apply NoDup_cons in Hd as [Hnew Hd]. destruct (Ha task ltac:(by left)) as [Ha0 Hid0].
  destruct (handle_request_dispatched s task Hr Hid0 Ha0) as (s1 & E1 & Hr1 & [Ho1 Ht1] & Hdone).
  rewrite (bind_ok _ _ _ _ _ E1). destruct (IH s1 Hr1 Hd) as (s2 & E2 & Hr2 & Hk & Hall).
  { intros t Ht. destruct (Ha t ltac:(by right)) as [Hat Hidt].
    assert (Hne : request t <> request task) by (intros E; apply Hnew; rewrite <- E; by apply list_elem_of_fmap_2).
    split; [by eapply asks_kept; [|apply Ho1]|by rewrite Ht1]. }
  exists s2. split; [done|]. split; [done|]. split.
  - intros id. cbn [map]. rewrite not_elem_of_cons. intros [Hne Hin]. destruct (Hk id Hin) as [K1 K2].
    rewrite K1, K2. by split; [apply Ho1|apply Ht1].
  - intros t [->|Ht]%elem_of_cons; [|by apply Hall]. destruct (Hk (request task) Hnew) as [K1 K2].
    rewrite K2. destruct Hdone as [(r & Hreq & Hs)|]; [left|by right]. exists r. by rewrite K1.
Qed.
End Dispatch.

(** ** The pools that are made *)

Section Pools.
Context {R : Type}.

Lemma init_pools_made config needed keys counter pools pools' :
  Globals.init_pools config needed keys counter pools = (pools', Ok tt) ->
  forall name rp, pools' !! name = Some rp -> pools !! name = Some rp \/ exists c, rp = Globals.new_pool c.
Proof.
  revert counter pools. induction keys as [|k keys IH]; intros counter pools; cbn [Globals.init_pools].
  { intros [= <-] name rp H. by left. }
  destruct (Globals.pool_config config k) as [c| |]; [|done..].
  destruct (negb _); [done|]. destruct (_ <? _); [done|]. destruct (pools !! Globals.name c); [done|].
  intros E name rp H. destruct (IH _ _ E name rp H) as [Hp|Hc]; [|by right]. case_bool_decide; [|by left].
  apply lookup_insert_Some in Hp as [[_ <-]|[_ Hp]]; [right; by eexists|by left].
Qed.

(** A started pool of the configuration has nothing to do yet. *)
Lemma pools_idle config (hs : HandlerSet.t R) pools name rp :
  Globals.initPools config hs = (pools, Ok tt) -> Globals.startThreadPools pools !! name = Some rp ->
  (exists q, pool_ok (ThreadPool.threadsNumber (ThreadPool.info_ (Server.pool_ rp))) q (Server.pool_ rp) []) /\
  ThreadPool.started (ThreadPool.info_ (Server.pool_ rp)) = true /\ open_tasks (Server.pool_ rp) = [].
Proof.
  unfold Globals.initPools. destruct (Globals.init_pools _ _ _ _ _) as [ps [[]| |]] eqn:E; [|done..]. cbn [mbind result_bind].
  intros [= <- _].
  unfold Globals.startThreadPools. rewrite lookup_fmap, fmap_Some. intros (rp' & Hp & ->).
  destruct (init_pools_made _ _ _ _ _ _ E name rp' Hp) as [H|[c ->]]; [by rewrite lookup_empty in H|].
  cbn [Globals.start_pool Server.pool_ Globals.new_pool]. set (n := u32 (Globals.threads c)).
  assert (Hq : 0 <= u32 (Globals.queue c)) by (apply Z.mod_pos_bound; lia).
  split; [exists (u32 (Globals.queue c)); exact (pool_start_ok n _ _ [] (create_ok n _ Hq))|]. split; [done|].
  unfold open_tasks, running. cbn. rewrite app_nil_r. by induction (Z.to_nat n).
Qed.
End Pools.

(** ** The whole program *)

Section Whole.
Import Startup.
Context {V S I R : Type} {IO : IOStream S} (reads written : S -> bytes) {IOk : IOStreamOk S reads written}.
Context {DB : DataBufferImpl I} {HS : StringImpl I} {RE : Regex R}.
Context (handleRequest : nat -> prog (World V S I) unit).
Context (doFilter : nat -> prog (World V S I) unit -> prog (World V S I) unit).
Context (sys : System) (libraries : Loader.System) (createComponent : nat -> bytes -> result nat)
  (lookups : Config -> bytes -> list bytes) (onLoad : bytes -> list bool -> option exn) (onUnload : bytes -> option exn)
  (is_Handler is_Filter is_Logger : nat -> bool).
Context (SOMAXCONN : Z) (monitor : FCGIServer.MonitorSystem) (FCGX_Init : result unit) (sockets : Endpoint.System)
  (stop_pipes : result unit) (is_RequestCache is_ResponseTimeStatistics is_SessionManager : nat -> bool).
Implicit Types p : process R.

#[local] Abbreviation main := (main (RE := RE) sys libraries createComponent lookups onLoad onUnload is_Handler is_Filter is_Logger
  SOMAXCONN monitor FCGX_Init sockets stop_pipes is_RequestCache is_ResponseTimeStatistics is_SessionManager).

(** The pools of a process that serves are ready for requests. *)
Lemma serving_ready config p g srv (s : Server.t V S I) :
  serving is_Handler is_Filter is_Logger config p -> globals p = Some g -> server p = Some srv ->
  Server.pools s = FCGIServer.pools_ srv ->
  (forall name rp, FCGIServer.pools_ srv !! name = Some rp -> 0 < ThreadPool.threadsNumber (ThreadPool.info_ (Server.pool_ rp))) ->
  ready handleRequest doFilter (handlerSet_ g) s /\ forall id, ~ taken_on s id.
Proof.
  intros (g' & srv' & Hg & Hs & _ & _ & [_ _ _ (pools & Hp & Ep)] & _ & _ & _ & _ & Eq & _) Hg' Hs' Es Hn.
  rewrite Hg in Hg'. injection Hg' as ->. rewrite Hs in Hs'. injection Hs' as ->. rewrite Eq, Ep in *.
  split; [split|].
  - intros pool. rewrite Es. apply (pools_of_config _ _ _ Hp).
  - intros pool rp. rewrite Es. intros Hrp. destruct (pools_idle _ _ _ _ _ Hp Hrp) as ((q & Hok) & Hst & Ho).
    split; [eexists _, q, []; split; [by apply (Hn pool)|exact Hok]|]. split; [done|]. rewrite Ho.
    split; [constructor|]. by intros task ?%elem_of_nil.
  - intros id (pool & rp & Hrp & Hin). rewrite Es in Hrp. destruct (pools_idle _ _ _ _ _ Hp Hrp) as (_ & _ & Ho).
    rewrite Ho in Hin. by apply elem_of_nil in Hin.
Qed.

(** C13: a site answers its requests. Let [main] have come to [server.join], with at least one thread
    in every pool, and let any number of different requests arrive for which the configured
    filters and handlers end, normally or with an exception. Then the server can dispatch all of
    them, one after the other, whatever else it holds; and each of them is then answered, with an
    error page because it has no handler or its pool is full, or it is in a pool, and however the
    threads of this pool are scheduled from then on, its response is sent. *)
Theorem site_answers argv p0 p :
  Loader.throws_std libraries -> bare p0 -> main argv p0 = Some (p, Ok Continues) ->
  exists g srv, globals p = Some g /\ server p = Some srv /\
    ((forall name rp, FCGIServer.pools_ srv !! name = Some rp -> 0 < ThreadPool.threadsNumber (ThreadPool.info_ (Server.pool_ rp))) ->
     forall (s : Server.t V S I) tasks,
       Server.pools s = FCGIServer.pools_ srv -> NoDup (map Server.request tasks) ->
       (forall task, task ∈ tasks -> asks handleRequest doFilter (handlerSet_ g) s task) ->
       exists s', for_each tasks (Server.handle_request (handlerSet_ g)) s = Some (s', Ok tt) /\
         forall task, task ∈ tasks -> served s' (Server.request task) \/
           exists pool, bound_to handleRequest doFilter (handlerSet_ g) pool (fun s => served s (Server.request task)) s').
Proof.
  intros Hstd Hb E. destruct (main_spec sys libraries createComponent lookups onLoad onUnload is_Handler is_Filter is_Logger
    SOMAXCONN monitor FCGX_Init sockets stop_pipes is_RequestCache is_ResponseTimeStatistics is_SessionManager argv p0 Hstd Hb)
    as (p' & res & E' & H). rewrite E in E'. injection E' as <- <-.
  destruct H as (_ & _ & _ & _ & config & _ & _ & Hserving). pose proof Hserving as (g & srv & Hg & Hs & _).
  exists g, srv. split; [done|]. split; [done|]. intros Hn s tasks Hp Hd Ha.
  destruct (serving_ready config p g srv s Hserving Hg Hs Hp Hn) as [Hr Hnone].
  destruct (all_dispatched reads written handleRequest doFilter (handlerSet_ g) tasks s Hr Hd) as (s' & E2 & Hr' & _ & Hall).
  { intros task Ht. split; [by apply Ha|apply Hnone]. }
  exists s'. split; [done|]. intros task Ht. destruct (Hall task Ht) as [|Hin]; [by left|right].
  by apply (ready_answers reads written).
Qed.
End Whole.

(** The site of [Startup] with two requests for the same page. *)
Section Example_site.
Import Startup Server.
#[local] Existing Instance literal_regex.

(** What the site has for the page: no filter, the handler 8; and threads in its pools. *)
Definition demo_routes (p : process bytes) : result (list nat) * option (list nat) * bool :=
  match globals p, server p with
  | Some g, Some srv =>
      (HandlerSet.findURIFilters (handlerSet_ g) login_page [],
       match HandlerSet.findURIHandler (handlerSet_ g) login_page with Ok (Some d) => Some (HandlerSet.handlers d) | _ => None end,
       forallb (fun x => 0 <? ThreadPool.threadsNumber (ThreadPool.info_ (pool_ x.2))) (map_to_list (FCGIServer.pools_ srv)))
  | _, _ => (Undef, None, false)
  end.

Lemma demo_routes_known :
  match demo_main demo_argv root with Some (p, _) => demo_routes p | None => (Undef, None, false) end = (Ok [], Some [8%nat], true).
Proof. vm_compute. reflexivity. Qed.

Definition demo_requests (pools : gmap bytes RequestsThreadPool) : Server.t nat MemStream StringBuffer.t :=
  MkServer (<[1%nat := MkRequestState login_page [] None]> {[2%nat := MkRequestState login_page [] None]})
    None ∅ None ∅ [] 100 pools [].

Definition demo_tasks : list Task := [MkTask 1 [] [] false false 0; MkTask 2 [] [] false false 0].

Lemma demo_distinct : NoDup (map request demo_tasks).
Proof. apply NoDup_cons. split; [by intros ?%list_elem_of_singleton|apply NoDup_singleton]. Qed.

Lemma page_serves (hs : HandlerSet.t bytes) i t d :
  serves teapot through hs (MkTask i [] [8%nat] true true t) (MkRequestState login_page [] d).
Proof. intros s. eexists _, _. split; [reflexivity|]. split; [by eexists|]. cbn. lia. Qed.

(** A request of the page is one that the site is made for. *)
Lemma page_asks (hs : HandlerSet.t bytes) s task h :
  requests s !! request task = Some (MkRequestState login_page [] None) ->
  HandlerSet.findURIFilters hs login_page [] = Ok [] -> HandlerSet.findURIHandler hs login_page = Ok (Some h) ->
  HandlerSet.handlers h = [8%nat] -> asks teapot through hs s task.
Proof.
  intros Hr Hf Hh Hl. eexists _, [], (Some h). split; [exact Hr|]. split; [done|]. split; [by eexists|].
  split; [exact Hf|]. split; [exact Hh|]. intros pool l t d. unfold destination, no_handlers. rewrite Hl.
  intros [= _ <-]. apply page_serves.
Qed.

Lemma site_answers_witness :
  exists p g srv s', demo_main demo_argv root = Some (p, Ok Continues) /\ globals p = Some g /\ server p = Some srv /\
    for_each demo_tasks (handle_request (handlerSet_ g))
      (demo_requests (FCGIServer.pools_ srv)) = Some (s', Ok tt) /\
    (served s' 2 \/ exists pool, bound_to teapot through (handlerSet_ g) pool (fun s => served s 2) s').
Proof.
  pose proof (proj1 demo_outcomes) as Ho. pose proof demo_routes_known as Hk.
  destruct (demo_main demo_argv root) as [[p res]|] eqn:E; [|discriminate Ho]. injection Ho as ->.
  unfold demo_main, demo_main_on in E.
  edestruct (site_answers input_ output_ teapot through demo_sys demo_libraries) as (g & srv & Hg & Hs & H);
    [exact demo_std|exact root_bare|exact E|].
  unfold demo_routes in Hk. rewrite Hg, Hs in Hk. injection Hk as Hf Hh Hn.
  destruct (HandlerSet.findURIHandler (handlerSet_ g) login_page) as [[h|]|e|] eqn:Eh; try discriminate Hh.
  injection Hh as Hh. rewrite forallb_forall in Hn.
  assert (Hthreads : forall name rp, FCGIServer.pools_ srv !! name = Some rp -> 0 < ThreadPool.threadsNumber (ThreadPool.info_ (pool_ rp))).
  { intros name rp Hrp. apply Z.ltb_lt. apply (Hn (name, rp)). apply list_elem_of_In, elem_of_map_to_list, Hrp. }
  destruct (H Hthreads (demo_requests (FCGIServer.pools_ srv)) demo_tasks eq_refl demo_distinct) as (s' & E' & Ha).
  - intros task [->|[->|[]%elem_of_nil]%elem_of_cons]%elem_of_cons; apply (page_asks _ _ _ h); try assumption; reflexivity.
  - exists p, g, srv, s'. split; [reflexivity|]. split; [exact Hg|]. split; [exact Hs|]. split; [exact E'|].
    apply (Ha (MkTask 2 [] [] false false 0)). right. left.
Defined.
End Example_site.
