(* ===== verification/Statistics.v ===== *)
(** * Statistics

    [statistics/response_time_handler.cpp]: how long requests took, by handler and status. *)

From S2P Require Import Prelude Cxx OrdMap Request.

Module CounterData.

Record t := MkCounter { min_ : Z; max_ : Z; total_ : Z; hits_ : Z }.

Definition create : t := MkCounter (2 ^ 64 - 1) 0 0 0.

Definition add (c : t) (time : Z) : t :=
  MkCounter (Z.min (min_ c) time) (Z.max (max_ c) time) (u64 (total_ c + time)) (u64 (hits_ c + 1)).

Definition avg (c : t) : Z := if hits_ c =? 0 then 0 else total_ c / hits_ c.
End CounterData.

Module ResponseTimeHandler.

(** [data_]: by handler, then by status. *)
Abbreviation t := (list (bytes * list (Z * CounterData.t))).

Definition add (data : t) (handler : bytes) (status time : Z) : t :=
  let handle := default [] (om_find str_ltb data handler) in
  let handle :=
    match om_find Z.ltb handle status with
    | None => (om_insert Z.ltb handle status (CounterData.add CounterData.create time)).1
    | Some c => om_put Z.ltb handle status (CounterData.add c time)
    end in
  om_put str_ltb data handler handle.

(** [0.001 * n] with three digits after the point: [n] is far below the numbers whose thousandth
    a [double] cannot tell from its neighbours. *)
Definition digits3 (n : Z) : bytes :=
  let d := to_string n in repeat "0"%byte (3 - length d)%nat ++ d.
Definition millis (n : Z) : bytes := to_string (n / 1000) ++ lit "." ++ digits3 (n mod 1000).

Definition attr (name value : bytes) : bytes := lit " " ++ name ++ lit "=" ++ [Byte.x22] ++ value ++ [Byte.x22].

Definition counter_text (it : Z * CounterData.t) : bytes :=
  lit "<data" ++ attr (lit "status") (to_string it.1) ++ attr (lit "avg") (millis (CounterData.avg it.2)) ++
  attr (lit "min") (millis (CounterData.min_ it.2)) ++ attr (lit "max") (millis (CounterData.max_ it.2)) ++
  attr (lit "hits") (to_string (CounterData.hits_ it.2)) ++ lit "/>".

Definition handler_text (iter : bytes * list (Z * CounterData.t)) : bytes :=
  lit "<handler" ++ attr (lit "id") iter.1 ++ lit ">" ++ flat_map counter_text iter.2 ++ lit "</handler>".

Definition report (data : t) : bytes :=
  lit "<?xml" ++ attr (lit "version") (lit "1.0") ++ attr (lit "encoding") (lit "utf-8") ++ lit "?>" ++
  lit "<response-time>" ++ flat_map handler_text data ++ lit "</response-time>".

Section Handle.
Context {S : Type} {IO : IOStream S}.

(** [handleRequest] *)
Definition handleRequest (data : t) (r : Request.t S) : Request.t S * result unit :=
  match Request.setStatus r 200 with
  | Ok r => Request.write_buf r (report data)
  | Throw e => (r, Throw e)
  | Undef => (r, Undef)
  end.
End Handle.
End ResponseTimeHandler.

Section Summary.
Import CounterData ResponseTimeHandler.

#[export] Instance Zltb_swo : StrictWeakOrder Z.ltb.
Proof.
  split; intros; rewrite ?Z.ltb_lt, ?Z.ltb_ge, ?Z.ltb_irrefl in *; try lia.
Qed.

Lemma Z_keq a b : keq Z.ltb a b = true <-> a = b.
Proof. unfold keq. rewrite andb_true_iff, !negb_true_iff, !Z.ltb_ge. lia. Qed.

Lemma Z_keq_ne a b : a <> b -> keq Z.ltb a b = false.
Proof. intros H. destruct (keq Z.ltb a b) eqn:E; [|done]. by apply Z_keq in E. Qed.

Definition data_ok (data : t) : Prop :=
  sorted str_ltb data /\ Forall (fun x => sorted Z.ltb x.2) data.

Definition counter_of (data : t) (handler : bytes) (status : Z) : option CounterData.t :=
  om_find Z.ltb (default [] (om_find str_ltb data handler)) status.

Lemma handle_sorted (data : t) handler :
  data_ok data -> sorted Z.ltb (default [] (om_find str_ltb data handler)).
Proof.
  intros [_ H]. induction H as [|[k v] l Hv _ IH]; cbn; [constructor|].
  destruct (str_ltb k handler); [exact IH|]. destruct (str_ltb handler k); [constructor|exact Hv].
Qed.

Lemma put_forall (data : t) handler m :
  sorted Z.ltb m -> Forall (fun x => sorted Z.ltb x.2) data ->
  Forall (fun x => sorted Z.ltb x.2) (om_put str_ltb data handler m).
Proof.
  intros Hm. induction 1 as [|[k v] l Hv Hl IH]; cbn; [by apply Forall_singleton|].
  destruct (str_ltb k handler); [by constructor|].
  destruct (str_ltb handler k); repeat (apply Forall_cons; split; [done|]); done.
Qed.

(** One [add] changes one counter. *)
Lemma add_spec (data : t) handler status time :
  data_ok data ->
  data_ok (add data handler status time) /\
  forall h s, counter_of (add data handler status time) h s =
    if decide (h = handler /\ s = status)
    then Some (CounterData.add (default create (counter_of data handler status)) time)
    else counter_of data h s.
Proof.
  intros Hok. pose proof (handle_sorted data handler Hok) as Hs. pose proof Hok as [Hd Hall].
  unfold add. set (m := default [] (om_find str_ltb data handler)) in *.
  assert (Hcnt : counter_of data handler status = om_find Z.ltb m status) by done.
  set (m' := match om_find Z.ltb m status with None => _ | Some _ => _ end).
  assert (Hm' : sorted Z.ltb m' /\ forall s, om_find Z.ltb m' s =
    if decide (s = status) then Some (CounterData.add (default create (om_find Z.ltb m status)) time)
    else om_find Z.ltb m s).
  { unfold m'. destruct (om_find Z.ltb m status) as [c|] eqn:E; cbn [default from_option].
    - split; [by apply sorted_put|]. intros s. rewrite om_find_put by done. case_decide as Hx.
      + subst. by rewrite (proj2 (Z_keq status status) eq_refl).
      + by rewrite Z_keq_ne by congruence.
    - rewrite om_insert_spec, E. cbn [fst]. split; [by apply sorted_put|]. intros s.
      rewrite om_find_put by done. case_decide as Hx.
      + subst. by rewrite (proj2 (Z_keq status status) eq_refl).
      + by rewrite Z_keq_ne by congruence. }
  destruct Hm' as [Hs' Hf]. split.
  - split; [by apply sorted_put|by apply put_forall].
  - intros h s. unfold counter_of at 1. rewrite om_find_put by done.
    destruct (decide (h = handler)) as [->|Hne].
    + rewrite (proj2 (str_keq handler handler) eq_refl). cbn [default from_option]. unfold id. rewrite Hf, Hcnt.
      case_decide as Hx; case_decide as Hy; try done; tauto.
    + rewrite str_keq_ne by congruence. case_decide as Hx; [tauto|done].
Qed.

(** The times recorded for a handler and a status. *)
Definition times (obs : list (bytes * Z * Z)) (handler : bytes) (status : Z) : list Z :=
  map snd (List.filter (fun o => str_eqb o.1.1 handler && (o.1.2 =? status)) obs).

Definition record (obs : list (bytes * Z * Z)) : t := foldl (fun d o => add d o.1.1 o.1.2 o.2) [] obs.

Lemma record_spec obs :
  data_ok (record obs) /\ forall h s, counter_of (record obs) h s =
    match times obs h s with [] => None | ts => Some (foldl CounterData.add create ts) end.
Proof.
  unfold record. induction obs as [|o obs [Hok IH]] using rev_ind.
  { split; [split; constructor|done]. }
  rewrite foldl_app. cbn [foldl]. destruct (add_spec _ o.1.1 o.1.2 o.2 Hok) as [Hok' Hadd].
  split; [done|]. intros h s. rewrite Hadd. unfold times in *. rewrite List.filter_app, map_app. cbn [List.filter].
  destruct (decide (h = o.1.1 /\ s = o.1.2)) as [[-> ->]|Hne].
  - rewrite (proj2 (str_eqb_true o.1.1 o.1.1) eq_refl), Z.eqb_refl, IH. cbn [andb map].
    set (l := map snd _). destruct l as [|x l]; [done|]. cbn [default from_option app]. unfold id.
    cbn [foldl]. by rewrite foldl_app.
  - assert (E : str_eqb o.1.1 h && (o.1.2 =? s) = false).
    { destruct (str_eqb o.1.1 h) eqn:E1; [|done]. apply str_eqb_true in E1. cbn. apply Z.eqb_neq.
      intros E2. apply Hne. by split. }
    rewrite E. cbn [map]. by rewrite app_nil_r.
Qed.

Lemma counter_fold ts c :
  let c' := foldl CounterData.add c ts in
  min_ c' = foldl Z.min (min_ c) ts /\ max_ c' = foldl Z.max (max_ c) ts /\
  u64 (total_ c') = u64 (total_ c + foldl Z.add 0 ts) /\ u64 (hits_ c') = u64 (hits_ c + len ts).
Proof.
  revert c. induction ts as [|x ts IH]; intros c; cbn.
  { rewrite !Z.add_0_r. done. }
  destruct (IH (CounterData.add c x)) as (H1 & H2 & H3 & H4). cbn in *.
  split; [done|]. split; [done|]. rewrite H3, H4. unfold u64. rewrite !Zplus_mod_idemp_l.
  assert (Hsum : forall l a, foldl Z.add a l = a + foldl Z.add 0 l).
  { clear. induction l as [|y l IH]; intros a; cbn; [lia|]. rewrite IH, (IH (0 + y)). lia. }
  rewrite (Hsum ts (0 + x)), len_cons. split; f_equal; lia.
Qed.

(** Whatever is recorded, in whatever order, the counter of a handler and a status holds the
    least and the greatest of its times and, as 64-bit numbers, their sum and how many they
    are; a handler and a status without a time have no counter. *)
Theorem statistics_summary obs h s :
  Forall (fun o => 0 <= o.2 < 2 ^ 64) obs ->
  match counter_of (record obs) h s with
  | None => times obs h s = []
  | Some c =>
      times obs h s <> [] /\
      min_ c ∈ times obs h s /\ Forall (fun t => min_ c <= t) (times obs h s) /\
      max_ c ∈ times obs h s /\ Forall (fun t => t <= max_ c) (times obs h s) /\
      u64 (total_ c) = u64 (foldl Z.add 0 (times obs h s)) /\ u64 (hits_ c) = u64 (len (times obs h s))
  end.
Proof.
  intros Hr. assert (Ht : Forall (fun t => 0 <= t < 2 ^ 64) (times obs h s)).
  { unfold times. induction Hr as [|o l Ho _ IH]; cbn; [constructor|]. destruct (_ && _); cbn; [by apply Forall_cons|done]. }
  destruct (record_spec obs) as [_ H]. rewrite H.
  destruct (times obs h s) as [|x ts]; [done|]. split; [done|]. cbn [foldl].
  destruct (counter_fold ts (CounterData.add create x)) as (H1 & H2 & H3 & H4).
  apply Forall_cons in Ht as [Hx _].
  assert (Hmin : forall l a, foldl Z.min a l ∈ a :: l /\ Forall (fun t => foldl Z.min a l <= t) (a :: l)).
  { clear. induction l as [|y l IH]; intros a; cbn; [split; [by left|apply Forall_singleton; lia]|].
    destruct (IH (Z.min a y)) as [Hin Hall]. apply Forall_cons in Hall as [Ha Hall]. split.
    - apply elem_of_cons in Hin as [->|Hin]; [|by right; right].
      destruct (Z.min_spec a y) as [[_ ->]|[_ ->]]; [by left|by right; left].
    - constructor; [lia|]. constructor; [lia|done]. }
  assert (Hmax : forall l a, foldl Z.max a l ∈ a :: l /\ Forall (fun t => t <= foldl Z.max a l) (a :: l)).
  { clear. induction l as [|y l IH]; intros a; cbn; [split; [by left|apply Forall_singleton; lia]|].
    destruct (IH (Z.max a y)) as [Hin Hall]. apply Forall_cons in Hall as [Ha Hall]. split.
    - apply elem_of_cons in Hin as [->|Hin]; [|by right; right].
      destruct (Z.max_spec a y) as [[_ ->]|[_ ->]]; [by right; left|by left].
    - constructor; [lia|]. constructor; [lia|done]. }
  cbn [min_ max_ total_ hits_ CounterData.add create] in H1, H2, H3, H4.
  rewrite Z.min_r in H1 by lia. rewrite Z.max_r in H2 by lia. rewrite H1, H2.
  destruct (Hmin ts x), (Hmax ts x). split; [done|]. split; [done|]. split; [done|]. split; [done|].
  rewrite H3, H4. unfold u64. rewrite !Zplus_mod_idemp_l, len_cons.
  assert (Hsum : forall l a, foldl Z.add a l = a + foldl Z.add 0 l).
  { clear. induction l as [|y l IH]; intros a; cbn; [lia|]. rewrite IH, (IH (0 + y)). lia. }
  rewrite (Hsum ts (0 + x)). split; f_equal; lia.
Qed.
Lemma statistics_summary_witness :
  Forall (fun o : bytes * Z * Z => 0 <= o.2 < 2 ^ 64) [(lit "a", 200, 7); (lit "b", 200, 9); (lit "a", 200, 3)] /\
  match counter_of (record [(lit "a", 200, 7); (lit "b", 200, 9); (lit "a", 200, 3)]) (lit "a") 200 with
  | None => False
  | Some c => min_ c ∈ [7; 3] /\ Forall (fun t => min_ c <= t) [7; 3] /\ u64 (total_ c) = 10
  end.
Proof.
  assert (H : Forall (fun o : bytes * Z * Z => 0 <= o.2 < 2 ^ 64) [(lit "a", 200, 7); (lit "b", 200, 9); (lit "a", 200, 3)])
    by (repeat constructor; cbn; lia).
  split; [exact H|]. pose proof (statistics_summary _ (lit "a") 200 H) as (_ & Hmin & Hall & _ & _ & Hsum & _).
  split; [exact Hmin|]. split; [exact Hall|exact Hsum].
Defined.
End Summary.
