(* ===== verification/PageReader.v ===== *)
(** * PageReader

    [page-compiler/page_reader.cpp], [page.h] and [page.cpp]: a server page is read token by
    token and turned into the sections of a [Page]: statements that send its markup, and the
    C++ code of its blocks.

    Files are the system's: [open_file] gives the contents of a file that can be opened. *)

From S2P Require Import Prelude Cxx StringUtils Program.

(** ** Pages *)

Module Page.

(** The string streams, and the attributes: a [Page] is an [AttributesHolder] whose values are
    strings. *)
Record t := MkPage {
  headerDecls : bytes;
  implDecls : bytes;
  handler : bytes;
  preHandler : bytes;
  methods : bytes;
  functions : bytes;
  attributes_ : gmap bytes bytes
}.

Definition create : t := MkPage [] [] [] [] [] [] ∅.

Definition set_headerDecls (p : t) v := MkPage v (implDecls p) (handler p) (preHandler p) (methods p) (functions p) (attributes_ p).
Definition set_implDecls (p : t) v := MkPage (headerDecls p) v (handler p) (preHandler p) (methods p) (functions p) (attributes_ p).
Definition set_handler (p : t) v := MkPage (headerDecls p) (implDecls p) v (preHandler p) (methods p) (functions p) (attributes_ p).
Definition set_preHandler (p : t) v := MkPage (headerDecls p) (implDecls p) (handler p) v (methods p) (functions p) (attributes_ p).
Definition set_methods (p : t) v := MkPage (headerDecls p) (implDecls p) (handler p) (preHandler p) v (functions p) (attributes_ p).
Definition set_functions (p : t) v := MkPage (headerDecls p) (implDecls p) (handler p) (preHandler p) (methods p) v (attributes_ p).
Definition set_attributes (p : t) v := MkPage (headerDecls p) (implDecls p) (handler p) (preHandler p) (methods p) (functions p) v.

Definition hasAttribute (p : t) (name : bytes) : bool :=
  match attributes_ p !! name with Some _ => true | None => false end.
Definition setAttribute (p : t) (name value : bytes) : t := set_attributes p (<[name := value]> (attributes_ p)).
Definition getAttribute (p : t) (name : bytes) : result bytes :=
  match attributes_ p !! name with
  | Some v => Ok v
  | None => Throw (RuntimeError (lit "Attribute not found"))
  end.
Definition getAttribute_default (p : t) (name deflt : bytes) : bytes := default deflt (attributes_ p !! name).

Definition getBool (p : t) (property : bytes) (deflt : bool) : bool :=
  match attributes_ p !! property with
  | Some value =>
      let value := tolower_str value in
      str_eqb value (lit "true") || str_eqb value (lit "yes") || str_eqb value (lit "on")
  | None => deflt
  end.

Definition getInt (p : t) (property : bytes) (deflt : Z) : result Z :=
  match attributes_ p !! property with Some value => stoi value | None => Ok deflt end.
End Page.

(** ** The reader *)

Module PageReader.

Definition NL : byte := Byte.x0a.
Definition TAB : byte := Byte.x09.
Definition CR : byte := Byte.x0d.
Definition QUOTE : byte := Byte.x22.
Definition APOSTROPHE : byte := Byte.x27.
Definition BACKSLASH : byte := Byte.x5c.

Definition MARKUP_BEGIN : bytes := TAB :: lit "responseStream << " ++ [QUOTE].
Definition MARKUP_END : bytes := QUOTE :: lit ";" ++ [NL].
Definition EXPR_BEGIN : bytes := TAB :: lit "responseStream << (".
Definition EXPR_END : bytes := lit ");" ++ [NL].

Inductive ParsingState :=
| STATE_MARKUP
| STATE_IMPLDECL
| STATE_HDRDECL
| STATE_METHODS
| STATE_FUNCTIONS
| STATE_PREHANDLER
| STATE_BLOCK
| STATE_EXPR
| STATE_COMMENT
| STATE_ATTR.

(** [nextToken]: the token and what is left of the stream; an empty token at its end. *)
Definition nextToken (s : bytes) : bytes * bytes :=
  match s with
  | [] => ([], [])
  | ch :: s =>
      if beqb ch "<"%byte then
        match s with
        | p :: s' =>
            if beqb p "%"%byte then
              match s' with
              | c :: s'' =>
                  if beqb c "%"%byte || beqb c "@"%byte || beqb c "="%byte then (lit "<%" ++ [c], s'')
                  else if beqb c "!"%byte then
                    match s'' with
                    | d :: s3 => if beqb d "!"%byte then (lit "<%!!", s3) else (lit "<%!", s'')
                    | [] => (lit "<%!", [])
                    end
                  else if beqb c "-"%byte then
                    match s'' with
                    | d :: s3 => if beqb d "-"%byte then (lit "<%--", s3) else (lit "<%-", s'')
                    | [] => (lit "<%-", [])
                    end
                  else (lit "<%", s')
              | [] => (lit "<%", [])
              end
            else ([ch], s)
        | [] => ([ch], [])
        end
      else if beqb ch "%"%byte then
        match s with
        | p :: s' => if beqb p ">"%byte then (lit "%>", s') else ([ch], s)
        | [] => ([ch], [])
        end
      else ([ch], s)
  end.

#[local] Abbreviation M := (prog Page.t).

(** [_page.handler() << text], and the other sections. *)
Definition to_handler (text : bytes) : M unit := modify (fun p => Page.set_handler p (Page.handler p ++ text)).
Definition to_preHandler (text : bytes) : M unit := modify (fun p => Page.set_preHandler p (Page.preHandler p ++ text)).
Definition to_functions (text : bytes) : M unit := modify (fun p => Page.set_functions p (Page.functions p ++ text)).
Definition to_methods (text : bytes) : M unit := modify (fun p => Page.set_methods p (Page.methods p ++ text)).
Definition to_implDecls (text : bytes) : M unit := modify (fun p => Page.set_implDecls p (Page.implDecls p ++ text)).
Definition to_headerDecls (text : bytes) : M unit := modify (fun p => Page.set_headerDecls p (Page.headerDecls p ++ text)).

(** [where]: [_line] is 0 in every reader; [readers] are the paths of this one and its parents. *)
Fixpoint included_from (parents : list bytes) : bytes :=
  match parents with
  | [] => []
  | p :: parents' => [NL; TAB] ++ lit "included from file '" ++ p ++ lit "', line 0" ++ included_from parents'
  end.

Definition where_ (readers : list bytes) : bytes :=
  match readers with
  | [] => []
  | p :: parents => lit "in file '" ++ p ++ lit "', line 0" ++ included_from parents
  end.

Section Reader.
(** The reader of a page: [readers] as above; [include] reads another file into the page. *)
Context (readers : list bytes) (include : bytes -> M unit).

Definition quoted (name value tail : bytes) : bytes := name ++ [QUOTE] ++ value ++ [QUOTE] ++ tail.

Definition handleAttribute (name value : bytes) : M unit :=
  if str_eqb name (lit "include.page") then include value
  else if str_eqb name (lit "include.path") then
    to_handler (TAB :: quoted (lit "response->includePath(") value (lit ");"))
  else if str_eqb name (lit "include.component") then
    to_handler (TAB :: quoted (lit "response->includeComponent(") value (lit ");"))
  else if str_eqb name (lit "header.include") then to_headerDecls (quoted (lit "#include ") value [NL])
  else if str_eqb name (lit "header.sinclude") then to_headerDecls (lit "#include <" ++ value ++ lit ">" ++ [NL])
  else if str_eqb name (lit "impl.include") then to_implDecls (quoted (lit "#include ") value [NL])
  else if str_eqb name (lit "impl.sinclude") then to_implDecls (lit "#include <" ++ value ++ lit ">" ++ [NL])
  else
    has ← gets (fun p => Page.hasAttribute p name);
    if negb has then modify (fun p => Page.setAttribute p name value) else ret tt.

Definition bad_syntax (what : bytes) : M unit :=
  throw (StringThrown (lit "bad attribute syntax: " ++ what ++ where_ readers)).

(** The outer loop of [parseAttributes]; every round reads an equals sign, so the length of the
    rest bounds the rounds. *)
Fixpoint parse_attributes (n : nat) (basename s : bytes) : M unit :=
  match s, n with
  | [], _ => ret tt
  | _, O => ret tt
  | _, S n =>
      let name := basename ++ lit "." ++ take_while isalnum s in
      match drop_while isspace (drop_while isalnum s) with
      | e :: s =>
          if beqb e "="%byte then
            match drop_while isspace s with
            | q :: s =>
                if beqb q QUOTE || beqb q APOSTROPHE then
                  let value := take_while (fun c => negb (beqb c q)) s in
                  match drop_while (fun c => negb (beqb c q)) s with
                  | _ :: s => handleAttribute name value ;; parse_attributes n basename (drop_while isspace s)
                  | [] =>
                      bad_syntax (if beqb q QUOTE then lit "'" ++ [QUOTE] ++ lit "' expected " else lit "''' expected ")
                  end
                else bad_syntax (lit "'" ++ [QUOTE] ++ lit "' or ''' expected")
            | [] => bad_syntax (lit "'" ++ [QUOTE] ++ lit "' or ''' expected")
            end
          else bad_syntax (lit "'=' expected ")
      | [] => bad_syntax (lit "'=' expected ")
      end
  end.

Definition parseAttributes (attrs : bytes) : M unit :=
  let s := drop_while isspace attrs in
  let basename := take_while isalnum s in
  let s := drop_while isspace (drop_while isalnum s) in
  parse_attributes (length s) basename s.

(** The opening tags and the states they lead to. *)
Definition opening (token : bytes) : option ParsingState :=
  if str_eqb token (lit "<%") then Some STATE_BLOCK
  else if str_eqb token (lit "<%%") then Some STATE_PREHANDLER
  else if str_eqb token (lit "<%!") then Some STATE_FUNCTIONS
  else if str_eqb token (lit "<%!!") then Some STATE_METHODS
  else if str_eqb token (lit "<%--") then Some STATE_COMMENT
  else if str_eqb token (lit "<%@") then Some STATE_ATTR
  else if str_eqb token (lit "<%=") then Some STATE_EXPR
  else None.

(** A token that is not a tag, in the markup. *)
Definition markup_token (token : bytes) : bytes :=
  if str_eqb token [NL] then BACKSLASH :: lit "n" ++ MARKUP_END ++ MARKUP_BEGIN
  else if str_eqb token [TAB] then BACKSLASH :: lit "t"
  else if str_eqb token [QUOTE] then [BACKSLASH; QUOTE]
  else if str_eqb token [CR] then []
  else token.

(** What a token does: the next state and [_attrs]. *)
Definition handle_token (state : ParsingState) (attrs token : bytes) : M (ParsingState * bytes) :=
  match opening token with
  | Some next =>
      match state with
      | STATE_MARKUP =>
          to_handler MARKUP_END ;;
          match next with
          | STATE_ATTR => ret (next, [])
          | STATE_EXPR => to_handler EXPR_BEGIN ;; ret (next, attrs)
          | _ => ret (next, attrs)
          end
      | _ => to_handler token ;; ret (state, attrs)
      end
  | None =>
      if str_eqb token (lit "%>") then
        match state with
        | STATE_EXPR => to_handler EXPR_END ;; to_handler MARKUP_BEGIN ;; ret (STATE_MARKUP, attrs)
        | STATE_ATTR => parseAttributes attrs ;; to_handler MARKUP_BEGIN ;; ret (STATE_MARKUP, [])
        | STATE_MARKUP => to_handler token ;; ret (state, attrs)
        | _ => to_handler MARKUP_BEGIN ;; ret (STATE_MARKUP, attrs)
        end
      else
        match state with
        | STATE_MARKUP => to_handler (markup_token token) ;; ret (state, attrs)
        | STATE_IMPLDECL => to_implDecls token ;; ret (state, attrs)
        | STATE_FUNCTIONS => to_functions token ;; ret (state, attrs)
        | STATE_HDRDECL => to_headerDecls token ;; ret (state, attrs)
        | STATE_METHODS => to_methods token ;; ret (state, attrs)
        | STATE_PREHANDLER => to_preHandler token ;; ret (state, attrs)
        | STATE_BLOCK | STATE_EXPR => to_handler token ;; ret (state, attrs)
        | STATE_COMMENT => ret (state, attrs)
        | STATE_ATTR => ret (state, attrs ++ token)
        end
  end.

(** The loop over the tokens, each of which takes at least one character. *)
Fixpoint parse_tokens (n : nat) (state : ParsingState) (attrs s : bytes) : M ParsingState :=
  match n with
  | O => ret state
  | S n =>
      match nextToken s with
      | ([], _) => ret state
      | (token, s) => st ← handle_token state attrs token; parse_tokens n st.1 st.2 s
      end
  end.

Definition parse_stream (s : bytes) : M unit :=
  to_handler MARKUP_BEGIN ;;
  state ← parse_tokens (length s) STATE_MARKUP [] s;
  match state with
  | STATE_MARKUP => to_handler MARKUP_END
  | _ => throw (StringThrown (lit "unclosed meta or code block: " ++ where_ readers))
  end.
End Reader.

(** [parse] of a file with its includes, which may nest [depth] deep; a page that includes itself
    is read until files can no longer be opened. *)
Fixpoint parse (open_file : bytes -> option bytes) (depth : nat) (readers : list bytes) (s : bytes) : M unit :=
  match depth with
  | O => fun _ => None
  | S depth =>
      parse_stream readers (fun path =>
        let includePath := FileSystemUtils.pathToFile (default [] (head readers)) ++ lit "/" ++ path in
        to_handler (TAB :: lit "// begin include " ++ includePath ++ [NL]) ;;
        match open_file includePath with
        | Some included => parse open_file depth (includePath :: readers) included
        | None => throw (StringThrown (lit "could not open file  " ++ includePath ++ lit " for inclusion " ++ where_ readers))
        end ;;
        to_handler (TAB :: lit "// end include " ++ includePath ++ [NL])) s
  end.
End PageReader.

(** ** What a page is compiled to

    A page is markup with blocks in it. [render] is its source text, and [compile] its
    translation, block by block. *)

Section Compiled.
Import PageReader.
Implicit Types (p : Page.t) (s t c rest : bytes) (st : ParsingState).

(** No tag begins or ends inside. *)
Fixpoint no_tags s : bool :=
  match s with
  | a :: (b :: _) as s' =>
      negb ((beqb a "<"%byte && beqb b "%"%byte) || (beqb a "%"%byte && beqb b ">"%byte)) && no_tags s'
  | _ => true
  end.

Inductive block :=
| Scriptlet (code : bytes)
| PreScriptlet (code : bytes)
| ImplDeclaration (code : bytes)
| HeaderDeclaration (code : bytes)
| Hidden (text : bytes)
| Expression (code : bytes)
| Directive (base name value : bytes).

Definition in_quotes value : bytes := [Byte.x22] ++ value ++ [Byte.x22].

Definition directive_text base name value : bytes := lit " " ++ base ++ lit " " ++ name ++ lit "=" ++ in_quotes value.

Definition render_block (b : block) : bytes :=
  match b with
  | Scriptlet c => lit "<%" ++ c ++ lit "%>"
  | PreScriptlet c => lit "<%%" ++ c ++ lit "%>"
  | ImplDeclaration c => lit "<%!" ++ c ++ lit "%>"
  | HeaderDeclaration c => lit "<%!!" ++ c ++ lit "%>"
  | Hidden c => lit "<%--" ++ c ++ lit "%>"
  | Expression c => lit "<%=" ++ c ++ lit "%>"
  | Directive base name value => lit "<%@" ++ directive_text base name value ++ lit "%>"
  end.

(** A markup text and then blocks, each with the markup after it. *)
Definition document : Type := bytes * list (block * bytes).

Definition render_blocks (bs : list (block * bytes)) : bytes := concat (map (fun x => render_block x.1 ++ x.2) bs).

Definition render (d : document) : bytes := d.1 ++ render_blocks d.2.

(** What each block may hold: no tags, and what is not taken for a part of the opening tag. *)
Definition inside_ok c : bool := no_tags (c ++ lit "%").

Definition block_ok (b : block) : bool :=
  match b with
  | Scriptlet c =>
      inside_ok c && match c with
                     | x :: _ => negb (beqb x "%"%byte || beqb x "@"%byte || beqb x "="%byte || beqb x "!"%byte || beqb x "-"%byte)
                     | [] => false
                     end
  | ImplDeclaration c => inside_ok c && match c with x :: _ => negb (beqb x "!"%byte) | [] => true end
  | PreScriptlet c | HeaderDeclaration c | Hidden c | Expression c => inside_ok c
  | Directive base name value =>
      match base with [] => false | _ => forallb isalnum base end && forallb isalnum name &&
      negb (mem Byte.x22 value) && inside_ok (directive_text base name value) &&
      negb (str_eqb (base ++ lit "." ++ name) (lit "include.page"))
  end.

Definition document_ok (d : document) : bool :=
  no_tags d.1 && forallb (fun x => block_ok x.1 && no_tags x.2) d.2.

(** What the reader makes of it, token by token. *)
Definition escape t : bytes := flat_map (fun x => markup_token [x]) t.

Definition add_handler t p : Page.t := Page.set_handler p (Page.handler p ++ t).

Definition directive (name value : bytes) p : Page.t :=
  if str_eqb name (lit "include.path") then add_handler (TAB :: quoted (lit "response->includePath(") value (lit ");")) p
  else if str_eqb name (lit "include.component") then
    add_handler (TAB :: quoted (lit "response->includeComponent(") value (lit ");")) p
  else if str_eqb name (lit "header.include") then
    Page.set_headerDecls p (Page.headerDecls p ++ quoted (lit "#include ") value [NL])
  else if str_eqb name (lit "header.sinclude") then
    Page.set_headerDecls p (Page.headerDecls p ++ lit "#include <" ++ value ++ lit ">" ++ [NL])
  else if str_eqb name (lit "impl.include") then
    Page.set_implDecls p (Page.implDecls p ++ quoted (lit "#include ") value [NL])
  else if str_eqb name (lit "impl.sinclude") then
    Page.set_implDecls p (Page.implDecls p ++ lit "#include <" ++ value ++ lit ">" ++ [NL])
  else match Page.attributes_ p !! name with Some _ => p | None => Page.setAttribute p name value end.

Definition compile_block (b : block) p : Page.t :=
  match b with
  | Scriptlet c => add_handler c p
  | PreScriptlet c => Page.set_preHandler p (Page.preHandler p ++ c)
  | ImplDeclaration c => Page.set_functions p (Page.functions p ++ c)
  | HeaderDeclaration c => Page.set_methods p (Page.methods p ++ c)
  | Hidden _ => p
  | Expression c => add_handler (EXPR_BEGIN ++ c ++ EXPR_END) p
  | Directive base name value => directive (base ++ lit "." ++ name) value p
  end.

Definition compile_markup t p : Page.t := add_handler (MARKUP_BEGIN ++ escape t) p.

Definition compile (d : document) p : Page.t :=
  add_handler MARKUP_END
    (foldl (fun p x => compile_markup x.2 (compile_block x.1 (add_handler MARKUP_END p))) (compile_markup d.1 p) d.2).

(** *** Tokens *)

Lemma str_eqb_len a b : length a <> length b -> str_eqb a b = false.
Proof. intros H. apply str_eqb_false. by intros ->. Qed.

Lemma no_tags_cons (c : byte) s : no_tags (c :: s) = true -> no_tags s = true.
Proof. destruct s as [|d s]; [done|]. cbn [no_tags]. by intros [_ H]%andb_true_iff. Qed.

Lemma no_tags_app s s' : no_tags (s ++ s') = true -> no_tags s = true.
Proof.
  induction s as [|a s IH]; [done|]. intros H. destruct s as [|b s]; [done|].
  cbn [no_tags app] in H |- *. apply andb_true_iff in H as [-> H]. by apply IH.
Qed.

Lemma no_tags_snoc s (c : byte) : no_tags s = true -> beqb c "%"%byte = false -> beqb c ">"%byte = false -> no_tags (s ++ [c]) = true.
Proof.
  intros Hs H1 H2. induction s as [|a s IH]; [done|]. destruct s as [|b s].
  - cbn. by rewrite H1, H2, !andb_false_r.
  - cbn [no_tags app] in Hs |- *. apply andb_true_iff in Hs as [-> Hs]. by apply IH.
Qed.

Lemma nextToken_char (c : byte) rest : no_tags (c :: take 1 rest) = true -> nextToken (c :: rest) = ([c], rest).
Proof.
  destruct rest as [|b rest]; cbn [take no_tags nextToken].
  - intros _. by repeat destruct (beqb c _).
  - destruct (beqb c "<"%byte), (beqb b "%"%byte), (beqb c "%"%byte), (beqb b ">"%byte); done.
Qed.

(** A text without tags is added, character by character, to where the state writes. *)
Definition put st t p : Page.t :=
  match st with
  | STATE_MARKUP => add_handler (escape t) p
  | STATE_IMPLDECL => Page.set_implDecls p (Page.implDecls p ++ t)
  | STATE_FUNCTIONS => Page.set_functions p (Page.functions p ++ t)
  | STATE_HDRDECL => Page.set_headerDecls p (Page.headerDecls p ++ t)
  | STATE_METHODS => Page.set_methods p (Page.methods p ++ t)
  | STATE_PREHANDLER => Page.set_preHandler p (Page.preHandler p ++ t)
  | STATE_BLOCK | STATE_EXPR => add_handler t p
  | STATE_COMMENT | STATE_ATTR => p
  end.

Definition grow st (attrs t : bytes) : bytes := match st with STATE_ATTR => attrs ++ t | _ => attrs end.

Lemma put_nil st p : put st [] p = p.
Proof. destruct st, p; cbn; unfold add_handler; cbn; by rewrite ?app_nil_r. Qed.

Lemma page_put_put st a b p : put st b (put st a p) = put st (a ++ b) p.
Proof.
  destruct st; cbn; unfold add_handler, escape; cbn; rewrite ?flat_map_app, ?app_assoc; done.
Qed.

Lemma grow_grow st attrs a b : grow st (grow st attrs a) b = grow st attrs (a ++ b).
Proof. destruct st; cbn; by rewrite ?app_assoc. Qed.

Context (readers : list bytes) (include : bytes -> prog Page.t unit).

Lemma handle_char st attrs (c : byte) p :
  handle_token readers include st attrs [c] p = Some (put st [c] p, Ok (st, grow st attrs [c])).
Proof.
  unfold handle_token, opening. rewrite !str_eqb_len by (cbn; lia). destruct st; try reflexivity.
  unfold to_handler. rewrite bind_modify. cbn [put escape flat_map]. by rewrite app_nil_r.
Qed.

Lemma parse_text t rest st attrs n p :
  no_tags (t ++ take 1 rest) = true -> (length (t ++ rest) <= n)%nat ->
  exists m, (length rest <= m)%nat /\
    parse_tokens readers include n st attrs (t ++ rest) p = parse_tokens readers include m st (grow st attrs t) rest (put st t p).
Proof.
  revert attrs n p. induction t as [|c t IH]; intros attrs n p Ht Hn; cbn [app] in *.
  - exists n. split; [done|]. rewrite put_nil. f_equal. by destruct st; cbn; rewrite ?app_nil_r.
  - destruct n as [|n]; cbn in Hn; [lia|]. cbn [parse_tokens]. rewrite nextToken_char.
    2: { destruct t as [|d t]; cbn in Ht |- *; [by destruct rest|]. by apply andb_true_iff in Ht as [-> _]. }
    rewrite (bind_ok _ _ _ _ _ (handle_char st attrs c p)). cbn [fst snd].
    destruct (IH (grow st attrs [c]) n (put st [c] p)) as (m & Hm & E); [by apply no_tags_cons in Ht|lia|].
    exists m. split; [done|]. rewrite E, page_put_put, grow_grow. done.
Qed.

Lemma parse_end n st attrs p : parse_tokens readers include n st attrs [] p = Some (p, Ok st).
Proof. by destruct n. Qed.

(** One tag. *)
Lemma parse_tag token s rest st attrs n p p' st' attrs' :
  nextToken s = (token, rest) -> token <> [] -> s = token ++ rest ->
  handle_token readers include st attrs token p = Some (p', Ok (st', attrs')) -> (length s <= n)%nat ->
  exists m, (length rest <= m)%nat /\
    parse_tokens readers include n st attrs s p = parse_tokens readers include m st' attrs' rest p'.
Proof.
  intros Ht Hne -> Hh Hn. destruct token as [|x token]; [done|]. cbn in Hn. destruct n as [|n]; [lia|].
  rewrite length_app in Hn. exists n. split; [lia|]. cbn [parse_tokens]. rewrite Ht.
  by rewrite (bind_ok _ _ _ _ _ Hh).
Qed.

(** *** Blocks *)

Definition open_tag (b : block) : bytes :=
  match b with
  | Scriptlet _ => lit "<%"
  | PreScriptlet _ => lit "<%%"
  | ImplDeclaration _ => lit "<%!"
  | HeaderDeclaration _ => lit "<%!!"
  | Hidden _ => lit "<%--"
  | Expression _ => lit "<%="
  | Directive _ _ _ => lit "<%@"
  end.

Definition body (b : block) : bytes :=
  match b with
  | Scriptlet c | PreScriptlet c | ImplDeclaration c | HeaderDeclaration c | Hidden c | Expression c => c
  | Directive base name value => directive_text base name value
  end.

Definition inner (b : block) : ParsingState :=
  match b with
  | Scriptlet _ => STATE_BLOCK
  | PreScriptlet _ => STATE_PREHANDLER
  | ImplDeclaration _ => STATE_FUNCTIONS
  | HeaderDeclaration _ => STATE_METHODS
  | Hidden _ => STATE_COMMENT
  | Expression _ => STATE_EXPR
  | Directive _ _ _ => STATE_ATTR
  end.

Lemma render_block_eq b : render_block b = open_tag b ++ body b ++ lit "%>".
Proof. by destruct b. Qed.

Lemma body_ok b : block_ok b = true -> no_tags (body b ++ lit "%") = true.
Proof.
  destruct b; cbn [block_ok body]; try done; rewrite ?andb_true_iff; unfold inside_ok; tauto.
Qed.

Lemma open_token b rest :
  block_ok b = true -> nextToken (open_tag b ++ body b ++ lit "%>" ++ rest) = (open_tag b, body b ++ lit "%>" ++ rest).
Proof.
  destruct b as [c|c|c|c|c|c|base name value]; cbn [block_ok body open_tag]; intros H; try reflexivity.
  - apply andb_true_iff in H as [_ H]. destruct c as [|x c]; [done|].
    cbn. destruct (beqb x "%"%byte), (beqb x "@"%byte), (beqb x "="%byte), (beqb x "!"%byte), (beqb x "-"%byte); done.
  - apply andb_true_iff in H as [_ H]. destruct c as [|x c]; [done|]. cbn. by destruct (beqb x "!"%byte).
Qed.

Lemma close_token rest : nextToken (lit "%>" ++ rest) = (lit "%>", rest).
Proof. done. Qed.

Lemma alnum_not_space (x : byte) : isalnum x = true -> isspace x = false.
Proof.
  unfold isalnum, isdigit, isupper, islower, isspace. intros H.
  rewrite !orb_true_iff, !andb_true_iff, !Z.leb_le in H. apply orb_false_iff. rewrite andb_false_iff, !Z.leb_gt, Z.eqb_neq. lia.
Qed.

Lemma drop_while_app_stop f s (a : byte) r : forallb f s = true -> f a = false -> drop_while f (s ++ a :: r) = a :: r.
Proof.
  intros Hs Ha. induction s as [|b s IH]; simpl in *; [by rewrite Ha|]. apply andb_true_iff in Hs as [-> Hs]. by rewrite IH.
Qed.

(** A directive is read back. *)
Lemma directive_read base name value p :
  block_ok (Directive base name value) = true ->
  parseAttributes readers include (directive_text base name value) p = Some (directive (base ++ lit "." ++ name) value p, Ok tt).
Proof.
  cbn [block_ok]. rewrite !andb_true_iff. intros [[[[Hb Hn] Hv] _] Hi].
  destruct base as [|x base]; [done|]. set (bs := x :: base) in *.
  unfold parseAttributes, directive_text.
  assert (Hx : isspace x = false).
  { cbn in Hb. apply andb_true_iff in Hb as [Hx _]. by apply alnum_not_space. }
  replace (drop_while isspace (lit " " ++ bs ++ lit " " ++ name ++ lit "=" ++ in_quotes value))
    with (bs ++ " "%byte :: (name ++ "="%byte :: QUOTE :: value ++ [QUOTE])).
  2: { cbn. by rewrite Hx. }
  rewrite take_while_app_stop, drop_while_app_stop by done. cbn [drop_while]. change (isspace " "%byte) with true. cbn iota.
  assert (Hs : drop_while isspace (name ++ "="%byte :: QUOTE :: value ++ [QUOTE]) = name ++ "="%byte :: QUOTE :: value ++ [QUOTE]).
  { destruct name as [|y name]; [done|]. cbn in Hn |- *. apply andb_true_iff in Hn as [Hy _]. by rewrite alnum_not_space. }
  rewrite Hs. destruct (length _) as [|n] eqn:El; [by destruct name|].
  cbn [parse_attributes]. rewrite take_while_app_stop, drop_while_app_stop by done.
  destruct (name ++ _) as [|z zs] eqn:En; [by destruct name|].
  change (drop_while isspace ("="%byte :: QUOTE :: value ++ [QUOTE])) with ("="%byte :: QUOTE :: value ++ [QUOTE]).
  cbn iota. change (drop_while isspace (QUOTE :: value ++ [QUOTE])) with (QUOTE :: value ++ [QUOTE]).
  cbn iota. rewrite !beqb_refl. cbn [orb].
  assert (Hq : forallb (fun c : byte => negb (beqb c QUOTE)) value = true).
  { apply negb_true_iff in Hv. revert Hv. clear. induction value as [|c value IH]; [done|]. cbn.
    intros [Hc Hv]%orb_false_iff. rewrite IH by done. rewrite beqb_false in Hc.
    by rewrite (proj2 (beqb_false c QUOTE)) by (unfold QUOTE; congruence). }
  rewrite drop_while_app_stop, take_while_app_stop by (done || by rewrite beqb_refl).
  assert (Hh : handleAttribute include (bs ++ lit "." ++ name) value p = Some (directive (bs ++ lit "." ++ name) value p, Ok tt)).
  { apply negb_true_iff in Hi. unfold handleAttribute, directive. rewrite Hi.
    repeat (match goal with |- (if str_eqb ?a ?b then _ else _) _ = _ => destruct (str_eqb a b) end; [reflexivity|]).
    unfold mbind, prog_bind, gets, Page.hasAttribute.
    by destruct (Page.attributes_ p !! _). }
  rewrite (bind_ok _ _ _ _ _ Hh). by destruct n.
Qed.

Definition open_page (b : block) p : Page.t :=
  match b with Expression _ => add_handler EXPR_BEGIN (add_handler MARKUP_END p) | _ => add_handler MARKUP_END p end.

Definition close_page (b : block) p : Page.t :=
  add_handler MARKUP_BEGIN
    (match b with
     | Expression _ => add_handler EXPR_END p
     | Directive base name value => directive (base ++ lit "." ++ name) value p
     | _ => p
     end).

Lemma handle_open b p :
  handle_token readers include STATE_MARKUP [] (open_tag b) p = Some (open_page b p, Ok (inner b, [])).
Proof. by destruct b. Qed.

Lemma handle_close b p :
  block_ok b = true ->
  handle_token readers include (inner b) (grow (inner b) [] (body b)) (lit "%>") p =
    Some (close_page b p, Ok (STATE_MARKUP, [])).
Proof.
  intros Hb. destruct b as [c|c|c|c|c|c|base name value]; try reflexivity.
  unfold handle_token. cbn [inner grow body app]. change (opening (lit "%>")) with (@None ParsingState).
  change (str_eqb (lit "%>") (lit "%>")) with true. cbn iota.
  by rewrite (bind_ok _ _ _ _ _ (directive_read base name value p Hb)).
Qed.

Lemma parse_block b rest n p :
  block_ok b = true -> (length (render_block b ++ rest) <= n)%nat ->
  exists m, (length rest <= m)%nat /\
    parse_tokens readers include n STATE_MARKUP [] (render_block b ++ rest) p =
    parse_tokens readers include m STATE_MARKUP [] rest
      (add_handler MARKUP_BEGIN (compile_block b (add_handler MARKUP_END p))).
Proof.
  intros Hb Hn. rewrite render_block_eq, <- !app_assoc in Hn |- *.
  destruct (parse_tag (open_tag b) _ _ STATE_MARKUP [] n p _ _ _
    (open_token b rest Hb) ltac:(by destruct b) eq_refl (handle_open b p) Hn) as (n1 & Hn1 & ->).
  destruct (parse_text (body b) (lit "%>" ++ rest) (inner b) [] n1 (open_page b p) (body_ok b Hb) Hn1) as (n2 & Hn2 & ->).
  destruct (parse_tag (lit "%>") _ _ (inner b) _ n2 (put (inner b) (body b) (open_page b p)) _ _ _
    (close_token rest) ltac:(done) eq_refl (handle_close b _ Hb) Hn2) as (n3 & Hn3 & ->).
  exists n3. split; [done|]. f_equal. unfold close_page. f_equal.
  destruct b; cbn [inner put body compile_block open_page]; try done.
  unfold add_handler. destruct p; cbn. by rewrite <- !app_assoc.
Qed.

Lemma parse_blocks bs t n q :
  no_tags t = true -> forallb (fun x => block_ok x.1 && no_tags x.2) bs = true ->
  (length (t ++ render_blocks bs) <= n)%nat ->
  parse_tokens readers include n STATE_MARKUP [] (t ++ render_blocks bs) (add_handler MARKUP_BEGIN q) =
  Some (foldl (fun p x => compile_markup x.2 (compile_block x.1 (add_handler MARKUP_END p))) (compile_markup t q) bs,
        Ok STATE_MARKUP).
Proof.
  assert (Hput : forall t q, put STATE_MARKUP t (add_handler MARKUP_BEGIN q) = compile_markup t q).
  { clear. intros t q. unfold put, compile_markup, add_handler. cbn. by rewrite <- !app_assoc. }
  revert t n q. induction bs as [|[b t'] bs IH]; intros t n q Ht Hb Hn.
  - destruct (parse_text t [] STATE_MARKUP [] n (add_handler MARKUP_BEGIN q)) as (m & _ & E).
    { by rewrite app_nil_r. } { done. }
    change (render_blocks []) with (@nil byte). by rewrite E, parse_end, Hput.
  - cbn in Hb. apply andb_true_iff in Hb as [[Hb Ht']%andb_true_iff Hbs].
    change (render_blocks ((b, t') :: bs)) with ((render_block b ++ t') ++ render_blocks bs) in Hn |- *.
    rewrite <- (app_assoc (render_block b)) in Hn |- *.
    destruct (parse_text t (render_block b ++ t' ++ render_blocks bs) STATE_MARKUP [] n (add_handler MARKUP_BEGIN q))
      with (2 := Hn) as (m & Hm & ->).
    { rewrite render_block_eq. by destruct b; apply no_tags_snoc. }
    change (grow STATE_MARKUP [] t) with (@nil byte). rewrite Hput.
    destruct (parse_block b (t' ++ render_blocks bs) m (compile_markup t q) Hb Hm) as (k & Hk & ->).
    by rewrite (IH t' k _ Ht' Hbs Hk).
Qed.

Lemma compile_document (d : document) :
  document_ok d = true -> parse_stream readers include (d.1 ++ render_blocks d.2) Page.create = Some (compile d Page.create, Ok tt).
Proof.
  unfold document_ok. intros [Ht Hb]%andb_true_iff. unfold parse_stream.
  rewrite (bind_ok _ _ _ (add_handler MARKUP_BEGIN Page.create) tt) by done.
  by rewrite (bind_ok _ _ _ _ _ (parse_blocks d.2 d.1 _ Page.create Ht Hb (le_n _))).
Qed.

(** *** The generated code

    The meaning of a document, in terms of the C++ code that is generated. *)

(** A character of the page in a C++ string literal: a backslash and a letter for a tab, a backslash
    before a quote, nothing for a carriage return; a backslash is left as it is. *)
Definition in_literal (c : byte) : bytes :=
  match b2z c with
  | 9 => [Byte.x5c; Byte.x74]
  | 13 => []
  | 34 => [Byte.x5c; Byte.x22]
  | _ => [c]
  end.

(** The statement that sends a line; [ending] is what its literal ends in. *)
Definition send_line (line ending : bytes) : bytes :=
  [Byte.x09] ++ lit "responseStream << " ++ in_quotes (flat_map in_literal line ++ ending) ++ lit ";" ++ [Byte.x0a].

(** The statements that send a text, the first of whose lines begins with [line]: one for each line,
    of which all but the last end in a backslash and an n. *)
Fixpoint send_lines (line t : bytes) : bytes :=
  match t with
  | [] => send_line line []
  | c :: t' => if b2z c =? 10 then send_line line [Byte.x5c; Byte.x6e] ++ send_lines [] t' else send_lines (line ++ [c]) t'
  end.

Definition translate_markup t p : Page.t := add_handler (send_lines [] t) p.

(** Some attributes include files, and the others become attributes of the page unless it has them. *)
Definition translate_directive (attribute value : bytes) p : Page.t :=
  if str_eqb attribute (lit "include.path") then
    add_handler ([Byte.x09] ++ lit "response->includePath(" ++ in_quotes value ++ lit ");") p
  else if str_eqb attribute (lit "include.component") then
    add_handler ([Byte.x09] ++ lit "response->includeComponent(" ++ in_quotes value ++ lit ");") p
  else if str_eqb attribute (lit "header.include") then
    Page.set_headerDecls p (Page.headerDecls p ++ lit "#include " ++ in_quotes value ++ [Byte.x0a])
  else if str_eqb attribute (lit "header.sinclude") then
    Page.set_headerDecls p (Page.headerDecls p ++ lit "#include <" ++ value ++ lit ">" ++ [Byte.x0a])
  else if str_eqb attribute (lit "impl.include") then
    Page.set_implDecls p (Page.implDecls p ++ lit "#include " ++ in_quotes value ++ [Byte.x0a])
  else if str_eqb attribute (lit "impl.sinclude") then
    Page.set_implDecls p (Page.implDecls p ++ lit "#include <" ++ value ++ lit ">" ++ [Byte.x0a])
  else Page.set_attributes p (match Page.attributes_ p !! attribute with
                              | Some _ => Page.attributes_ p
                              | None => <[attribute := value]> (Page.attributes_ p)
                              end).

Definition translate_block (b : block) p : Page.t :=
  match b with
  | Scriptlet c => add_handler c p
  | PreScriptlet c => Page.set_preHandler p (Page.preHandler p ++ c)
  | ImplDeclaration c => Page.set_functions p (Page.functions p ++ c)
  | HeaderDeclaration c => Page.set_methods p (Page.methods p ++ c)
  | Hidden _ => p
  | Expression c => add_handler ([Byte.x09] ++ lit "responseStream << (" ++ c ++ lit ");" ++ [Byte.x0a]) p
  | Directive base name value => translate_directive (base ++ lit "." ++ name) value p
  end.

Definition translate (d : document) p : Page.t :=
  foldl (fun p x => translate_markup x.2 (translate_block x.1 p)) (translate_markup d.1 p) d.2.

Lemma markup_token_char (c : byte) : markup_token [c] =
  if beqb c NL then BACKSLASH :: lit "n" ++ MARKUP_END ++ MARKUP_BEGIN
  else if beqb c TAB then BACKSLASH :: lit "t" else if beqb c QUOTE then [BACKSLASH; QUOTE]
  else if beqb c CR then [] else [c].
Proof.
  assert (H : forall d, str_eqb [c] [d] = beqb c d).
  { intros d. unfold str_eqb, beqb. apply bool_decide_ext. split; congruence. }
  unfold markup_token. by rewrite !H.
Qed.

Lemma in_literal_spec (c : byte) : beqb c NL = false -> markup_token [c] = in_literal c.
Proof.
  intros H. rewrite markup_token_char, H. clear H. unfold in_literal. apply str_eqb_true. revert c. apply byte_forall.
  vm_compute. reflexivity.
Qed.

Lemma newline_spec (c : byte) : (b2z c =? 10) = beqb c NL.
Proof. apply eqb_true_iff. revert c. apply byte_forall. vm_compute. reflexivity. Qed.

Lemma send_lines_spec line t :
  send_lines line t = MARKUP_BEGIN ++ flat_map in_literal line ++ escape t ++ MARKUP_END.
Proof.
  revert line. induction t as [|c t IH]; intros line; cbn [send_lines].
  - unfold send_line, in_quotes. by rewrite app_nil_r, <- !app_assoc.
  - rewrite newline_spec. change (escape (c :: t)) with (markup_token [c] ++ escape t).
    destruct (beqb c NL) eqn:E; rewrite IH.
    + rewrite markup_token_char, E. unfold send_line, in_quotes. by rewrite <- !app_assoc.
    + rewrite in_literal_spec, flat_map_app by done. cbn [flat_map]. by rewrite app_nil_r, <- !app_assoc.
Qed.

Lemma add_handler_add a b p : add_handler b (add_handler a p) = add_handler (a ++ b) p.
Proof. unfold add_handler. cbn. by rewrite app_assoc. Qed.

Lemma markup_translated t p : add_handler MARKUP_END (compile_markup t p) = translate_markup t p.
Proof. unfold compile_markup, translate_markup. by rewrite add_handler_add, send_lines_spec, <- app_assoc. Qed.

Lemma block_translated b p : compile_block b p = translate_block b p.
Proof.
  destruct b as [c|c|c|c|c|c|base name value]; try done. cbn [compile_block translate_block].
  unfold directive, translate_directive.
  repeat (match goal with |- (if str_eqb ?a ?b then _ else _) = _ => destruct (str_eqb a b) end;
    [unfold quoted, in_quotes; by rewrite <- ?app_assoc|]).
  destruct p. cbn. by destruct (_ !! _).
Qed.

Lemma document_translated (d : document) p : compile d p = translate d p.
Proof.
  destruct d as [t bs]. unfold compile, translate. cbn [fst snd].
  rewrite <- (markup_translated t p). generalize (compile_markup t p) as q.
  induction bs as [|[b u] bs IH]; intros q; [done|]. cbn [foldl fst snd]. by rewrite IH, markup_translated, block_translated.
Qed.

End Compiled.

Definition demo_page : document :=
  (lit "<p>", [(Directive (lit "page") (lit "class") (lit "Hello"), []);
               (Scriptlet (lit " int n = 2; "), lit "n is ");
               (Expression (lit "n"), lit "</p>")]).

