(* ===== verification/CodeWriter.v ===== *)
(** * CodeWriter

    [page-compiler/code_writer.cpp], [utils.cpp] and [main.cpp]: the C++ files of a compiled
    page, its entries in the generated configuration, and the compiler's run over its
    arguments.

    The names of components and of filters that have been given out are static members; they
    are part of the compiler's state. Written files are collected with their contents. *)

From S2P Require Import Prelude Cxx StringUtils Program PageReader.

Import PageReader.

Module Utils.

(** [basename], [removeExtension], [pathToFile] and [split] are written as those of
    [library/util.cpp]. *)
Definition basename : bytes -> bytes := FileSystemUtils.basename.
Definition pathToFile : bytes -> bytes := FileSystemUtils.pathToFile.
Definition split (str : bytes) (c : byte) : list bytes := StringUtils.split str c [].

Fixpoint replace_loop (n : nat) (str toReplace replaceWith : bytes) : bytes :=
  match n, str with
  | S n, c :: str' =>
      if starts_with toReplace str
      then replaceWith ++ replace_loop n (drop (length toReplace) str) toReplace replaceWith
      else c :: replace_loop n str' toReplace replaceWith
  | _, _ => str
  end.

(** [replaceAll] of a string that is not empty. *)
Definition replaceAll (str toReplace replaceWith : bytes) : bytes := replace_loop (length str) str toReplace replaceWith.

Definition hasExt (s ext : bytes) : bool := ends_with ext s.

(** [createDirectories] over a [mkdir] that gives 0 or [errno], of which 17 is [EEXIST]; unlike
    the library's it takes relative paths, and skips the directories there are. *)
Fixpoint make_dirs (doesDirectoryExist : bytes -> bool) (mkdir : bytes -> Z) (path newFolder : bytes)
    (dirs : list bytes) : result unit :=
  match dirs with
  | [] => Ok tt
  | dir :: dirs' =>
      folder ← (match newFolder, path with
                | [], [] => Throw (OutOfRange (lit "basic_string::at"))
                | [], c :: _ => if beqb c "/"%byte then Ok ("/"%byte :: dir) else Ok dir
                | _, _ => Ok (newFolder ++ "/"%byte :: dir)
                end);
      if doesDirectoryExist folder then make_dirs doesDirectoryExist mkdir path folder dirs'
      else
        let errno := mkdir (c_str folder) in
        if negb (errno =? 0) && negb (errno =? 17) then Throw (SystemError errno)
        else make_dirs doesDirectoryExist mkdir path folder dirs'
  end.

Definition createDirectories (doesDirectoryExist : bytes -> bool) (mkdir : bytes -> Z) (path : bytes) : result unit :=
  make_dirs doesDirectoryExist mkdir path [] (split path "/"%byte).

(** [listFiles]; [readdir] gives the names of a directory that can be opened, in their order. *)
Definition listed (ext name : bytes) : bool :=
  negb (match name with c :: _ => beqb c "."%byte | [] => false end) && hasExt name ext.

Definition listFiles (readdir : bytes -> option (list bytes)) (path ext : bytes) : list bytes :=
  match readdir path with
  | Some names => List.filter (listed ext) names
  | None => []
  end.
End Utils.

Module CodeWriter.

Definition ln (text : bytes) : bytes := text ++ [NL].
Definition q (text : bytes) : bytes := [QUOTE] ++ text ++ [QUOTE].
Definition include_line (file : bytes) : bytes := ln (lit "#include " ++ q file).

Definition DEFAULT_BASE : bytes := lit "fastcgi::Servlet".
Definition DEFAULT_ARG : bytes := lit "std::shared_ptr<fastcgi::ComponentContext> context".

Section Writer.
Context (page : Page.t) (class : bytes).

Definition attribute (name deflt : bytes) : bytes := Page.getAttribute_default page name deflt.

Definition beginNamespace : bytes :=
  match attribute (lit "page.namespace") [] with
  | [] => []
  | ns => concat (map (fun n => ln (lit "namespace " ++ n ++ lit " {")) (Utils.split ns ":"%byte)) ++ [NL; NL]
  end.

Definition endNamespace : bytes :=
  match attribute (lit "page.namespace") [] with
  | [] => []
  | ns => [NL; NL] ++ concat (map (fun _ => lit "} ") (Utils.split ns ":"%byte)) ++ ln (lit "// namespace " ++ ns)
  end.

Definition guard (headerFileName : bytes) : bytes :=
  Utils.replaceAll (Utils.basename headerFileName) (lit ".") (lit "_") ++ lit "_INCLUDED".

Definition beginGuard (headerFileName : bytes) : bytes :=
  ln (lit "#ifndef " ++ guard headerFileName) ++ ln (lit "#define " ++ guard headerFileName) ++ [NL; NL].

Definition endGuard (headerFileName : bytes) : bytes :=
  [NL; NL] ++ ln (lit "#endif // " ++ guard headerFileName).

Definition writeHandlerMembers : bytes :=
  match Page.methods page with
  | [] => []
  | decls => [NL] ++ ln (lit "private:") ++ decls ++ [NL; NL]
  end.

Definition handlerClass (base ctorArg : bytes) : bytes :=
  let exprt := match attribute (lit "page.export") [] with [] => [] | e => e ++ lit " " end in
  ln (lit "class " ++ exprt ++ class ++ lit ": public " ++ base ++ lit " {") ++ ln (lit "public:") ++
  match ctorArg with [] => [] | _ => ln (TAB :: class ++ lit "(" ++ ctorArg ++ lit ");") ++ [NL] end ++
  ln (TAB :: lit "void handleRequest(fastcgi::HttpRequest* request, fastcgi::HttpResponse* response) override;") ++
  writeHandlerMembers ++
  match attribute (lit "page.path") [] with [] => [] | _ => NL :: ln (TAB :: lit "static const std::string PATH;") end ++
  ln (lit "};").

Definition writeHeaderIncludes : bytes :=
  include_line (lit "fastcgi3/component.h") ++ include_line (lit "fastcgi3/http_request.h") ++
  include_line (lit "fastcgi3/http_response.h") ++ include_line (lit "fastcgi3/http_servlet.h").

Definition writeHandlerClass : bytes :=
  handlerClass (attribute (lit "page.baseClass") DEFAULT_BASE) (attribute (lit "page.ctorArg") DEFAULT_ARG).

Definition declarations (decls : bytes) : bytes := match decls with [] => [] | _ => decls ++ [NL; NL] end.

Definition writeHeader (headerFileName : bytes) : bytes :=
  beginGuard headerFileName ++ writeHeaderIncludes ++ [NL; NL] ++
  ln (lit "#undef CPSP_CLASS_NAME") ++ lit "#define CPSP_CLASS_NAME " ++ class ++ [NL; NL] ++
  declarations (Page.headerDecls page) ++
  beginNamespace ++ writeHandlerClass ++ endNamespace ++ endGuard headerFileName.

Definition writeImplIncludes : bytes :=
  ln (lit "#include <iostream>") ++ ln (lit "#include <stdexcept>") ++
  concat (map include_line
    [lit "fastcgi3/logger.h"; lit "fastcgi3/config.h"; lit "fastcgi3/except.h"; lit "fastcgi3/stream.h";
     lit "fastcgi3/handler.h"; lit "fastcgi3/request.h"; lit "fastcgi3/component.h"; lit "fastcgi3/component_factory.h";
     lit "fastcgi3/http_request.h"; lit "fastcgi3/http_response.h"; lit "fastcgi3/http_servlet.h"]).

Definition writeConstructor : bytes :=
  ln (class ++ lit "::" ++ class ++ lit "(" ++ attribute (lit "page.ctorArg") DEFAULT_ARG ++ lit "):") ++
  ln (TAB :: lit " " ++ attribute (lit "page.baseClass") DEFAULT_BASE ++ lit "(context) {") ++ ln (lit "}") ++ [NL; NL].

Definition writeResponse : bytes :=
  ln (TAB :: lit "response->setContentType(" ++ q (attribute (lit "page.contentType") (lit "text/html")) ++ lit ");") ++
  match attribute (lit "page.contentLanguage") [] with
  | [] => []
  | lang =>
      ln (TAB :: lit "if (request->hasHeader(" ++ q (lit "Accept-Language") ++ lit ")) {") ++
      ln (TAB :: TAB :: lit "response->setHeader(" ++ q (lit "Content-Language") ++ lit ", " ++ q lang ++ lit ");") ++
      TAB :: lit "}"
  end ++ [NL].

(** [_removeEmptyString]: statements that send nothing, or only a newline, in any case and with
    the white space character before them. *)
Definition EMPTY_STATEMENT : bytes := lit "responseStream << " ++ q [] ++ lit ";".
Definition NEWLINE_STATEMENT : bytes := lit "responseStream << " ++ q (BACKSLASH :: lit "n") ++ lit ";".

Definition empty_statement (s : bytes) : option nat :=
  if starts_with_ci EMPTY_STATEMENT s then Some (length EMPTY_STATEMENT)
  else if starts_with_ci NEWLINE_STATEMENT s then Some (length NEWLINE_STATEMENT) else None.

Definition match_empty (s : bytes) : option nat :=
  match s with
  | c :: s' => if isspace c then option_map S (empty_statement s') else empty_statement s
  | [] => None
  end.

Fixpoint remove_empty (n : nat) (s : bytes) : bytes :=
  match n, s with
  | S n, c :: s' =>
      match match_empty s with
      | Some k => remove_empty n (drop k s)
      | None => c :: remove_empty n s'
      end
  | _, _ => s
  end.

Definition writeContent : bytes :=
  ln (TAB :: lit "fastcgi::HttpResponseStream responseStream(response);") ++
  remove_empty (length (Page.handler page)) (Page.handler page).

Definition writeHandler : bytes :=
  ln (lit "void") ++
  ln (class ++ lit "::handleRequest(fastcgi::HttpRequest* request, fastcgi::HttpResponse* response) {") ++
  writeResponse ++
  match Page.attributes_ page !! lit "page.precondition" with
  | Some c => TAB :: lit "if (!(" ++ c ++ lit ")) return;" ++ [NL; NL]
  | None => []
  end ++
  Page.preHandler page ++ writeContent ++ ln (lit "}").

Definition writeImpl (headerFileName : bytes) : bytes :=
  include_line headerFileName ++ writeImplIncludes ++ [NL] ++
  declarations (Page.implDecls page) ++ declarations (Page.functions page) ++
  beginNamespace ++
  match attribute (lit "page.path") [] with
  | [] => []
  | path => TAB :: lit "const std::string " ++ class ++ lit "::PATH(" ++ q path ++ lit ");" ++ [NL; NL; NL]
  end ++
  writeConstructor ++ writeHandler ++ endNamespace.

Definition componentName : bytes := attribute (lit "component.name") class.

(** The include of the factory, and the factory. *)
Definition writeFactory (headerFileName : bytes) : bytes * bytes :=
  match componentName with
  | [] => ([], [])
  | name =>
      (include_line headerFileName,
       beginNamespace ++ ln (lit "FCGIDAEMON_ADD_DEFAULT_FACTORY(" ++ q name ++ lit ", " ++ class ++ lit ")") ++ endNamespace)
  end.

Definition componentKey (moduleName : bytes) : bytes := moduleName ++ lit ":" ++ componentName.

Definition component_entry (moduleName loggerName : bytes) : bytes :=
  ln (TAB :: lit "<component name=" ++ q componentName ++ lit " type=" ++ q (componentKey moduleName) ++ lit ">") ++
  match loggerName with [] => [] | l => ln (TAB :: TAB :: lit "<logger>" ++ l ++ lit "</logger>") end ++
  ln (TAB :: lit "</component>").

(** [writeComponentsConfig]; [components] is [_components]. *)
Definition writeComponentsConfig (components : gmap bytes bytes) (moduleName loggerName : bytes)
    : result (gmap bytes bytes * bytes) :=
  match componentName with
  | [] => Ok (components, [])
  | _ =>
      let key := componentKey moduleName in
      match components !! key with
      | None => Ok (<[key := class]> components, component_entry moduleName loggerName)
      | Some other =>
          Throw (StringThrown (lit "duplicate component name " ++ key ++ lit " for class " ++ class ++
            lit "; previously defined for class " ++ other))
      end
  end.

Definition selector (name attr deflt : bytes) : bytes :=
  match Page.attributes_ page !! attr with
  | Some [] => []
  | Some value => name ++ lit "=" ++ q value ++ lit " "
  | None => match deflt with [] => [] | value => name ++ lit "=" ++ q value ++ lit " " end
  end.

Definition filter : bytes :=
  selector (lit "url") (lit "component.url") (lit "/" ++ componentName) ++
  selector (lit "host") (lit "component.host") [] ++
  selector (lit "port") (lit "component.port") [] ++
  selector (lit "address") (lit "component.address") [] ++
  selector (lit "referer") (lit "component.referer") [].

Definition handler_entry (threadPoolName : bytes) : bytes :=
  ln (TAB :: lit "<handler " ++ filter ++ lit " pool=" ++ q threadPoolName ++ lit ">") ++
  ln (TAB :: TAB :: lit "<component name=" ++ q componentName ++ lit "/>") ++
  ln (TAB :: lit "</handler>").

(** [writeHandlersConfig]; [filters] is [_filters]. *)
Definition writeHandlersConfig (filters : gmap bytes bytes) (threadPoolName : bytes) : result (gmap bytes bytes * bytes) :=
  match componentName with
  | [] => Ok (filters, [])
  | _ =>
      match filter with
      | [] => Ok (filters, [])
      | _ =>
          match filters !! filter with
          | None => Ok (<[filter := componentName]> filters, handler_entry threadPoolName)
          | Some other =>
              Throw (StringThrown (lit "duplicate filter " ++ filter ++ lit " for component " ++ componentName ++
                lit "; previously defined for component " ++ other))
          end
      end
  end.
End Writer.
End CodeWriter.

(** ** The compiler *)

Module Compiler.

(** The options. *)
Record Options := MkOptions {
  outputPath : bytes;
  updateMakefile : bool;
  updateFactory : bool;
  updateConfigFiles : bool;
  moduleName : bytes;
  threadPoolName : bytes;
  loggerName : bytes
}.

Definition default_options : Options :=
  MkOptions (lit "./") false false false (lit "server_pages") (lit "work_pool") (lit "daemon-logger").

Record t := MkCompiler {
  factoryIncStream : bytes;
  factoryStream : bytes;
  componentsConfigStream : bytes;
  handlersConfigStream : bytes;
  srcFiles : list bytes;
  classes : gmap bytes bytes;
  components_ : gmap bytes bytes;
  filters_ : gmap bytes bytes;
  files : list (bytes * bytes)
}.

Definition create : t := MkCompiler [] [] [] [] [] ∅ ∅ ∅ [].

Definition set_classes (c : t) v := MkCompiler (factoryIncStream c) (factoryStream c) (componentsConfigStream c)
  (handlersConfigStream c) (srcFiles c) v (components_ c) (filters_ c) (files c).
Definition add_file (name text : bytes) (c : t) := MkCompiler (factoryIncStream c) (factoryStream c)
  (componentsConfigStream c) (handlersConfigStream c) (srcFiles c) (classes c) (components_ c) (filters_ c)
  (files c ++ [(name, text)]).
Definition add_factory (inc fac : bytes) (c : t) := MkCompiler (factoryIncStream c ++ inc) (factoryStream c ++ fac)
  (componentsConfigStream c) (handlersConfigStream c) (srcFiles c) (classes c) (components_ c) (filters_ c) (files c).
Definition add_component (components : gmap bytes bytes) (text : bytes) (c : t) := MkCompiler (factoryIncStream c)
  (factoryStream c) (componentsConfigStream c ++ text) (handlersConfigStream c) (srcFiles c) (classes c) components
  (filters_ c) (files c).
Definition add_handler (filters : gmap bytes bytes) (text : bytes) (c : t) := MkCompiler (factoryIncStream c)
  (factoryStream c) (componentsConfigStream c) (handlersConfigStream c ++ text) (srcFiles c) (classes c)
  (components_ c) filters (files c).
Definition add_source (name : bytes) (c : t) := MkCompiler (factoryIncStream c) (factoryStream c)
  (componentsConfigStream c) (handlersConfigStream c) (srcFiles c ++ [name]) (classes c) (components_ c) (filters_ c)
  (files c).

#[local] Abbreviation M := (prog t).

Section Run.
Context (o : Options) (open_file : bytes -> option bytes) (depth : nat).

(** [parse]: a file that cannot be opened reads as an empty one. *)
Definition parse (path : bytes) : M (Page.t * bytes) := fun c =>
  match PageReader.parse open_file depth [path] (default [] (open_file path)) Page.create with
  | None => None
  | Some (page, Ok _) => Some (c, Ok (page, default [] (Page.attributes_ page !! lit "page.class")))
  | Some (_, Throw e) => Some (c, Throw e)
  | Some (_, Undef) => Some (c, Undef)
  end.

Definition write (page : Page.t) (class : bytes) : M unit :=
  match class with
  | [] => ret tt
  | _ =>
      let implFileName := outputPath o ++ class ++ lit ".cpp" in
      let headerFileName := outputPath o ++ class ++ lit ".h" in
      modify (add_file implFileName (CodeWriter.writeImpl page class (Utils.basename headerFileName))) ;;
      modify (add_file headerFileName (CodeWriter.writeHeader page class headerFileName)) ;;
      let factory := CodeWriter.writeFactory page class (Utils.basename headerFileName) in
      modify (add_factory factory.1 factory.2) ;;
      components ← gets components_;
      x ← lift (CodeWriter.writeComponentsConfig page class components (moduleName o) (loggerName o));
      modify (add_component x.1 x.2) ;;
      filters ← gets filters_;
      y ← lift (CodeWriter.writeHandlersConfig page class filters (threadPoolName o));
      modify (add_handler y.1 y.2) ;;
      modify (add_source implFileName)
  end.

Definition compile (path : bytes) : M unit :=
  x ← parse path;
  match x.2 with
  | [] => ret tt
  | class =>
      cs ← gets classes;
      match cs !! class with
      | Some other =>
          throw (StringThrown (lit "duplicate class name " ++ class ++ lit " defined in file " ++ path ++
            lit "; previously defined in " ++ other))
      | None => modify (fun c => set_classes c (<[class := path]> (classes c))) ;; write x.1 class
      end
  end.

Definition generated : bytes := lit "// Automatically generated file: don't edit" ++ [NL; NL].

Definition writeFactory : M unit :=
  c ← gets (fun c => c);
  modify (add_file (outputPath o ++ lit "cpsp_pages.hpp")
    (generated ++ CodeWriter.ln (lit "#ifndef INCLUDE_AUTO_CPSP_PAGES_HPP_") ++
     CodeWriter.ln (lit "#define INCLUDE_AUTO_CPSP_PAGES_HPP_") ++ factoryIncStream c ++
     CodeWriter.ln (lit "#endif /* INCLUDE_AUTO_CPSP_PAGES_HPP_ */"))) ;;
  modify (add_file (outputPath o ++ lit "cpsp_factory.inc") (generated ++ factoryStream c)).

Definition config_file (element contents : bytes) : bytes :=
  lit "<?xml version=" ++ CodeWriter.q (lit "1.0") ++ lit " ?>" ++ [NL; NL] ++
  lit "<!-- Automatically generated file: don't edit -->" ++ [NL; NL] ++
  CodeWriter.ln (lit "<" ++ element ++ lit ">") ++ contents ++ CodeWriter.ln (lit "</" ++ element ++ lit ">").

Definition writeConfigFiles : M unit :=
  c ← gets (fun c => c);
  modify (add_file (outputPath o ++ lit "components.xml") (config_file (lit "components") (componentsConfigStream c))) ;;
  modify (add_file (outputPath o ++ lit "handlers.xml") (config_file (lit "handlers") (handlersConfigStream c))).

Definition writeMakeFile : M unit :=
  c ← gets (fun c => c);
  modify (add_file (outputPath o ++ lit "Makefile.am")
    (lit "pkglib_LTLIBRARIES = " ++ moduleName o ++ lit ".la" ++ [NL; NL] ++
     CodeWriter.ln (moduleName o ++ lit "_la_LDFLAGS = -module") ++
     CodeWriter.ln (moduleName o ++ lit "_la_SOURCES = " ++ [BACKSLASH]) ++
     concat (map (fun src => CodeWriter.ln (TAB :: src ++ lit " " ++ [BACKSLASH])) (srcFiles c)) ++
     TAB :: lit "factory.cpp" ++ [NL; NL])).

(** [main] on its pages: [EXIT_SUCCESS] or [EXIT_FAILURE]. *)
Definition compile_all (pages : list bytes) : M Z :=
  try_catch
    (for_each pages compile ;;
     (if updateFactory o then writeFactory else ret tt) ;;
     (if updateConfigFiles o then writeConfigFiles else ret tt) ;;
     (if updateMakefile o then writeMakeFile else ret tt) ;;
     ret 0)
    (fun _ => ret 1).
End Run.

(** *** Arguments *)

Section Arguments.
(** The directories and their files. *)
Context (doesDirectoryExist : bytes -> bool) (mkdir : bytes -> Z) (readdir : bytes -> option (list bytes)).

Definition is_yes (value : bytes) : bool :=
  let value := tolower_str value in
  str_eqb (lit "yes") value || str_eqb (lit "true") value || str_eqb (lit "1") value.

Definition set_makefile (o : Options) v := MkOptions (outputPath o) v (updateFactory o) (updateConfigFiles o)
  (moduleName o) (threadPoolName o) (loggerName o).
Definition set_factory (o : Options) v := MkOptions (outputPath o) (updateMakefile o) v (updateConfigFiles o)
  (moduleName o) (threadPoolName o) (loggerName o).
Definition set_config (o : Options) v := MkOptions (outputPath o) (updateMakefile o) (updateFactory o) v
  (moduleName o) (threadPoolName o) (loggerName o).

(** The option [-v] only prints. *)
Definition flag (o : Options) (name : bytes) (value : bool) : Options :=
  if str_eqb (lit "updatemakefile") name || str_eqb (lit "makefile") name then set_makefile o value
  else if str_eqb (lit "updatefactory") name || str_eqb (lit "factory") name then set_factory o value
  else if str_eqb (lit "updateconfig") name || str_eqb (lit "config") name then set_config o value
  else o.

Definition option (o : Options) (name value : bytes) : result Options :=
  if str_eqb (lit "outputpath") name then
    _ ← Utils.createDirectories doesDirectoryExist mkdir value;
    match last value with
    | Some c => Ok (MkOptions (if beqb c "/"%byte then value else value ++ lit "/") (updateMakefile o)
                      (updateFactory o) (updateConfigFiles o) (moduleName o) (threadPoolName o) (loggerName o))
    | None => Undef
    end
  else if str_eqb (lit "modulename") name then
    Ok (MkOptions (outputPath o) (updateMakefile o) (updateFactory o) (updateConfigFiles o) value (threadPoolName o) (loggerName o))
  else if str_eqb (lit "threadpoolname") name then
    Ok (MkOptions (outputPath o) (updateMakefile o) (updateFactory o) (updateConfigFiles o) (moduleName o) value (loggerName o))
  else if str_eqb (lit "loggername") name then
    Ok (MkOptions (outputPath o) (updateMakefile o) (updateFactory o) (updateConfigFiles o) (moduleName o) (threadPoolName o) value)
  else Ok (flag o name (is_yes value)).

(** A path, or the files a template names. *)
Definition expand (s : bytes) : result (list bytes) :=
  if mem "*"%byte s then
    match Utils.split s "*"%byte with
    | path :: rest =>
        let path := match path with [] => lit "./" | _ => take (length path - 1) path end in
        match rest with
        | ext :: _ => Ok (map (fun f => path ++ f) (Utils.listFiles readdir path ext))
        | [] => Undef
        end
    | [] => Undef
    end
  else Ok [s].

Definition argument (x : Options * list bytes) (s : bytes) : result (Options * list bytes) :=
  match s with
  | [] => Throw (OutOfRange (lit "basic_string::at"))
  | c :: s' =>
      if negb (beqb c "-"%byte) then pages ← expand s; Ok (x.1, x.2 ++ pages)
      else if mem "="%byte s then
        match Utils.split s "="%byte with
        | [name; value] => o ← option x.1 (tolower_str (drop 1 name)) value; Ok (o, x.2)
        | _ => Ok x
        end
      else Ok (flag x.1 s' true, x.2)
  end.

Fixpoint arguments (x : Options * list bytes) (args : list bytes) : result (Options * list bytes) :=
  match args with
  | [] => Ok x
  | s :: args' => x ← argument x s; arguments x args'
  end.

(** [main]: the exit status. Without a page it prints its help. *)
Definition main (open_file : bytes -> Datatypes.option bytes) (depth : nat) (args : list bytes) : M Z :=
  x ← lift (arguments (default_options, []) args);
  match x.2 with
  | [] => ret 0
  | pages => compile_all x.1 open_file depth pages
  end.
End Arguments.
End Compiler.

(** The files that a template names are looked for without the slash before the star, and a
    template without a directory reads past the end of a vector. *)
Lemma wildcard_paths readdir :
  readdir (lit "pages") = Some [lit "."; lit ".."; lit "a.cpsp"; lit "b.txt"] ->
  Compiler.expand readdir (lit "pages/*.cpsp") = Ok [lit "pagesa.cpsp"] /\
  Compiler.expand readdir (lit "*.cpsp") = Undef.
Proof.
  intros H. split; [|reflexivity]. unfold Compiler.expand.
  change (mem "*"%byte (lit "pages/*.cpsp")) with true.
  change (Utils.split (lit "pages/*.cpsp") "*"%byte) with [lit "pages/"; lit ".cpsp"]. cbn iota.
  change (match lit "pages/" with [] => lit "./" | _ => take (length (lit "pages/") - 1) (lit "pages/") end) with (lit "pages").
  unfold Utils.listFiles. by rewrite H.
Qed.

(** ** What a page sends

    The statements that the markup of a page is compiled to, read back as the C++ they are. *)

Section Sends.
Import CodeWriter.
Implicit Types (s t rest : bytes) (c : byte).

(** The value of a string literal, up to its closing quote, and what follows it; only the escape
    sequences that the compiler writes. *)
Fixpoint literal s : option (bytes * bytes) :=
  match s with
  | [] => None
  | c :: s' =>
      if beqb c QUOTE then Some ([], s')
      else if beqb c BACKSLASH then
        match s' with
        | d :: s'' =>
            e ← (if beqb d "n"%byte then Some NL else if beqb d "t"%byte then Some TAB
                 else if beqb d QUOTE then Some QUOTE else if beqb d BACKSLASH then Some BACKSLASH else None);
            '(v, r) ← literal s''; Some (e :: v, r)
        | [] => None
        end
      else if beqb c NL then None
      else '(v, r) ← literal s'; Some (c :: v, r)
  end.

(** What a sequence of statements sends, [None] if there is something else among them. *)
Fixpoint sends (n : nat) s : option bytes :=
  match n, s with
  | _, [] => Some []
  | O, _ => None
  | S n, c :: s' =>
      if beqb c NL then sends n s'
      else if starts_with MARKUP_BEGIN s then
        '(v, r) ← literal (drop (length MARKUP_BEGIN) s);
        if starts_with (lit ";" ++ [NL]) r then w ← sends n (drop 2 r); Some (v ++ w) else None
      else None
  end.

(** The lines of a text, each with its newline, and what follows the last newline. *)
Fixpoint pieces t : list bytes :=
  match t with
  | [] => [[]]
  | c :: t' =>
      if beqb c NL then [NL] :: pieces t'
      else match pieces t' with p :: ps => (c :: p) :: ps | [] => [[c]] end
  end.

Definition kept (x : bytes) : bool := match x with [] => false | [c] => negb (beqb c NL) | _ => true end.

Definition without_blank_lines t : bytes := concat (List.filter kept (pieces t)).

Lemma pieces_not_nil t : pieces t <> [].
Proof. destruct t as [|c t]; cbn; [done|]. destruct (beqb c NL); [done|]. by destruct (pieces t). Qed.

Lemma concat_pieces t : concat (pieces t) = t.
Proof.
  induction t as [|c t IH]; [done|]. cbn. pose proof (pieces_not_nil t). destruct (beqb c NL) eqn:E.
  - apply beqb_true in E as ->. cbn. by rewrite IH.
  - destruct (pieces t); [done|]. cbn in *. by rewrite IH.
Qed.

(** A text without blank lines is sent as it is. *)
Lemma without_blank_lines_id t : Forall (fun x => x <> [NL]) (pieces t) -> without_blank_lines t = t.
Proof.
  intros H. rewrite <- (concat_pieces t) at 2. unfold without_blank_lines.
  induction H as [|x ps Hx _ IH]; [done|]. cbn [List.filter concat]. destruct (kept x) eqn:E; [cbn; by rewrite IH|].
  rewrite IH. destruct x as [|c [|d x]]; try done.
  cbn in E. destruct (beqb c NL) eqn:En; [|done]. by apply beqb_true in En as ->.
Qed.

(** The characters that [markup_token] treats well. *)
Definition plain_char c : bool := negb (beqb c BACKSLASH) && negb (beqb c CR).
Definition lit_char c : bytes := if beqb c NL then BACKSLASH :: lit "n" else markup_token [c].
Definition literals (x : bytes) : bytes := flat_map lit_char x.
Definition statement (x : bytes) : bytes := MARKUP_BEGIN ++ literals x ++ MARKUP_END.

Lemma handler_statements t :
  MARKUP_BEGIN ++ escape t ++ MARKUP_END = concat (map statement (pieces t)).
Proof.
  induction t as [|c t IH]; [done|]. change (escape (c :: t)) with (markup_token [c] ++ escape t).
  cbn [pieces]. destruct (beqb c NL) eqn:E.
  - rewrite markup_token_char, E. cbn [map concat]. rewrite <- IH. unfold statement, literals, lit_char.
    cbn [flat_map]. change (beqb NL NL) with true. cbn iota. by rewrite <- !app_assoc.
  - pose proof (pieces_not_nil t). destruct (pieces t) as [|x ps]; [done|]. cbn [map concat] in IH |- *.
    unfold statement in IH |- *. rewrite <- app_assoc in IH. apply app_inv_head in IH.
    change (literals (c :: x)) with (lit_char c ++ literals x). rewrite <- !app_assoc. f_equal.
    unfold lit_char. rewrite E. f_equal. rewrite IH. by rewrite <- app_assoc.
Qed.

(** A piece: plain characters, a newline at most at its end. *)
Fixpoint piece_ok (x : bytes) : bool :=
  match x with
  | [] => true
  | c :: x' => plain_char c && (if beqb c NL then match x' with [] => true | _ => false end else piece_ok x')
  end.

Lemma pieces_ok t : forallb plain_char t = true -> forallb piece_ok (pieces t) = true.
Proof.
  induction t as [|c t IH]; [done|]. cbn [forallb pieces]. intros [Hc Ht]%andb_true_iff. specialize (IH Ht).
  destruct (beqb c NL) eqn:E; cbn [forallb].
  - rewrite IH. by rewrite andb_true_r.
  - pose proof (pieces_not_nil t). destruct (pieces t) as [|x ps]; [done|]. cbn [forallb piece_ok] in *.
    by rewrite Hc, E.
Qed.

(** A literal is read back. *)
Lemma literal_read x rest : piece_ok x = true -> literal (literals x ++ QUOTE :: rest) = Some (x, rest).
Proof.
  induction x as [|c x IH]; [done|]. cbn [piece_ok]. intros [Hc Hx]%andb_true_iff.
  change (literals (c :: x)) with (lit_char c ++ literals x). rewrite <- app_assoc. unfold lit_char.
  destruct (beqb c NL) eqn:En.
  { apply beqb_true in En as ->. by destruct x. }
  specialize (IH Hx). rewrite markup_token_char, En.
  apply andb_true_iff in Hc as [Hb%negb_true_iff Hr%negb_true_iff].
  destruct (beqb c TAB) eqn:Et; [|destruct (beqb c QUOTE) eqn:Eq].
  - apply beqb_true in Et as ->. change (literal ((BACKSLASH :: lit "t") ++ ?l)) with ('(v, r) ← literal l; Some (TAB :: v, r)).
    by rewrite IH.
  - apply beqb_true in Eq as ->. cbn [app].
    change (literal (BACKSLASH :: QUOTE :: ?l)) with ('(v, r) ← literal l; Some (QUOTE :: v, r)). by rewrite IH.
  - rewrite Hr. cbn [app literal]. rewrite Eq, Hb, En, IH. done.
Qed.

(** *** Removing the empty statements *)

Definition SPACE : byte := " "%byte.

(** No place where a match could read its first quote: a space and a quote, and then another
    quote or an escaped newline and a quote. *)
Definition opens_empty s : bool :=
  match s with
  | a :: b :: s =>
      beqb a SPACE && beqb b QUOTE &&
      match s with
      | c :: s => beqb c QUOTE || (beqb c BACKSLASH && match s with d :: e :: _ => beqb (tolower d) "n"%byte && beqb e QUOTE | _ => false end)
      | [] => false
      end
  | _ => false
  end.

Fixpoint clean s : bool :=
  match s with
  | [] => true
  | a :: s' => negb (opens_empty s) && clean s'
  end.

Lemma clean_drop j s : clean s = true -> clean (drop j s) = true.
Proof.
  revert s. induction j as [|j IH]; intros [|a s]; try done. intros H. apply IH. cbn [clean] in H. by apply andb_true_iff in H as [_ ?].
Qed.

Lemma clean_at j s : clean s = true -> opens_empty (drop j s) = false.
Proof.
  intros H%(clean_drop j). destruct (drop j s); [done|]. cbn [clean] in H.
  by apply andb_true_iff in H as [?%negb_true_iff _].
Qed.

Lemma ci_lookup p s j a : starts_with_ci p s = true -> p !! j = Some a -> exists b, s !! j = Some b /\ tolower a = tolower b.
Proof.
  revert p s. induction j as [|j IH]; intros [|x p] [|y s]; cbn; try done; intros [H1 H2]%andb_true_iff.
  - intros [= ->]. exists y. split; [done|]. by apply beqb_true.
  - by apply IH.
Qed.

Lemma tolower_space c : tolower c = SPACE -> c = SPACE. Proof. by destruct c. Qed.
Lemma tolower_quote c : tolower c = QUOTE -> c = QUOTE. Proof. by destruct c. Qed.
Lemma tolower_backslash c : tolower c = BACKSLASH -> c = BACKSLASH. Proof. by destruct c. Qed.
Lemma tolower_nl c : tolower c = NL -> c = NL. Proof. by destruct c. Qed.

Lemma empty_statement_starts s k :
  empty_statement s = Some k -> starts_with_ci EMPTY_STATEMENT s = true \/ starts_with_ci NEWLINE_STATEMENT s = true.
Proof.
  unfold empty_statement. destruct (starts_with_ci EMPTY_STATEMENT s); [by left|].
  destruct (starts_with_ci NEWLINE_STATEMENT s); [by right|done].
Qed.

(** A match does not reach over a newline. *)
Lemma match_within p z rest j a b :
  starts_with_ci p (z ++ NL :: rest) = true -> forallb (fun c => negb (beqb (tolower c) NL)) p = true ->
  p !! j = Some a -> (z ++ NL :: rest) !! j = Some b -> z !! j = Some b.
Proof.
  intros Hs Hp Ha Hb. destruct (decide (j < length z)%nat) as [Hj|Hj].
  - by rewrite lookup_app_l in Hb by done.
  - assert (exists x, p !! length z = Some x) as [x Hx].
    { apply lookup_lt_is_Some. apply lookup_lt_Some in Ha. lia. }
    destruct (ci_lookup _ _ _ _ Hs Hx) as (y & Hy & Et). rewrite lookup_app_r, Nat.sub_diag in Hy by lia.
    injection Hy as <-. rewrite forallb_forall in Hp. specialize (Hp x).
    rewrite Et in Hp. cbn in Hp. discriminate Hp. apply list_elem_of_In. by eapply list_elem_of_lookup_2.
Qed.

Lemma match_char p z rest j a :
  starts_with_ci p (z ++ NL :: rest) = true -> forallb (fun c => negb (beqb (tolower c) NL)) p = true ->
  p !! j = Some a -> exists b, drop j z = b :: drop (S j) z /\ tolower b = tolower a.
Proof.
  intros Hs Hp Ha. destruct (ci_lookup _ _ _ _ Hs Ha) as (b & Hb & E).
  exists b. split; [|done]. apply drop_S. by eapply match_within.
Qed.

Lemma no_match z rest : clean z = true -> empty_statement (z ++ NL :: rest) = None.
Proof.
  intros Hz. destruct (empty_statement _) as [k|] eqn:E; [exfalso|done]. pose proof (clean_at 17 z Hz) as Hc.
  apply empty_statement_starts in E as [E|E];
    destruct (match_char _ z rest 17 SPACE E) as (b1 & E1 & ->%tolower_space); try reflexivity;
    destruct (match_char _ z rest 18 QUOTE E) as (b2 & E2 & ->%tolower_quote); try reflexivity.
  - destruct (match_char _ z rest 19 QUOTE E) as (b3 & E3 & ->%tolower_quote); try reflexivity.
    by rewrite E1, E2, E3 in Hc.
  - destruct (match_char _ z rest 19 BACKSLASH E) as (b3 & E3 & ->%tolower_backslash); try reflexivity.
    destruct (match_char _ z rest 20 "n"%byte E) as (b4 & E4 & Hn); try reflexivity.
    destruct (match_char _ z rest 21 QUOTE E) as (b5 & E5 & ->%tolower_quote); try reflexivity.
    rewrite E1, E2, E3, E4, E5 in Hc. cbn in Hc. rewrite Hn in Hc. done.
Qed.

Lemma match_empty_none z rest : clean z = true -> z <> [] -> match_empty (z ++ NL :: rest) = None.
Proof.
  destruct z as [|c z]; [done|]. intros Hz _. cbn [app match_empty].
  destruct (isspace c); [|by apply (no_match (c :: z))].
  rewrite no_match; [done|]. cbn [clean] in Hz. by apply andb_true_iff in Hz as [_ ?].
Qed.

(** Up to a newline nothing is removed. *)
Lemma remove_clean z rest n :
  clean z = true -> (length (z ++ NL :: rest) <= n)%nat ->
  exists m, (length (NL :: rest) <= m)%nat /\ remove_empty n (z ++ NL :: rest) = z ++ remove_empty m (NL :: rest).
Proof.
  revert n. induction z as [|c z IH]; intros n Hz Hn; [by exists n|].
  destruct n as [|n]; [cbn in Hn; lia|].
  pose proof (match_empty_none (c :: z) rest Hz ltac:(done)) as Hm. cbn [app remove_empty] in Hm |- *. rewrite Hm.
  cbn [clean] in Hz. apply andb_true_iff in Hz as [_ Hz].
  destruct (IH n Hz) as (m & Hm' & ->); [cbn in Hn |- *; lia|]. by exists m.
Qed.

(** What follows a newline: nothing, or another statement. *)
Definition next_statement rest : Prop := rest = [] \/ exists r, rest = TAB :: r.

Lemma remove_newline rest n :
  next_statement rest -> (length (NL :: rest) <= n)%nat ->
  exists m, (length rest <= m)%nat /\ remove_empty n (NL :: rest) = NL :: remove_empty m rest.
Proof.
  intros Hr Hn. destruct n as [|n]; [cbn in Hn; lia|]. exists n. split; [cbn in Hn; lia|].
  by destruct Hr as [->|[r ->]].
Qed.

(** A literal between its quotes, before a semicolon. *)
#[local] Abbreviation closed x := (literals x ++ [QUOTE; ";"%byte]).

Lemma lit_char_cases c : plain_char c = true ->
  (exists d, lit_char c = [BACKSLASH; d] /\ (d = "n"%byte /\ c = NL \/ d = "t"%byte \/ d = QUOTE)) \/
  (lit_char c = [c] /\ beqb c QUOTE = false /\ beqb c BACKSLASH = false).
Proof.
  unfold plain_char, lit_char. intros [Hb%negb_true_iff Hr%negb_true_iff]%andb_true_iff.
  rewrite markup_token_char. destruct (beqb c NL) eqn:En.
  { left. apply beqb_true in En. by exists "n"%byte; auto. }
  destruct (beqb c TAB); [left; by exists "t"%byte; auto|].
  destruct (beqb c QUOTE) eqn:Eq; [left; by exists QUOTE; auto|]. rewrite Hr. by right.
Qed.

Lemma piece_head c x : piece_ok (c :: x) = true -> plain_char c = true /\ piece_ok x = true.
Proof.
  cbn [piece_ok]. intros [Hc Hx]%andb_true_iff. split; [done|]. destruct (beqb c NL); [|done]. by destruct x.
Qed.

Lemma opens_closed a x : piece_ok x = true -> opens_empty (a :: closed x) = false.
Proof.
  destruct x as [|c x]; intros Hx.
  - cbn. by destruct (beqb a SPACE).
  - apply piece_head in Hx as [Hc _]. change (literals (c :: x)) with (lit_char c ++ literals x).
    destruct (lit_char_cases c Hc) as [(d & -> & _)|(-> & Hq & _)]; cbn; [|rewrite Hq]; by destruct (beqb a SPACE).
Qed.

Lemma clean_closed x : piece_ok x = true -> clean (closed x) = true.
Proof.
  induction x as [|c x IH]; intros Hx; [done|]. pose proof (piece_head c x Hx) as [Hc Hx']. specialize (IH Hx').
  change (literals (c :: x)) with (lit_char c ++ literals x). rewrite <- app_assoc.
  destruct (lit_char_cases c Hc) as [(d & -> & Hd)|(-> & _)]; cbn [app clean].
  - rewrite IH, opens_closed by done. by destruct Hd as [[-> _]|[-> | ->]].
  - by rewrite IH, opens_closed.
Qed.

Lemma clean_statement x : piece_ok x = true -> kept x = true -> clean (MARKUP_BEGIN ++ closed x) = true.
Proof.
  intros Hx Hk. set (z := closed x). assert (Hz : clean z = true) by by apply clean_closed.
  assert (Ho : opens_empty (SPACE :: QUOTE :: z) = false).
  { unfold z. destruct x as [|c x]; [done|]. pose proof (piece_head c x Hx) as [Hc Hx'].
    change (literals (c :: x)) with (lit_char c ++ literals x).
    destruct (lit_char_cases c Hc) as [(d & -> & [[-> ->]|[-> | ->]])|(-> & Hq & Hb)].
    - destruct x as [|e x]; [done|]. cbn in Hx. done.
    - cbn. by destruct (literals x).
    - cbn. by destruct (literals x).
    - cbn. by rewrite Hq, Hb. }
  change (clean (MARKUP_BEGIN ++ z)) with (negb (opens_empty (SPACE :: QUOTE :: z)) && clean (QUOTE :: z)).
  rewrite Ho. cbn [clean negb andb]. rewrite Hz. unfold z. by rewrite opens_closed.
Qed.

(** One statement: it stays, or only its newline stays. *)
Definition shown (x : bytes) : bytes := if kept x then statement x else [NL].

Lemma remove_statement x rest n :
  piece_ok x = true -> next_statement rest -> (length (statement x ++ rest) <= n)%nat ->
  exists m, (length rest <= m)%nat /\ remove_empty n (statement x ++ rest) = shown x ++ remove_empty m rest.
Proof.
  intros Hx Hr Hn. unfold shown. destruct (kept x) eqn:Hk.
  - assert (E : statement x ++ rest = (MARKUP_BEGIN ++ closed x) ++ NL :: rest).
    { unfold statement, MARKUP_END. rewrite <- !app_assoc. done. }
    rewrite E in Hn |- *. destruct (remove_clean _ rest n (clean_statement x Hx Hk) Hn) as (m & Hm & ->).
    destruct (remove_newline rest m Hr Hm) as (k & Hk' & ->). exists k. split; [done|].
    unfold statement, MARKUP_END. rewrite <- !app_assoc. done.
  - assert (E : x = [] \/ x = [NL]).
    { destruct x as [|c [|d x]]; [by left|right|done]. cbn in Hk. apply negb_false_iff, beqb_true in Hk as ->. done. }
    destruct n as [|n]; [destruct E as [->| ->]; cbn in Hn; lia|].
    assert (Hs : remove_empty (S n) (statement x ++ rest) = remove_empty n (NL :: rest)) by (by destruct E as [->| ->]).
    rewrite Hs. apply remove_newline; [done|]. unfold statement in Hn. rewrite !length_app in Hn. cbn in Hn |- *. lia.
Qed.

Lemma next_statements ps : next_statement (concat (map statement ps)).
Proof. destruct ps as [|x ps]; [by left|]. right. eexists. reflexivity. Qed.

Lemma remove_statements ps n :
  forallb piece_ok ps = true -> (length (concat (map statement ps)) <= n)%nat ->
  remove_empty n (concat (map statement ps)) = concat (map shown ps).
Proof.
  revert n. induction ps as [|x ps IH]; intros n H Hn; [by destruct n|].
  cbn [forallb] in H. apply andb_true_iff in H as [Hx Hps]. cbn [map concat] in Hn |- *.
  destruct (remove_statement x _ n Hx (next_statements ps) Hn) as (m & Hm & ->). by rewrite IH.
Qed.

(** What is left sends the pieces that are kept. *)
Lemma sends_shown x rest n :
  piece_ok x = true -> (length (shown x ++ rest) <= n)%nat ->
  exists m, (length rest <= m)%nat /\
    sends n (shown x ++ rest) = w ← sends m rest; Some ((if kept x then x else []) ++ w).
Proof.
  intros Hx Hn. unfold shown in *. destruct (kept x).
  - destruct n as [|n]; [cbn in Hn; lia|]. exists n. split; [unfold statement in Hn; rewrite !length_app in Hn; cbn in Hn; lia|].
    assert (E : sends (S n) (statement x ++ rest) =
      '(v, r) ← literal (literals x ++ QUOTE :: lit ";" ++ NL :: rest);
      if starts_with (lit ";" ++ [NL]) r then w ← sends n (drop 2 r); Some (v ++ w) else None).
    { unfold statement, MARKUP_END. rewrite <- !app_assoc. reflexivity. }
    rewrite E, literal_read by done. reflexivity.
  - destruct n as [|n]; [cbn in Hn; lia|]. exists n. split; [cbn in Hn; lia|].
    change (sends (S n) ([NL] ++ rest)) with (sends n rest). by destruct (sends n rest).
Qed.

Lemma sends_statements ps n :
  forallb piece_ok ps = true -> (length (concat (map shown ps)) <= n)%nat ->
  sends n (concat (map shown ps)) = Some (concat (List.filter kept ps)).
Proof.
  revert n. induction ps as [|x ps IH]; intros n H Hn; [by destruct n|].
  cbn [forallb] in H. apply andb_true_iff in H as [Hx Hps]. cbn [map concat] in Hn |- *.
  destruct (sends_shown x _ n Hx Hn) as (m & Hm & ->). rewrite IH by done. cbn. by destruct (kept x).
Qed.

(** C35: A page of markup alone, without tags, backslashes and carriage returns, is compiled to
    statements that send its text, except for its blank lines: what the statements of the
    generated handler send, read as C++, are the lines of the page that hold something. A text
    without blank lines is sent as it is, quotes and tabs included. *)
Theorem page_text (readers : list bytes) (include : bytes -> prog Page.t unit) t :
  no_tags t = true -> forallb plain_char t = true ->
  exists p code,
    parse_stream readers include t Page.create = Some (p, Ok tt) /\
    writeContent p = ln (TAB :: lit "fastcgi::HttpResponseStream responseStream(response);") ++ code /\
    sends (length code) code = Some (without_blank_lines t) /\
    (Forall (fun x => x <> [NL]) (pieces t) -> without_blank_lines t = t).
Proof.
  intros Ht Hp. pose proof (compile_document readers include (t, [])) as Hc.
  cbn [fst snd render render_blocks] in Hc. rewrite app_nil_r in Hc.
  exists (compile (t, []) Page.create). eexists. split_and!.
  - apply Hc. unfold document_ok. cbn [fst snd forallb]. by rewrite Ht.
  - reflexivity.
  - change (Page.handler (compile (t, []) Page.create)) with ((MARKUP_BEGIN ++ escape t) ++ MARKUP_END).
    rewrite <- app_assoc, handler_statements. pose proof (pieces_ok t Hp) as Hps.
    rewrite remove_statements by done. by apply sends_statements.
  - apply without_blank_lines_id.
Qed.
End Sends.

(** A page of four lines, the third of them blank. *)
Definition demo_text : bytes :=
  lit "<a href=" ++ [QUOTE] ++ lit "/" ++ [QUOTE] ++ lit ">" ++ [NL; TAB] ++ lit "go" ++ [NL; NL] ++ lit "</a>" ++ [NL].

Lemma page_text_witness :
  no_tags demo_text = true /\ forallb plain_char demo_text = true /\
  exists p code,
    PageReader.parse_stream [] (fun _ => mret tt) demo_text Page.create = Some (p, Ok tt) /\
    CodeWriter.writeContent p = CodeWriter.ln (TAB :: lit "fastcgi::HttpResponseStream responseStream(response);") ++ code /\
    sends (length code) code =
      Some (lit "<a href=" ++ [QUOTE] ++ lit "/" ++ [QUOTE] ++ lit ">" ++ [NL; TAB] ++ lit "go" ++ [NL] ++ lit "</a>" ++ [NL]).
Proof.
  split; [reflexivity|]. split; [reflexivity|].
  destruct (page_text [] (fun _ => mret tt) demo_text) as (p & code & H1 & H2 & H3 & _); [reflexivity|reflexivity|].
  exists p, code. split; [exact H1|]. split; [exact H2|]. exact H3.
Defined.
